(* ===== verification/_CoqProject ===== *)
-Q . S2P
Prelude.v
PyFloat.v
Rounding.v
PyStr.v
PyNum.v
PyRepr.v
FloatText.v
PyFormat.v
Argparse.v
Json.v
JsonRead.v
PyM.v
Render.v
JsVerify.v
OpenRetry.v
Pool.v
Workers.v
System.v
Observe.v
Histories.v
Timed.v
Atomic.v
Steady.v
SustainedBench.v
FilteredBench.v
MultiQueueBench.v
Fleets.v
Progress.v
Samples.v
ParallelBench.v
Mains.v
Report.v
Output.v
JsBench.v
BmqBench.v
Harness.v
Throughput.v
Jetstream.v
Scaling.v
Profile.v
Runs.v
Asyncio.v
Selectivity.v
QueueGroup.v
ClientRecords.v
Cli.v
Effects.v
Backend.v
PublishRow.v
Consume.v
Subscriber.v
Statements.v
Ostream.v
Driver.v
Pipeline.v
