(* ===== verification/Prelude.v ===== *)
(** * pg_blazingmq and its benchmark programs, modelled and verified

    The repository is a PostgreSQL extension (pg_blazingmq.cpp), a C++ tool
    (bench/mq_bench_driver.cpp) and, under bench/, the Python programs that
    measure the extension and its neighbours: load generators with pools of
    worker processes, scripts that supervise nats-server and nats_sidecar
    processes around a measured run, and NATS client programs.  This
    development models all of them.  Of the extension it proves what its
    callers rely on: which messages are posted, received and confirmed, and
    that the cache of queue handles agrees with the broker.  Of the programs
    around it, what makes their numbers trustworthy: that no count is lost,
    that a number is averaged only if its run was verified, that a parser reads
    back what was printed, that nothing is left running.

    ** How the programs are modelled

    A Python function is a tree of external commands ([PyM.prog]): every call
    that leaves the interpreter (SQL, clock, lock, queue, subprocess, file,
    socket, output) is a node whose continuation takes the reply.  The replies
    are not constrained, so a theorem about [PyM.exec p t r] (against some
    world, [p] performs the calls [t] and ends with [r]) holds for every
    behaviour of the database, the broker, the clock and the other processes.
    Exceptions are values ([PyM.result]); [try/finally] with early returns is
    [PyM.try_finally] over statements that end in one of three ways
    ([PyM.ctl]).  Floats are binary64 ([PyFloat], on the Standard Library's
    SpecFloat), strings are 8-bit ([PyStr]), the shared counters are C longs
    ([Prelude.wrap64]).  Output is kept as the pieces of its f-strings, and
    [Render] gives the text they come to.  A program that starts processes is
    a second kind of tree ([System.mainp]), whose nodes also start, join and
    read the results of its children while these run.

    The C++ programs are trees of calls too ([Effects.comp]), over a signature
    of their own: the extension's calls into the BlazingMQ library and
    PostgreSQL ([Backend.PG]), the driver's into nats_asio ([Driver.NATS]).
    The extension's functions thread the process's state (session, queue
    handles) and end in one of three ways ([Backend.outcome]): a value, a C++
    exception, which unwinds to a handler, or ereport(ERROR), which jumps over
    it.  [Effects.takes m t r] is what [exec] is for Python: [m] can make the
    calls of the log [t] and end with [r].

    ** Files and the code they model

    - Prelude: 64-bit wrap-around, indexed updates, sums.  PyFloat, PyStr,
      PyNum, PyRepr, PyFormat, Json, PyM: the Python language and library the
      scripts use (float arithmetic, str methods, int() and float(), repr and
      string order, format specifications and round(), json.loads and
      json.dumps, the command tree, traces).  Rounding, FloatText and JsonRead
      are their theory: the rounding of a quotient of integers,
      float(repr(x)) == x for every double, and what json.loads returns.
      Render: the text of a printed line and of a JSON record.
    - Argparse: ArgumentParser.parse_args for the parsers the scripts build;
      Cli: the nine argument tables and the record each main takes.
    - OpenRetry: execute_with_open_retry (sustained_bench.py, and the same
      text in filtered_bench.py and multi_queue_bench.py).
    - Pool: multiprocessing.  The shared objects as a state, every process's
      remaining program, and [Pool.steps], the interleavings; [Pool.safe] and
      [Pool.pool_inv], a ledger-based invariant over all of them.
    - Workers: with lock: counter.value += n; barrier.wait(); the class
      [Workers.Bench], what a worker promises (its result message, its share
      of each counter, no timed statement before the barrier) and what the
      pool guarantees in return.
    - System: main and its children together: their joint step relation, the
      weakest precondition of a main program over every interleaving, and
      when it cannot be stuck.
    - Observe: what a trace shows (rows fetched, statements that succeeded,
      clock readings), proof rules for one process, replaying a trace.
      Histories: the log of an interleaving ([Histories.logged], who made which
      call, with what reply) and what one worker's part of it must look like.
    - Timed: the timed producer, consumer and monitor loops, and the instance
      of [Bench] for fleets made of them.  Steady: the steady-state window.
    - SustainedBench, FilteredBench, MultiQueueBench, ParallelBench: one
      program each (sustained_bench.py, ...): its arguments, SQL texts,
      workers, main, the totals and the report.  Mains: the four programs as
      wholes.  Output: the text they write.
    - Atomic: the abstract pool, whose counters are atomic and that has no
      locks, and the simulation; Fleets: the three fleets refine it.
      Progress: they do not deadlock.  Samples: the shape of what the
      monitors append.
    - JsVerify and JsBench (js_bench.py): the content check, and the rest of
      the program around it.  BmqBench (bmq_bench.py).
    - Report: reading the subscriber's last line and a sidecar's log; the
      verdict.  Harness: start, stop, run_ctrl and the try/finally of a run,
      with the rules for what a run leaves behind.
    - Throughput: Module Clean (nats_sidecar_throughput_clean.py) and Module
      Isolation (nats_sidecar_jetstream_storage_isolation.py).
    - Jetstream: Module Consumer (nats_sidecar_jetstream_consumer.py) and
      Module N1 (nats_sidecar_n1_jetstream_repro.py).
    - Scaling: Modules RealData, Bcast, Cpp, Ext (nats_sidecar_scaling_*.py).
    - Profile: Modules PerfProfile (nats_sidecar_perf_profile.py), Mutex
      (nats_sidecar_mutex_contention_profile.py) and MeasureCtrl
      (measure_ctrl_plane_only.py).  Runs: all supervised runs together.
    - Asyncio: awaits and callbacks, what a callback has seen of the messages
      and at which clock readings.  Selectivity (nats_selectivity.py) and
      QueueGroup (nats_queue_group.py): the NATS clients.  ClientRecords:
      the JSON lines they print, read back.

    - Effects: calls, logs and the weakest precondition of a program over
      them.  Backend (pg_blazingmq.cpp): failing, get_session, get_queue and
      the exit hook, with the proof rules [leads] and [within] and the
      invariant [tracked].  PublishRow: bmq_publish_row.  Consume:
      bmq_consume.  Subscriber: bmq_subscribe, bmq_unsubscribe and the worker
      bmq_subscriber_main, whose transactions follow the automaton
      [Subscriber.stage_step].  Statements: one backend's statements in turn.
    - Ostream: operator<< on doubles and atol.  Driver
      (bench/mq_bench_driver.cpp): pub, sub, subfield, ctrl, ctrl_bcast, main.
      Pipeline: the scripts' calls of the driver and of the extension, and
      what they read back, end to end.

    Functions keep their names; a definition whose Python counterpart is a
    block inside a function is named after what the block does.  A [for] loop
    over a list is a Fixpoint on the list or [PyM.s_for].

    ** What is proved

    - The extension.  A row becomes exactly one message or an error (C5);
      bmq_consume returns and confirms exactly the first messages pushed to it
      (C4) and ends (C21); the worker confirms a message only after its
      transaction is committed, in order (C3), opens its queue before it says
      so and gives its segment up once (C11); bmq_subscribe's outcomes (C20),
      and what its silence means for the worker (C10); in whatever sequence of
      statements, no queue is opened twice and the cached filters are the
      broker's (C2).  An open that fails is not retried by the scripts (C13).
    - The driver and the scripts: the verdict a script reaches is about the
      messages that arrived at the driver (C12), the publisher publishes what
      the subscriber is told to expect (C23), and a broadcast's reports come
      back as the counts of the replies (C22).
    - Whole programs (C1, C6, C7, C19): when main returns, in whatever
      interleaving, every worker has completed and what was printed is the
      report of the samples, with totals equal to the shared counters; per
      queue in multi_queue_bench; in parallel_bench one result per worker,
      and it is what that worker measured.  C34: the rows its workers publish
      are disjoint and are the first of the table, less a remainder.
      C33: the text on standard output, split at blanks and equals signs,
      gives back these totals.  C8: main and its workers stop, and main has
      returned unless a loop is out of fuel or a party has failed; C18:
      if one has failed, main waits for ever.
    - Counting: what a producer counts and what it does not (C16); the locked
      counters refine atomic ones (C9), and the sample list is well typed in
      every state (C37).  No timed statement before every worker has primed its
      connection and called barrier.wait() (C17).
      Retry (C15) and termination of the timed loops (C25).
    - Command lines (C24, C30): what is given in any order and spelling is
      what main gets; what is missing or unreadable ends with status 2.
    - Content checks: js_bench passes exactly on the same multisets of JSON
      rows (C14, which says where that is Python's equality and where not), and
      a completed run drained a backlog that was there, then stopped the
      consumer, and only then compared the rows it published with those
      delivered (C27); the verdict of bmq_bench
      on what its query computes (C29); the mismatch count of filtered_bench
      (C36).
    - Supervision (C26): whatever happens in a run, every NATS process it has
      started is stopped afterwards, by SIGTERM or else by SIGKILL, and its log
      closed; the profiler's run does so too unless stopping perf raises.
      Exactly the verified runs are averaged (C28).
    - Numbers: the extremes of the window (C32); [PyFormat.format_nearest], what
      float() reads from a formatted number.
    - NATS clients: the recorded numbers show exactly-once delivery (C31); a
      consumer records, and a subscriber reports, the messages handed to its
      callback and when (C38, C39); the JSON each of the four processes leaves
      says what its calls were (C35); the subscriber ends by its deadline (C40).

    The files prove more than these: the smaller scripts' exit statuses,
    counts and round trips stand beside the code they are about.

    ** Bounds and parameters

    The timed loops, the drain loop of js_bench and the subscriber's settle
    loop take [fuel], one unit per test of the guard.  C25, C27 and C40 prove
    that fuel is enough: it runs out only after as many readings of the clock
    before the deadline as there is fuel, so the other theorems,
    which hold for every fuel, describe every run.  The JSON reader's fuel is
    two units per character, and [JsonRead.loads_fuel] shows that it suffices
    for every text; [Json.loads_dumps] is the round trip.  The digits of a
    float are searched for 18 steps, after which its exact decimal is taken:
    [FloatText.float_repr_reads] holds either way.  Parameters stand for code outside the
    repository: psycopg's SQL composition ([sql_literal], [literal]), the sum
    of a list of floats, the home directory, and NATS's subject matching (the
    class [Selectivity.NatsMatching], with its algorithm as an instance).
    [Selectivity.expected_matches_exact] rests on its laws.  C14 assumes of its
    rows that their dicts have distinct keys and that their floats are doubles
    ([Json.well_formed], which is executable), which is what json.loads
    returns ([JsonRead.loads_well_formed]).

    In the C++ programs one unit of fuel is one test of a loop's guard.  C21
    shows for bmq_consume that a unit for every advance of the clock within
    the timeout is enough; bmq_subscribe's wait of at most 250 pauses has the
    251 units it needs (C20).  The worker serves until a shutdown is
    requested, and the driver's waits are bounded by the clock in the same
    way.  zerialize and nlohmann::json are parameters.  Laws of other code are
    hypotheses where a theorem needs them: the shutdown flag stays set (C3),
    the confirm builder resets and takes a message when it is empty, and
    flushes succeed (the batched half of C4, [Consume.builder_lawful]), the
    segment's flag is set by the worker only (C10).

    ** What is not modelled

    Of the C++ programs: memory (palloc, the tuplestore, destructors skipped by
    ereport's jump), exceptions that are not std::exception, errors raised
    inside PostgreSQL calls other than the callback, the commit and the check
    for interrupts, and the sign of a NaN on a stream.  atol is modelled on
    numbers in range.  The SQL declarations, the regression tests and the
    vendored zerialize headers have no model.  The
    usage and error texts of argparse are not modelled, its exit statuses are.
    Signals (KeyboardInterrupt) and the fork of a process are not modelled; a
    process that ends with an exception has no successor state.  A backend's
    blazingmq.broker_uri does not change between its statements, and a message
    does not name the queue it came from, which bmq_consume does not look at.
    Strings beyond 8-bit characters are outside (json.loads of an escape above
    u00ff is refused), and so are CPython's limits on the digits of
    an int and on the nesting of JSON. *)
From stdpp Require Export base list strings gmap.
From stdpp Require Export pretty.
From Stdlib Require Export ZArith Lia.

#[global] Open Scope Z_scope.
#[export] Set Warnings "-clear-no-such-hyp".

(** ** Generic arithmetic *)

(** C's signed 64-bit [long], the ctype behind [mp.Value("l", 0)]: ctypes
    stores an out-of-range Python int modulo 2^64, as a two's complement
    value. *)
Definition wrap64 (z : Z) : Z := (z + 2 ^ 63) `mod` 2 ^ 64 - 2 ^ 63.

Lemma wrap64_small z : - 2 ^ 63 ≤ z < 2 ^ 63 → wrap64 z = z.
Proof. intros H. unfold wrap64. rewrite Z.mod_small; lia. Qed.

Lemma wrap64_range z : - 2 ^ 63 ≤ wrap64 z < 2 ^ 63.
Proof.
  unfold wrap64. pose proof (Z.mod_pos_bound (z + 2 ^ 63) (2 ^ 64)). lia.
Qed.

Lemma wrap64_add_l a b : wrap64 (wrap64 a + b) = wrap64 (a + b).
Proof.
  unfold wrap64.
  replace ((a + 2 ^ 63) `mod` 2 ^ 64 - 2 ^ 63 + b + 2 ^ 63)
    with ((a + 2 ^ 63) `mod` 2 ^ 64 + b) by lia.
  rewrite Zplus_mod_idemp_l. do 2 f_equal. lia.
Qed.

Lemma wrap64_add_congr a a' b b' :
  wrap64 a = wrap64 a' → wrap64 b = wrap64 b' → wrap64 (a + b) = wrap64 (a' + b').
Proof.
  intros Ha Hb. rewrite <-(wrap64_add_l a), <-(wrap64_add_l a'), Ha, !(Z.add_comm (wrap64 a')).
  by rewrite <-(wrap64_add_l b), <-(wrap64_add_l b'), Hb.
Qed.

Lemma wrap64_cancel t z : wrap64 (z + (t - wrap64 t)) = wrap64 z.
Proof.
  replace (z + (t - wrap64 t)) with (t + (z - wrap64 t)) by lia.
  rewrite <-wrap64_add_l. f_equal. lia.
Qed.

(** ** Finite-support updates of index-addressed state *)

Definition upd {A} (f : nat → A) (k : nat) (v : A) : nat → A :=
  fun j => if (j =? k)%nat then v else f j.

Lemma upd_eq {A} (f : nat → A) k v : upd f k v k = v.
Proof. unfold upd. by rewrite Nat.eqb_refl. Qed.

Lemma upd_ne {A} (f : nat → A) k v j : j ≠ k → upd f k v j = f j.
Proof. intros H. unfold upd. by rewrite (proj2 (Nat.eqb_neq j k) H). Qed.

(** ** Sums and counts over lists *)

Fixpoint Zsum (l : list Z) : Z :=
  match l with [] => 0 | x :: l' => x + Zsum l' end.

Lemma Zsum_app l1 l2 : Zsum (l1 ++ l2) = Zsum l1 + Zsum l2.
Proof. induction l1 as [|x l1 IH]; simpl; [done|]. rewrite IH. lia. Qed.

Lemma Zsum_perm l1 l2 : l1 ≡ₚ l2 → Zsum l1 = Zsum l2.
Proof. induction 1; simpl; lia. Qed.

Lemma Zsum_insert (l : list Z) i x y :
  l !! i = Some x → Zsum (<[i := y]> l) = Zsum l + y - x.
Proof.
  revert i. induction l as [|z l IH]; intros [|i] H; simplify_eq/=; [lia|].
  rewrite (IH i H). lia.
Qed.

Lemma Zsum_insert_fmap {A} (f : A → Z) (l : list A) i a b :
  l !! i = Some a → Zsum (f <$> <[i := b]> l) = Zsum (f <$> l) + f b - f a.
Proof.
  intros H. rewrite list_fmap_insert. apply Zsum_insert. by rewrite list_lookup_fmap, H.
Qed.

Create Rewrite HintDb upd.
#[export] Hint Rewrite @upd_eq : upd.
#[export] Hint Rewrite @upd_ne using done : upd.
