(* ===== verification/PyFloat.v ===== *)
(** * Python floats: IEEE 754 binary64, bit for bit

    CPython's [float] is binary64 with round-to-nearest-even.  The model is
    the Standard Library's executable [spec_float] at precision 53 and
    maximal exponent 1024, so every guard, rate and threshold of the
    benchmark scripts is the comparison the interpreter makes, rounding
    included, and evaluates by [vm_compute].  Python's two departures from
    IEEE arithmetic are written out: division by zero raises, and an [int]
    operand is first converted. *)
From S2P Require Import Prelude.
From Corelib Require Export SpecFloat.

Abbreviation float := spec_float.

Definition prec : Z := 53.
Definition emax : Z := 1024.

Definition fadd (x y : float) : float := SFadd prec emax x y.
Definition fsub (x y : float) : float := SFsub prec emax x y.
Definition fmul (x y : float) : float := SFmul prec emax x y.

(** The quotient of two floats when the divisor is not zero. *)
Definition fquot (x y : float) : float := SFdiv prec emax x y.

(** [float(z)]: the nearest double. *)
Definition of_int (z : Z) : float := binary_normalize prec emax z 0 false.

(** A decimal literal [n/d]: both integers are exact, so the rounded quotient
    is the double nearest to the decimal fraction. *)
Definition lit (n d : Z) : float := fquot (of_int n) (of_int d).

Definition flt (x y : float) : bool := SFltb x y.
Definition fle (x y : float) : bool := SFleb x y.
Definition fgt (x y : float) : bool := SFltb y x.
Definition fge (x y : float) : bool := SFleb y x.

(** [float("nan")] *)
Definition fnan : float := S754_nan.
Definition finf : float := S754_infinity false.

Definition is_nan (x : float) : bool :=
  match x with S754_nan => true | _ => false end.

Definition is_zero (x : float) : bool :=
  match x with S754_zero _ => true | _ => false end.

(** Not below zero and not NaN. *)
Definition nonneg (x : float) : bool :=
  match x with
  | S754_zero _ => true
  | S754_infinity s | S754_finite s _ _ => negb s
  | S754_nan => false
  end.

Definition fzero : float := S754_zero false.

#[global] Arguments fadd : simpl never.
#[global] Arguments fsub : simpl never.
#[global] Arguments fmul : simpl never.
#[global] Arguments fquot : simpl never.
#[global] Arguments of_int : simpl never.
#[global] Arguments lit : simpl never.


(** Comparison of a Python [int] with a [float] is exact, not after rounding
    the integer: [int_gt z x] is [z > x]. *)
Definition int_gt (z : Z) (x : float) : bool :=
  match x with
  | S754_nan => false
  | S754_infinity s => s
  | S754_zero _ => 0 <? z
  | S754_finite s m e =>
      let v := if s then Z.neg m else Z.pos m in
      if 0 <=? e then v * 2 ^ e <? z else v <? z * 2 ^ (- e)
  end.

(** ** The order on floats that are not NaN *)

Definition rank (x : float) : Z * Z * Z :=
  match x with
  | S754_infinity true => (-2, 0, 0)
  | S754_finite true m e => (-1, - e, - Z.pos m)
  | S754_zero _ | S754_nan => (0, 0, 0)
  | S754_finite false m e => (1, e, Z.pos m)
  | S754_infinity false => (2, 0, 0)
  end.

Definition rank_lt (a b : Z * Z * Z) : Prop :=
  let '(a1, a2, a3) := a in
  let '(b1, b2, b3) := b in
  a1 < b1 ∨ a1 = b1 ∧ (a2 < b2 ∨ a2 = b2 ∧ a3 < b3).

Lemma SFcompare_rank x y :
  is_nan x = false → is_nan y = false →
  match SFcompare x y with
  | Some Lt => rank_lt (rank x) (rank y)
  | Some Gt => rank_lt (rank y) (rank x)
  | Some Eq => rank x = rank y
  | None => False
  end.
Proof.
  destruct x as [sx|sx| |sx mx ex], y as [sy|sy| |sy my ey]; try done;
    intros _ _; destruct sx, sy; simpl; try lia; try done;
    destruct (Z.compare_spec ex ey); simpl; try lia; subst;
    change (Pos.compare_cont Eq mx my) with (Pos.compare mx my);
    destruct (Pos.compare_spec mx my); simpl; subst; try lia; done.
Qed.

Lemma flt_not_nan x y : flt x y = true → is_nan x = false ∧ is_nan y = false.
Proof. by destruct x as [?|[]| |[] ? ?], y as [?|[]| |[] ? ?]. Qed.

Lemma fle_not_nan x y : fle x y = true → is_nan x = false ∧ is_nan y = false.
Proof. by destruct x as [?|[]| |[] ? ?], y as [?|[]| |[] ? ?]. Qed.

Lemma flt_rank x y :
  is_nan x = false → is_nan y = false →
  flt x y = true ↔ rank_lt (rank x) (rank y).
Proof.
  intros Hx Hy. pose proof (SFcompare_rank x y Hx Hy) as H. unfold flt, SFltb.
  destruct (SFcompare x y) as [[]|]; destruct (rank x) as [[??]?],
    (rank y) as [[??]?]; simplify_eq/=; split; try done; lia.
Qed.

Lemma fle_rank x y :
  is_nan x = false → is_nan y = false →
  fle x y = true ↔ rank_lt (rank x) (rank y) ∨ rank x = rank y.
Proof.
  intros Hx Hy. pose proof (SFcompare_rank x y Hx Hy) as H. unfold fle, SFleb.
  destruct (SFcompare x y) as [[]|]; destruct (rank x) as [[??]?],
    (rank y) as [[??]?]; simplify_eq/=; split; try done; try (by auto);
    intros [?|?]; simplify_eq; lia.
Qed.


Lemma fle_trans x y z : fle x y = true → fle y z = true → fle x z = true.
Proof.
  intros H1 H2. destruct (fle_not_nan _ _ H1), (fle_not_nan _ _ H2).
  apply fle_rank in H1; [|done..]. apply fle_rank in H2; [|done..].
  apply fle_rank; [done..|].
  destruct (rank x) as [[??]?], (rank y) as [[??]?], (rank z) as [[??]?].
  simpl in *. destruct H1, H2; simplify_eq; auto; lia.
Qed.

Lemma flt_fle x y : flt x y = true → fle x y = true.
Proof.
  intros H. destruct (flt_not_nan _ _ H).
  apply fle_rank; [done..|]. left. by apply flt_rank.
Qed.

Lemma flt_irrefl x : flt x x = false.
Proof.
  destruct (flt x x) eqn:H; [|done]. destruct (flt_not_nan _ _ H).
  apply flt_rank in H; [|done..]. destruct (rank x) as [[??]?]. simpl in H. lia.
Qed.

Lemma flt_le_trans x y z : flt x y = true → fle y z = true → flt x z = true.
Proof.
  intros H1 H2. destruct (flt_not_nan _ _ H1), (fle_not_nan _ _ H2).
  apply flt_rank in H1; [|done..]. apply fle_rank in H2; [|done..].
  apply flt_rank; [done..|].
  destruct (rank x) as [[??]?], (rank y) as [[??]?], (rank z) as [[??]?].
  simpl in *. destruct H2; simplify_eq; auto; lia.
Qed.

(** Outside NaN the order is total, so a failed guard is its converse. *)
Lemma flt_false x y :
  is_nan x = false → is_nan y = false → flt x y = false → fle y x = true.
Proof.
  intros Hx Hy H. apply fle_rank; [done..|].
  destruct (decide (rank_lt (rank x) (rank y))) as [Hlt|Hlt].
  { apply flt_rank in Hlt; [congruence|done..]. }
  revert Hlt. destruct (rank x) as [[a1 a2] a3], (rank y) as [[b1 b2] b3]. simpl.
  intros ?. destruct (decide ((b1, b2, b3) = (a1, a2, a3))) as [|Hne]; [auto|].
  left. destruct (decide (b1 = a1)); [|lia]. destruct (decide (b2 = a2)); [|lia].
  subst. assert (b3 ≠ a3) by congruence. lia.
Qed.

(** ** Operations return well-formed floats

    [valid_binary] is the representation invariant of a double: the mantissa
    is normalised (or the exponent is minimal) and the exponent in range.
    Every arithmetic operation establishes it. *)

Definition valid (x : float) : bool := valid_binary prec emax x.

Abbreviation fexp64 := (fexp prec emax).
Abbreviation digits := Zdigits2.

Lemma digits_pos_bounds p :
  2 ^ (Z.pos (digits2_pos p) - 1) ≤ Z.pos p < 2 ^ Z.pos (digits2_pos p).
Proof.
  induction p as [p IH|p IH|]; cbn [digits2_pos];
    [rewrite Pos2Z.inj_succ..|done];
    replace (Z.succ (Z.pos (digits2_pos p)) - 1)
      with (Z.succ (Z.pos (digits2_pos p) - 1)) by lia;
    rewrite !Z.pow_succ_r by lia; lia.
Qed.

Lemma digits_nonneg m : 0 ≤ digits m.
Proof. destruct m; simpl; lia. Qed.

Lemma digits_bounds m : 0 < m → 2 ^ (digits m - 1) ≤ m < 2 ^ digits m.
Proof. destruct m as [|p|p]; try lia. intros _. apply digits_pos_bounds. Qed.

Lemma digits_lt m : 0 ≤ m → m < 2 ^ digits m.
Proof. intros Hm. destruct (decide (m = 0)) as [->|]; [done|]. apply digits_bounds. lia. Qed.

Lemma digits_unique m d : 0 < d → 2 ^ (d - 1) ≤ m < 2 ^ d → digits m = d.
Proof.
  intros Hd Hm. assert (0 < m) as Hm0.
  { pose proof (Z.pow_pos_nonneg 2 (d - 1)). lia. }
  pose proof (digits_bounds m Hm0) as Hb. pose proof (digits_nonneg m).
  destruct (Z.lt_trichotomy (digits m) d) as [Hlt|[?|Hlt]]; [|done|].
  - pose proof (Z.pow_le_mono_r 2 (digits m) (d - 1)). lia.
  - pose proof (Z.pow_le_mono_r 2 d (digits m - 1)). lia.
Qed.

Lemma digits_ge m d : 0 ≤ m → 2 ^ (d - 1) ≤ m → 0 < d → d ≤ digits m.
Proof.
  intros Hm Hle Hd. destruct (Z.le_gt_cases d (digits m)) as [|Hlt]; [done|].
  pose proof (digits_lt m Hm). pose proof (digits_nonneg m).
  pose proof (Z.pow_le_mono_r 2 (digits m) (d - 1)). lia.
Qed.

Lemma shr_1_m r : 0 ≤ shr_m r → shr_m (shr_1 r) = shr_m r / 2.
Proof.
  destruct r as [m r s]. destruct m as [|[p|p|]|p]; simpl; intros; try lia.
  - by rewrite Zdiv_0_l.
  - apply Z.div_unique with 1; lia.
  - apply Z.div_unique with 0; lia.
  - done.
Qed.

Lemma iter_shr_m n r :
  0 ≤ shr_m r → shr_m (iter_pos shr_1 n r) = shr_m r / 2 ^ Z.pos n.
Proof.
  revert r. induction n as [n IH|n IH|]; intros r Hr; simpl iter_pos.
  - assert (0 ≤ shr_m (shr_1 r)) by (rewrite shr_1_m by done; by apply Z.div_pos).
    assert (0 ≤ shr_m (iter_pos shr_1 n (shr_1 r)))
      by (rewrite IH by done; apply Z.div_pos; lia).
    rewrite !IH, shr_1_m by done.
    rewrite !Z.div_div by lia. f_equal.
    replace (Z.pos n~1) with (1 + Z.pos n + Z.pos n) by lia.
    rewrite !Z.pow_add_r by lia. lia.
  - assert (0 ≤ shr_m (iter_pos shr_1 n r))
      by (rewrite IH by done; apply Z.div_pos; lia).
    rewrite !IH by done. rewrite Z.div_div by lia. f_equal.
    replace (Z.pos n~0) with (Z.pos n + Z.pos n) by lia.
    rewrite !Z.pow_add_r by lia. lia.
  - rewrite shr_1_m by done. done.
Qed.

(** What a shift to the target exponent leaves: the exponent it aims at and
    the truncated mantissa. *)
Lemma shr_fexp_spec m e l mrs e' :
  0 ≤ m → e ≤ fexp64 (digits m + e) →
  shr_fexp prec emax m e l = (mrs, e') →
  e' = fexp64 (digits m + e) ∧ shr_m mrs = m / 2 ^ (e' - e).
Proof.
  intros Hm He. unfold shr_fexp, shr.
  set (n := fexp64 (digits m + e) - e).
  assert (shr_m (shr_record_of_loc m l) = m) as Hl by by destruct l as [|[]].
  destruct n as [|p|p] eqn:Hn; intros [= <- <-]; [..|lia].
  - split; [lia|]. rewrite Hl. replace (e - e) with 0 by lia. by rewrite Z.div_1_r.
  - split; [lia|]. rewrite iter_shr_m by (rewrite Hl; done). rewrite Hl.
    do 2 f_equal. lia.
Qed.

Lemma digits_shift m k :
  0 ≤ k < digits m → 0 < m → digits (m / 2 ^ k) = digits m - k.
Proof.
  intros Hk Hm. pose proof (digits_bounds m Hm) as [Hlo Hhi].
  pose proof (Z.pow_pos_nonneg 2 k ltac:(lia) ltac:(lia)).
  apply digits_unique; [lia|]. split.
  - apply Z.div_le_lower_bound; [lia|]. rewrite <-Z.pow_add_r by lia.
    by replace (k + (digits m - k - 1)) with (digits m - 1) by lia.
  - apply Z.div_lt_upper_bound; [lia|]. rewrite <-Z.pow_add_r by lia.
    by replace (k + (digits m - k)) with (digits m) by lia.
Qed.

Lemma shift_zero m k : 0 ≤ m → digits m ≤ k → m / 2 ^ k = 0.
Proof.
  intros Hm Hk. apply Z.div_small. split; [done|].
  pose proof (digits_lt m Hm). pose proof (digits_nonneg m).
  pose proof (Z.pow_le_mono_r 2 (digits m) k). lia.
Qed.

(** Rounding moves the mantissa by at most one unit. *)
Lemma round_nearest_even_range m l :
  round_nearest_even m l = m ∨ round_nearest_even m l = m + 1.
Proof. destruct l as [|[]]; simpl; auto. destruct (Z.even m); auto. Qed.

(** A mantissa already on the grid stays there when rounding adds a unit. *)
Lemma canonical_after_round m e m' :
  0 ≤ m → fexp64 (digits m + e) = e ∨ m = 0 ∧ e = emin prec emax →
  m' = m ∨ m' = m + 1 → 0 < m' →
  e ≤ fexp64 (digits m' + e) ∧
  ∀ mrs e'', shr_fexp prec emax m' e loc_Exact = (mrs, e'') →
    0 ≤ shr_m mrs ∧
    (0 < shr_m mrs → fexp64 (digits (shr_m mrs) + e'') = e'').
Proof.
  intros Hm Hc Hm' Hpos.
  assert (e ≤ fexp64 (digits m' + e)) as Hge.
  { destruct Hc as [Hc|[-> ->]].
    - rewrite <-Hc at 1. unfold fexp. assert (digits m ≤ digits m'); [|lia].
      destruct (decide (m = 0)) as [->|]; [simpl; apply digits_nonneg|].
      apply digits_ge; [lia| |]; pose proof (digits_bounds m ltac:(lia));
        [lia|]. pose proof (digits_nonneg m).
      destruct (decide (digits m = 0)) as [E|]; [rewrite E in *; simpl in *; lia|lia].
    - unfold fexp. lia. }
  split; [done|]. intros mrs e'' Hs.
  apply shr_fexp_spec in Hs as [He Hmrs]; [|lia|done]. split.
  { rewrite Hmrs. apply Z.div_pos; [lia|]. apply Z.pow_pos_nonneg; lia. }
  intros Hres. rewrite Hmrs. rewrite He in *.
  set (k := fexp64 (digits m' + e) - e) in *.
  destruct (decide (k < digits m')) as [Hk|Hk].
  - rewrite digits_shift by lia.
    replace (digits m' - k + fexp64 (digits m' + e)) with (digits m' + e) by lia.
    done.
  - rewrite Hmrs, shift_zero in Hres by lia. lia.
Qed.

Lemma round_aux_valid s m e l :
  0 ≤ m → e ≤ fexp64 (digits m + e) →
  valid (binary_round_aux prec emax s m e l) = true.
Proof.
  intros Hm He. unfold binary_round_aux.
  destruct (shr_fexp prec emax m e l) as [mrs e'] eqn:H1.
  destruct (shr_fexp_spec _ _ _ _ _ Hm He H1) as [He' Hmrs].
  assert (0 ≤ shr_m mrs) as Hm'.
  { rewrite Hmrs. apply Z.div_pos; [done|]. apply Z.pow_pos_nonneg; lia. }
  assert (fexp64 (digits (shr_m mrs) + e') = e' ∨
          shr_m mrs = 0 ∧ e' = emin prec emax) as Hc.
  { destruct (decide (e' - e < digits m)) as [Hk|Hk].
    - left. destruct (decide (m = 0)) as [->|]; [simpl in *; lia|].
      rewrite Hmrs, digits_shift by lia.
      by replace (digits m - (e' - e) + e') with (digits m + e) by lia.
    - right. rewrite Hmrs. split; [apply shift_zero; lia|].
      revert He' Hk. unfold fexp, prec. lia. }
  set (m' := round_nearest_even (shr_m mrs) (loc_of_shr_record mrs)).
  pose proof (round_nearest_even_range (shr_m mrs) (loc_of_shr_record mrs)) as Hr.
  fold m' in Hr.
  destruct (shr_fexp prec emax m' e' loc_Exact) as [mrs2 e2] eqn:H2.
  destruct (decide (m' = 0)) as [Hz|Hz].
  - rewrite Hz in H2. assert (shr_m mrs2 = 0) as ->; [|done].
    revert H2. unfold shr_fexp, shr. simpl.
    destruct (fexp64 (0 + e') - e') as [|p|p]; intros Hi;
      apply (f_equal fst) in Hi; simpl in Hi; subst mrs2; [done| |done].
    by rewrite iter_shr_m.
  - destruct (canonical_after_round (shr_m mrs) e' m') as [_ Hcan]; [done|done|done|lia|].
    destruct (Hcan _ _ H2) as [Hge Hd].
    destruct (shr_m mrs2) as [|p|p]; [done| |done].
    destruct (Z.leb_spec e2 (emax - prec)); [|done].
    unfold valid, valid_binary, bounded. apply andb_true_intro. split.
    + unfold canonical_mantissa. apply Z.eqb_eq. apply Hd. lia.
    + by apply Z.leb_le.
Qed.

Lemma fexp_mono a b : a ≤ b → fexp64 a ≤ fexp64 b.
Proof. unfold fexp. lia. Qed.

Lemma iter_xO p n : Z.pos (Pos.iter xO p n) = Z.pos p * 2 ^ Z.pos n.
Proof.
  induction n as [|n IH] using Pos.peano_ind.
  - simpl. lia.
  - rewrite Pos.iter_succ, Pos2Z.inj_xO, IH, Pos2Z.inj_succ, Z.pow_succ_r; lia.
Qed.

Lemma digits_shl m k : 0 < m → 0 ≤ k → digits (m * 2 ^ k) = digits m + k.
Proof.
  intros Hm Hk. pose proof (digits_bounds m Hm) as [Hlo Hhi].
  pose proof (Z.pow_pos_nonneg 2 k ltac:(lia) ltac:(lia)).
  assert (0 < digits m).
  { destruct (decide (digits m = 0)) as [E|]; [rewrite E in Hhi; simpl in *; lia|].
    pose proof (digits_nonneg m). lia. }
  apply digits_unique; [lia|].
  replace (digits m + k - 1) with (digits m - 1 + k) by lia.
  rewrite !Z.pow_add_r by lia. nia.
Qed.

Lemma binary_round_valid s m e : valid (binary_round prec emax s m e) = true.
Proof.
  unfold binary_round, shl_align.
  set (t := fexp64 (Z.pos (digits2_pos m) + e)).
  destruct (t - e) as [|p|p] eqn:E.
  - apply round_aux_valid; [lia|]. simpl digits. fold t. lia.
  - apply round_aux_valid; [lia|]. simpl digits. fold t. lia.
  - apply round_aux_valid; [lia|]. rewrite iter_xO.
    rewrite digits_shl by lia. simpl digits.
    replace (Z.pos (digits2_pos m) + Z.pos p + t) with (Z.pos (digits2_pos m) + e) by lia.
    unfold t. lia.
Qed.

Lemma normalize_valid m e z : valid (binary_normalize prec emax m e z) = true.
Proof. destruct m; simpl; [done|apply binary_round_valid..]. Qed.

Lemma of_int_valid z : valid (of_int z) = true.
Proof. apply normalize_valid. Qed.

Lemma fadd_valid x y :
  valid x = true → valid y = true → valid (fadd x y) = true.
Proof.
  destruct x as [[]|[]| |[] ? ?], y as [[]|[]| |[] ? ?]; try done;
    intros _ _; apply normalize_valid.
Qed.

Lemma fsub_valid x y :
  valid x = true → valid y = true → valid (fsub x y) = true.
Proof.
  destruct x as [[]|[]| |[] ? ?], y as [[]|[]| |[] ? ?]; try done;
    intros _ _; apply normalize_valid.
Qed.

(** The quotient's mantissa is long enough to be rounded. *)
Lemma div_core_spec m1 e1 m2 e2 q e l :
  SFdiv_core_binary prec emax (Z.pos m1) e1 (Z.pos m2) e2 = (q, e, l) →
  0 ≤ q ∧ e ≤ fexp64 (digits q + e).
Proof.
  unfold SFdiv_core_binary.
  set (d1 := Zdigits2 (Z.pos m1)). set (d2 := Zdigits2 (Z.pos m2)).
  set (e' := Z.min _ _). set (s := e1 - e2 - e').
  assert (0 ≤ s) as Hs by lia.
  set (m' := match s with Z0 => _ | Zpos _ => _ | Zneg _ => _ end).
  assert (m' = Z.pos m1 * 2 ^ s) as Hm'.
  { unfold m'. destruct s; [lia|by rewrite Z.shiftl_mul_pow2|lia]. }
  pose proof (Z_div_mod m' (Z.pos m2) ltac:(lia)) as Hdm.
  destruct (Z.div_eucl m' (Z.pos m2)) as [q' r]. intros [= <- <- _].
  destruct Hdm as [Heq Hr].
  assert (0 ≤ m') by (rewrite Hm'; apply Z.mul_nonneg_nonneg; [lia|apply Z.pow_nonneg; lia]).
  assert (0 ≤ q') as Hq by nia. split; [done|].
  transitivity (fexp64 (d1 + e1 - (d2 + e2))); [lia|]. apply fexp_mono.
  enough (d1 + s - d2 ≤ digits q') by lia.
  pose proof (digits_bounds (Z.pos m1) ltac:(lia)) as H1.
  pose proof (digits_bounds (Z.pos m2) ltac:(lia)) as H2.
  fold d1 in H1. fold d2 in H2.
  assert (0 < d1 ∧ 0 < d2) as [? ?] by (simpl in d1, d2; lia).
  destruct (decide (0 < d1 + s - d2)) as [Hpos|]; [|pose proof (digits_nonneg q'); lia].
  apply digits_ge; [done| |done].
  assert (2 ^ (d1 + s - d2 - 1) * 2 ^ d2 ≤ Z.pos m1 * 2 ^ s) as Hle.
  { rewrite <-Z.pow_add_r by lia.
    replace (d1 + s - d2 - 1 + d2) with (d1 - 1 + s) by lia.
    rewrite Z.pow_add_r by lia.
    apply Z.mul_le_mono_nonneg_r; [apply Z.pow_nonneg; lia|lia]. }
  rewrite <-Hm', Heq in Hle.
  destruct (Z.le_gt_cases (2 ^ (d1 + s - d2 - 1)) q') as [|Hlt]; [done|].
  exfalso. set (P := 2 ^ (d1 + s - d2 - 1)) in *.
  assert (Z.pos m2 * (q' + 1) ≤ 2 ^ d2 * P) by nia. nia.
Qed.

Lemma fquot_valid x y : valid (fquot x y) = true.
Proof.
  destruct x as [sx|sx| |sx mx ex], y as [sy|sy| |sy my ey]; try done.
  unfold fquot, SFdiv.
  destruct (SFdiv_core_binary prec emax (Z.pos mx) ex (Z.pos my) ey) as [[q e] l] eqn:H.
  apply div_core_spec in H as [? ?]. by apply round_aux_valid.
Qed.

Lemma lit_valid n d : valid (lit n d) = true.
Proof. apply fquot_valid. Qed.

(** ** Signs *)

Lemma shr_fexp_nonneg m e l :
  0 ≤ m → 0 ≤ shr_m (fst (shr_fexp prec emax m e l)).
Proof.
  intros Hm. unfold shr_fexp, shr.
  assert (shr_m (shr_record_of_loc m l) = m) as Hl by by destruct l as [|[]].
  destruct (fexp64 (digits m + e) - e) as [|p|p]; simpl; rewrite ?Hl; try done.
  rewrite iter_shr_m, Hl by by rewrite Hl.
  apply Z.div_pos; [done|]. apply Z.pow_pos_nonneg; lia.
Qed.

Lemma round_aux_nonneg m e l :
  0 ≤ m → nonneg (binary_round_aux prec emax false m e l) = true.
Proof.
  intros Hm. unfold binary_round_aux.
  pose proof (shr_fexp_nonneg m e l Hm) as H1.
  destruct (shr_fexp prec emax m e l) as [mrs e']. simpl in H1.
  assert (0 ≤ round_nearest_even (shr_m mrs) (loc_of_shr_record mrs)) as H2.
  { destruct (round_nearest_even_range (shr_m mrs) (loc_of_shr_record mrs)); lia. }
  pose proof (shr_fexp_nonneg _ e' loc_Exact H2) as H3.
  destruct (shr_fexp _ _ _ e' loc_Exact) as [mrs2 e2]. simpl in H3.
  destruct (shr_m mrs2); [done| |lia]. by destruct (_ <=? _).
Qed.

Lemma normalize_nonneg m e :
  0 ≤ m → nonneg (binary_normalize prec emax m e false) = true.
Proof.
  intros Hm. destruct m as [|m|m]; simpl; [done| |lia]. unfold binary_round.
  destruct (shl_align _ _ _). apply round_aux_nonneg. lia.
Qed.

Lemma of_int_nonneg z : 0 ≤ z → nonneg (of_int z) = true.
Proof. apply normalize_nonneg. Qed.

(** A non-negative dividend over a positive divisor. *)
Lemma fquot_nonneg x y :
  nonneg x = true → flt fzero y = true → fle y (S754_infinity false) = true →
  nonneg (fquot x y) = true ∨ is_nan (fquot x y) = true.
Proof.
  destruct x as [sx|[]| |[] mx ex], y as [sy|[]| |[] my ey]; try done;
    intros _ _ _; simpl; auto.
  left. unfold fquot, SFdiv.
  destruct (SFdiv_core_binary prec emax (Z.pos mx) ex (Z.pos my) ey) as [[q e] l] eqn:H.
  apply div_core_spec in H as [? ?]. simpl. by apply round_aux_nonneg.
Qed.

Definition is_finite (x : float) : bool :=
  match x with S754_zero _ | S754_finite _ _ _ => true | _ => false end.

Lemma fquot_nonneg_finite x y :
  nonneg x = true → is_finite x = true → flt fzero y = true →
  nonneg (fquot x y) = true.
Proof.
  destruct x as [sx|[]| |[] mx ex], y as [sy|[]| |[] my ey]; try done.
  intros _ _ _. unfold fquot, SFdiv.
  destruct (SFdiv_core_binary prec emax (Z.pos mx) ex (Z.pos my) ey) as [[q e] l] eqn:H.
  apply div_core_spec in H as [? ?]. simpl. by apply round_aux_nonneg.
Qed.

(** A canonical mantissa has 53 bits unless its exponent is the least one. *)
Lemma valid_finite s m e :
  valid (S754_finite s m e) = true →
  Z.pos m < 2 ^ prec ∧ emin prec emax ≤ e ∧
  (emin prec emax < e → 2 ^ (prec - 1) ≤ Z.pos m).
Proof.
  unfold valid, valid_binary, bounded, canonical_mantissa.
  intros [H%Z.eqb_eq _]%andb_prop.
  pose proof (digits_pos_bounds m) as [Hlo Hhi]. unfold fexp in H. split; [|split].
  - pose proof (Z.pow_le_mono_r 2 (Z.pos (digits2_pos m)) prec). lia.
  - lia.
  - intros He. assert (Z.pos (digits2_pos m) = prec) as <- by lia. done.
Qed.

Lemma mantissa_le m1 e1 m2 e2 s1 s2 :
  valid (S754_finite s1 m1 e1) = true → valid (S754_finite s2 m2 e2) = true →
  e1 < e2 ∨ e1 = e2 ∧ Z.pos m1 ≤ Z.pos m2 →
  Z.pos (fst (shl_align m1 e1 (Z.min e1 e2)))
    ≤ Z.pos (fst (shl_align m2 e2 (Z.min e1 e2))).
Proof.
  intros [H1 [Hm1 _]]%valid_finite [_ [_ H2]]%valid_finite Hle.
  assert (Z.min e1 e2 = e1) as -> by lia. unfold shl_align.
  replace (e1 - e1) with 0 by lia.
  destruct (e1 - e2) as [|p|p] eqn:E; simpl fst; [lia|lia|].
  rewrite iter_xO. assert (2 ^ prec ≤ Z.pos m2 * 2 ^ Z.pos p); [|lia].
  specialize (H2 ltac:(lia)).
  replace prec with (prec - 1 + 1) at 1 by lia. rewrite Z.pow_add_r by (unfold prec; lia).
  pose proof (Z.pow_le_mono_r 2 1 (Z.pos p)).
  pose proof (Z.pow_pos_nonneg 2 (prec - 1)). nia.
Qed.

(** The difference the scripts sleep for is never negative. *)
Lemma fsub_nonneg x y :
  valid x = true → valid y = true → is_finite x = true → is_finite y = true →
  fle y x = true → nonneg (fsub x y) = true.
Proof.
  intros Vx Vy Fx Fy Hle. unfold fle, SFleb in Hle.
  destruct x as [sx| | |sx mx ex], y as [sy| | |sy my ey]; try done;
    destruct sx, sy; try done; simpl in Hle; unfold fsub; cbn [SFsub cond_Zopp];
    apply normalize_nonneg; try lia;
    destruct (Z.compare_spec ey ex) as [He|He|He]; try done;
    change (Pos.compare_cont Eq my mx) with (Pos.compare my mx) in Hle;
    try (destruct (Pos.compare_spec my mx); try done; subst);
    first [ pose proof (mantissa_le _ _ _ _ _ _ Vx Vy ltac:(lia))
          | pose proof (mantissa_le _ _ _ _ _ _ Vy Vx ltac:(lia)) ];
    rewrite ?(Z.min_comm ey ex) in *; lia.
Qed.

(** ** Finiteness and products *)

Lemma digits_le m d : 0 ≤ m → 0 ≤ d → m < 2 ^ d → digits m ≤ d.
Proof.
  intros Hm Hd Hlt. destruct (decide (m = 0)) as [->|]; [done|].
  pose proof (digits_bounds m ltac:(lia)) as [Hlo _].
  destruct (Z.le_gt_cases (digits m) d) as [|Hgt]; [done|].
  pose proof (Z.pow_le_mono_r 2 d (digits m - 1)). lia.
Qed.

Lemma round_aux_finite s m e l :
  0 ≤ m → e ≤ fexp64 (digits m + e) → fexp64 (digits m + e) < emax - prec →
  is_finite (binary_round_aux prec emax s m e l) = true.
Proof.
  intros Hm He Hmax. unfold binary_round_aux.
  destruct (shr_fexp prec emax m e l) as [mrs e'] eqn:H1.
  pose proof (shr_fexp_nonneg m e l Hm) as Hn1. rewrite H1 in Hn1. simpl in Hn1.
  destruct (shr_fexp_spec _ _ _ _ _ Hm He H1) as [He' Hmrs].
  assert (shr_m mrs < 2 ^ prec) as Hlt.
  { rewrite Hmrs. apply Z.div_lt_upper_bound.
    - apply Z.pow_pos_nonneg; lia.
    - rewrite <-Z.pow_add_r by (unfold prec in *; lia).
      pose proof (digits_lt m Hm). pose proof (digits_nonneg m).
      pose proof (Z.pow_le_mono_r 2 (digits m) (e' - e + prec)).
      revert He'. unfold fexp. lia. }
  set (m' := round_nearest_even (shr_m mrs) (loc_of_shr_record mrs)).
  assert (0 ≤ m' ∧ m' ≤ 2 ^ prec) as [Hm0 Hm1].
  { destruct (round_nearest_even_range (shr_m mrs) (loc_of_shr_record mrs)) as [E|E];
      fold m' in E; lia. }
  assert (digits m' ≤ prec + 1) as Hd.
  { apply digits_le; [done|unfold prec; lia|]. rewrite Z.pow_add_r by (unfold prec; lia).
    pose proof (Z.pow_pos_nonneg 2 prec). unfold prec in *. lia. }
  pose proof (shr_fexp_nonneg m' e' loc_Exact Hm0) as Hn2.
  assert ((shr_fexp prec emax m' e' loc_Exact).2 ≤ emax - prec) as He2.
  { unfold shr_fexp, shr. revert He' Hmax. unfold fexp, emin, emax, prec in *.
    destruct (Z.max _ _ - e') eqn:E; simpl; lia. }
  destruct (shr_fexp prec emax m' e' loc_Exact) as [mrs2 e2]. simpl in *.
  destruct (shr_m mrs2); [done| |lia].
  by destruct (Z.leb_spec e2 (emax - prec)); [|lia].
Qed.

Lemma of_int_finite z : Z.abs z < 2 ^ 1000 → is_finite (of_int z) = true.
Proof.
  intros Hz.
  assert (∀ s p, Z.pos p < 2 ^ 1000 → is_finite (binary_round prec emax s p 0) = true) as H.
  { intros s p Hp. unfold binary_round, shl_align.
    pose proof (digits_le (Z.pos p) 1000 ltac:(lia) ltac:(lia) Hp) as Hd.
    simpl digits in Hd. set (t := fexp64 (Z.pos (digits2_pos p) + 0)).
    assert (t ≤ 1000 - prec) by (unfold t, fexp, emin, emax, prec; lia).
    destruct (t - 0) as [|q|q] eqn:E; apply round_aux_finite; try lia;
      rewrite ?iter_xO, ?digits_shl by lia; simpl digits; fold t;
      try replace (Z.pos (digits2_pos p) + Z.pos q + t)
        with (Z.pos (digits2_pos p) + 0) by lia;
      fold t; unfold emax, prec in *; lia. }
  unfold of_int, binary_normalize. destruct z as [|p|p]; [done|apply H; lia|apply H; lia].
Qed.

Lemma fmul_nonneg x y :
  nonneg x = true → nonneg y = true → is_finite x = true → is_finite y = true →
  nonneg (fmul x y) = true.
Proof.
  destruct x as [[]| | |[] mx ex], y as [[]| | |[] my ey]; try done.
  intros _ _ _ _. unfold fmul, SFmul. simpl. by apply round_aux_nonneg.
Qed.

Lemma fadd_nonneg x y : nonneg x = true → nonneg y = true → nonneg (fadd x y) = true.
Proof.
  destruct x as [[]|[]| |[] mx ex], y as [[]|[]| |[] my ey]; try done;
    intros _ _; unfold fadd; cbn [SFadd cond_Zopp]; apply normalize_nonneg; lia.
Qed.

(** Scaling by a normal double below one does not overflow. *)
Lemma fmul_small x s m e :
  valid x = true → is_finite x = true →
  2 ^ (prec - 1) ≤ Z.pos m < 2 ^ prec → e ≤ - 55 →
  is_finite (fmul x (S754_finite s m e)) = true ∧
  valid (fmul x (S754_finite s m e)) = true.
Proof.
  intros Vx Fx Hm He. destruct x as [sx| | |sx mx ex]; try done.
  destruct (valid_finite _ _ _ Vx) as (Hmx & _ & _).
  assert (ex ≤ emax - prec) as Hex.
  { unfold valid, valid_binary, bounded in Vx. apply andb_prop in Vx as [_ H].
    by apply Z.leb_le in H. }
  assert (digits (Z.pos mx * Z.pos m) ≤ prec + prec) as Hd1.
  { apply digits_le; [lia|unfold prec; lia|]. rewrite Z.pow_add_r by (unfold prec; lia). nia. }
  assert (prec ≤ digits (Z.pos mx * Z.pos m)) as Hd2.
  { apply digits_ge; [lia| |unfold prec; lia]. nia. }
  unfold fmul, SFmul. change (Z.pos (mx * m)) with (Z.pos mx * Z.pos m).
  assert (ex + e ≤ fexp64 (digits (Z.pos mx * Z.pos m) + (ex + e))) by (unfold fexp; lia).
  split; [|apply round_aux_valid; [lia|done]].
  apply round_aux_finite; [lia|done|].
  unfold fexp, emin, emax, prec in *. lia.
Qed.
