(* ===== verification/Rounding.v ===== *)
(** * Rounding a quotient of integers

    [fquot] on integers is the double nearest to the rational number: the
    result depends on the quotient alone ([quotient_scale]) and is the double
    itself when the quotient is one ([quotient_exact]).  [float(s)] and
    [float.__repr__] rest on these two facts.

    A quotient [n/d] seen from the exponent [e] is a mantissa and what is left
    of it below: the next bit and whether anything follows.  Shifting such a
    record right by a bit is looking from the next exponent. *)
From S2P Require Import Prelude PyFloat.

#[local] Abbreviation shr_fexp := (shr_fexp prec emax).

Lemma pow2_pos k : 0 ≤ k → 0 < 2 ^ k.
Proof. intros. by apply Z.pow_pos_nonneg. Qed.

(** Positivity of products of powers. *)
Ltac pos :=
  repeat match goal with |- context [2 ^ ?k] =>
    let H := fresh in
    assert (0 < 2 ^ k) as H by (apply pow2_pos; lia); generalize dependent (2 ^ k); intros
  end; nia.

(** ** Records of a quotient *)

(** [2 * n / d] is the mantissa and the bit below it. *)
Definition place (n d : Z) : shr_record :=
  {| shr_m := 2 * n / d / 2; shr_r := Z.odd (2 * n / d);
     shr_s := negb ((2 * n) `mod` d =? 0) |}.

(** [n/d] seen from the exponent [e]. *)
Definition view (n d e : Z) : shr_record :=
  place (n * 2 ^ Z.max (- e) 0) (d * 2 ^ Z.max e 0).

Lemma place_mantissa n d : 0 < d → shr_m (place n d) = n / d.
Proof.
  intros Hd. simpl. rewrite Z.div_div by lia.
  rewrite (Z.mul_comm d 2), Z.div_mul_cancel_l by lia. done.
Qed.

Lemma place_scale c n d : 0 < c → 0 < d → place (c * n) (c * d) = place n d.
Proof.
  intros Hc Hd. unfold place.
  replace (2 * (c * n)) with (c * (2 * n)) by ring.
  rewrite Z.div_mul_cancel_l by lia. rewrite Zmult_mod_distr_l. f_equal. f_equal.
  destruct (Z.eqb_spec ((2 * n) `mod` d) 0) as [->|]; [by rewrite Z.mul_0_r|].
  apply Z.eqb_neq. nia.
Qed.

Lemma shr_1_half m r s :
  0 ≤ m → shr_1 (Build_shr_record m r s) = Build_shr_record (m / 2) (Z.odd m) (r || s).
Proof.
  intros Hm. rewrite <-Z.div2_div. destruct m as [|[p|p|]|]; try done; lia.
Qed.

Lemma shr_1_place n d : 0 ≤ n → 0 < d → shr_1 (place n d) = place n (2 * d).
Proof.
  intros Hn Hd. unfold place.
  assert (0 ≤ 2 * n / d) by (apply Z.div_pos; lia).
  rewrite shr_1_half by (apply Z.div_pos; lia).
  rewrite (Z.div_mul_cancel_l n d 2) by lia.
  assert (2 * n / d / 2 = n / d) as E by (exact (place_mantissa n d Hd)).
  rewrite E. f_equal. rewrite Zmult_mod_distr_l.
  pose proof (Z.div_mod (2 * n) d ltac:(lia)) as D2. pose proof (Z.div_mod n d ltac:(lia)) as D1.
  pose proof (Z.mod_pos_bound (2 * n) d Hd). pose proof (Z.mod_pos_bound n d Hd).
  pose proof (Zdiv2_odd_eqn (2 * n / d)) as Ho. rewrite Z.div2_div, E in Ho.
  destruct (Z.odd (2 * n / d)), (Z.eqb_spec ((2 * n) `mod` d) 0),
    (Z.eqb_spec (2 * (n `mod` d)) 0); simpl; try done; exfalso; nia.
Qed.

(** Any pair of shifts with the same difference will do. *)
Lemma view_shifts n d e a b :
  0 ≤ n → 0 < d → 0 ≤ a → 0 ≤ b → a - b = e → place (n * 2 ^ b) (d * 2 ^ a) = view n d e.
Proof.
  intros Hn Hd Ha Hb <-. unfold view. symmetry.
  rewrite <-(place_scale (2 ^ Z.min a b)) by pos.
  f_equal; rewrite Z.mul_comm, <-Z.mul_assoc, <-Z.pow_add_r by lia; do 2 f_equal; lia.
Qed.

Lemma shr_1_view n d e : 0 ≤ n → 0 < d → shr_1 (view n d e) = view n d (e + 1).
Proof.
  intros Hn Hd. unfold view at 1. rewrite shr_1_place by pos.
  replace (2 * (d * 2 ^ Z.max e 0)) with (d * 2 ^ (Z.max e 0 + 1)) by (rewrite Z.pow_add_r by lia; ring).
  apply view_shifts; lia.
Qed.

Lemma iter_shr_view n d p e :
  0 ≤ n → 0 < d → iter_pos shr_1 p (view n d e) = view n d (e + Z.pos p).
Proof.
  intros Hn Hd. revert e. induction p as [p IH|p IH|]; intros e; cbn [iter_pos].
  - rewrite shr_1_view, !IH by done. f_equal. lia.
  - rewrite !IH. f_equal. lia.
  - by rewrite shr_1_view.
Qed.

Lemma view_scale c n d e : 0 < c → 0 ≤ n → 0 < d → view (c * n) (c * d) e = view n d e.
Proof.
  intros Hc Hn Hd. unfold view. rewrite <-!Z.mul_assoc. apply place_scale; [done|].
  pos.
Qed.

(** The location the division computes is that of the record. *)
Lemma record_of_location n d :
  0 ≤ n → 0 < d → shr_record_of_loc (n / d) (new_location d (n `mod` d)) = place n d.
Proof.
  intros Hn Hd. pose proof (place_mantissa n d Hd) as E. unfold place in *. simpl in E. rewrite E.
  pose proof (Z.div_mod (2 * n) d ltac:(lia)) as D2. pose proof (Z.div_mod n d ltac:(lia)) as D1.
  pose proof (Z.mod_pos_bound (2 * n) d Hd). pose proof (Z.mod_pos_bound n d Hd).
  pose proof (Zdiv2_odd_eqn (2 * n / d)) as Ho. rewrite Z.div2_div, E in Ho.
  set (r := n `mod` d) in *. set (w := (2 * n) `mod` d) in *.
  assert (d * (if Z.odd (2 * n / d) then 1 else 0) + w = 2 * r) as Hw by nia.
  clearbody r w.
  assert (new_location d r = if r =? 0 then loc_Exact else loc_Inexact (2 * r ?= d)) as ->.
  { unfold new_location, new_location_even, new_location_odd.
    destruct (Z.even d) eqn:He; destruct (r =? 0); try done. f_equal.
    assert (2 * r ≠ d) by (intros <-; rewrite Z.even_mul in He; done).
    destruct (Z.compare_spec (2 * r + 1) d), (Z.compare_spec (2 * r) d); try done; lia. }
  destruct (Z.odd (2 * n / d)), (Z.eqb_spec r 0), (Z.eqb_spec w 0); try (exfalso; lia);
    try done; simpl; destruct (Z.compare_spec (2 * r) d); try done; lia.
Qed.

(** ** The binary magnitude of a quotient *)

(** [n / d < 2 ^ k] *)
Definition below2 (n d k : Z) : Prop := n * 2 ^ Z.max (- k) 0 < d * 2 ^ Z.max k 0.

Lemma below2_shifts n d k a b :
  0 ≤ a → 0 ≤ b → a - b = k → below2 n d k ↔ n * 2 ^ b < d * 2 ^ a.
Proof.
  intros Ha Hb <-. unfold below2.
  rewrite (Z.mul_lt_mono_pos_r (2 ^ Z.min a b)) by pos.
  rewrite <-!Z.mul_assoc, <-!Z.pow_add_r by lia.
  replace (Z.max (- (a - b)) 0 + Z.min a b) with b by lia.
  by replace (Z.max (a - b) 0 + Z.min a b) with a by lia.
Qed.

Lemma below2_scale c n d k : 0 < c → below2 (c * n) (c * d) k ↔ below2 n d k.
Proof. intros Hc. unfold below2. rewrite <-!Z.mul_assoc. symmetry. by apply Z.mul_lt_mono_pos_l. Qed.

(** [2 ^ (k - 1) <= n / d < 2 ^ k] *)
Definition magnitude (n d k : Z) : Prop := ¬ below2 n d (k - 1) ∧ below2 n d k.

Lemma magnitude_scale c n d k : 0 < c → magnitude (c * n) (c * d) k ↔ magnitude n d k.
Proof. intros Hc. unfold magnitude. by rewrite !below2_scale. Qed.

Lemma digits_spec z : 0 < z → 0 < digits z ∧ 2 ^ (digits z - 1) ≤ z < 2 ^ digits z.
Proof.
  intros Hz. split; [|by apply digits_bounds]. by destruct z.
Qed.

(** The difference of the lengths, or one more. *)
Lemma magnitude_digits n d :
  0 < n → 0 < d →
  ∃ k, magnitude n d k ∧ digits n - digits d ≤ k ≤ digits n - digits d + 1.
Proof.
  intros Hn Hd. destruct (digits_spec n Hn) as (Hn0 & Hn1 & Hn2).
  destruct (digits_spec d Hd) as (Hd0 & Hd1 & Hd2).
  set (a := digits n) in *. set (b := digits d) in *.
  assert (¬ below2 n d (a - b - 1)) as Hlo.
  { rewrite (below2_shifts _ _ _ (a - 1) b) by lia. intros H.
    assert (2 ^ (a - 1) * 2 ^ b ≤ n * 2 ^ b) by (apply Z.mul_le_mono_nonneg_r; lia).
    assert (d * 2 ^ (a - 1) < 2 ^ b * 2 ^ (a - 1)); [|lia].
    apply Z.mul_lt_mono_pos_r; [apply pow2_pos|]; lia. }
  assert (below2 n d (a - b + 1)) as Hhi.
  { apply (below2_shifts _ _ _ a (b - 1)); [lia..|].
    assert (n * 2 ^ (b - 1) < 2 ^ a * 2 ^ (b - 1)).
    { apply Z.mul_lt_mono_pos_r; [apply pow2_pos|]; lia. }
    assert (2 ^ (b - 1) * 2 ^ a ≤ d * 2 ^ a); [|lia].
    apply Z.mul_le_mono_nonneg_r; lia. }
  destruct (decide (n * 2 ^ Z.max (- (a - b)) 0 < d * 2 ^ Z.max (a - b) 0)) as [H|H].
  - exists (a - b). split; [by split|lia].
  - exists (a - b + 1). split; [|lia]. split; [|done].
    replace (a - b + 1 - 1) with (a - b) by lia. done.
Qed.

(** How long the mantissa seen from [e] is. *)
Lemma view_mantissa_below n d k e :
  0 < n → 0 < d → e ≤ k → shr_m (view n d e) < 2 ^ (k - e) ↔ below2 n d k.
Proof.
  intros Hn Hd He. unfold view. rewrite place_mantissa by pos.
  rewrite (below2_shifts n d k (Z.max e 0 + (k - e)) (Z.max (- e) 0)) by lia.
  rewrite Z.pow_add_r, Z.mul_assoc by lia. split; intros H.
  - apply Z.nle_gt. intros H'. apply Z.lt_nge in H. apply H.
    apply Z.div_le_lower_bound; [pos|lia].
  - apply Z.div_lt_upper_bound; [pos|lia].
Qed.

Lemma view_mantissa_nonneg n d e : 0 < n → 0 < d → 0 ≤ shr_m (view n d e).
Proof. intros Hn Hd. unfold view. rewrite place_mantissa by pos. apply Z.div_pos; pos. Qed.

Lemma below2_mono n d j k : 0 < n → 0 < d → j ≤ k → below2 n d j → below2 n d k.
Proof.
  intros Hn Hd Hjk. rewrite <-!(view_mantissa_below n d _ j) by lia. intros H.
  eapply Z.lt_le_trans; [exact H|]. apply Z.pow_le_mono_r; lia.
Qed.

Lemma magnitude_unique n d j k :
  0 < n → 0 < d → magnitude n d j → magnitude n d k → j = k.
Proof.
  intros Hn Hd [H1 H2] [H3 H4].
  destruct (Z.lt_trichotomy j k) as [H|[H|H]]; [|done|]; exfalso; [apply H3|apply H1].
  - by apply (below2_mono n d j); [..|lia|].
  - by apply (below2_mono n d k); [..|lia|].
Qed.

Lemma view_digits n d k e :
  0 < n → 0 < d → magnitude n d k → digits (shr_m (view n d e)) = Z.max (k - e) 0.
Proof.
  intros Hn Hd [Hlo Hhi]. pose proof (view_mantissa_nonneg n d e Hn Hd).
  destruct (Z.lt_ge_cases e k) as [He|He].
  - rewrite Z.max_l by lia. apply digits_unique; [lia|].
    rewrite view_mantissa_below by lia. split; [|done].
    apply Z.nlt_ge. replace (k - e - 1) with (k - 1 - e) by lia.
    by rewrite view_mantissa_below by lia.
  - rewrite Z.max_r by lia. assert (shr_m (view n d e) < 2 ^ (e - e)) as H1.
    { apply view_mantissa_below; [done..|lia|]. by apply (below2_mono n d k). }
    rewrite Z.sub_diag in H1. by replace (shr_m (view n d e)) with 0 by lia.
Qed.

(** ** Rounding *)

Lemma fexp_eq e : fexp64 e = Z.max (e - 53) (-1074).
Proof. done. Qed.

Lemma record_loc_record r :
  shr_record_of_loc (shr_m r) (loc_of_shr_record r) = r.
Proof. by destruct r as [m [] []]. Qed.

(** Wherever the division started, the mantissa is aligned where the
    magnitude of the quotient says. *)
Lemma shr_fexp_view n d k e m l :
  0 < n → 0 < d → magnitude n d k → e ≤ fexp64 k →
  shr_record_of_loc m l = view n d e →
  shr_fexp m e l = (view n d (fexp64 k), fexp64 k).
Proof.
  intros Hn Hd Hk He Hv. unfold SpecFloat.shr_fexp. rewrite Hv.
  assert (m = shr_m (view n d e)) as -> by (rewrite <-Hv; destruct l as [|[]]; done).
  rewrite (view_digits n d k) by done.
  assert (fexp64 (Z.max (k - e) 0 + e) = fexp64 k) as -> by (rewrite !fexp_eq in *; lia).
  unfold shr. destruct (fexp64 k - e) as [|p|p] eqn:E; [|rewrite iter_shr_view by lia|lia].
  - by replace (fexp64 k) with e by lia.
  - by replace (e + Z.pos p) with (fexp64 k) by lia.
Qed.

(** What is left to do once the mantissa is aligned. *)
Definition rounded (s : bool) (r : shr_record) (e : Z) : float :=
  let '(mrs, e') := shr_fexp (round_nearest_even (shr_m r) (loc_of_shr_record r)) e loc_Exact in
  match shr_m mrs with
  | 0 => S754_zero s
  | Zpos m => if e' <=? emax - prec then S754_finite s m e' else S754_infinity s
  | _ => S754_nan
  end.

Lemma fquot_rounded s n d k :
  magnitude (Zpos n) (Zpos d) k →
  fquot (S754_finite s n 0) (S754_finite false d 0)
  = rounded s (view (Zpos n) (Zpos d) (fexp64 k)) (fexp64 k).
Proof.
  intros Hk. unfold fquot, SFdiv.
  destruct (magnitude_digits (Zpos n) (Zpos d)) as (k' & Hk' & Hb); [lia..|].
  pose proof (magnitude_unique (Zpos n) (Zpos d) k k' ltac:(lia) ltac:(lia) Hk Hk') as <-.
  unfold SFdiv_core_binary. set (e := Z.min _ _).
  assert (e ≤ 0 ∧ e ≤ fexp64 k) as [He0 Hek].
  { subst e. rewrite !fexp_eq. lia. }
  assert (match 0 - 0 - e with Zpos _ => Z.shiftl (Zpos n) (0 - 0 - e) | 0 => Zpos n | _ => 0 end
          = Zpos n * 2 ^ (- e)) as ->.
  { destruct (0 - 0 - e) eqn:E; [|rewrite Z.shiftl_mul_pow2 by lia|lia].
    - replace e with 0 by lia. simpl. lia.
    - do 2 f_equal. lia. }
  rewrite (surjective_pairing (Z.div_eucl _ _)).
  change (Z.div_eucl ?a ?b).1 with (a / b). change (Z.div_eucl ?a ?b).2 with (a `mod` b).
  rewrite xorb_false_r. unfold binary_round_aux.
  rewrite (shr_fexp_view (Zpos n) (Zpos d) k); [done|lia|lia|done|done|].
  rewrite record_of_location by pos. rewrite <-(Z.mul_1_r (Zpos d)) at 1.
  apply (view_shifts _ _ _ 0 (- e)); lia.
Qed.

(** ** The quotient of two integers *)

Definition quotient (s : bool) (n d : positive) : float :=
  fquot (S754_finite s n 0) (S754_finite false d 0).

Lemma quotient_rounded s n d :
  ∃ k, magnitude (Zpos n) (Zpos d) k ∧
    quotient s n d = rounded s (view (Zpos n) (Zpos d) (fexp64 k)) (fexp64 k).
Proof.
  destruct (magnitude_digits (Zpos n) (Zpos d)) as (k & Hk & _); [lia..|].
  exists k. split; [done|]. by apply fquot_rounded.
Qed.

Lemma quotient_mul c s n d : quotient s (c * n) (c * d) = quotient s n d.
Proof.
  destruct (quotient_rounded s n d) as (k & Hk & ->). unfold quotient.
  rewrite <-(view_scale (Zpos c)), <-!Pos2Z.inj_mul by lia. apply fquot_rounded.
  rewrite !Pos2Z.inj_mul. by apply magnitude_scale.
Qed.

(** The rounded quotient is a function of the rational number. *)
Lemma quotient_scale s n d n' d' :
  (n * d' = n' * d)%positive → quotient s n d = quotient s n' d'.
Proof.
  intros E. by rewrite <-(quotient_mul d'), <-(quotient_mul d s n' d'),
    (Pos.mul_comm d' n), E, (Pos.mul_comm d n'), (Pos.mul_comm d' d).
Qed.

Lemma bounded_spec m e :
  bounded prec emax m e = true ↔ fexp64 (digits (Zpos m) + e) = e ∧ e ≤ 971.
Proof.
  unfold bounded, canonical_mantissa. by rewrite andb_true_iff, Z.eqb_eq, Z.leb_le.
Qed.

(** Nothing to shift: the mantissa is as long as its exponent says. *)
Lemma shr_fexp_done m e :
  fexp64 (digits m + e) ≤ e → shr_fexp m e loc_Exact = (Build_shr_record m false false, e).
Proof.
  intros H. unfold SpecFloat.shr_fexp, shr. by destruct (_ - e) eqn:E; [..|lia|].
Qed.

(** A quotient that is a double is not rounded. *)
Lemma quotient_exact s n d m e :
  bounded prec emax m e = true →
  Zpos n * 2 ^ Z.max (- e) 0 = Zpos m * (Zpos d * 2 ^ Z.max e 0) →
  quotient s n d = S754_finite s m e.
Proof.
  intros [Hc He]%bounded_spec E.
  assert (view (Zpos n) (Zpos d) e = Build_shr_record (Zpos m) false false) as Hv.
  { unfold view. rewrite E. rewrite <-(Z.mul_1_r (Zpos d * _)) at 2. rewrite (Z.mul_comm (Zpos m)).
    rewrite place_scale by pos. unfold place. rewrite Z.div_1_r, Z.mod_1_r, Z.odd_mul, andb_false_l.
    f_equal. rewrite Z.mul_comm. by apply Z.div_mul. }
  destruct (digits_spec (Zpos m)) as (Hd0 & Hd1 & Hd2); [lia|].
  assert (magnitude (Zpos n) (Zpos d) (digits (Zpos m) + e)) as Hk.
  { split; [|].
    - rewrite <-(view_mantissa_below _ _ _ e), Hv by lia. simpl shr_m.
      replace (_ + e - 1 - e) with (digits (Zpos m) - 1) by lia. lia.
    - rewrite <-(view_mantissa_below _ _ _ e), Hv by lia. simpl shr_m.
      replace (_ + e - e) with (digits (Zpos m)) by lia. lia. }
  unfold quotient. rewrite (fquot_rounded _ _ _ _ Hk), Hc, Hv. unfold rounded.
  cbn [round_nearest_even loc_of_shr_record SpecFloat.shr_m].
  rewrite shr_fexp_done by (rewrite Hc; lia). cbn [SpecFloat.shr_m].
  by rewrite (proj2 (Z.leb_le e (emax - prec)) He).
Qed.
