(* ===== verification/PyStr.v ===== *)
(** * Python string methods

    The [str] operations the scripts parse tool output with, on strings whose
    code points are below 256: [split()], [split(sep, 1)], [splitlines()],
    [strip()], [startswith], [in], [int()], [str(int)].  The white space and
    line-boundary sets are CPython's, restricted to that range. *)
From S2P Require Import Prelude.
From Stdlib Require Import Ascii.

Definition code (c : Ascii.ascii) : N := Ascii.N_of_ascii c.

(** [str.isspace] below 256: \t \n \v \f \r, 28-31, blank, NEL and NBSP. *)
Definition is_space (c : Ascii.ascii) : bool :=
  let n := code c in
  ((9 <=? n) && (n <=? 13) || (28 <=? n) && (n <=? 32) || (n =? 133) || (n =? 160))%N.

(** Line boundaries of [str.splitlines] below 256. *)
Definition is_linebreak (c : Ascii.ascii) : bool :=
  let n := code c in
  ((10 <=? n) && (n <=? 13) || (28 <=? n) && (n <=? 30) || (n =? 133))%N.

(** ** Splitting *)

Definition push_word (w : string) (ws : list string) : list string :=
  match w with EmptyString => ws | _ => w :: ws end.

(** The word that touches the left end, and the words after it. *)
Fixpoint split_go (s : string) : string * list string :=
  match s with
  | EmptyString => (EmptyString, [])
  | String c s' =>
      let '(w, ws) := split_go s' in
      if is_space c then (EmptyString, push_word w ws) else (String c w, ws)
  end.

(** [s.split()] *)
Definition split_ws (s : string) : list string :=
  let '(w, ws) := split_go s in push_word w ws.

(** [s.split(c, 1)] when the separator occurs, [None] when it does not. *)
Fixpoint cut (c : Ascii.ascii) (s : string) : option (string * string) :=
  match s with
  | EmptyString => None
  | String a s' =>
      if Ascii.eqb a c then Some (EmptyString, s')
      else match cut c s' with
           | Some (l, r) => Some (String a l, r)
           | None => None
           end
  end.

(** [s.split(c)] *)
Fixpoint split_on (c : Ascii.ascii) (s : string) : list string :=
  match s with
  | EmptyString => [EmptyString]
  | String a s' =>
      if Ascii.eqb a c then EmptyString :: split_on c s'
      else match split_on c s' with
           | w :: ws => String a w :: ws
           | [] => [String a EmptyString]
           end
  end.

Definition newline : string := String (ascii_of_nat 10) EmptyString.

Definition starts_newline (s : string) : bool :=
  match s with String c _ => (code c =? 10)%N | EmptyString => false end.

(** The line that touches the left end ([None] at the end of the text), and
    the lines after it; a CR before a LF is part of that LF's boundary. *)
Fixpoint lines_go (s : string) : option string * list string :=
  match s with
  | EmptyString => (None, [])
  | String c s' =>
      let '(o, ls) := lines_go s' in
      if is_linebreak c then
        if (code c =? 13)%N && starts_newline s' then (o, ls)
        else (Some EmptyString, option_list o ++ ls)
      else (Some (String c (default EmptyString o)), ls)
  end.

(** [s.splitlines()] *)
Definition splitlines (s : string) : list string :=
  let '(o, ls) := lines_go s in option_list o ++ ls.

(** ** Stripping and searching *)

Fixpoint lstrip_if (p : Ascii.ascii → bool) (s : string) : string :=
  match s with
  | String c s' => if p c then lstrip_if p s' else s
  | EmptyString => EmptyString
  end.

Fixpoint rstrip_if (p : Ascii.ascii → bool) (s : string) : string :=
  match s with
  | EmptyString => EmptyString
  | String c s' =>
      match rstrip_if p s' with
      | EmptyString => if p c then EmptyString else String c EmptyString
      | r => String c r
      end
  end.

(** [s.strip()] *)
Definition strip (s : string) : string := rstrip_if is_space (lstrip_if is_space s).

(** [s.startswith(p)] *)
Definition startswith (p s : string) : bool := String.prefix p s.

(** [p in s] *)
Fixpoint contains (p s : string) : bool :=
  String.prefix p s ||
  match s with String _ s' => contains p s' | EmptyString => false end.

(** [sep.join(l)] *)
Fixpoint join (sep : string) (l : list string) : string :=
  match l with
  | [] => EmptyString
  | [s] => s
  | s :: l' => s +:+ sep +:+ join sep l'
  end.

(** [s[:n]] and [s[n:]] *)
Fixpoint str_take (n : nat) (s : string) : string :=
  match n, s with
  | S n', String c s' => String c (str_take n' s')
  | _, _ => EmptyString
  end.

Fixpoint str_drop (n : nat) (s : string) : string :=
  match n, s with
  | S n', String c s' => str_drop n' s'
  | _, _ => s
  end.

(** ** Integers *)

Definition digit (c : Ascii.ascii) : option Z :=
  let n := code c in
  if ((48 <=? n) && (n <=? 57))%N then Some (Z.of_N n - 48) else None.

(** Decimal digits with single underscores between them. *)
Fixpoint int_digits (s : string) (acc : Z) (after_digit : bool) : option Z :=
  match s with
  | EmptyString => if after_digit then Some acc else None
  | String c s' =>
      if Ascii.eqb c "_"%char then if after_digit then int_digits s' acc false else None
      else match digit c with
           | Some d => int_digits s' (10 * acc + d) true
           | None => None
           end
  end.

(** [int(s)]; [None] is [ValueError]. *)
Definition py_int (s : string) : option Z :=
  match strip s with
  | String "-"%char s' => Z.opp <$> int_digits s' 0 false
  | String "+"%char s' => int_digits s' 0 false
  | s' => int_digits s' 0 false
  end.

(** [str(z)] *)
Definition py_str (z : Z) : string := pretty z.

(** ** Lemmas *)

(** No character of [s] satisfies [p]. *)
Fixpoint none (p : Ascii.ascii → bool) (s : string) : bool :=
  match s with
  | EmptyString => true
  | String c s' => negb (p c) && none p s'
  end.

Definition char_eq (c : Ascii.ascii) : Ascii.ascii → bool := fun a => Ascii.eqb a c.

Lemma none_app p s1 s2 : none p (s1 +:+ s2) = none p s1 && none p s2.
Proof.
  induction s1 as [|c s1 IH]; [done|].
  change (String c s1 +:+ s2) with (String c (s1 +:+ s2)). simpl. rewrite IH.
  by rewrite andb_assoc.
Qed.

Lemma append_cons c s1 s2 : String c s1 +:+ s2 = String c (s1 +:+ s2).
Proof. done. Qed.

Lemma append_nil_l s : EmptyString +:+ s = s.
Proof. done. Qed.

Lemma append_assoc s1 s2 s3 : (s1 +:+ s2) +:+ s3 = s1 +:+ s2 +:+ s3.
Proof.
  induction s1 as [|c s1 IH]; [done|]. by rewrite !append_cons, IH.
Qed.

Lemma append_nil_r s : s +:+ EmptyString = s.
Proof. induction s as [|c s IH]; [done|]. by rewrite append_cons, IH. Qed.

Lemma cut_app c k v :
  none (char_eq c) k = true → cut c (k +:+ String c v) = Some (k, v).
Proof.
  unfold char_eq. induction k as [|a k IH]; intros Hk; simpl in Hk.
  - rewrite append_nil_l. simpl. by rewrite Ascii.eqb_refl.
  - apply andb_prop in Hk as [Ha Hk]. apply negb_true_iff in Ha.
    rewrite append_cons. simpl. by rewrite Ha, IH.
Qed.

(** A blank-free word in front of a blank is split off whole. *)
Lemma split_go_word w c s :
  none is_space w = true → is_space c = true →
  split_go (w +:+ String c s) = (w, split_ws s).
Proof.
  intros Hw Hc. induction w as [|a w IH]; simpl in Hw.
  - rewrite append_nil_l. simpl. rewrite Hc.
    unfold split_ws. by destruct (split_go s).
  - apply andb_prop in Hw as [Ha Hw]. apply negb_true_iff in Ha.
    rewrite append_cons. simpl. by rewrite (IH Hw), Ha.
Qed.

Lemma split_ws_word w c s :
  none is_space w = true → w ≠ EmptyString → is_space c = true →
  split_ws (w +:+ String c s) = w :: split_ws s.
Proof.
  intros Hw Hne Hc. unfold split_ws at 1. rewrite split_go_word by done.
  by destruct w.
Qed.

Lemma split_go_last w : none is_space w = true → split_go w = (w, []).
Proof.
  induction w as [|a w IH]; [done|]. simpl. intros [Ha Hw]%andb_prop.
  apply negb_true_iff in Ha. by rewrite (IH Hw), Ha.
Qed.

Lemma split_ws_last w :
  none is_space w = true → w ≠ EmptyString → split_ws w = [w].
Proof. intros Hw Hne. unfold split_ws. rewrite split_go_last by done. by destruct w. Qed.

(** ** Decimal printing and parsing *)

Lemma digit_char n : (n < 10)%N → digit (pretty_N_char n) = Some (Z.of_N n).
Proof.
  intros Hn.
  assert (n ∈ [0; 1; 2; 3; 4; 5; 6; 7; 8; 9]%N) as H.
  { destruct n as [|p]; [set_solver|].
    do 10 (destruct p as [p|p|]; try lia; try set_solver). }
  revert H. rewrite !elem_of_cons, elem_of_nil. by intros [->|[->|[->|[->|[->|[->|[->|[->|[->|[->|[]]]]]]]]]]].
Qed.

Definition digit_string (s : string) : bool :=
  none (fun c => match digit c with Some _ => false | None => true end) s.

Lemma none_weaken (p q : Ascii.ascii → bool) s :
  (∀ c, q c = true → p c = true) → none p s = true → none q s = true.
Proof.
  intros Hpq. induction s as [|c s IH]; [done|]. simpl.
  intros [Hc Hs]%andb_prop. rewrite IH by done. rewrite andb_true_r.
  apply negb_true_iff. apply negb_true_iff in Hc.
  destruct (q c) eqn:E; [|done]. by rewrite Hpq in Hc.
Qed.

Definition is_digit (c : ascii) : bool :=
  match digit c with Some _ => true | None => false end.

Lemma pretty_N_char_digit n :
  (n < 10)%N →
  digit (pretty_N_char n) = Some (Z.of_N n) ∧
  Ascii.eqb (pretty_N_char n) "_"%char = false.
Proof.
  intros Hn. split; [by apply digit_char|].
  destruct (Ascii.eqb (pretty_N_char n) "_"%char) eqn:E; [|done].
  apply Ascii.eqb_eq in E. pose proof (digit_char n Hn) as H. rewrite E in H. done.
Qed.

Lemma int_digits_pretty x s b :
  (0 < x)%N →
  int_digits (pretty_N_go x s) 0 b = int_digits s (Z.of_N x) true.
Proof.
  revert s. induction (N.lt_wf_0 x) as [x _ IH]; intros s Hx.
  rewrite pretty_N_go_step by done.
  assert (x `mod` 10 < 10)%N as Hm by (apply N.mod_lt; done).
  destruct (pretty_N_char_digit _ Hm) as [Hd Hu].
  assert (x = 10 * (x `div` 10) + x `mod` 10)%N as Hdiv by (apply N.div_mod; done).
  destruct (decide (x `div` 10 = 0)%N) as [E|E].
  - rewrite E, pretty_N_go_0. simpl. rewrite Hd, Hu. f_equal. lia.
  - rewrite IH; [|apply N.div_lt; lia|lia]. simpl. rewrite Hd, Hu. f_equal. lia.
Qed.

Lemma none_pretty p x s :
  (∀ n, (n < 10)%N → p (pretty_N_char n) = false) →
  none p s = true → none p (pretty_N_go x s) = true.
Proof.
  intros Hp. revert s. induction (N.lt_wf_0 x) as [x _ IH]; intros s Hs.
  destruct (decide (x = 0)%N) as [->|Hx]; [by rewrite pretty_N_go_0|].
  rewrite pretty_N_go_step by lia. apply IH; [apply N.div_lt; lia|].
  simpl. rewrite Hp by (apply N.mod_lt; done). done.
Qed.

Lemma pretty_N_go_app x s : pretty_N_go x s = pretty_N_go x EmptyString +:+ s.
Proof.
  revert s. induction (N.lt_wf_0 x) as [x _ IH]; intros s.
  destruct (decide (x = 0)%N) as [->|Hx]; [by rewrite !pretty_N_go_0|].
  rewrite !(pretty_N_go_step x) by lia.
  rewrite (IH (x `div` 10)%N ltac:(apply N.div_lt; lia) (String _ s)).
  rewrite (IH (x `div` 10)%N ltac:(apply N.div_lt; lia) (String _ EmptyString)).
  by rewrite append_assoc.
Qed.

Lemma pretty_N_head x :
  ∃ c s, pretty_N x = String c s ∧ digit c ≠ None.
Proof.
  unfold pretty_N. destruct (decide (x = 0)%N) as [|Hx]; [by eexists _, _|].
  assert (none (fun c => negb (is_digit c)) (pretty_N_go x EmptyString) = true) as Hd.
  { apply none_pretty; [|done]. intros n Hn. unfold is_digit.
    by rewrite digit_char. }
  destruct (pretty_N_go x EmptyString) as [|c s] eqn:E.
  { exfalso. rewrite pretty_N_go_step in E by lia. rewrite pretty_N_go_app in E.
    by destruct (pretty_N_go (x `div` 10) EmptyString). }
  eexists _, _. split; [done|]. simpl in Hd. unfold is_digit in Hd.
  by destruct (digit c).
Qed.

Lemma none_pretty_N p x :
  (∀ n, (n < 10)%N → p (pretty_N_char n) = false) → none p (pretty_N x) = true.
Proof.
  intros Hp. unfold pretty_N. destruct (decide _).
  - simpl. change "0"%char with (pretty_N_char 0). by rewrite Hp.
  - by apply none_pretty.
Qed.

(** A printed natural number holds digits only. *)
Lemma none_py_str p z :
  0 ≤ z → (∀ n, (n < 10)%N → p (pretty_N_char n) = false) → none p (py_str z) = true.
Proof.
  intros Hz Hp. unfold py_str. rewrite <-(Z2N.id z Hz).
  assert (pretty (Z.of_N (Z.to_N z)) = pretty_N (Z.to_N z)) as -> by by destruct (Z.to_N z).
  by apply none_pretty_N.
Qed.

Lemma py_str_blank_free z : 0 ≤ z → none is_space (py_str z) = true.
Proof.
  intros Hz. apply none_py_str; [done|]. intros n Hn.
  destruct n as [|p]; [done|]. do 4 (destruct p as [p|p|]; try done; try lia).
Qed.

Lemma py_str_dot_free z : 0 ≤ z → none (char_eq ".") (py_str z) = true.
Proof.
  intros Hz. apply none_py_str; [done|]. intros n Hn.
  destruct n as [|p]; [done|]. do 4 (destruct p as [p|p|]; try done; try lia).
Qed.

(** Splitting at a character that is not in the words. *)
Lemma split_on_last c w : none (char_eq c) w = true → split_on c w = [w].
Proof.
  unfold char_eq. induction w as [|a w IH]; [done|]. simpl. intros [Ha Hw]%andb_prop.
  apply negb_true_iff in Ha. by rewrite Ha, IH.
Qed.

Lemma split_on_word c w s :
  none (char_eq c) w = true → split_on c (w +:+ String c s) = w :: split_on c s.
Proof.
  unfold char_eq. induction w as [|a w IH]; intros Hw; simpl in Hw.
  - rewrite append_nil_l. simpl. by rewrite Ascii.eqb_refl.
  - apply andb_prop in Hw as [Ha Hw]. apply negb_true_iff in Ha.
    rewrite append_cons. simpl. by rewrite Ha, IH.
Qed.

Lemma py_str_nonempty z : py_str z ≠ EmptyString.
Proof.
  destruct z as [|p|p]; [done| |done].
  unfold py_str, pretty, pretty_Z. change (pretty p) with (pretty_N (Npos p)).
  destruct (pretty_N_head (Npos p)) as (c & s & -> & _). done.
Qed.

Lemma rstrip_none p s : none p s = true → rstrip_if p s = s.
Proof.
  induction s as [|c s IH]; [done|]. simpl. intros [Hc Hs]%andb_prop.
  rewrite IH by done. destruct s; [|done]. apply negb_true_iff in Hc. by rewrite Hc.
Qed.

Lemma lstrip_none p s : none p s = true → lstrip_if p s = s.
Proof.
  destruct s as [|c s]; [done|]. simpl. intros [Hc Hs]%andb_prop.
  apply negb_true_iff in Hc. by rewrite Hc.
Qed.

Lemma strip_none s : none is_space s = true → strip s = s.
Proof. intros H. unfold strip. by rewrite lstrip_none, rstrip_none. Qed.

Lemma py_str_N z : 0 ≤ z → py_str z = pretty_N (Z.to_N z).
Proof. intros Hz. rewrite <-(Z2N.id z Hz) at 1. by destruct (Z.to_N z). Qed.

Lemma int_digits_str z : 0 ≤ z → int_digits (py_str z) 0 false = Some z.
Proof.
  intros Hz. rewrite (py_str_N z Hz). unfold pretty_N. destruct (decide _) as [E|].
  - simpl. f_equal. lia.
  - rewrite int_digits_pretty by lia. simpl. f_equal. lia.
Qed.

(** [int(str(z)) == z] *)
Lemma py_int_str z : 0 ≤ z → py_int (py_str z) = Some z.
Proof.
  intros Hz. unfold py_int. rewrite strip_none by by apply py_str_blank_free.
  pose proof (int_digits_str z Hz) as Hi. rewrite (py_str_N z Hz) in *.
  destruct (pretty_N_head (Z.to_N z)) as (c & s & E & Hc). rewrite E in *.
  destruct c as [[] [] [] [] [] [] [] []]; try done; by destruct Hc.
Qed.

Lemma py_str_neg z : z < 0 → py_str z = String "-"%char (py_str (- z)).
Proof. by destruct z. Qed.

Lemma py_int_str_neg z : 0 < z → py_int (String "-"%char (py_str z)) = Some (- z).
Proof.
  intros Hz. unfold py_int. rewrite strip_none.
  - by rewrite int_digits_str by lia.
  - simpl. apply py_str_blank_free. lia.
Qed.

Lemma py_str_word z : none is_space (py_str z) = true.
Proof.
  destruct (decide (0 ≤ z)) as [Hz|Hz]; [by apply py_str_blank_free|].
  rewrite py_str_neg by lia. simpl. apply py_str_blank_free. lia.
Qed.

Lemma py_int_any z : py_int (py_str z) = Some z.
Proof.
  destruct (decide (0 ≤ z)) as [Hz|Hz]; [by apply py_int_str|].
  rewrite py_str_neg, py_int_str_neg by lia. f_equal. lia.
Qed.

(** A positive number has no leading zero. *)
Lemma pretty_N_go_head x s :
  (0 < x)%N → ∃ n s', pretty_N_go x s = String (pretty_N_char n) s' ∧ (0 < n < 10)%N.
Proof.
  revert s. induction (N.lt_wf_0 x) as [x _ IH]; intros s Hx.
  rewrite pretty_N_go_step by done.
  destruct (decide (x `div` 10 = 0)%N) as [E|E].
  - rewrite E, pretty_N_go_0. exists (x `mod` 10)%N, s. split; [done|].
    pose proof (N.mod_lt x 10 ltac:(done)). pose proof (N.div_mod x 10 ltac:(done)). lia.
  - apply IH; [apply N.div_lt; lia|]. by apply N.neq_0_lt_0.
Qed.

Lemma py_str_inj z1 z2 : py_str z1 = py_str z2 → z1 = z2.
Proof. apply pretty_Z_inj. Qed.

(** ** The last line of a text *)

Lemma rstrip_app_kept p s w :
  none p w = true → w ≠ EmptyString → rstrip_if p (s +:+ w) = s +:+ w.
Proof.
  intros Hw Hne. induction s as [|c s IH]; [by rewrite append_nil_l, rstrip_none|].
  rewrite append_cons. simpl. rewrite IH. destruct s; [by destruct w|done].
Qed.

Lemma rstrip_app_dropped p s c :
  p c = true → rstrip_if p (s +:+ String c EmptyString) = rstrip_if p s.
Proof.
  intros Hc. induction s as [|a s IH]; [simpl; by rewrite Hc|].
  rewrite append_cons. simpl. by rewrite IH.
Qed.

Lemma lines_go_single w :
  none is_linebreak w = true → w ≠ EmptyString → lines_go w = (Some w, []).
Proof.
  induction w as [|c w IH]; [done|]. simpl. intros [Hc Hw]%andb_prop _.
  apply negb_true_iff in Hc. destruct w as [|a w]; [simpl; by rewrite Hc|].
  rewrite IH by done. by rewrite Hc.
Qed.

Lemma lines_go_after_newline pre w :
  none is_linebreak w = true → w ≠ EmptyString →
  ∃ o ls, lines_go (pre +:+ String (ascii_of_nat 10) w) = (o, ls) ∧ ls ≠ [] ∧
    List.last ls EmptyString = w.
Proof.
  intros Hw Hne. induction pre as [|c pre (o & ls & IH & Hls & Hlast)].
  - rewrite append_nil_l. simpl. rewrite lines_go_single by done. simpl. by eexists _, _.
  - rewrite append_cons. simpl. rewrite IH. destruct (is_linebreak c); [|by eexists _, _].
    destruct (_ && _); [by eexists _, _|]. eexists _, _. split; [done|].
    destruct o as [l|]; [|done]. simpl. by destruct ls.
Qed.

Lemma lstrip_before_newline pre w :
  none is_space (match w with String c _ => String c EmptyString | _ => w end) = true →
  w ≠ EmptyString →
  lstrip_if is_space (pre +:+ String (ascii_of_nat 10) w) = w ∨
  ∃ pre', lstrip_if is_space (pre +:+ String (ascii_of_nat 10) w) =
          pre' +:+ String (ascii_of_nat 10) w.
Proof.
  intros Hw Hne. induction pre as [|c pre IH].
  - left. rewrite append_nil_l. simpl. destruct w as [|a w]; [done|]. simpl in *.
    rewrite andb_true_r in Hw. apply negb_true_iff in Hw. by rewrite Hw.
  - rewrite append_cons. simpl. destruct (is_space c); [done|].
    right. by exists (String c pre).
Qed.

Lemma lines_go_line w s o ls :
  none is_linebreak w = true → lines_go s = (o, ls) →
  lines_go (w +:+ String (ascii_of_nat 10) s) = (Some w, option_list o ++ ls).
Proof.
  intros Hw Hs. induction w as [|c w IH].
  - rewrite append_nil_l. simpl. by rewrite Hs.
  - simpl in Hw. apply andb_prop in Hw as [Hc Hw]. apply negb_true_iff in Hc.
    rewrite append_cons. simpl. rewrite IH by done. by rewrite Hc.
Qed.

Lemma startswith_app p s : startswith p (p +:+ s) = true.
Proof.
  unfold startswith. induction p as [|c p IH]; [by destruct s|].
  rewrite append_cons. simpl. by destruct (ascii_dec c c).
Qed.

(** ** Slices *)

Lemma str_take_app s s' : str_take (String.length s) (s +:+ s') = s.
Proof. induction s as [|c s IH]; [by destruct s'|]. rewrite append_cons. simpl. by rewrite IH. Qed.

Lemma take_drop_str n s : str_take n s +:+ str_drop n s = s.
Proof.
  revert s. induction n as [|n IH]; intros [|c s]; [done..|].
  simpl. by rewrite append_cons, IH.
Qed.
