(* ===== verification/PyNum.v ===== *)
(** * [float(s)]

    Decimal text to binary64, rounded once: the significand and the power of
    ten are exact integers and meet in one division or multiplication. *)
From Stdlib Require Import SpecFloat Ascii.
From S2P Require Import Prelude PyFloat PyStr.

(** Digits, single underscores between them; the value, how many, the rest. *)
Fixpoint scan_digits (s : string) (acc : Z) (n : nat) : Z * nat * string :=
  match s with
  | EmptyString => (acc, n, s)
  | String c s' =>
      match digit c with
      | Some d => scan_digits s' (10 * acc + d) (S n)
      | None =>
          if Ascii.eqb c "_"%char && (0 <? n)%nat then
            match s' with
            | String c' s'' =>
                match digit c' with
                | Some d => scan_digits s'' (10 * acc + d) (S n)
                | None => (acc, n, s)
                end
            | EmptyString => (acc, n, s)
            end
          else (acc, n, s)
      end
  end.

(** [m * 10^e], rounded once. *)
Definition decimal (neg : bool) (m e : Z) : float :=
  match m with
  | Zpos p =>
      match e with
      | Zneg q => fquot (S754_finite neg p 0) (S754_finite false (Pos.pow 10 q) 0)
      | Zpos q => fquot (S754_finite neg (p * Pos.pow 10 q) 0) (S754_finite false 1 0)
      | Z0 => fquot (S754_finite neg p 0) (S754_finite false 1 0)
      end
  | _ => S754_zero neg
  end.

(** [e12], [E-3] or nothing, up to the end of the text. *)
Definition scan_exponent (s : string) : option Z :=
  match s with
  | EmptyString => Some 0
  | String c s' =>
      if Ascii.eqb c "e"%char || Ascii.eqb c "E"%char then
        let '(sign, s'') :=
          match s' with
          | String "-"%char r => (-1, r)
          | String "+"%char r => (1, r)
          | _ => (1, s')
          end in
        let '(v, n, rest) := scan_digits s'' 0 0 in
        match n, rest with
        | S _, EmptyString => Some (sign * v)
        | _, _ => None
        end
      else None
  end.

Definition unsigned_float (neg : bool) (s : string) : option float :=
  if bool_decide (s = "inf") || bool_decide (s = "infinity") then Some (S754_infinity neg)
  else if bool_decide (s = "nan") then Some S754_nan
  else
    let '(m, n, rest) := scan_digits s 0 0 in
    let '(m', k, rest') :=
      match rest with
      | String "."%char r => let '(m', n', r') := scan_digits r m 0 in (m', n', r')
      | _ => (m, 0%nat, rest)
      end in
    if (n + k =? 0)%nat then None
    else e ← scan_exponent rest'; Some (decimal neg m' (e - Z.of_nat k)).

Definition lower (c : ascii) : ascii :=
  let n := nat_of_ascii c in
  if ((65 <=? n) && (n <=? 90))%nat then ascii_of_nat (n + 32) else c.

Fixpoint lower_string (s : string) : string :=
  match s with EmptyString => EmptyString | String c s' => String (lower c) (lower_string s') end.

(** [float(s)]; [None] is [ValueError]. *)
Definition py_float (s : string) : option float :=
  match lower_string (strip s) with
  | String "-"%char r => unsigned_float true r
  | String "+"%char r => unsigned_float false r
  | r => unsigned_float false r
  end.

Example py_float_half : py_float " -0.5 " = Some (fquot (of_int (-1)) (of_int 2)).
Proof. vm_compute. reflexivity. Qed.

Example py_float_exponent : py_float "1.25e2" = Some (of_int 125).
Proof. vm_compute. reflexivity. Qed.

Example py_float_none : py_float "12x" = None.
Proof. vm_compute. reflexivity. Qed.
