(* ===== verification/PyRepr.v ===== *)
(** * [repr] of floats and strings, and the order of strings

    [float.__repr__] is the shortest decimal that reads back as the float,
    the nearest one if there are several: [shortest] looks for it one digit
    at a time, checking each candidate with the reader ([PyNum.decimal]).
    [str.__repr__] is on 8-bit strings, as in PyStr.v. *)
From Stdlib Require Import Ascii.
From stdpp Require Import sorting.
From S2P Require Import Prelude PyFloat PyStr PyNum.

(** ** Floats *)

(** A float decides equality. *)
#[export] Instance float_eq_dec : EqDecision float.
Proof. solve_decision. Defined.

(** The number of decimal digits of a natural number. *)
Definition n_digits (z : Z) : Z := Z.of_nat (String.length (py_str z)).

(** A decimal [d * 10^k], without the trailing zeros of [d]. *)
Fixpoint strip_zeros (fuel : nat) (d k : Z) : Z * Z :=
  match fuel with
  | O => (d, k)
  | S fuel' => if (d `mod` 10 =? 0) && (0 <? d) then strip_zeros fuel' (d / 10) (k + 1) else (d, k)
  end.

(** [num / den / 10^k], rounded down, and the remainder with its divisor. *)
Definition scaled (num den k : Z) : Z * Z * Z :=
  let n := if k <? 0 then num * 10 ^ (- k) else num in
  let d := if k <? 0 then den else den * 10 ^ k in
  (n / d, n `mod` d, d).

(** Of the two decimals around the value with last place [10^k], the one that
    reads back as [x]: the nearer, on a tie the even one. *)
Definition candidate (x : float) (num den k : Z) : option (Z * Z) :=
  let '(lo, r, d) := scaled num den k in
  let reads z := bool_decide (decimal false z k = x) in
  let lo_first := if 2 * r =? d then Z.even lo else 2 * r <? d in
  let '(c1, c2) := if lo_first then (lo, lo + 1) else (lo + 1, lo) in
  if reads c1 then Some (c1, k) else if reads c2 then Some (c2, k) else None.

(** One digit more at each step; the exact value as a last resort (17 digits
    always do); either reads back ([FloatText.shortest_reads]). *)
Fixpoint search (todo : nat) (x : float) (num den k : Z) (exact : Z * Z) : Z * Z :=
  match todo with
  | O => exact
  | S todo' =>
      match candidate x num den k with
      | Some c => c
      | None => search todo' x num den (k - 1) exact
      end
  end.

(** The digits and the exponent of the positive float [m * 2^e]. *)
Definition shortest (m : positive) (e : Z) : Z * Z :=
  let num := Z.pos m * 2 ^ Z.max e 0 in
  let den := 2 ^ Z.max (- e) 0 in
  let exact := if e <? 0 then (Z.pos m * 5 ^ (- e), e) else (num, 0) in
  let p := n_digits num - n_digits den in
  let '(d, k) := search 18 (S754_finite false m e) num den p exact in
  strip_zeros 1100 d k.

Fixpoint zeros (n : nat) : string :=
  match n with O => EmptyString | S n' => String "0" (zeros n') end.

(** [e+16], [e-07] *)
Definition exponent_text (x : Z) : string :=
  (if x <? 0 then "e-" else "e+") +:+
  (if Z.abs x <? 10 then "0" else EmptyString) +:+ py_str (Z.abs x).

(** The text of [d * 10^k]: [decpt] is where the point goes. *)
Definition decimal_text (d k : Z) : string :=
  let ds := py_str d in
  let nd := n_digits d in
  let decpt := nd + k in
  if (decpt <=? -4) || (16 <? decpt) then
    str_take 1 ds +:+ (if nd =? 1 then EmptyString else "." +:+ str_drop 1 ds)
      +:+ exponent_text (decpt - 1)
  else if decpt <=? 0 then "0." +:+ zeros (Z.to_nat (- decpt)) +:+ ds
  else if nd <=? decpt then ds +:+ zeros (Z.to_nat (decpt - nd)) +:+ ".0"
  else str_take (Z.to_nat decpt) ds +:+ "." +:+ str_drop (Z.to_nat decpt) ds.

Definition minus (neg : bool) : string := if neg then "-" else EmptyString.

Definition float_repr (x : float) : string :=
  match x with
  | S754_zero s => minus s +:+ "0.0"
  | S754_infinity s => minus s +:+ "inf"
  | S754_nan => "nan"
  | S754_finite s m e => let '(d, k) := shortest m e in minus s +:+ decimal_text d k
  end.

Example float_repr_tenth : float_repr (lit 1 10) = "0.1".
Proof. vm_compute. reflexivity. Qed.

Example float_repr_sum : float_repr (fadd (lit 1 10) (lit 2 10)) = "0.30000000000000004".
Proof. vm_compute. reflexivity. Qed.

Example float_repr_whole : float_repr (of_int 11) = "11.0".
Proof. vm_compute. reflexivity. Qed.

Example float_repr_big : float_repr (of_int (10 ^ 16)) = "1e+16".
Proof. vm_compute. reflexivity. Qed.

Example float_repr_limit : float_repr (of_int 9007199254740993) = "9007199254740992.0".
Proof. vm_compute. reflexivity. Qed.

Example float_repr_small : float_repr (lit 15 100000000) = "1.5e-07".
Proof. vm_compute. reflexivity. Qed.

Example float_repr_least : float_repr (S754_finite false 1 (-1074)) = "5e-324".
Proof. vm_compute. reflexivity. Qed.

Example float_repr_greatest :
  float_repr (S754_finite false (2 ^ 53 - 1) 971) = "1.7976931348623157e+308".
Proof. vm_compute. reflexivity. Qed.

(** ** Strings *)

(** [str.isprintable] below 256. *)
Definition is_printable (c : ascii) : bool :=
  let n := code c in
  ((32 <=? n) && (n <=? 126) || (161 <=? n) && negb (n =? 173))%N.

Definition hex_char (n : N) : ascii :=
  ascii_of_N (if (n <? 10)%N then 48 + n else 87 + n)%N.

(** Two lower-case hexadecimal digits. *)
Definition hex2 (c : ascii) : string :=
  let n := code c in
  String (hex_char (n / 16)%N) (String (hex_char (n mod 16)%N) EmptyString).

Definition single_quote : ascii := "'"%char.
Definition double_quote : ascii := ascii_of_nat 34.
Definition backslash : ascii := ascii_of_nat 92.

(** One character between quotes [q]. *)
Definition repr_char (q c : ascii) : string :=
  if Ascii.eqb c q || Ascii.eqb c backslash then String backslash (String c EmptyString)
  else if (code c =? 9)%N then String backslash "t"
  else if (code c =? 10)%N then String backslash "n"
  else if (code c =? 13)%N then String backslash "r"
  else if is_printable c then String c EmptyString
  else String backslash ("x" +:+ hex2 c).

Fixpoint repr_chars (q : ascii) (s : string) : string :=
  match s with
  | EmptyString => EmptyString
  | String c s' => repr_char q c +:+ repr_chars q s'
  end.

(** Single quotes, unless the string has them and no double ones. *)
Definition str_repr (s : string) : string :=
  let q := if negb (none (char_eq single_quote) s) && none (char_eq double_quote) s
           then double_quote else single_quote in
  String q (repr_chars q s +:+ String q EmptyString).

(** [s <= t], by code points. *)
Fixpoint str_le (s t : string) : bool :=
  match s, t with
  | EmptyString, _ => true
  | String _ _, EmptyString => false
  | String a s', String b t' =>
      if (code a =? code b)%N then str_le s' t' else (code a <? code b)%N
  end.

Definition str_order (s t : string) : Prop := str_le s t = true.

#[export] Instance str_order_dec s t : Decision (str_order s t).
Proof. unfold str_order. apply _. Defined.

Lemma code_inj a b : code a = code b → a = b.
Proof.
  unfold code. intros H. by rewrite <-(ascii_N_embedding a), <-(ascii_N_embedding b), H.
Qed.

#[export] Instance str_order_total : Total str_order.
Proof.
  intros s. unfold str_order. induction s as [|a s IH]; intros [|b t]; simpl; auto.
  destruct (N.eqb_spec (code a) (code b)) as [E|E]; [rewrite E, N.eqb_refl; apply IH|].
  destruct (N.eqb_spec (code b) (code a)); [congruence|]. rewrite !N.ltb_lt. lia.
Qed.

#[export] Instance str_order_antisymm : AntiSymm (=) str_order.
Proof.
  intros s. unfold str_order. induction s as [|a s IH]; intros [|b t]; simpl; [done..|].
  destruct (N.eqb_spec (code a) (code b)) as [E|E].
  - rewrite E, N.eqb_refl. apply code_inj in E as ->. intros H1 H2. f_equal. auto.
  - destruct (N.eqb_spec (code b) (code a)); [congruence|]. rewrite !N.ltb_lt. lia.
Qed.

#[export] Instance str_order_trans : Transitive str_order.
Proof.
  intros s. unfold str_order. induction s as [|a s IH]; intros [|b t] [|c u]; simpl; try done.
  destruct (N.eqb_spec (code a) (code b)) as [E1|E1];
    destruct (N.eqb_spec (code b) (code c)) as [E2|E2];
    destruct (N.eqb_spec (code a) (code c)) as [E3|E3]; try congruence;
    rewrite ?N.ltb_lt; try lia. apply IH.
Qed.

(** [sorted(l)] on strings. *)
Definition sorted_strs (l : list string) : list string := merge_sort str_order l.

Lemma sorted_strs_perm l : sorted_strs l ≡ₚ l.
Proof. apply merge_sort_Permutation. Qed.

(** Two lists sort to the same list exactly when one is a permutation of the
    other. *)
Lemma sorted_strs_eq l1 l2 : sorted_strs l1 = sorted_strs l2 ↔ l1 ≡ₚ l2.
Proof.
  split.
  - intros H. by rewrite <-(sorted_strs_perm l1), H, sorted_strs_perm.
  - intros H. apply (Sorted_unique str_order); [apply Sorted_merge_sort; apply _..|].
    by rewrite !sorted_strs_perm.
Qed.
