(* ===== verification/FloatText.v ===== *)
(** * Floats as text

    [float(repr(x)) == x] for every double, bit for bit ([float_repr_reads]):
    the digits [repr] finds were checked against the reader, the last resort
    is exact, and neither trailing zeros nor the place of the decimal point
    change the number that is read. *)
From Stdlib Require Import Ascii.
From Corelib Require Import SpecFloat.
From S2P Require Import Prelude PyFloat Rounding PyStr PyNum PyRepr.

(** ** Decimals *)

(** The decimal [m * 10^k] as a quotient. *)
Lemma decimal_quotient s m k :
  ∃ n d, decimal s (Zpos m) k = quotient s n d ∧
    Zpos n = Zpos m * 10 ^ Z.max k 0 ∧ Zpos d = 10 ^ Z.max (- k) 0.
Proof.
  destruct k as [|p|p]; simpl Z.max; simpl Z.opp.
  - exists m, 1%positive. by rewrite Z.mul_1_r.
  - exists (m * Pos.pow 10 p)%positive, 1%positive.
    by rewrite Pos2Z.inj_mul, Pos2Z.inj_pow.
  - exists m, (Pos.pow 10 p). by rewrite Z.mul_1_r, Pos2Z.inj_pow.
Qed.

Lemma decimal_valid s m k : valid (decimal s m k) = true.
Proof.
  destruct m as [|m|m]; [done| |done].
  destruct (decimal_quotient s m k) as (n & d & -> & _). apply fquot_valid.
Qed.

(** Decimals that are the same rational number read alike. *)
Lemma decimal_same s m k m' k' :
  0 < m → 0 < m' →
  m * 10 ^ (Z.max k 0 + Z.max (- k') 0) = m' * 10 ^ (Z.max k' 0 + Z.max (- k) 0) →
  decimal s m k = decimal s m' k'.
Proof.
  intros Hm Hm' E. destruct m as [|m|m]; [lia| |lia]. destruct m' as [|m'|m']; [lia| |lia].
  destruct (decimal_quotient s m k) as (n & d & -> & Hn & Hd).
  destruct (decimal_quotient s m' k') as (n' & d' & -> & Hn' & Hd').
  apply quotient_scale. apply (inj Zpos). rewrite !Pos2Z.inj_mul, Hn, Hd, Hn', Hd'.
  by rewrite <-!Z.mul_assoc, <-!Z.pow_add_r by lia.
Qed.

Lemma decimal_shift s m k j :
  0 < m → 0 ≤ j → decimal s (m * 10 ^ j) k = decimal s m (k + j).
Proof.
  intros Hm Hj. assert (0 < 10 ^ j) by (apply Z.pow_pos_nonneg; lia).
  apply decimal_same; [nia|done|]. rewrite <-Z.mul_assoc, <-Z.pow_add_r by lia. do 2 f_equal. lia.
Qed.

Definition signed (s : bool) (x : float) : float :=
  match x with
  | S754_zero _ => S754_zero s
  | S754_infinity _ => S754_infinity s
  | S754_nan => S754_nan
  | S754_finite _ m e => S754_finite s m e
  end.

Lemma decimal_signed s m k : decimal s m k = signed s (decimal false m k).
Proof.
  destruct m as [|m|m]; [done| |done]. destruct (decimal_quotient s m k) as (n & d & -> & Hn & Hd).
  destruct (decimal_quotient false m k) as (n' & d' & -> & Hn' & Hd').
  assert (n' = n) as -> by (apply (inj Zpos); congruence).
  assert (d' = d) as -> by (apply (inj Zpos); congruence).
  destruct (magnitude_digits (Zpos n) (Zpos d)) as (k' & Hk & _); [lia..|].
  unfold quotient. rewrite !(fquot_rounded _ _ _ _ Hk). unfold rounded.
  destruct (SpecFloat.shr_fexp _ _ _ _ _) as [mrs e]. destruct (shr_m mrs); [done| |done].
  by destruct (_ <=? _).
Qed.

(** ** The shortest digits *)

Lemma candidate_reads x num den k c k' :
  candidate x num den k = Some (c, k') → decimal false c k' = x.
Proof.
  unfold candidate. destruct (scaled num den k) as [[lo r] d].
  destruct (if (if 2 * r =? d then _ else _) : bool then (lo, lo + 1) else (lo + 1, lo)) as [c1 c2].
  destruct (bool_decide_reflect (decimal false c1 k = x)); [by intros [= <- <-]|].
  by destruct (bool_decide_reflect (decimal false c2 k = x)); [intros [= <- <-]|].
Qed.

Lemma search_reads todo x num den k exact :
  decimal false exact.1 exact.2 = x →
  let r := search todo x num den k exact in decimal false r.1 r.2 = x.
Proof.
  intros He. revert k. induction todo as [|todo IH]; intros k; [done|]. simpl.
  destruct (candidate x num den k) as [[c k']|] eqn:Hc; [|apply IH].
  by apply candidate_reads in Hc.
Qed.

Lemma strip_zeros_reads fuel d k :
  0 < d → let r := strip_zeros fuel d k in 0 < r.1 ∧ decimal false r.1 r.2 = decimal false d k.
Proof.
  revert d k. induction fuel as [|fuel IH]; intros d k Hd; [done|]. simpl.
  destruct (Z.eqb_spec (d `mod` 10) 0) as [Hm|]; [|done]. rewrite (proj2 (Z.ltb_lt 0 d) Hd).
  cbv zeta iota beta delta [andb]. destruct (IH (d / 10) (k + 1)) as [H1 H2].
  { pose proof (Z.div_mod d 10). lia. }
  split; [done|]. rewrite H2.
  rewrite <-(decimal_shift _ (d / 10) k 1); [|pose proof (Z.div_mod d 10); lia|done].
  f_equal. pose proof (Z.div_mod d 10). lia.
Qed.

(** The exact decimal of a double reads as it. *)
Lemma exact_reads m e :
  bounded prec emax m e = true →
  let exact := if e <? 0 then (Z.pos m * 5 ^ (- e), e) else (Z.pos m * 2 ^ Z.max e 0, 0) in
  decimal false exact.1 exact.2 = S754_finite false m e.
Proof.
  intros Hb. cbv zeta. destruct (Z.ltb_spec e 0) as [He|He]; simpl fst; simpl snd.
  - assert (0 < 5 ^ (- e)) by (apply Z.pow_pos_nonneg; lia).
    destruct (Zpos m * 5 ^ (- e)) as [|p|p] eqn:Ep; [nia| |nia].
    destruct (decimal_quotient false p e) as (n & d & -> & Hn & Hd).
    apply quotient_exact; [done|]. rewrite Hn, Hd, <-Ep.
    rewrite !(Z.max_r e 0), !(Z.max_l (- e) 0) by lia. rewrite !Z.pow_0_r.
    change 10 with (5 * 2). rewrite Z.pow_mul_l. ring.
  - assert (0 < 2 ^ Z.max e 0) by (apply Z.pow_pos_nonneg; lia).
    destruct (Zpos m * 2 ^ Z.max e 0) as [|p|p] eqn:Ep; [nia| |nia].
    destruct (decimal_quotient false p 0) as (n & d & -> & Hn & Hd).
    apply quotient_exact; [done|]. rewrite Hn, Hd, <-Ep. change (Z.max 0 0) with 0.
    change (Z.max (- 0) 0) with 0. rewrite (Z.max_r (- e) 0), !Z.pow_0_r by lia. ring.
Qed.

Lemma shortest_reads m e :
  bounded prec emax m e = true →
  let r := shortest m e in 0 < r.1 ∧ ∀ s, decimal s r.1 r.2 = S754_finite s m e.
Proof.
  intros Hb. unfold shortest.
  pose proof (search_reads 18 (S754_finite false m e) (Zpos m * 2 ^ Z.max e 0)
    (2 ^ Z.max (- e) 0) (n_digits (Zpos m * 2 ^ Z.max e 0) - n_digits (2 ^ Z.max (- e) 0))
    _ (exact_reads m e Hb)) as Hs.
  cbv zeta in *. revert Hs. generalize (search 18 (S754_finite false m e) (Zpos m * 2 ^ Z.max e 0)
    (2 ^ Z.max (- e) 0) (n_digits (Zpos m * 2 ^ Z.max e 0) - n_digits (2 ^ Z.max (- e) 0))
    (if e <? 0 then (Zpos m * 5 ^ (- e), e) else (Zpos m * 2 ^ Z.max e 0, 0))).
  intros [d k] Hs. cbn [fst snd] in Hs.
  assert (0 < d) as Hd by by destruct d.
  destruct (strip_zeros_reads 1100 d k Hd) as [H1 H2]. split; [done|]. intros s.
  by rewrite decimal_signed, H2, Hs.
Qed.

(** ** Digits *)

(** The number a string of digits stands for, after [acc]. *)
Fixpoint numeral (s : string) (acc : Z) : Z :=
  match s with
  | EmptyString => acc
  | String c s' => numeral s' (10 * acc + default 0 (digit c))
  end.

Lemma numeral_app s t acc : numeral (s +:+ t) acc = numeral t (numeral s acc).
Proof. revert acc. induction s as [|c s IH]; intros acc; [done|]. apply IH. Qed.

Lemma numeral_zeros n acc : numeral (zeros n) acc = acc * 10 ^ Z.of_nat n.
Proof.
  revert acc. induction n as [|n IH]; intros acc.
  { simpl numeral. rewrite Z.mul_1_r. done. }
  change (numeral (zeros (S n)) acc) with (numeral (zeros n) (10 * acc + 0)).
  rewrite IH, Nat2Z.inj_succ, Z.pow_succ_r by lia. ring.
Qed.

Lemma digit_string_cons c s :
  digit_string (String c s) = true → (∃ z, digit c = Some z) ∧ digit_string s = true.
Proof.
  unfold digit_string. simpl. intros [Hc Hs]%andb_prop. split; [|done].
  destruct (digit c); [by eexists|done].
Qed.

Lemma digit_not_underscore c z : digit c = Some z → Ascii.eqb c "_"%char = false.
Proof. intros H. destruct (Ascii.eqb_spec c "_"%char) as [->|]; done. Qed.

Lemma int_digits_numeral s acc :
  digit_string s = true → int_digits s acc true = Some (numeral s acc).
Proof.
  revert acc. induction s as [|c s IH]; intros acc; [done|].
  intros [[z Hz] Hs]%digit_string_cons. simpl. rewrite (digit_not_underscore _ _ Hz), Hz. by apply IH.
Qed.

Lemma digit_string_py_str z : 0 ≤ z → digit_string (py_str z) = true.
Proof. intros Hz. apply none_py_str; [done|]. intros n Hn. by rewrite digit_char. Qed.

Lemma numeral_py_str z : 0 ≤ z → numeral (py_str z) 0 = z.
Proof.
  intros Hz. pose proof (int_digits_str z Hz) as H. pose proof (digit_string_py_str z Hz) as Hd.
  pose proof (py_str_nonempty z) as Hne. destruct (py_str z) as [|c s]; [done|].
  apply digit_string_cons in Hd as [[d Hd] Hs]. simpl in *.
  rewrite (digit_not_underscore _ _ Hd), Hd, int_digits_numeral in H by done.
  rewrite Hd. simpl. by injection H.
Qed.

(** The scan ends where something else than a digit or an underscore begins. *)
Definition ends_digits (s : string) : bool :=
  match s with
  | String c _ => negb (is_digit c) && negb (Ascii.eqb c "_"%char)
  | EmptyString => true
  end.

Lemma scan_digits_app t rest acc n :
  digit_string t = true → ends_digits rest = true →
  scan_digits (t +:+ rest) acc n = (numeral t acc, (n + String.length t)%nat, rest).
Proof.
  intros Ht Hr. revert acc n. induction t as [|c t IH]; intros acc n.
  - rewrite append_nil_l. simpl. rewrite Nat.add_0_r. destruct rest as [|c rest]; [done|].
    simpl in Hr. unfold is_digit in Hr. simpl. destruct (digit c); [done|].
    by destruct (Ascii.eqb c "_"%char).
  - apply digit_string_cons in Ht as [[z Hz] Ht]. rewrite append_cons. simpl.
    rewrite Hz, IH by done. simpl. by rewrite Nat.add_succ_r.
Qed.

(** ** The text of a number *)

Definition after_point (f : option string) : string :=
  match f with Some f => "." +:+ f | None => EmptyString end.

Definition after_e (x : option Z) : string :=
  match x with Some x => exponent_text x | None => EmptyString end.

(** Digits, a point and digits, an exponent. *)
Definition number_text (ip : string) (f : option string) (x : option Z) : string :=
  ip +:+ after_point f +:+ after_e x.

Lemma exponent_text_eq x :
  exponent_text x = String "e"%char (String (if x <? 0 then "-"%char else "+"%char)
    ((if Z.abs x <? 10 then "0" else EmptyString) +:+ py_str (Z.abs x))).
Proof. unfold exponent_text. by destruct (x <? 0). Qed.

Lemma scan_after_e x : scan_exponent (after_e x) = Some (default 0 x).
Proof.
  destruct x as [x|]; [|done]. simpl after_e. rewrite exponent_text_eq. simpl scan_exponent.
  set (t := _ +:+ py_str (Z.abs x)).
  assert (digit_string t = true ∧ numeral t 0 = Z.abs x ∧ t ≠ EmptyString) as (Hd & Hn & Hne).
  { pose proof (digit_string_py_str (Z.abs x) ltac:(lia)). subst t. rewrite numeral_app.
    destruct (Z.abs x <? 10); simpl numeral; rewrite numeral_py_str by lia;
      (split; [done|]; split; [done|]); [done|apply py_str_nonempty]. }
  assert (scan_digits t 0 0 = (Z.abs x, String.length t, EmptyString)) as Hs.
  { rewrite <-(append_nil_r t) at 1. rewrite scan_digits_app by done. by rewrite Hn. }
  destruct t as [|c t]; [done|]. cbn [String.length] in Hs.
  destruct (Z.ltb_spec x 0); rewrite Hs; simpl; f_equal; lia.
Qed.

Definition frac_digits (f : option string) : string := default EmptyString f.

Lemma unsigned_number_text s ip f x :
  digit_string ip = true → ip ≠ EmptyString → digit_string (frac_digits f) = true →
  unsigned_float s (number_text ip f x)
  = Some (decimal s (numeral (ip +:+ frac_digits f) 0)
            (default 0 x - Z.of_nat (String.length (frac_digits f)))).
Proof.
  intros Hip Hne Hf. unfold unsigned_float, number_text.
  destruct ip as [|c ip]; [done|].
  assert (∀ t, digit c = Some t → c ≠ "i"%char ∧ c ≠ "n"%char) as Hc.
  { intros t Ht. by split; intros ->. }
  destruct (digit_string_cons _ _ Hip) as [[z Hz] _]. destruct (Hc z Hz) as [Hi Hn].
  rewrite !bool_decide_eq_false_2 by (rewrite append_cons; congruence).
  simpl orb. cbv iota. rewrite scan_digits_app; [|done|].
  2:{ destruct f; [done|]. destruct x as [x|]; [|done]. simpl after_e. by rewrite exponent_text_eq. }
  rewrite (numeral_app (String c ip)). destruct f as [f|]; simpl after_point; simpl frac_digits in *.
  - rewrite append_cons, append_nil_l, append_cons. cbv beta iota. rewrite scan_digits_app; [|done|].
    2:{ destruct x as [x|]; [|done]. simpl after_e. by rewrite exponent_text_eq. }
    rewrite scan_after_e. done.
  - rewrite append_nil_l. pose proof (scan_after_e x) as He.
    assert (∀ T (A : string → T) B, match after_e x with String "."%char r => A r | _ => B end = B) as ->.
    { intros. destruct x as [x|]; [|done]. simpl after_e. by rewrite exponent_text_eq. }
    rewrite He. done.
Qed.

(** The characters of such a text: no blanks, no upper case. *)
Definition plain (c : ascii) : bool :=
  is_digit c || Ascii.eqb c "."%char || Ascii.eqb c "e"%char || Ascii.eqb c "-"%char
  || Ascii.eqb c "+"%char.

Definition plain_text (s : string) : bool := none (fun c => negb (plain c)) s.

Lemma plain_text_app s t : plain_text (s +:+ t) = plain_text s && plain_text t.
Proof. apply none_app. Qed.

Lemma plain_digits s : digit_string s = true → plain_text s = true.
Proof.
  apply none_weaken. intros c. unfold plain, is_digit. by destruct (digit c).
Qed.

Lemma plain_char c : plain c = true → is_space c = false ∧ lower c = c.
Proof. destruct c as [[] [] [] [] [] [] [] []]; done. Qed.

Lemma plain_text_kept s : plain_text s = true → lower_string (strip s) = s.
Proof.
  intros Hs. rewrite strip_none.
  - induction s as [|c s IH]; [done|]. unfold plain_text in Hs. simpl in Hs.
    apply andb_prop in Hs as [Hc%negb_true_iff%negb_false_iff Hs]. simpl.
    rewrite IH by done. by destruct (plain_char c Hc) as [_ ->].
  - revert Hs. apply none_weaken. intros c Hc. destruct (plain c) eqn:E; [|done].
    destruct (plain_char c E) as [H _]. congruence.
Qed.

Lemma plain_number_text ip f x :
  digit_string ip = true → digit_string (frac_digits f) = true →
  plain_text (number_text ip f x) = true.
Proof.
  intros Hi Hf. unfold number_text. rewrite !plain_text_app, (plain_digits ip) by done.
  assert (plain_text (after_point f) = true) as ->.
  { destruct f as [f|]; [|done]. simpl after_point. rewrite plain_text_app. by apply plain_digits. }
  destruct x as [x|]; [|done]. simpl after_e. rewrite exponent_text_eq.
  pose proof (plain_digits _ (digit_string_py_str (Z.abs x) ltac:(lia))) as Hx.
  destruct (x <? 0), (Z.abs x <? 10); exact Hx.
Qed.

Lemma py_float_number_text s ip f x :
  digit_string ip = true → ip ≠ EmptyString → digit_string (frac_digits f) = true →
  py_float (minus s +:+ number_text ip f x)
  = Some (decimal s (numeral (ip +:+ frac_digits f) 0)
            (default 0 x - Z.of_nat (String.length (frac_digits f)))).
Proof.
  intros Hip Hne Hf. rewrite <-unsigned_number_text by done. unfold py_float.
  rewrite plain_text_kept.
  - destruct s; [done|]. simpl minus. rewrite append_nil_l. destruct ip as [|c ip]; [done|].
    unfold number_text. rewrite append_cons.
    destruct (digit_string_cons _ _ Hip) as [[z Hz] _].
    destruct c as [[] [] [] [] [] [] [] []]; done.
  - rewrite plain_text_app, plain_number_text by done. by destruct s.
Qed.

(** ** The text of a float *)

Definition leading_ok (ip : string) : Prop :=
  ip = "0" ∨ ∃ c s, ip = String c s ∧ c ≠ "0"%char ∧ is_digit c = true.

Record number_shape (ip : string) (f : option string) (x : option Z) : Prop := {
  shape_digits : digit_string ip = true;
  shape_leading : leading_ok ip;
  shape_frac : digit_string (frac_digits f) = true;
  shape_frac_some : f ≠ Some EmptyString;
  shape_float : f ≠ None ∨ x ≠ None;
}.

Lemma digit_string_app s t : digit_string (s +:+ t) = digit_string s && digit_string t.
Proof. apply none_app. Qed.

Lemma digit_string_zeros n : digit_string (zeros n) = true.
Proof. by induction n. Qed.

Lemma length_zeros n : String.length (zeros n) = n.
Proof. induction n as [|n IH]; [done|]. simpl. by rewrite IH. Qed.

Lemma length_app_str s t : String.length (s +:+ t) = (String.length s + String.length t)%nat.
Proof. induction s as [|c s IH]; [done|]. rewrite append_cons. simpl. by rewrite IH. Qed.

Lemma length_drop n s : String.length (str_drop n s) = (String.length s - n)%nat.
Proof. revert s. induction n as [|n IH]; intros [|c s]; simpl; auto. Qed.

Lemma py_str_leading d : 0 < d → ∃ c s, py_str d = String c s ∧ c ≠ "0"%char ∧ is_digit c = true.
Proof.
  intros Hd. rewrite py_str_N by lia. unfold pretty_N. rewrite decide_False by lia.
  destruct (pretty_N_go_head (Z.to_N d) EmptyString) as (n & s & -> & Hn); [lia|].
  eexists _, s. split; [done|]. unfold is_digit. rewrite digit_char by lia. split; [|done].
  intros E. pose proof (digit_char n ltac:(lia)) as H. rewrite E in H. injection H. lia.
Qed.

(** The text [t] is a number's, and denotes [d * 10^k]. *)
Definition denotes (d k : Z) (t : string) : Prop :=
  ∃ ip f x, t = number_text ip f x ∧ number_shape ip f x ∧
    ∀ s, decimal s (numeral (ip +:+ frac_digits f) 0)
           (default 0 x - Z.of_nat (String.length (frac_digits f))) = decimal s d k.

Section digits.
Context (d k : Z) (Hd : 0 < d).
Let ds := py_str d.
Let nd := Z.of_nat (String.length ds).

Lemma digits_split n : digit_string (str_take n ds) = true ∧ digit_string (str_drop n ds) = true.
Proof using Hd.
  apply andb_prop. rewrite <-digit_string_app, take_drop_str. apply digit_string_py_str. lia.
Qed.

Lemma digits_take n : (0 < n)%nat → leading_ok (str_take n ds).
Proof using Hd.
  intros Hn. right. destruct (py_str_leading d Hd) as (c & t & Et & Hc0 & Hc). subst ds. rewrite Et.
  destruct n as [|n]; [lia|]. by eexists _, _.
Qed.

(** [d.ddde+xx] *)
Lemma denotes_scientific :
  denotes d k (str_take 1 ds +:+ (if nd =? 1 then EmptyString else "." +:+ str_drop 1 ds)
                 +:+ exponent_text (nd + k - 1)).
Proof using Hd.
  exists (str_take 1 ds), (if nd =? 1 then None else Some (str_drop 1 ds)), (Some (nd + k - 1)).
  destruct (digits_split 1). pose proof (digits_take 1 ltac:(lia)) as Hlead.
  pose proof (length_drop 1 ds) as Hl. pose proof (numeral_py_str d ltac:(lia)) as Hn.
  pose proof (take_drop_str 1 ds) as Ht. fold ds in Hn.
  destruct (Z.eqb_spec nd 1) as [E|E]; (split; [done|split; [split; try done; auto|]]).
  - intros s. change (frac_digits None) with EmptyString. rewrite append_nil_r.
    assert (str_drop 1 ds = EmptyString) as Hdrop by (destruct (str_drop 1 ds); [done|simpl in Hl; lia]).
    rewrite Hdrop, append_nil_r in Ht. rewrite Ht, Hn. simpl. f_equal. lia.
  - intros E'%(inj Some). rewrite E' in Hl. simpl in Hl.
    destruct (py_str_leading d Hd) as (c & t & Et & _). subst nd. subst ds. rewrite Et in *. simpl in *. lia.
  - intros s. change (frac_digits (Some ?t)) with t. rewrite Ht, Hn, Hl.
    change (default 0 (Some ?z)) with z. f_equal. subst nd.
    destruct (py_str_leading d Hd) as (c & t & Et & _). subst ds. rewrite Et. simpl. lia.
Qed.

(** [0.000ddd] *)
Lemma denotes_small : nd + k ≤ 0 → denotes d k ("0." +:+ zeros (Z.to_nat (- (nd + k))) +:+ ds).
Proof using Hd.
  intros Hk. pose proof (digit_string_py_str d ltac:(lia)) as Hds.
  pose proof (numeral_py_str d ltac:(lia)) as Hn. fold ds in Hds, Hn.
  exists "0", (Some (zeros (Z.to_nat (- (nd + k))) +:+ ds)), None.
  split; [by unfold number_text; simpl; rewrite append_nil_r|]. simpl frac_digits. split.
  - split; [done|by left| | |by left]; simpl frac_digits.
    + by rewrite digit_string_app, digit_string_zeros.
    + destruct (py_str_leading d Hd) as (c & t & Et & _). subst ds. rewrite Et. by destruct (Z.to_nat _).
  - intros s. rewrite !numeral_app, numeral_zeros.
    change (numeral "0" 0) with 0. rewrite Z.mul_0_l, Hn.
    rewrite length_app_str, length_zeros. simpl default. f_equal. lia.
Qed.

(** [ddd000.0] *)
Lemma denotes_whole :
  nd ≤ nd + k → denotes d k (ds +:+ zeros (Z.to_nat (nd + k - nd)) +:+ ".0").
Proof using Hd.
  intros Hk. pose proof (digit_string_py_str d ltac:(lia)) as Hds.
  pose proof (numeral_py_str d ltac:(lia)) as Hn. fold ds in Hds, Hn.
  exists (ds +:+ zeros (Z.to_nat (nd + k - nd))), (Some "0"), None.
  split; [by unfold number_text; rewrite append_assoc|]. split.
  - split; [by rewrite digit_string_app, digit_string_zeros, Hds| |done..|by left].
    right. destruct (py_str_leading d Hd) as (c & t & Et & ? & ?). subst ds. rewrite Et. by eexists _, _.
  - intros s. rewrite !numeral_app, Hn, numeral_zeros.
    transitivity (decimal s d (-1 + (k + 1))); [|f_equal; lia].
    rewrite <-decimal_shift, Z2Nat.id by lia. replace (nd + k - nd) with k by lia.
    rewrite Z.pow_add_r by lia. change (numeral _ ?v) with (10 * v + 0).
    change (10 ^ 1) with 10. f_equal. ring.
Qed.

(** [dd.ddd] *)
Lemma denotes_mixed :
  0 < nd + k < nd →
  denotes d k (str_take (Z.to_nat (nd + k)) ds +:+ "." +:+ str_drop (Z.to_nat (nd + k)) ds).
Proof using Hd.
  intros Hk. set (n := Z.to_nat (nd + k)). destruct (digits_split n) as [H1 H2].
  pose proof (length_drop n ds) as Hl. pose proof (numeral_py_str d ltac:(lia)) as Hn. fold ds in Hn.
  exists (str_take n ds), (Some (str_drop n ds)), None.
  split; [by unfold number_text; simpl; rewrite append_nil_r|]. split.
  - split; [done|apply digits_take; lia|done| |by left]. intros E%(inj Some). rewrite E in Hl. simpl in Hl. lia.
  - intros s. change (frac_digits (Some ?t)) with t.
    rewrite take_drop_str, Hn, Hl. simpl default. f_equal. lia.
Qed.
End digits.

Lemma decimal_text_shape d k : 0 < d → denotes d k (decimal_text d k).
Proof.
  intros Hd. unfold decimal_text, n_digits. cbv zeta. destruct (_ || _); [by apply denotes_scientific|].
  destruct (Z.leb_spec (Z.of_nat (String.length (py_str d)) + k) 0); [by apply denotes_small|].
  destruct (Z.leb_spec (Z.of_nat (String.length (py_str d))) (Z.of_nat (String.length (py_str d)) + k)).
  - by apply denotes_whole.
  - apply denotes_mixed; lia.
Qed.

Definition is_negative (x : float) : bool :=
  match x with S754_zero s | S754_infinity s | S754_finite s _ _ => s | S754_nan => false end.

(** [repr(x)] of a finite double is a number's text, and [float] of it is
    [x] again. *)
Lemma float_repr_reads x :
  is_finite x = true → valid x = true →
  ∃ ip f n, float_repr x = minus (is_negative x) +:+ number_text ip f n ∧
    number_shape ip f n ∧ py_float (float_repr x) = Some x.
Proof.
  intros Hfin Hv. destruct x as [s| | |s m e]; [|done..|].
  - exists "0", (Some "0"), None. split; [by destruct s|]. split; [|by destruct s].
    by split; [done|left|done..|left].
  - simpl. destruct (shortest_reads m e Hv) as [Hd Hr].
    destruct (shortest m e) as [d k]. cbn [fst snd] in *.
    destruct (decimal_text_shape d k Hd) as (ip & f & n & -> & Hs & Hdec).
    exists ip, f, n. split; [done|]. split; [done|].
    rewrite py_float_number_text, Hdec, Hr; [done|apply Hs| |apply Hs].
    destruct (shape_leading _ _ _ Hs) as [->|(c & t & -> & _)]; done.
Qed.

(** What [float] reads is a double. *)
Lemma unsigned_float_valid s t x : unsigned_float s t = Some x → valid x = true.
Proof.
  unfold unsigned_float. destruct (_ || _); [by intros [= <-]|].
  destruct (bool_decide _); [by intros [= <-]|].
  destruct (scan_digits t 0 0) as [[m n] rest].
  assert (∀ m' k rest',
    (if (n + k =? 0)%nat then None
     else e ← scan_exponent rest'; Some (decimal s m' (e - Z.of_nat k))) = Some x →
    valid x = true) as H.
  { intros m' k rest'. destruct (_ =? _)%nat; [done|]. destruct (scan_exponent rest'); [|done].
    intros [= <-]. apply decimal_valid. }
  destruct (match rest with String "."%char _ => _ | _ => _ end) as [[m' k] rest']. apply H.
Qed.

Lemma py_float_valid t x : py_float t = Some x → valid x = true.
Proof.
  unfold py_float. intros H.
  assert (∃ s r, unsigned_float s r = Some x) as (s & r & Hu); [|by apply unsigned_float_valid in Hu].
  destruct (lower_string (strip t)) as [|[[] [] [] [] [] [] [] []] u]; by eexists _, _.
Qed.
