(* ===== verification/PyFormat.v ===== *)
(** * Format specifications

    [format(x, spec)] for the specifications in the scripts' f-strings: an
    optional [>], a width, an optional comma, an optional precision.  A float
    in fixed notation is its exact binary value, rounded once to the nearest
    decimal with that many places, the even one on a tie. *)
From Stdlib Require Import Ascii.
From S2P Require Import Prelude PyFloat PyStr PyNum PyRepr FloatText.

(** ** Specifications *)

Record spec := Spec {
  width : nat;
  grouped : bool;              (* a comma between thousands *)
  precision : option nat;      (* [.nf] *)
}.

(** Leading digits: their value and the rest. *)
Fixpoint read_number (s : string) (acc : nat) : nat * string :=
  match s with
  | String c s' =>
      match digit c with
      | Some d => read_number s' (10 * acc + Z.to_nat d)%nat
      | None => (acc, s)
      end
  | EmptyString => (acc, s)
  end.

(** [None]: a specification none of the scripts uses. *)
Definition parse_spec (s : string) : option spec :=
  let s := match s with String ">"%char r => r | _ => s end in
  let '(w, s) := read_number s 0 in
  let '(g, s) := match s with String ","%char r => (true, r) | _ => (false, s) end in
  match s with
  | EmptyString => Some (Spec w g None)
  | String "."%char r =>
      let '(p, r) := read_number r 0 in
      if bool_decide (r = "f") then Some (Spec w g (Some p)) else None
  | _ => None
  end.

(** ** Padding and grouping *)

Fixpoint blanks (n : nat) : string :=
  match n with O => EmptyString | S n' => String " " (blanks n') end.

(** Aligned to the right. *)
Definition pad (w : nat) (s : string) : string := blanks (w - String.length s) +:+ s.

(** A comma after every digit that a positive multiple of three follow. *)
Fixpoint group (s : string) : string :=
  match s with
  | EmptyString => EmptyString
  | String c s' =>
      String c (if (0 <? String.length s')%nat && (String.length s' mod 3 =? 0)%nat
                then String "," (group s') else group s')
  end.

(** ** Numbers *)

(** [n / d] to the nearest integer, on a tie to the even one. *)
Definition to_nearest (n d : Z) : Z :=
  let q := n / d in
  let r := n `mod` d in
  if 2 * r <? d then q else if d <? 2 * r then q + 1 else if Z.even q then q else q + 1.

(** [|x| * 10^k] to the nearest integer, for the finite [x = m * 2^e]. *)
Definition fixed_int (k : nat) (m : positive) (e : Z) : Z :=
  to_nearest (Z.pos m * 2 ^ Z.max e 0 * 10 ^ Z.of_nat k) (2 ^ Z.max (- e) 0).

(** [z], with zeros in front up to [k] digits. *)
Definition pad_zeros (k : nat) (z : Z) : string :=
  zeros (k - String.length (py_str z)) +:+ py_str z.

(** [d / 10^k] with [k] places. *)
Definition fixed_text (g : bool) (k : nat) (d : Z) : string :=
  let ip := py_str (d / 10 ^ Z.of_nat k) in
  (if g then group ip else ip) +:+
  match k with
  | O => EmptyString
  | S _ => "." +:+ pad_zeros k (d `mod` 10 ^ Z.of_nat k)
  end.

Definition fixed (g : bool) (k : nat) (x : float) : string :=
  match x with
  | S754_nan => "nan"
  | S754_infinity s => minus s +:+ "inf"
  | S754_zero s => minus s +:+ fixed_text g k 0
  | S754_finite s m e => minus s +:+ fixed_text g k (fixed_int k m e)
  end.

Definition format_float (sp : spec) (x : float) : string :=
  pad (width sp)
    match precision sp with
    | Some k => fixed (grouped sp) k x
    | None => float_repr x
    end.

Definition format_int (sp : spec) (z : Z) : string :=
  pad (width sp)
    (if grouped sp then minus (z <? 0) +:+ group (py_str (Z.abs z)) else py_str z).

(** [format(x, "")] of a float is its [str]. *)
Definition float_text (s : string) (x : float) : option string :=
  sp ← parse_spec s; Some (format_float sp x).

(** [round(x, k)]: the double nearest to the decimal nearest to [x]. *)
Definition py_round (x : float) (k : nat) : float :=
  match x with
  | S754_finite s m e => decimal s (fixed_int k m e) (- Z.of_nat k)
  | _ => x
  end.

Example format_tie : float_text ".1f" (lit 25 100) = Some "0.2".
Proof. vm_compute. reflexivity. Qed.

Example format_not_a_tie : float_text ".2f" (lit 2675 1000) = Some "2.67".
Proof. vm_compute. reflexivity. Qed.

Example format_thousands : float_text ">10,.0f" (lit 12345675 10) = Some " 1,234,568".
Proof. vm_compute. reflexivity. Qed.

Example format_minus_zero : float_text ",.0f" (lit (-4) 10) = Some "-0".
Proof. vm_compute. reflexivity. Qed.

Example format_wide : float_text "6.1f" (lit 9996 100) = Some " 100.0".
Proof. vm_compute. reflexivity. Qed.

Example format_str : float_text EmptyString (of_int 45) = Some "45.0".
Proof. vm_compute. reflexivity. Qed.

Example round_half_even : py_round (lit 25 10) 0 = of_int 2.
Proof. vm_compute. reflexivity. Qed.

Example round_places : py_round (lit 2675 1000) 2 = lit 267 100.
Proof. vm_compute. reflexivity. Qed.

(** ** Rounding *)

Lemma to_nearest_nonneg n d : 0 ≤ n → 0 < d → 0 ≤ to_nearest n d.
Proof.
  intros Hn Hd. unfold to_nearest. pose proof (Z.div_pos n d Hn Hd).
  repeat case_match; lia.
Qed.

Lemma to_nearest_close n d :
  0 < d → 2 * Z.abs (n - to_nearest n d * d) ≤ d ∧
  (2 * Z.abs (n - to_nearest n d * d) = d → Z.even (to_nearest n d) = true).
Proof.
  intros Hd. pose proof (Z.div_mod n d ltac:(lia)) as Hn. pose proof (Z.mod_pos_bound n d Hd) as Hr.
  unfold to_nearest. set (q := n / d) in *. set (r := n `mod` d) in *.
  destruct (Z.ltb_spec (2 * r) d).
  { replace (n - q * d) with r by lia. split; [lia|]. intros. lia. }
  destruct (Z.ltb_spec d (2 * r)).
  { replace (n - (q + 1) * d) with (r - d) by lia. split; [lia|]. intros. lia. }
  destruct (Z.even q) eqn:E.
  - replace (n - q * d) with r by lia. split; [lia|done].
  - replace (n - (q + 1) * d) with (r - d) by lia. split; [lia|]. intros _.
    rewrite Z.even_add, E. done.
Qed.

(** ** Reading the text back *)

Lemma numeral_acc s acc : numeral s acc = acc * 10 ^ Z.of_nat (String.length s) + numeral s 0.
Proof.
  revert acc. induction s as [|c s IH]; intros acc; [simpl; lia|].
  cbn [numeral String.length]. rewrite IH, (IH (10 * 0 + _)), Nat2Z.inj_succ, Z.pow_succ_r by lia. lia.
Qed.

Lemma digit_nonneg c d : digit c = Some d → 0 ≤ d ∧ (c ≠ "0"%char → 1 ≤ d).
Proof.
  unfold digit. destruct (_ && _)%N eqn:E; [|done]. intros [= <-].
  apply andb_prop in E as [H1%N.leb_le _]. split; [lia|]. intros Hc.
  assert (code c ≠ 48%N); [|lia]. intros H. apply Hc. by apply code_inj.
Qed.

Lemma numeral_nonneg s acc : 0 ≤ acc → 0 ≤ numeral s acc.
Proof.
  revert acc. induction s as [|c s IH]; intros acc Ha; [done|]. apply IH.
  destruct (digit c) as [d|] eqn:E; simpl; [|lia]. apply digit_nonneg in E. lia.
Qed.

Lemma py_str_short z k : 0 ≤ z < 10 ^ Z.of_nat k → (0 < k)%nat → (String.length (py_str z) ≤ k)%nat.
Proof.
  intros Hz Hk. destruct (decide (z = 0)) as [->|Hne]; [simpl; lia|].
  destruct (py_str_leading z) as (c & s & E & Hc & Hd); [lia|].
  pose proof (numeral_py_str z ltac:(lia)) as Hn. rewrite E in *. cbn [numeral] in Hn.
  rewrite numeral_acc in Hn. simpl. destruct (le_lt_dec (S (String.length s)) k) as [|Hlt]; [done|].
  exfalso. unfold is_digit in Hd. destruct (digit c) as [dg|] eqn:Edg; [|done]. simpl in Hn.
  pose proof (numeral_nonneg s 0 ltac:(lia)). apply digit_nonneg in Edg as [_ Hdg]. specialize (Hdg Hc).
  assert (10 ^ Z.of_nat k ≤ 10 ^ Z.of_nat (String.length s)) by (apply Z.pow_le_mono_r; lia).
  nia.
Qed.

Lemma pad_zeros_facts k z :
  0 ≤ z < 10 ^ Z.of_nat k → (0 < k)%nat →
  digit_string (pad_zeros k z) = true ∧ String.length (pad_zeros k z) = k ∧ numeral (pad_zeros k z) 0 = z.
Proof.
  intros Hz Hk. unfold pad_zeros.
  rewrite digit_string_app, digit_string_zeros, digit_string_py_str by lia. split; [done|].
  pose proof (py_str_short z k Hz Hk). rewrite length_app_str, length_zeros. split; [lia|].
  rewrite numeral_app, numeral_zeros. simpl. apply numeral_py_str. lia.
Qed.

(** [s] without its commas. *)
Fixpoint ungroup (s : string) : string :=
  match s with
  | EmptyString => EmptyString
  | String c s' => if char_eq "," c then ungroup s' else String c (ungroup s')
  end.

Lemma ungroup_app s t : ungroup (s +:+ t) = ungroup s +:+ ungroup t.
Proof.
  induction s as [|c s IH]; [done|]. rewrite append_cons. simpl. rewrite IH. by destruct (char_eq "," c).
Qed.

Lemma ungroup_none s : none (char_eq ",") s = true → ungroup s = s.
Proof.
  induction s as [|c s IH]; [done|]. simpl. intros [Hc Hs]%andb_prop.
  apply negb_true_iff in Hc. by rewrite Hc, IH.
Qed.

Lemma ungroup_digits s : digit_string s = true → ungroup s = s.
Proof.
  intros H. apply ungroup_none. eapply none_weaken; [|exact H].
  intros c Hc. unfold char_eq in Hc. by apply Ascii.eqb_eq in Hc as ->.
Qed.

Lemma ungroup_group s : digit_string s = true → ungroup (group s) = s.
Proof.
  induction s as [|c s IH]; [done|]. intros H. pose proof (ungroup_digits _ H) as Hu.
  simpl in Hu |- *. destruct (char_eq "," c).
  { exfalso. apply (f_equal String.length) in Hu. simpl in Hu.
    assert (∀ t, String.length (ungroup t) ≤ String.length t)%nat as Hle.
    { intros t. induction t as [|b t IHt]; [done|]. simpl. destruct (char_eq "," b); simpl; lia. }
    specialize (Hle s). lia. }
  f_equal. apply digit_string_cons in H as [_ H]. destruct (_ && _); by apply IH.
Qed.

Lemma strip_blanks n s : strip (blanks n +:+ s) = strip s.
Proof. induction n as [|n IH]; [done|]. exact IH. Qed.

Lemma py_float_padded w s : py_float (pad w s) = py_float s.
Proof. unfold py_float, pad. by rewrite strip_blanks. Qed.

Lemma ungroup_pad w s : ∃ w', ungroup (pad w s) = pad w' (ungroup s).
Proof.
  unfold pad. rewrite ungroup_app. exists (w - String.length s + String.length (ungroup s))%nat.
  f_equal. replace (_ + _ - _)%nat with (w - String.length s)%nat by lia.
  apply ungroup_none. by induction (w - String.length s)%nat.
Qed.

(** The text of [d / 10^k] reads as that, rounded to a double. *)
Lemma fixed_text_reads g k s d :
  0 ≤ d → py_float (ungroup (minus s +:+ fixed_text g k d)) = Some (decimal s d (- Z.of_nat k)).
Proof.
  intros Hd. assert (0 < 10 ^ Z.of_nat k) as Hp by (apply Z.pow_pos_nonneg; lia).
  pose proof (Z.div_pos d (10 ^ Z.of_nat k) Hd Hp) as Hq.
  pose proof (Z.mod_pos_bound d _ Hp) as Hr. pose proof (Z.div_mod d (10 ^ Z.of_nat k) ltac:(lia)) as Hdm.
  pose proof (digit_string_py_str _ Hq) as Hip. pose proof (py_str_nonempty (d / 10 ^ Z.of_nat k)) as Hne.
  unfold fixed_text. rewrite !ungroup_app.
  assert (ungroup (minus s) = minus s) as -> by by destruct s.
  assert (ungroup (if g then group (py_str (d / 10 ^ Z.of_nat k)) else py_str (d / 10 ^ Z.of_nat k))
          = py_str (d / 10 ^ Z.of_nat k)) as ->.
  { destruct g; [by apply ungroup_group|by apply ungroup_digits]. }
  destruct k as [|k].
  - cbn [ungroup]. rewrite append_nil_r. pose proof (py_float_number_text s (py_str (d / 10 ^ Z.of_nat 0)) None None Hip Hne eq_refl) as H.
    unfold number_text in H. simpl after_point in H. simpl after_e in H. rewrite !append_nil_r in H.
    rewrite H, numeral_py_str by done.
    change (10 ^ Z.of_nat 0) with 1. by rewrite Z.div_1_r.
  - destruct (pad_zeros_facts (S k) _ Hr ltac:(lia)) as (Hpd & Hpl & Hpn).
    rewrite ungroup_app, (ungroup_digits (pad_zeros _ _)) by done.
    pose proof (py_float_number_text s _ (Some (pad_zeros (S k) (d `mod` 10 ^ Z.of_nat (S k)))) None Hip Hne Hpd) as H.
    unfold number_text in H. simpl after_e in H. simpl after_point in H. rewrite !append_nil_r in H.
    simpl frac_digits in H. rewrite numeral_app, numeral_py_str, numeral_acc, Hpl, Hpn in H by done.
    simpl ungroup. rewrite H. f_equal. f_equal; lia.
Qed.

(** ** Properties *)

(** A float formatted by any of the specifications of the scripts'
    f-strings with a precision ([.0f] to [.4f], with commas, with a width): of
    the decimals with that many places let v be the one nearest to its exact
    binary value, the even one on a tie.  [float()] of the text, its commas
    taken out, is the double nearest to v. *)
Theorem format_nearest sp k s m e :
  precision sp = Some k →
  let n := Z.pos m * 2 ^ Z.max e 0 * 10 ^ Z.of_nat k in
  let d := 2 ^ Z.max (- e) 0 in
  ∃ v, (2 * Z.abs (n - v * d) ≤ d ∧ (2 * Z.abs (n - v * d) = d → Z.even v = true)) ∧
    py_float (ungroup (format_float sp (S754_finite s m e))) = Some (decimal s v (- Z.of_nat k)).
Proof.
  intros Hk. cbv zeta. exists (fixed_int k m e). split.
  - apply to_nearest_close. apply Z.pow_pos_nonneg; lia.
  - unfold format_float. rewrite Hk. simpl fixed.
    destruct (ungroup_pad (width sp) (minus s +:+ fixed_text (grouped sp) k (fixed_int k m e))) as [w ->].
    rewrite py_float_padded. apply fixed_text_reads. apply to_nearest_nonneg.
    + apply Z.mul_nonneg_nonneg; [apply Z.mul_nonneg_nonneg; [lia|]|]; apply Z.pow_nonneg; lia.
    + apply Z.pow_pos_nonneg; lia.
Qed.

(** The rate 1234567.5, as the multi-queue report prints it. *)
Lemma format_nearest_witness :
  ∃ v, (2 * Z.abs (Z.pos 5302428706897920 * 2 ^ 0 * 10 ^ 0 - v * 2 ^ 32) ≤ 2 ^ 32 ∧
        (2 * Z.abs (Z.pos 5302428706897920 * 2 ^ 0 * 10 ^ 0 - v * 2 ^ 32) = 2 ^ 32 → Z.even v = true)) ∧
    py_float (ungroup (format_float (Spec 10 true (Some 0%nat)) (S754_finite false 5302428706897920 (-32))))
    = Some (decimal false v 0).
Proof. exact (format_nearest (Spec 10 true (Some 0%nat)) 0 false 5302428706897920 (-32) eq_refl). Defined.
