(* ===== verification/Argparse.v ===== *)
(** * argparse, as the scripts use it

    [ArgumentParser.parse_args] for parsers with long options (one value each,
    or a flag), at most one positional argument with choices, and the built-in
    [-h]/[--help].  Options may be abbreviated to an unambiguous prefix and may
    carry their value after an equals sign; a rejected command line exits with
    status 2, a request for help with 0 (Python 3.11's order of checks). *)
From Stdlib Require Import Ascii.
From S2P Require Import Prelude PyFloat PyStr PyNum PyRepr FloatText.

(** ** Parsers *)

(** A parsed value. *)
Inductive pyval :=
| PNone
| PText (s : string)
| PInt (z : Z)
| PReal (x : float)
| PBool (b : bool).

Inductive kind :=
| KStr
| KInt                          (* type=int *)
| KFloat                        (* type=float *)
| KChoice (l : list string)     (* choices=[...] *)
| KFlag.                        (* action="store_true" *)

(** [add_argument(flag, type=..., required=..., default=...)] *)
Record opt := Opt {
  flag : string;
  kind_of : kind;
  required : bool;
  default_of : pyval;
}.

Record parser := Parser {
  options : list opt;
  positional : option (string * list string);
}.

Abbreviation namespace := (gmap string pyval).

Inductive parsed :=
| Parsed (ns : namespace)
| Exit (status : Z).

#[export] Instance pyval_eq_dec : EqDecision pyval.
Proof. solve_decision. Defined.

(** ** Classifying an argument *)

Definition find_flag (os : list opt) (s : string) : option opt :=
  list_find (fun o => flag o = s) os ≫= fun io => Some io.2.

(** [^-\d+$|^-\d*\.\d+$] *)
Definition negative_number (s : string) : bool :=
  let r := str_drop 1 s in
  startswith "-" s &&
  match cut "." r with
  | None => digit_string r && negb (bool_decide (r = EmptyString))
  | Some (a, b) => digit_string a && digit_string b && negb (bool_decide (b = EmptyString))
  end.

(** What an argument looks like before it is used. *)
Inductive token :=
| TPlain (s : string)
| TOption (o : opt) (explicit : option string)
| THelp (short : bool) (explicit : option string)
| TUnknown
| TAmbiguous
| TDash.                         (* the first -- *)

(** The options that [s] abbreviates. *)
Definition abbreviated (os : list opt) (s : string) : list opt :=
  filter (fun o => startswith s (flag o) = true) os.

(** A long option, exact or abbreviated, with the value after its equals
    sign. *)
Definition classify_long (os : list opt) (s : string) (explicit : option string) : option token :=
  if bool_decide (s = "--help") then Some (THelp false explicit) else
  match find_flag os s with
  | Some o => Some (TOption o explicit)
  | None =>
      match abbreviated os s, startswith s "--help" with
      | [], false => None
      | [o], false => Some (TOption o explicit)
      | [], true => Some (THelp false explicit)
      | _, _ => Some TAmbiguous
      end
  end.

Definition unknown_or_plain (s : string) : token :=
  if negative_number s || contains " " s then TPlain s else TUnknown.

(** What is joined to [-h]: [-hx] and [-h=x]. *)
Definition joined (s : string) : option string :=
  if bool_decide (s = EmptyString) then None
  else if startswith "=" s then Some (str_drop 1 s) else Some s.

Definition classify (os : list opt) (s : string) : token :=
  if negb (startswith "-" s) || bool_decide (s = "-") then TPlain s
  else if startswith "--" s then
    match find_flag os s with
    | Some o => TOption o None
    | None =>
        let '(name, explicit) :=
          match cut "=" s with Some (n, v) => (n, Some v) | None => (s, None) end in
        default (unknown_or_plain s) (classify_long os name explicit)
    end
  else if startswith "-h" s then THelp true (joined (str_drop 2 s))
  else unknown_or_plain s.

(** After the first [--] nothing is an option. *)
Fixpoint tokens (os : list opt) (argv : list string) : list token :=
  match argv with
  | [] => []
  | s :: argv' =>
      if bool_decide (s = "--") then TDash :: map TPlain argv'
      else classify os s :: tokens os argv'
  end.

(** ** Consuming the arguments *)

(** The conversion of [type=] and the check of [choices=]. *)
Definition convert (k : kind) (s : string) : option pyval :=
  match k with
  | KStr => Some (PText s)
  | KInt => PInt <$> py_int s
  | KFloat => PReal <$> py_float s
  | KChoice l => if bool_decide (s ∈ l) then Some (PText s) else None
  | KFlag => None
  end.

Definition is_flag (k : kind) : bool := match k with KFlag => true | _ => false end.

(** What has been read so far: the values given, and whether anything was
    left over. *)
Record reading := Reading {
  given : namespace;
  extras : bool;
}.

Definition give (st : reading) (k : string) (v : pyval) : reading := Reading (<[k := v]> (given st)) (extras st).
Definition leave (st : reading) : reading := Reading (given st) true.

(** The letters of [-hhh]. *)
Fixpoint all_h (s : string) : bool :=
  match s with EmptyString => true | String c s' => char_eq "h" c && all_h s' end.

Fixpoint consume (pos : option (string * list string)) (ts : list token) (st : reading)
  : reading + Z :=
  match ts with
  | [] => inl st
  | TPlain s :: ts' =>
      match pos with
      | Some (dest, choices) =>
          match convert (KChoice choices) s with
          | Some v =>
              match ts' with
              | TDash :: ts'' => consume None ts'' (give st dest v)
              | _ => consume None ts' (give st dest v)
              end
          | None => inr 2
          end
      | None => consume pos ts' (leave st)
      end
  | TDash :: ts' =>
      match pos, ts' with
      | Some _, TPlain _ :: _ => consume pos ts' st
      | _, _ => consume pos ts' (leave st)
      end
  | TUnknown :: ts' => consume pos ts' (leave st)
  | TAmbiguous :: _ => inr 2
  | THelp _ None :: _ => inr 0
  | THelp short (Some s) :: _ => inr (if short && all_h s && negb (bool_decide (s = EmptyString)) then 0 else 2)
  | TOption o None :: ts' =>
      if is_flag (kind_of o) then consume pos ts' (give st (flag o) (PBool true)) else
      match ts' with
      | TPlain s :: ts'' =>
          match convert (kind_of o) s with
          | Some v => consume pos ts'' (give st (flag o) v)
          | None => inr 2
          end
      | _ => inr 2
      end
  | TOption o (Some s) :: ts' =>
      match convert (kind_of o) s with
      | Some v => consume pos ts' (give st (flag o) v)
      | None => inr 2
      end
  end.

Definition ambiguous (t : token) : bool := match t with TAmbiguous => true | _ => false end.

Definition defaults (os : list opt) : namespace :=
  list_to_map ((fun o => (flag o, default_of o)) <$> os).

(** Every required argument has been given. *)
Definition satisfied (p : parser) (ns : namespace) : bool :=
  forallb (fun o => negb (required o) || bool_decide (is_Some (ns !! flag o))) (options p) &&
  match positional p with Some (dest, _) => bool_decide (is_Some (ns !! dest)) | None => true end.

(** [ap.parse_args(argv)] *)
Definition parse_args (p : parser) (argv : list string) : parsed :=
  let ts := tokens (options p) argv in
  if existsb ambiguous ts then Exit 2 else
  match consume (positional p) ts (Reading ∅ false) with
  | inr status => Exit status
  | inl st =>
      if satisfied p (given st) && negb (extras st) then Parsed (given st ∪ defaults (options p))
      else Exit 2
  end.

(** ** Well-formed parsers *)

(** A flag's name: two dashes and more, no equals sign, not [--help]. *)
Definition flag_ok (s : string) : bool :=
  startswith "--" s && negb (bool_decide (s = "--")) && none (char_eq "=") s
  && negb (bool_decide (s = "--help")).

Definition parser_ok (p : parser) : bool :=
  forallb (fun o => flag_ok (flag o)) (options p) &&
  bool_decide (NoDup (flag <$> options p)) &&
  match positional p with Some (dest, _) => negb (startswith "--" dest) | None => true end.

(** A value the conversion of [k] can yield. *)
Definition fits (k : kind) (v : pyval) : Prop :=
  match k, v with
  | KStr, PText _ | KInt, PInt _ | KFlag, PBool true => True
  | KFloat, PReal x => valid x = true
  | KChoice l, PText s => s ∈ l
  | _, _ => False
  end.

Lemma convert_fits k s v : convert k s = Some v → fits k v.
Proof.
  destruct k; simpl; [by intros [= <-]| | | |done].
  - destruct (py_int s); [by intros [= <-]|done].
  - destruct (py_float s) eqn:E; [|done]. intros [= <-]. by eapply py_float_valid.
  - destruct (bool_decide _) eqn:E; [|done]. intros [= <-]. by apply bool_decide_eq_true in E.
Qed.

Lemma find_flag_Some os s o : find_flag os s = Some o → o ∈ os ∧ flag o = s.
Proof.
  unfold find_flag. intros ([i o'] & H & [= ->])%bind_Some.
  apply list_find_Some in H as (Hi & Hf & _). split; [by eapply list_elem_of_lookup_2|done].
Qed.

Lemma find_flag_own os o : NoDup (flag <$> os) → o ∈ os → find_flag os (flag o) = Some o.
Proof.
  intros Hnd Ho. destruct (find_flag os (flag o)) as [o'|] eqn:E.
  - apply find_flag_Some in E as [Ho' Hf]. f_equal.
    apply list_elem_of_lookup in Ho as [i Hi], Ho' as [j Hj].
    assert (i = j) as ->; [|congruence].
    eapply NoDup_lookup; [exact Hnd|..]; rewrite list_lookup_fmap; [by rewrite Hi|by rewrite Hj, <-Hf].
  - unfold find_flag in E. apply bind_None in E as [E|([i o'] & _ & ?)]; [|done].
    apply list_find_None in E. by apply (proj1 (Forall_forall _ _) E) in Ho.
Qed.

Lemma float_reads x : valid x = true → py_float (float_repr x) = Some x.
Proof.
  intros Hv. destruct (is_finite x) eqn:Hf; [by destruct (float_repr_reads x Hf Hv) as (? & ? & ? & _ & _ & ?)|].
  by destruct x as [|[]| |].
Qed.

Lemma equals_not_dash s t : s +:+ "=" +:+ t ≠ "--".
Proof.
  intros E. apply (f_equal (none (char_eq "="))) in E. by rewrite none_app, andb_comm in E.
Qed.

Lemma startswith_more q s t : startswith q s = true → startswith q (s +:+ t) = true.
Proof.
  unfold startswith. revert s. induction q as [|c q IH]; intros s; [by destruct (s +:+ t)|].
  destruct s as [|a s]; [done|]. rewrite append_cons. simpl. destruct (ascii_dec c a); [apply IH|done].
Qed.

Lemma startswith_dash s : startswith "--" s = true → startswith "-" s = true.
Proof.
  unfold startswith. destruct s as [|a s]; [done|]. cbn [String.prefix].
  destruct (ascii_dec _ a); [by destruct s|done].
Qed.

Section parser.
Context (p : parser) (Hok : parser_ok p = true).

Lemma ok_flag o : o ∈ options p → flag_ok (flag o) = true.
Proof using Hok.
  intros Ho. unfold parser_ok in Hok. apply andb_prop in Hok as [[H _]%andb_prop _].
  apply list_elem_of_In in Ho. exact (proj1 (forallb_forall _ _) H o Ho).
Qed.

Lemma ok_nodup : NoDup (flag <$> options p).
Proof using Hok.
  unfold parser_ok in Hok. apply andb_prop in Hok as [[_ H]%andb_prop _].
  by apply bool_decide_eq_true in H.
Qed.

Lemma same_flag o o' : o ∈ options p → o' ∈ options p → flag o = flag o' → o = o'.
Proof using Hok.
  intros Ho Ho' Hf. pose proof (find_flag_own _ _ ok_nodup Ho) as H.
  rewrite Hf, (find_flag_own _ _ ok_nodup Ho') in H. congruence.
Qed.

Lemma flag_facts o :
  o ∈ options p →
  startswith "--" (flag o) = true ∧ flag o ≠ "--" ∧ none (char_eq "=") (flag o) = true ∧ flag o ≠ "--help".
Proof using Hok.
  intros Ho%ok_flag. unfold flag_ok in Ho.
  apply andb_prop in Ho as [[[H1 H2]%andb_prop H3]%andb_prop H4].
  apply negb_true_iff, bool_decide_eq_false in H2, H4. done.
Qed.

(** ** Types *)

Lemma flag_not_dest o dest choices : o ∈ options p → positional p = Some (dest, choices) → flag o ≠ dest.
Proof using Hok.
  intros Ho Hpos Hf. destruct (flag_facts o Ho) as (Hs & _).
  unfold parser_ok in Hok. rewrite Hpos in Hok. apply andb_prop in Hok as [_ H].
  by rewrite <-Hf, Hs in H.
Qed.

(** The values read fit the kinds of their arguments. *)
Definition typed (ns : namespace) : Prop :=
  (∀ o v, o ∈ options p → ns !! flag o = Some v → fits (kind_of o) v) ∧
  (∀ dest choices v, positional p = Some (dest, choices) → ns !! dest = Some v → fits (KChoice choices) v).

Lemma typed_option o v st :
  o ∈ options p → fits (kind_of o) v → typed (given st) → typed (given (give st (flag o) v)).
Proof using Hok.
  intros Ho Hv [Ht Hp]. split; simpl.
  - intros o' v' Ho'. destruct (decide (flag o = flag o')) as [E|E].
    + rewrite <-(same_flag o o' Ho Ho' E), lookup_insert_eq. by intros [= <-].
    + rewrite lookup_insert_ne by done. by apply Ht.
  - intros dest choices v' Hpos. rewrite lookup_insert_ne by by eapply flag_not_dest. by apply Hp.
Qed.

Lemma typed_positional dest choices v st :
  positional p = Some (dest, choices) → fits (KChoice choices) v →
  typed (given st) → typed (given (give st dest v)).
Proof using Hok.
  intros Hpos Hv [Ht Hp]. split; simpl.
  - intros o v' Ho. rewrite lookup_insert_ne; [by apply Ht|]. intros Hd. by eapply (flag_not_dest o).
  - intros dest' choices' v' Hpos'. rewrite Hpos in Hpos'. injection Hpos' as <- <-.
    rewrite lookup_insert_eq. by intros [= <-].
Qed.

Definition own_option (t : token) : Prop :=
  match t with TOption o _ => o ∈ options p | _ => True end.

Lemma classify_own s : own_option (classify (options p) s).
Proof using.
  assert (∀ s, own_option (unknown_or_plain s)) as Hu.
  { intros t. unfold unknown_or_plain. by destruct (_ || _). }
  assert (∀ s n e, own_option (default (unknown_or_plain s) (classify_long (options p) n e))) as Hlong.
  { intros t n e. unfold classify_long. destruct (bool_decide _); [done|].
    destruct (find_flag _ n) as [o|] eqn:E; [by apply find_flag_Some in E as [? _]|].
    destruct (abbreviated (options p) n) as [|o [|]] eqn:Ea; destruct (startswith n "--help"); try done; [apply Hu|].
    simpl. assert (o ∈ abbreviated (options p) n) as Ho by (rewrite Ea; by left).
    unfold abbreviated in Ho. by apply list_elem_of_filter in Ho as [_ ?]. }
  unfold classify. destruct (_ || _); [done|]. destruct (startswith "--" s).
  - destruct (find_flag _ s) as [o|] eqn:E; [by apply find_flag_Some in E as [? _]|].
    destruct (cut "=" s) as [[n v]|]; apply Hlong.
  - destruct (startswith "-h" s); [done|apply Hu].
Qed.

Lemma tokens_own argv : Forall own_option (tokens (options p) argv).
Proof using.
  induction argv as [|s argv IH]; [constructor|]. simpl. destruct (bool_decide _).
  - constructor; [done|]. by apply Forall_map, Forall_true.
  - constructor; [apply classify_own|done].
Qed.

Ltac read_on Hgo H := eapply Hgo; cycle -1; [exact H|simpl; lia|..].

Lemma consume_status pos ts st n : consume pos ts st = inr n → n = 0 ∨ n = 2.
Proof using.
  remember (length ts) as k eqn:Hk. revert pos ts st Hk.
  induction k as [k IH] using lt_wf_ind. intros pos ts st -> H.
  assert (∀ pos' ts' st1, (length ts' < length ts)%nat → consume pos' ts' st1 = inr n → n = 0 ∨ n = 2) as Hgo
    by (intros pos' ts' st1 Hl; by apply (IH _ Hl)).
  clear IH. destruct ts as [|t ts]; [done|]. simpl in H.
  destruct t as [s|o e|? [?|]| | |].
  - destruct pos as [[dest choices]|]; [|by read_on Hgo H].
    destruct (bool_decide _); [|naive_solver]. destruct ts as [|[] ts]; by read_on Hgo H.
  - destruct e as [s|].
    + destruct (convert _ s); [by read_on Hgo H|naive_solver].
    + destruct (is_flag _); [by read_on Hgo H|].
      destruct ts as [|[s| | | | |] ts]; try naive_solver.
      destruct (convert _ s); [by read_on Hgo H|naive_solver].
  - destruct (_ && _); naive_solver.
  - naive_solver.
  - by read_on Hgo H.
  - naive_solver.
  - destruct pos as [pos|], ts as [|[] ts]; by read_on Hgo H.
Qed.

Lemma parse_args_status argv n : parse_args p argv = Exit n → n = 0 ∨ n = 2.
Proof using.
  unfold parse_args. destruct (existsb _ _); [intros [= <-]; by right|].
  destruct (consume _ _ _) as [st|m] eqn:E; [|intros [= <-]; by eapply consume_status].
  destruct (_ && _); [done|intros [= <-]; by right].
Qed.

(** The positional argument is still to come, or is not. *)
Definition expecting (pos : option (string * list string)) : Prop := pos = None ∨ pos = positional p.

Lemma consume_typed pos ts st st' :
  expecting pos → Forall own_option ts → typed (given st) →
  consume pos ts st = inl st' → typed (given st').
Proof using Hok.
  remember (length ts) as n eqn:Hn. revert pos ts st Hn.
  induction n as [n IH] using lt_wf_ind. intros pos ts st -> Hpos Hts Ht H.
  assert (∀ pos' ts' st1, (length ts' < length ts)%nat → expecting pos' → Forall own_option ts' →
            typed (given st1) → consume pos' ts' st1 = inl st' → typed (given st')) as Hgo
    by (intros pos' ts' st1 Hl; by apply (IH _ Hl)).
  clear IH. destruct ts as [|t ts]; [by injection H as <-|].
  apply Forall_cons in Hts as [Hto Hts]. simpl in H.
  destruct t as [s|o e|? [?|]| | |]; simpl in Hto.
  - destruct pos as [[dest choices]|]; [|by read_on Hgo H].
    destruct Hpos as [|Hpos]; [done|]. symmetry in Hpos.
    destruct (bool_decide _) eqn:Eb; [|done]. apply bool_decide_eq_true in Eb.
    assert (typed (given (give st dest (PText s)))) by by eapply typed_positional.
    assert (expecting None) by by left.
    destruct ts as [|[] ts]; try by read_on Hgo H.
    apply Forall_cons in Hts as [_ ?]. by read_on Hgo H.
  - destruct e as [s|].
    + destruct (convert _ s) as [v|] eqn:E; [|done]. apply convert_fits in E.
      pose proof (typed_option o v st Hto E Ht). by read_on Hgo H.
    + destruct (is_flag (kind_of o)) eqn:Ef.
      * assert (fits (kind_of o) (PBool true)) as E by by destruct (kind_of o).
        pose proof (typed_option o _ st Hto E Ht). by read_on Hgo H.
      * destruct ts as [|[s| | | | |] ts]; try done.
        destruct (convert _ s) as [v|] eqn:E; [|done]. apply convert_fits in E.
        apply Forall_cons in Hts as [_ Hts].
        pose proof (typed_option o v st Hto E Ht). by read_on Hgo H.
  - done.
  - done.
  - by read_on Hgo H.
  - done.
  - destruct pos as [pos|], ts as [|[] ts]; by read_on Hgo H.
Qed.

Lemma defaults_lookup o : o ∈ options p → defaults (options p) !! flag o = Some (default_of o).
Proof using Hok.
  intros Ho. unfold defaults. apply elem_of_list_to_map_1.
  - rewrite <-list_fmap_compose. exact ok_nodup.
  - apply list_elem_of_fmap. by exists o.
Qed.

(** What an accepted command line yields: for each option a value of its
    kind, or, when it may be left out, its default; for the positional
    argument one of its choices. *)
Lemma parse_args_typed argv ns :
  parse_args p argv = Parsed ns →
  (∀ o, o ∈ options p →
     ∃ v, ns !! flag o = Some v ∧ (fits (kind_of o) v ∨ required o = false ∧ v = default_of o)) ∧
  (∀ dest choices, positional p = Some (dest, choices) → ∃ s, ns !! dest = Some (PText s) ∧ s ∈ choices).
Proof using Hok.
  unfold parse_args. destruct (existsb _ _); [done|].
  destruct (consume _ _ _) as [st|] eqn:E; [|done].
  destruct (_ && _) eqn:Es; [|done]. intros [= <-].
  apply consume_typed in E as [Ht Hp]; [|by right|apply tokens_own|by split; simpl; intros *; rewrite lookup_empty].
  apply andb_prop in Es as [[Hreq Hdest]%andb_prop _]. split.
  - intros o Ho. rewrite lookup_union. destruct (given st !! flag o) as [v|] eqn:Eo.
    + exists v. split; [by destruct (defaults _ !! _)|]. left. by apply Ht.
    + exists (default_of o). rewrite (defaults_lookup _ Ho). split; [done|]. right. split; [|done].
      pose proof (proj1 (forallb_forall _ _) Hreq o (proj1 (list_elem_of_In _ _) Ho)) as Hr. simpl in Hr.
      rewrite Eo in Hr. rewrite bool_decide_false in Hr by by intros [].
      by destruct (required o).
  - intros dest choices Hpos. rewrite Hpos in Hdest. apply bool_decide_eq_true in Hdest as [v Hv].
    rewrite lookup_union, Hv. pose proof (Hp _ _ _ Hpos Hv) as Hf.
    destruct v as [|s| | |]; try done. exists s. split; [by destruct (defaults _ !! _)|done].
Qed.

(** ** Command lines that are read back *)

Definition arg_text (v : pyval) : string :=
  match v with PText s => s | PInt z => py_str z | PReal x => float_repr x | _ => EmptyString end.

(** The ways to give option [o] the value [v]: as a flag, after an equals
    sign, or as the next word when it does not look like an option. *)
Inductive written (o : opt) (v : pyval) : list string → Prop :=
| WFlag : kind_of o = KFlag → written o v [flag o]
| WEquals : kind_of o ≠ KFlag → written o v [flag o +:+ "=" +:+ arg_text v]
| WApart : kind_of o ≠ KFlag → startswith "-" (arg_text v) = false → written o v [flag o; arg_text v].

Lemma convert_text k v : fits k v → k ≠ KFlag → convert k (arg_text v) = Some v.
Proof.
  intros Hf Hk. destruct k, v; try done; simpl in *.
  - by rewrite py_int_any.
  - by rewrite float_reads.
  - by rewrite bool_decide_true.
Qed.

Lemma classify_flag o : o ∈ options p → classify (options p) (flag o) = TOption o None.
Proof using Hok.
  intros Ho. destruct (flag_facts o Ho) as (Hs & _). unfold classify.
  rewrite Hs, (startswith_dash _ Hs), (find_flag_own _ _ ok_nodup Ho). simpl.
  rewrite bool_decide_false; [done|]. intros E. by rewrite E in Hs.
Qed.

Lemma classify_equals o t :
  o ∈ options p → classify (options p) (flag o +:+ "=" +:+ t) = TOption o (Some t).
Proof using Hok.
  intros Ho. destruct (flag_facts o Ho) as (Hs & _ & He & Hh).
  assert (startswith "--" (flag o +:+ "=" +:+ t) = true) as Hs' by by apply startswith_more.
  unfold classify. rewrite Hs', (startswith_dash _ Hs'). simpl negb.
  rewrite bool_decide_false; [|intros E; by rewrite E in Hs'].
  destruct (find_flag _ _) as [o'|] eqn:E; simpl.
  - apply find_flag_Some in E as [Ho' E]. destruct (flag_facts o' Ho') as (_ & _ & He' & _).
    rewrite E, none_app in He'. by apply andb_prop in He' as [_ ?].
  - change ("=" +:+ t) with (String "=" t). rewrite (cut_app _ _ _ He). unfold classify_long.
    by rewrite bool_decide_false, (find_flag_own _ _ ok_nodup Ho).
Qed.

Lemma classify_plain s : startswith "-" s = false → classify (options p) s = TPlain s.
Proof. intros E. unfold classify. by rewrite E. Qed.

Lemma classify_not_dash s : classify (options p) s ≠ TDash.
Proof using.
  unfold classify, classify_long, unknown_or_plain. by repeat (case_match; simpl).
Qed.

Lemma tokens_app ws argv :
  Forall (fun s => s ≠ "--") ws →
  tokens (options p) (ws ++ argv) = map (classify (options p)) ws ++ tokens (options p) argv.
Proof.
  induction 1 as [|s ws Hs _ IH]; [done|]. simpl. by rewrite bool_decide_false, IH.
Qed.

Lemma written_words o v ws : o ∈ options p → written o v ws → Forall (fun s => s ≠ "--") ws.
Proof using Hok.
  intros Ho Hw. destruct (flag_facts o Ho) as (Hs & Hn & _).
  destruct Hw as [|_|_ Ht]; repeat constructor; try done.
  - apply equals_not_dash.
  - intros E. by rewrite E in Ht.
Qed.

Lemma written_read o v ws pos ts st :
  o ∈ options p → fits (kind_of o) v → written o v ws →
  consume pos (map (classify (options p)) ws ++ ts) st = consume pos ts (give st (flag o) v) ∧
  existsb ambiguous (map (classify (options p)) ws) = false.
Proof using Hok.
  intros Ho Hv Hw. destruct Hw as [Hk|Hk|Hk Ht]; simpl.
  - rewrite classify_flag by done. rewrite Hk in *. simpl. by destruct v as [| | | |[]].
  - rewrite classify_equals by done. by rewrite convert_text.
  - rewrite classify_flag, classify_plain by done. rewrite convert_text by done.
    by destruct (kind_of o).
Qed.

Definition gives (gs : list (opt * pyval)) (ns : namespace) : namespace :=
  foldl (fun ns g => <[flag g.1 := g.2]> ns) ns gs.

(** A correct way to write the arguments [gs]. *)
Definition spells (g : opt * pyval) (ws : list string) : Prop :=
  g.1 ∈ options p ∧ fits (kind_of g.1) g.2 ∧ written g.1 g.2 ws.

Lemma spelled_option gs wss o : Forall2 spells gs wss → o ∈ gs.*1 → o ∈ options p.
Proof using.
  intros H (g & -> & Hg)%list_elem_of_fmap. apply list_elem_of_lookup in Hg as [i Hi].
  by destruct (Forall2_lookup_l _ _ _ _ _ H Hi) as (ws & _ & Ho & _).
Qed.

Lemma spelled_read gs wss rest pos st :
  Forall2 spells gs wss →
  consume pos (tokens (options p) (concat wss ++ rest)) st
    = consume pos (tokens (options p) rest) (Reading (gives gs (given st)) (extras st)) ∧
  existsb ambiguous (tokens (options p) (concat wss ++ rest)) = existsb ambiguous (tokens (options p) rest).
Proof using Hok.
  intros H. revert st. induction H as [|[o v] ws gs wss (Ho & Hv & Hw) _ IH]; intros st; [by destruct st|].
  simpl. rewrite <-app_assoc, tokens_app by by eapply written_words.
  destruct (written_read o v ws pos (tokens (options p) (concat wss ++ rest)) st Ho Hv Hw) as [Hc Ha].
  rewrite Hc, existsb_app, Ha. apply (IH (give st (flag o) v)).
Qed.

(** The words for the positional argument, and what they give. *)
Definition leads (lead : list string) (ns : namespace) : Prop :=
  match positional p with
  | None => lead = [] ∧ ns = ∅
  | Some (dest, choices) =>
      ∃ w, lead = [w] ∧ w ∈ choices ∧ startswith "-" w = false ∧ ns = {[ dest := PText w ]}
  end.

(** No word is the separator [--]. *)
Definition no_dash (argv : list string) : Prop := match argv with s :: _ => s ≠ "--" | [] => True end.

Lemma lead_read lead ns argv :
  leads lead ns → no_dash argv →
  consume (positional p) (tokens (options p) (lead ++ argv)) (Reading ∅ false)
    = consume None (tokens (options p) argv) (Reading ns false) ∧
  existsb ambiguous (tokens (options p) (lead ++ argv)) = existsb ambiguous (tokens (options p) argv).
Proof using.
  unfold leads. intros H Hd. destruct (positional p) as [[dest choices]|]; [|by destruct H as [-> ->]].
  destruct H as (w & -> & Hw & Hm & ->).
  rewrite tokens_app by (repeat constructor; by intros ->).
  simpl. rewrite classify_plain by done. split; [|done].
  rewrite bool_decide_true by done. unfold give. simpl. rewrite insert_empty.
  destruct argv as [|s argv]; [done|]. simpl. rewrite bool_decide_false by done.
  destruct (classify (options p) s) eqn:E; try done.
  by apply classify_not_dash in E.
Qed.

Lemma words_no_dash gs wss rest :
  Forall2 spells gs wss → no_dash rest → no_dash (concat wss ++ rest).
Proof using Hok.
  intros H Hr. destruct H as [|[o v] ws gs wss (Ho & _ & Hw) _]; [done|].
  apply written_words in Hw as Hf; [|done]. by destruct Hw; apply Forall_cons in Hf as [? _].
Qed.

Lemma command_read lead ns0 gs wss rest :
  leads lead ns0 → Forall2 spells gs wss → no_dash rest →
  consume (positional p) (tokens (options p) (lead ++ concat wss ++ rest)) (Reading ∅ false)
    = consume None (tokens (options p) rest) (Reading (gives gs ns0) false) ∧
  existsb ambiguous (tokens (options p) (lead ++ concat wss ++ rest))
    = existsb ambiguous (tokens (options p) rest).
Proof using Hok.
  intros Hl Hg Hr.
  destruct (lead_read lead ns0 (concat wss ++ rest) Hl (words_no_dash _ _ _ Hg Hr)) as [-> ->].
  exact (spelled_read gs wss rest None (Reading ns0 false) Hg).
Qed.

Lemma gives_keeps gs ns k : is_Some (ns !! k) → is_Some (gives gs ns !! k).
Proof.
  revert ns. induction gs as [|[o v] gs IH]; intros ns H; [done|]. simpl. apply IH.
  destruct (decide (flag o = k)) as [->|E]; [by rewrite lookup_insert_eq|by rewrite lookup_insert_ne].
Qed.

Lemma gives_given gs ns o : o ∈ gs.*1 → is_Some (gives gs ns !! flag o).
Proof.
  revert ns. induction gs as [|[o' v] gs IH]; intros ns H; [by apply list_elem_of_In in H|].
  apply elem_of_cons in H as [->|H]; simpl; [|by apply IH].
  apply gives_keeps. by rewrite lookup_insert_eq.
Qed.

(** Arguments written in any of these ways, in any order and any number of
    times, with every required one among them, are read back: an option has
    the value given last, or its default. *)
Lemma parse_args_reads lead ns0 gs wss :
  leads lead ns0 → Forall2 spells gs wss →
  (∀ o, o ∈ options p → required o = true → o ∈ gs.*1) →
  parse_args p (lead ++ concat wss) = Parsed (gives gs ns0 ∪ defaults (options p)).
Proof using Hok.
  intros Hlead Hgs Hreq. unfold parse_args.
  destruct (command_read lead ns0 gs wss [] Hlead Hgs I) as [Hc Ha].
  rewrite app_nil_r in Hc, Ha. rewrite Hc, Ha. simpl.
  assert (satisfied p (gives gs ns0) = true) as Hs; [|by rewrite Hs].
  unfold satisfied. apply andb_true_iff. split.
  - apply forallb_forall. intros o Ho%list_elem_of_In. destruct (required o) eqn:Er; [|done].
    apply bool_decide_eq_true. apply gives_given. by apply Hreq.
  - unfold leads in Hlead. destruct (positional p) as [[dest choices]|]; [|done].
    destruct Hlead as (w & _ & _ & _ & ->). apply bool_decide_eq_true, gives_keeps.
    by rewrite lookup_singleton_eq.
Qed.

Lemma gives_only gs ns k : gives gs ns !! k = None ↔ ns !! k = None ∧ k ∉ flag <$> gs.*1.
Proof.
  revert ns. induction gs as [|[o v] gs IH]; intros ns; simpl.
  - split; [|by intros [? _]]. intros H. split; [done|]. apply not_elem_of_nil.
  - rewrite IH, lookup_insert_None, not_elem_of_cons. naive_solver.
Qed.

(** A required option that is not given ends the program with status 2, *)
Lemma parse_args_missing lead ns0 gs wss o :
  leads lead ns0 → Forall2 spells gs wss →
  o ∈ options p → required o = true → o ∉ gs.*1 → parse_args p (lead ++ concat wss) = Exit 2.
Proof using Hok.
  intros Hlead Hgs Ho Hreq Hno. unfold parse_args.
  destruct (command_read lead ns0 gs wss [] Hlead Hgs I) as [Hc Ha].
  rewrite app_nil_r in Hc, Ha. rewrite Hc, Ha. simpl.
  assert (satisfied p (gives gs ns0) = false) as Hs; [|by rewrite Hs].
  unfold satisfied. apply andb_false_iff. left. apply not_true_iff_false. intros H.
  pose proof (proj1 (forallb_forall _ _) H o (proj1 (list_elem_of_In _ _) Ho)) as Hr. simpl in Hr.
  rewrite Hreq in Hr. apply bool_decide_eq_true in Hr. apply eq_None_not_Some in Hr; [done|].
  apply gives_only. split.
  - unfold leads in Hlead. destruct (positional p) as [[dest choices]|] eqn:Hpos; [|by destruct Hlead as [_ ->]].
    destruct Hlead as (w & _ & _ & _ & ->). apply lookup_singleton_ne. intros E. by eapply (flag_not_dest o).
  - intros (o' & E & Ho')%list_elem_of_fmap. apply Hno.
    rewrite (same_flag o o'); [done|done|by eapply spelled_option|done].
Qed.

(** and so does a value that its kind does not accept, whatever comes after
    it. *)
Lemma parse_args_unreadable lead ns0 gs wss o t rest :
  leads lead ns0 → Forall2 spells gs wss → o ∈ options p → convert (kind_of o) t = None →
  parse_args p (lead ++ concat wss ++ (flag o +:+ "=" +:+ t) :: rest) = Exit 2.
Proof using Hok.
  intros Hlead Hgs Ho Ht. unfold parse_args.
  pose proof (equals_not_dash (flag o) t) as Hd.
  destruct (command_read lead ns0 gs wss ((flag o +:+ "=" +:+ t) :: rest) Hlead Hgs Hd) as [-> ->].
  cbn [tokens]. rewrite bool_decide_false, classify_equals by done.
  simpl. rewrite Ht. by destruct (existsb _ _).
Qed.

(** An argument as one word. *)
Definition word (kv : string * pyval) : string :=
  match kv.2 with PBool _ => kv.1 | v => kv.1 +:+ "=" +:+ arg_text v end.

Definition known (kv : string * pyval) : Prop :=
  ∃ o, find_flag (options p) kv.1 = Some o ∧ fits (kind_of o) kv.2.

Definition enough (ks : list string) : bool :=
  forallb (fun o => negb (required o) || existsb (String.eqb (flag o)) ks) (options p).

Lemma known_spelled kvs :
  Forall known kvs →
  ∃ gs, Forall2 spells gs ((fun kv => [word kv]) <$> kvs) ∧ (fun g => (flag g.1, g.2)) <$> gs = kvs.
Proof using.
  induction 1 as [|[k v] kvs (o & Ho & Hv) _ (gs & Hgs & E)]; [by exists []|].
  apply find_flag_Some in Ho as [Ho Hk]. simpl in Hk, Hv. exists ((o, v) :: gs). split.
  - constructor; [|done]. repeat split; [done|done|]. rewrite <-Hk. unfold word. simpl.
    destruct (kind_of o) eqn:Ek, v as [| | | |b]; try done; try (by apply WEquals; rewrite Ek).
    by apply WFlag.
  - rewrite fmap_cons, E. simpl. by rewrite Hk.
Qed.

Lemma parse_args_words lead ns0 kvs :
  leads lead ns0 → Forall known kvs → enough kvs.*1 = true →
  parse_args p (lead ++ (word <$> kvs))
    = Parsed (foldl (fun ns kv => <[kv.1 := kv.2]> ns) ns0 kvs ∪ defaults (options p)).
Proof using Hok.
  intros Hlead Hk He. destruct (known_spelled kvs Hk) as (gs & Hgs & E).
  assert (word <$> kvs = concat ((fun kv => [word kv]) <$> kvs)) as ->.
  { clear. induction kvs as [|kv kvs IH]; [done|]. exact (f_equal (cons (word kv)) IH). }
  rewrite (parse_args_reads lead ns0 gs _ Hlead Hgs).
  - f_equal. f_equal. rewrite <-E. unfold gives. clear. revert ns0.
    induction gs as [|g gs IH]; intros ns0; [done|]. simpl. apply IH.
  - intros o Ho Hr. pose proof (proj1 (forallb_forall _ _) He o (proj1 (list_elem_of_In _ _) Ho)) as H.
    simpl in H. rewrite Hr in H. apply existsb_exists in H as (k & Hin & Heq%String.eqb_eq).
    apply list_elem_of_In in Hin. rewrite <-E, <-list_fmap_compose in Hin.
    apply list_elem_of_fmap in Hin as (g & -> & Hg). simpl in Heq.
    apply list_elem_of_fmap. exists g. split; [|done].
    apply same_flag; [done| |done]. eapply spelled_option; [done|].
    apply list_elem_of_fmap. by exists g.
Qed.
End parser.
