(* ===== verification/Json.v ===== *)
(** * JSON

    The values of [json.loads], as the scripts exchange them with nats_tool
    and PostgreSQL, with the standard library's reader and writer.  A dict is
    its list of items in insertion order.  Strings are 8-bit, as in PyStr.v:
    an escape above \u00ff, which no such string holds, is refused. *)
From Stdlib Require Import Ascii.
From stdpp Require Import sorting.
From S2P Require Import Prelude PyFloat PyStr PyNum PyRepr FloatText.

#[local] Set Warnings "-register-all".

Inductive json :=
| JsNull
| JsBool (b : bool)
| JsInt (z : Z)
| JsFloat (x : float)
| JsStr (s : string)
| JsList (l : list json)
| JsDict (items : list (string * json)).

(** Induction through lists and dicts. *)
Section json_induction.
Context (P : json → Prop).
Context (Hnull : P JsNull) (Hbool : ∀ b, P (JsBool b)) (Hint : ∀ z, P (JsInt z)).
Context (Hfloat : ∀ x, P (JsFloat x)) (Hstr : ∀ s, P (JsStr s)).
Context (Hlist : ∀ l, Forall P l → P (JsList l)).
Context (Hdict : ∀ items, Forall (fun kv => P kv.2) items → P (JsDict items)).

Fixpoint json_nested_ind (v : json) : P v :=
  match v with
  | JsNull => Hnull
  | JsBool b => Hbool b
  | JsInt z => Hint z
  | JsFloat x => Hfloat x
  | JsStr s => Hstr s
  | JsList l =>
      Hlist l ((fix go l : Forall P l :=
        match l with
        | [] => Forall_nil_2 _
        | v :: l' => Forall_cons_2 _ _ _ (json_nested_ind v) (go l')
        end) l)
  | JsDict items =>
      Hdict items ((fix go l : Forall (fun kv => P kv.2) l :=
        match l with
        | [] => Forall_nil_2 _
        | kv :: l' => Forall_cons_2 _ _ _ (json_nested_ind kv.2) (go l')
        end) items)
  end.
End json_induction.

(** ** Dicts *)

Fixpoint dict_get (k : string) (items : list (string * json)) : option json :=
  match items with
  | [] => None
  | (k', v) :: items' => if bool_decide (k = k') then Some v else dict_get k items'
  end.

(** [d[k] = v]: an existing key keeps its place. *)
Fixpoint dict_set (items : list (string * json)) (k : string) (v : json) : list (string * json) :=
  match items with
  | [] => [(k, v)]
  | (k', v') :: items' =>
      if bool_decide (k = k') then (k, v) :: items' else (k', v') :: dict_set items' k v
  end.

Definition dict_of (pairs : list (string * json)) : list (string * json) :=
  foldl (fun items kv => dict_set items kv.1 kv.2) [] pairs.

Definition key_order (a b : string * json) : Prop := str_order a.1 b.1.

#[export] Instance key_order_dec a b : Decision (key_order a b).
Proof. unfold key_order. apply _. Defined.

(** Items sorted by key. *)
Definition sort_items (items : list (string * json)) : list (string * json) :=
  merge_sort key_order items.

(** ** Writing *)

(** [ensure_ascii]: printable ASCII as it is, the rest escaped. *)
Definition escape_char (c : ascii) : string :=
  let n := code c in
  if Ascii.eqb c double_quote || Ascii.eqb c backslash then String backslash (String c EmptyString)
  else if (n =? 10)%N then String backslash "n"
  else if (n =? 13)%N then String backslash "r"
  else if (n =? 9)%N then String backslash "t"
  else if (n =? 12)%N then String backslash "f"
  else if (n =? 8)%N then String backslash "b"
  else if ((32 <=? n) && (n <=? 126))%N then String c EmptyString
  else String backslash ("u00" +:+ hex2 c).

Fixpoint escape (s : string) : string :=
  match s with
  | EmptyString => EmptyString
  | String c s' => escape_char c +:+ escape s'
  end.

Definition dump_str (s : string) : string :=
  String double_quote (escape s +:+ String double_quote EmptyString).

Definition dump_float (x : float) : string :=
  match x with
  | S754_nan => "NaN"
  | S754_infinity s => minus s +:+ "Infinity"
  | _ => float_repr x
  end.

Definition dump_item (dump : json → string) (kv : string * json) : string :=
  dump_str kv.1 +:+ ": " +:+ dump kv.2.

(** [json.dumps(v)] *)
Fixpoint dumps (v : json) : string :=
  match v with
  | JsNull => "null"
  | JsBool b => if b then "true" else "false"
  | JsInt z => py_str z
  | JsFloat x => dump_float x
  | JsStr s => dump_str s
  | JsList l => "[" +:+ join ", " (map dumps l) +:+ "]"
  | JsDict items => "{" +:+ join ", " (map (dump_item dumps) items) +:+ "}"
  end.

(** [sort_keys]: the items of every dict in the order of their keys. *)
Fixpoint sort_keys (v : json) : json :=
  match v with
  | JsList l => JsList (map sort_keys l)
  | JsDict items => JsDict (sort_items (map (fun kv => (kv.1, sort_keys kv.2)) items))
  | _ => v
  end.

(** [str(v)] of a parsed value. *)
Fixpoint json_repr (v : json) : string :=
  match v with
  | JsNull => "None"
  | JsBool b => if b then "True" else "False"
  | JsInt z => py_str z
  | JsFloat x => float_repr x
  | JsStr s => str_repr s
  | JsList l => "[" +:+ join ", " (map json_repr l) +:+ "]"
  | JsDict items =>
      "{" +:+ join ", " (map (fun kv => str_repr kv.1 +:+ ": " +:+ json_repr kv.2) items) +:+ "}"
  end.

Definition json_str (v : json) : string :=
  match v with JsStr s => s | _ => json_repr v end.

(** ** Reading *)

Definition is_json_space (c : ascii) : bool :=
  let n := code c in ((n =? 32) || (n =? 9) || (n =? 10) || (n =? 13))%N.

Definition skip_ws (s : string) : string := lstrip_if is_json_space s.

Definition hex_digit (c : ascii) : option N :=
  let n := code c in
  if ((48 <=? n) && (n <=? 57))%N then Some (n - 48)%N
  else if ((97 <=? n) && (n <=? 102))%N then Some (n - 87)%N
  else if ((65 <=? n) && (n <=? 70))%N then Some (n - 55)%N
  else None.

(** Four hexadecimal digits, below 256. *)
Definition hex4 (a b c d : ascii) : option ascii :=
  x ← hex_digit a; y ← hex_digit b; z ← hex_digit c; w ← hex_digit d;
  let n := (4096 * x + 256 * y + 16 * z + w)%N in
  if (n <? 256)%N then Some (ascii_of_N n) else None.

(** What a one-letter escape stands for. *)
Definition unescape (c : ascii) : option ascii :=
  if Ascii.eqb c double_quote || Ascii.eqb c backslash || Ascii.eqb c "/"%char then Some c
  else if Ascii.eqb c "b"%char then Some (ascii_of_nat 8)
  else if Ascii.eqb c "f"%char then Some (ascii_of_nat 12)
  else if Ascii.eqb c "n"%char then Some (ascii_of_nat 10)
  else if Ascii.eqb c "r"%char then Some (ascii_of_nat 13)
  else if Ascii.eqb c "t"%char then Some (ascii_of_nat 9)
  else None.

(** A string from after its opening quote; control characters are refused. *)
Fixpoint scan_string (s : string) : option (string * string) :=
  match s with
  | EmptyString => None
  | String c s1 =>
      if Ascii.eqb c double_quote then Some (EmptyString, s1)
      else if Ascii.eqb c backslash then
        match s1 with
        | String e s2 =>
            if Ascii.eqb e "u"%char then
              match s2 with
              | String h1 (String h2 (String h3 (String h4 s3))) =>
                  a ← hex4 h1 h2 h3 h4; '(t, r) ← scan_string s3; Some (String a t, r)
              | _ => None
              end
            else a ← unescape e; '(t, r) ← scan_string s2; Some (String a t, r)
        | EmptyString => None
        end
      else if (code c <? 32)%N then None
      else '(t, r) ← scan_string s1; Some (String c t, r)
  end.

(** The longest run of digits. *)
Fixpoint span_digits (s : string) : string * string :=
  match s with
  | String c s' =>
      if is_digit c then let '(d, r) := span_digits s' in (String c d, r) else (EmptyString, s)
  | EmptyString => (EmptyString, EmptyString)
  end.

(** [0|[1-9][0-9]*] *)
Definition int_part (s : string) : option (string * string) :=
  match s with
  | String c s' =>
      if Ascii.eqb c "0"%char then Some ("0", s')
      else if is_digit c then Some (span_digits s) else None
  | EmptyString => None
  end.

(** [(\.[0-9]+)?] *)
Definition frac_part (s : string) : string * string :=
  match s with
  | String c s' =>
      if Ascii.eqb c "."%char then
        match span_digits s' with
        | (EmptyString, _) => (EmptyString, s)
        | (d, r) => (String c d, r)
        end
      else (EmptyString, s)
  | EmptyString => (EmptyString, s)
  end.

(** [[-+]?] *)
Definition sign_part (s : string) : string * string :=
  match s with
  | String c s' =>
      if Ascii.eqb c "-"%char || Ascii.eqb c "+"%char then (String c EmptyString, s')
      else (EmptyString, s)
  | EmptyString => (EmptyString, s)
  end.

(** [([eE][-+]?[0-9]+)?] *)
Definition exp_part (s : string) : string * string :=
  match s with
  | String c s' =>
      if Ascii.eqb c "e"%char || Ascii.eqb c "E"%char then
        let '(sg, r) := sign_part s' in
        match span_digits r with
        | (EmptyString, _) => (EmptyString, s)
        | (d, r') => (String c (sg +:+ d), r')
        end
      else (EmptyString, s)
  | EmptyString => (EmptyString, s)
  end.

Definition scan_number (s : string) : option (json * string) :=
  let '(sign, s1) := match s with
                     | String "-"%char r => ("-", r)
                     | _ => (EmptyString, s)
                     end in
  '(ip, s2) ← int_part s1;
  let '(fp, s3) := frac_part s2 in
  let '(ep, s4) := exp_part s3 in
  match fp, ep with
  | EmptyString, EmptyString => z ← py_int (sign +:+ ip); Some (JsInt z, s4)
  | _, _ => x ← py_float (sign +:+ ip +:+ fp +:+ ep); Some (JsFloat x, s4)
  end.

(** [s] without the prefix [p]. *)
Fixpoint strip_prefix (p s : string) : option string :=
  match p, s with
  | EmptyString, _ => Some s
  | String a p', String b s' => if Ascii.eqb a b then strip_prefix p' s' else None
  | String _ _, EmptyString => None
  end.

(** The constants, and then a number. *)
Definition scan_atom (s : string) : option (json * string) :=
  match strip_prefix "null" s with Some r => Some (JsNull, r) | None =>
  match strip_prefix "true" s with Some r => Some (JsBool true, r) | None =>
  match strip_prefix "false" s with Some r => Some (JsBool false, r) | None =>
  match strip_prefix "NaN" s with Some r => Some (JsFloat fnan, r) | None =>
  match strip_prefix "Infinity" s with Some r => Some (JsFloat finf, r) | None =>
  match strip_prefix "-Infinity" s with Some r => Some (JsFloat (S754_infinity true), r) | None =>
    scan_number s
  end end end end end end.

(** A value, the elements of a list and the items of a dict, from where they
    start.  Two units of fuel per character are enough ([JsonRead.parse_fuel]):
    an element starts where its list's elements do, and every other call is
    further on. *)
Fixpoint parse_value (fuel : nat) (s : string) : option (json * string) :=
  match fuel with
  | O => None
  | S fuel' =>
      match s with
      | EmptyString => None
      | String c s' =>
          if Ascii.eqb c double_quote then '(t, r) ← scan_string s'; Some (JsStr t, r)
          else if Ascii.eqb c "{"%char then
            match strip_prefix "}" (skip_ws s') with
            | Some r => Some (JsDict [], r)
            | None => '(items, r) ← parse_items fuel' (skip_ws s'); Some (JsDict (dict_of items), r)
            end
          else if Ascii.eqb c "["%char then
            match strip_prefix "]" (skip_ws s') with
            | Some r => Some (JsList [], r)
            | None => '(l, r) ← parse_elements fuel' (skip_ws s'); Some (JsList l, r)
            end
          else scan_atom s
      end
  end
with parse_elements (fuel : nat) (s : string) : option (list json * string) :=
  match fuel with
  | O => None
  | S fuel' =>
      '(v, r) ← parse_value fuel' s;
      match strip_prefix "]" (skip_ws r) with
      | Some r' => Some ([v], r')
      | None =>
          r' ← strip_prefix "," (skip_ws r);
          '(l, r'') ← parse_elements fuel' (skip_ws r');
          Some (v :: l, r'')
      end
  end
with parse_items (fuel : nat) (s : string) : option (list (string * json) * string) :=
  match fuel with
  | O => None
  | S fuel' =>
      s1 ← strip_prefix (String double_quote EmptyString) s;
      '(k, s2) ← scan_string s1;
      s3 ← strip_prefix ":" (skip_ws s2);
      '(v, r) ← parse_value fuel' (skip_ws s3);
      match strip_prefix "}" (skip_ws r) with
      | Some r' => Some ([(k, v)], r')
      | None =>
          r' ← strip_prefix "," (skip_ws r);
          '(l, r'') ← parse_items fuel' (skip_ws r');
          Some ((k, v) :: l, r'')
      end
  end.

(** [json.loads(s)]; [None] is [json.JSONDecodeError]. *)
Definition loads (s : string) : option json :=
  '(v, r) ← parse_value (2 * String.length s + 2) (skip_ws s);
  match skip_ws r with EmptyString => Some v | _ => None end.

Definition quoted (s : string) : string :=
  String double_quote (s +:+ String double_quote EmptyString).

Example loads_dict :
  loads (" {" +:+ quoted "a" +:+ ": [1, -2.50, 1e2, null],  " +:+ quoted "b\u0041\n" +:+ " :true}")
  = Some (JsDict [("a", JsList [JsInt 1; JsFloat (lit (-5) 2); JsFloat (of_int 100); JsNull]);
                  ("bA" +:+ newline, JsBool true)]).
Proof. vm_compute. reflexivity. Qed.

Example loads_errors :
  loads "[1,]" = None ∧ loads "01" = None ∧ loads "1." = None ∧ loads EmptyString = None.
Proof. vm_compute. repeat split. Qed.

Example dumps_dict :
  dumps (sort_keys (JsDict [("b", JsFloat (lit 1 4)); ("a", JsStr ("x" +:+ newline))]))
  = "{" +:+ quoted "a" +:+ ": " +:+ quoted "x\n" +:+ ", " +:+ quoted "b" +:+ ": 0.25}".
Proof. vm_compute. reflexivity. Qed.

(** ** What is written reads back

    Reading stops where the text of a value ends, provided what follows does
    not continue a number. *)

Definition continues (c : ascii) : bool :=
  is_digit c || Ascii.eqb c "."%char || Ascii.eqb c "e"%char || Ascii.eqb c "E"%char
  || Ascii.eqb c "-"%char || Ascii.eqb c "+"%char.

Definition stops (s : string) : bool :=
  match s with String c _ => negb (continues c) | EmptyString => true end.

Lemma stops_char c s :
  stops (String c s) = true →
  is_digit c = false ∧ Ascii.eqb c "."%char = false ∧ Ascii.eqb c "e"%char = false ∧
  Ascii.eqb c "E"%char = false ∧ Ascii.eqb c "-"%char = false ∧ Ascii.eqb c "+"%char = false.
Proof.
  simpl. unfold continues. rewrite !negb_true_iff, !orb_false_iff. tauto.
Qed.

Lemma span_digits_stops s : stops s = true → span_digits s = (EmptyString, s).
Proof. destruct s as [|c s]; [done|]. intros (Hd & _)%stops_char. simpl. by rewrite Hd. Qed.

Lemma span_digits_app t rest :
  stops rest = true → ∀ d r, span_digits t = (d, r) → span_digits (t +:+ rest) = (d, r +:+ rest).
Proof.
  intros Hr. induction t as [|c t IH]; intros d r.
  - intros [= <- <-]. by apply span_digits_stops.
  - rewrite append_cons. simpl. destruct (is_digit c); [|by intros [= <- <-]].
    destruct (span_digits t) as [d' r']. intros [= <- <-]. by rewrite (IH _ _ eq_refl).
Qed.

Lemma int_part_app t rest d r :
  stops rest = true → int_part t = Some (d, r) → int_part (t +:+ rest) = Some (d, r +:+ rest).
Proof.
  intros Hr. destruct t as [|c t]; [done|]. rewrite append_cons. unfold int_part.
  destruct (Ascii.eqb c "0"%char); [by intros [= <- <-]|].
  destruct (is_digit c) eqn:Hc; [|done]. rewrite <-append_cons. intros H. f_equal.
  apply (span_digits_app (String c t)); [done|]. by injection H.
Qed.

Lemma frac_part_app t rest f r :
  stops rest = true → frac_part t = (f, r) → frac_part (t +:+ rest) = (f, r +:+ rest).
Proof.
  intros Hr. destruct t as [|c t].
  - intros [= <- <-]. rewrite append_nil_l. destruct rest as [|c rest]; [done|].
    apply stops_char in Hr as (_ & Hc & _). simpl. by rewrite Hc.
  - rewrite append_cons. simpl. destruct (Ascii.eqb c "."%char); [|by intros [= <- <-]].
    destruct (span_digits t) as [d r'] eqn:Hs. rewrite (span_digits_app _ _ Hr _ _ Hs).
    destruct d; by intros [= <- <-].
Qed.

Lemma sign_part_app t rest f r :
  stops rest = true → sign_part t = (f, r) → sign_part (t +:+ rest) = (f, r +:+ rest).
Proof.
  intros Hr. destruct t as [|c t].
  - intros [= <- <-]. rewrite append_nil_l. destruct rest as [|c rest]; [done|].
    apply stops_char in Hr as (_ & _ & _ & _ & Hm & Hp). simpl. by rewrite Hm, Hp.
  - rewrite append_cons. simpl. by destruct (_ || _); intros [= <- <-].
Qed.

Lemma exp_part_app t rest f r :
  stops rest = true → exp_part t = (f, r) → exp_part (t +:+ rest) = (f, r +:+ rest).
Proof.
  intros Hr. destruct t as [|c t].
  - intros [= <- <-]. rewrite append_nil_l. destruct rest as [|c rest]; [done|].
    apply stops_char in Hr as (_ & _ & He & HE & _). simpl. by rewrite He, HE.
  - rewrite append_cons. simpl. destruct (_ || _); [|by intros [= <- <-]].
    destruct (sign_part t) as [sg t'] eqn:Hsg. rewrite (sign_part_app _ _ _ _ Hr Hsg).
    destruct (span_digits t') as [d r'] eqn:Hs. rewrite (span_digits_app _ _ Hr _ _ Hs).
    destruct d; by intros [= <- <-].
Qed.

(** Where a number starts. *)
Definition unsign (s : string) : string * string :=
  match s with String "-"%char r => ("-", r) | _ => (EmptyString, s) end.

Lemma unsign_app t rest sg r :
  t ≠ EmptyString → unsign t = (sg, r) → unsign (t +:+ rest) = (sg, r +:+ rest).
Proof.
  destruct t as [|c t]; [done|]. intros _. rewrite append_cons.
  destruct c as [[] [] [] [] [] [] [] []]; by intros [= <- <-].
Qed.

Lemma scan_number_app t rest v r :
  stops rest = true → scan_number t = Some (v, r) → scan_number (t +:+ rest) = Some (v, r +:+ rest).
Proof.
  intros Hr. unfold scan_number. change (match t with String "-" r => ("-", r) | _ => (EmptyString, t) end)
    with (unsign t).
  change (match t +:+ rest with String "-" r => ("-", r) | _ => (EmptyString, t +:+ rest) end)
    with (unsign (t +:+ rest)).
  destruct (unsign t) as [sg s1] eqn:H1.
  destruct (decide (t = EmptyString)) as [->|Hne].
  { injection H1 as <- <-. done. }
  rewrite (unsign_app _ _ _ _ Hne H1).
  destruct (int_part s1) as [[ip s2]|] eqn:H2; [|done].
  rewrite (int_part_app _ _ _ _ Hr H2). simpl.
  destruct (frac_part s2) as [fp s3] eqn:H3. rewrite (frac_part_app _ _ _ _ Hr H3).
  destruct (exp_part s3) as [ep s4] eqn:H4. rewrite (exp_part_app _ _ _ _ Hr H4).
  destruct fp, ep; simpl; [destruct (py_int _)|destruct (py_float _)..]; by intros [= <- <-].
Qed.

(** A number begins with a digit, after an optional minus. *)
Definition number_head (s : string) : bool :=
  match unsign s with (_, String c _) => is_digit c | _ => false end.

Lemma scan_number_head t v : scan_number t = Some v → number_head t = true.
Proof.
  unfold scan_number, number_head.
  change (match t with String "-" r => ("-", r) | _ => (EmptyString, t) end) with (unsign t).
  destruct (unsign t) as [sg [|c s]]; [done|]. simpl.
  destruct (Ascii.eqb c "0"%char) eqn:E; [by apply Ascii.eqb_eq in E as ->|].
  by destruct (is_digit c).
Qed.

Lemma number_head_inv t :
  number_head t = true →
  ∃ c s, t = String c s ∧ (is_digit c = true ∨ c = "-"%char ∧
    ∃ d s', s = String d s' ∧ is_digit d = true).
Proof.
  unfold number_head. destruct t as [|c t]; [done|]. intros H. exists c, t. split; [done|].
  destruct (decide (c = "-"%char)) as [->|Hne].
  - right. split; [done|]. simpl in H. destruct t as [|d s]; [done|]. by exists d, s.
  - left. destruct c as [[] [] [] [] [] [] [] []]; done.
Qed.

(** Digits and the minus are none of the characters the reader tests for
    first. *)
Lemma scan_atom_number t v rest :
  stops rest = true → scan_number t = Some (v, EmptyString) →
  scan_atom (t +:+ rest) = Some (v, rest).
Proof.
  intros Hr H. pose proof (scan_number_app _ _ _ _ Hr H) as Happ. rewrite append_nil_l in Happ.
  destruct (number_head_inv t) as (c & s & -> & Hc); [by eapply scan_number_head|].
  unfold scan_atom. rewrite append_cons in *.
  destruct Hc as [Hc|(-> & d & s' & -> & Hd)].
  - destruct c as [[] [] [] [] [] [] [] []]; try discriminate Hc; exact Happ.
  - rewrite append_cons in *. destruct d as [[] [] [] [] [] [] [] []]; try discriminate Hd; exact Happ.
Qed.

Lemma scan_escape_char c s :
  scan_string (escape_char c +:+ s) = '(t, r) ← scan_string s; Some (String c t, r).
Proof. destruct c as [[] [] [] [] [] [] [] []]; reflexivity. Qed.

Lemma scan_string_escape t rest :
  scan_string (escape t +:+ String double_quote rest) = Some (t, rest).
Proof.
  induction t as [|c t IH]; [done|]. simpl escape.
  by rewrite append_assoc, scan_escape_char, IH.
Qed.

Lemma span_digits_all s : digit_string s = true → span_digits s = (s, EmptyString).
Proof.
  unfold digit_string. induction s as [|c s IH]; [done|]. simpl. unfold is_digit at 1.
  destruct (digit c); [|done]. simpl. intros H. by rewrite IH.
Qed.

Lemma int_part_py_str z : 0 ≤ z → int_part (py_str z) = Some (py_str z, EmptyString).
Proof.
  intros Hz. destruct (decide (z = 0)) as [->|Hne]; [done|].
  pose proof (span_digits_all _ (digit_string_py_str z Hz)) as Hs.
  rewrite (py_str_N z Hz) in *. unfold pretty_N in *. rewrite decide_False in * by lia.
  destruct (pretty_N_go_head (Z.to_N z) EmptyString ltac:(lia)) as (n & s & E & Hn).
  rewrite E in *. unfold int_part.
  replace (Ascii.eqb (pretty_N_char n) "0"%char) with false.
  - unfold is_digit. rewrite digit_char by lia. by rewrite Hs.
  - destruct n as [|p]; [lia|]. do 4 (destruct p as [p|p|]; try done; try lia).
Qed.

Lemma scan_py_str z : scan_number (py_str z) = Some (JsInt z, EmptyString).
Proof.
  unfold scan_number.
  change (match py_str z with String "-" r => ("-", r) | _ => (EmptyString, py_str z) end)
    with (unsign (py_str z)).
  destruct (Z.neg_nonneg_cases z) as [Hz|Hz].
  - rewrite py_str_neg by done. simpl unsign. cbv iota beta.
    rewrite int_part_py_str by lia. simpl.
    change ("-" +:+ py_str (- z)) with (String "-"%char (py_str (- z))).
    rewrite py_int_str_neg by lia. simpl. by rewrite Z.opp_involutive.
  - assert (unsign (py_str z) = (EmptyString, py_str z)) as ->.
    { pose proof (int_part_py_str z Hz) as H. destruct (py_str z) as [|c s]; [done|].
      destruct c as [[] [] [] [] [] [] [] []]; done. }
    rewrite int_part_py_str by lia. simpl. rewrite append_nil_l, py_int_str by done. done.
Qed.

(** ** Floats read back

    A number's text is scanned as it was put together. *)
Lemma span_digits_ends t rest :
  digit_string t = true → ends_digits rest = true → span_digits (t +:+ rest) = (t, rest).
Proof.
  intros Ht Hr. induction t as [|c t IH].
  - rewrite append_nil_l. destruct rest as [|c rest]; [done|]. simpl in *.
    by destruct (is_digit c).
  - destruct (digit_string_cons _ _ Ht) as [[z Hz] Ht']. rewrite append_cons. simpl.
    unfold is_digit. by rewrite Hz, IH.
Qed.

Lemma after_e_ends x : ends_digits (after_e x) = true.
Proof. destruct x as [x|]; [|done]. simpl after_e. by rewrite exponent_text_eq. Qed.

Lemma int_part_leading ip rest :
  digit_string ip = true → leading_ok ip → ends_digits rest = true →
  int_part (ip +:+ rest) = Some (ip, rest).
Proof.
  intros Hd Hl Hr. pose proof (span_digits_ends ip rest Hd Hr) as Hs.
  destruct Hl as [->|(c & t & -> & Hc & Hcd)]; [done|].
  rewrite append_cons in *. unfold int_part.
  destruct (Ascii.eqb_spec c "0"%char); [done|]. by rewrite Hcd, Hs.
Qed.

Lemma frac_part_after_point f x :
  digit_string (frac_digits f) = true → f ≠ Some EmptyString →
  frac_part (after_point f +:+ after_e x) = (after_point f, after_e x).
Proof.
  intros Hf Hne. destruct f as [f|]; simpl after_point.
  - rewrite append_cons, append_nil_l, append_cons. simpl.
    rewrite span_digits_ends; [|done|apply after_e_ends]. by destruct f.
  - rewrite append_nil_l. destruct x as [x|]; [|done]. simpl after_e. by rewrite exponent_text_eq.
Qed.

Lemma exp_part_after_e x : exp_part (after_e x) = (after_e x, EmptyString).
Proof.
  destruct x as [x|]; [|done]. simpl after_e. rewrite exponent_text_eq.
  set (t := _ +:+ py_str (Z.abs x)).
  assert (digit_string t = true ∧ t ≠ EmptyString) as [Hd Hne].
  { pose proof (digit_string_py_str (Z.abs x) ltac:(lia)). subst t.
    destruct (_ <? 10); split; try done. apply py_str_nonempty. }
  clearbody t. pose proof (span_digits_ends t EmptyString Hd eq_refl) as Hs.
  rewrite append_nil_r in Hs. simpl. destruct (x <? 0); simpl; rewrite Hs; by destruct t.
Qed.

Lemma scan_number_text s ip f n x :
  number_shape ip f n → py_float (minus s +:+ number_text ip f n) = Some x →
  scan_number (minus s +:+ number_text ip f n) = Some (JsFloat x, EmptyString).
Proof.
  intros [Hd Hl Hf Hfn Hff] Hx. unfold scan_number.
  change (match ?t with String "-" r => ("-", r) | _ => (EmptyString, ?t) end) with (unsign t).
  assert (unsign (minus s +:+ number_text ip f n) = (minus s, number_text ip f n)) as ->.
  { destruct s; [done|]. rewrite append_nil_l. unfold number_text.
    destruct Hl as [->|(c & t & -> & _ & Hc)]; [done|]. rewrite append_cons.
    destruct c as [[] [] [] [] [] [] [] []]; done. }
  cbv iota beta. revert Hx. unfold number_text.
  rewrite int_part_leading; [|done|done|].
  2:{ destruct f; [done|]. rewrite append_nil_l. apply after_e_ends. }
  simpl mbind. cbv iota beta. rewrite frac_part_after_point by done.
  rewrite exp_part_after_e. intros Hx.
  destruct f as [f|]; simpl after_point in *; [rewrite append_cons in *|].
  - by rewrite Hx.
  - destruct n as [n|]; [|by destruct Hff]. simpl after_e in *. rewrite exponent_text_eq in *.
    by rewrite Hx.
Qed.

(** Every finite double is read back from its text. *)
Lemma scan_float_repr x :
  is_finite x = true → valid x = true →
  scan_number (float_repr x) = Some (JsFloat x, EmptyString).
Proof.
  intros Hf Hv. destruct (float_repr_reads x Hf Hv) as (ip & f & n & E & Hs & Hx).
  rewrite E in *. by apply scan_number_text.
Qed.

(** What [json.loads] returns ([JsonRead.loads_well_formed]): the keys of every dict are
    distinct, and every float is a double. *)
Fixpoint well_formed (v : json) : bool :=
  match v with
  | JsFloat x => valid x
  | JsList l => forallb well_formed l
  | JsDict items => bool_decide (NoDup items.*1) && forallb (fun kv => well_formed kv.2) items
  | _ => true
  end.

(** Fuel for reading a value, and for the rest of a list. *)
Fixpoint need (v : json) : nat :=
  match v with
  | JsList l => S (list_sum (map (fun v => S (need v)) l))
  | JsDict items => S (list_sum (map (fun kv => S (need kv.2)) items))
  | _ => 1%nat
  end.

Lemma scan_atom_float x rest :
  valid x = true → stops rest = true →
  scan_atom (dump_float x +:+ rest) = Some (JsFloat x, rest).
Proof.
  intros Hx Hr. destruct x as [s|[]| |s m e]; [|done..|];
    by apply scan_atom_number, scan_float_repr.
Qed.

(** A value's text begins with none of the reader's separators. *)
Definition value_head (c : ascii) : bool :=
  negb (is_json_space c) && negb (Ascii.eqb c "]"%char) && negb (Ascii.eqb c "}"%char).

Lemma number_value_head t rest :
  number_head t = true → ∃ c s, t +:+ rest = String c s ∧ value_head c = true ∧
    Ascii.eqb c double_quote = false ∧ Ascii.eqb c "{"%char = false ∧ Ascii.eqb c "["%char = false.
Proof.
  intros (c & s & -> & Hc)%number_head_inv. exists c, (s +:+ rest). split; [done|].
  destruct Hc as [Hc|[-> _]]; [|done].
  destruct c as [[] [] [] [] [] [] [] []]; done.
Qed.

Lemma py_str_number_head z : number_head (py_str z) = true.
Proof. eapply scan_number_head, scan_py_str. Qed.

Lemma float_number_head s m e :
  valid (S754_finite s m e) = true → number_head (float_repr (S754_finite s m e)) = true.
Proof. intros H. by eapply scan_number_head, scan_float_repr. Qed.

Lemma dumps_head v rest :
  well_formed v = true → ∃ c s, dumps v +:+ rest = String c s ∧ value_head c = true.
Proof.
  intros Hv. destruct v as [| [] |z|x|s|l|items]; try (by eexists _, _).
  - destruct (number_value_head (py_str z) rest (py_str_number_head z)) as (c & s & H1 & H2 & _).
    by exists c, s.
  - destruct x as [[]|[]| |s m e]; try (by eexists _, _).
    destruct (number_value_head _ rest (float_number_head s m e Hv)) as (c & t & H1 & H2 & _).
    by exists c, t.
Qed.

Lemma skip_ws_value v rest :
  well_formed v = true → skip_ws (dumps v +:+ rest) = dumps v +:+ rest.
Proof.
  intros Hv. destruct (dumps_head v rest Hv) as (c & s & -> & Hc).
  unfold value_head in Hc. rewrite !andb_true_iff, !negb_true_iff in Hc.
  unfold skip_ws. simpl. by destruct Hc as [[-> _] _].
Qed.

Lemma strip_char a c s :
  strip_prefix (String a EmptyString) (String c s) = if Ascii.eqb c a then Some s else None.
Proof. rewrite Ascii.eqb_sym. unfold strip_prefix. by destruct s. Qed.

Lemma value_not_closing v rest :
  well_formed v = true →
  strip_prefix "]" (dumps v +:+ rest) = None ∧ strip_prefix "}" (dumps v +:+ rest) = None.
Proof.
  intros Hv. destruct (dumps_head v rest Hv) as (c & s & -> & Hc).
  unfold value_head in Hc. rewrite !andb_true_iff, !negb_true_iff in Hc.
  destruct Hc as [[_ H1] H2]. by rewrite !strip_char, H1, H2.
Qed.

Lemma parse_atom v fuel rest :
  well_formed v = true → stops rest = true →
  match v with JsList _ | JsDict _ => False | _ => True end →
  parse_value (S fuel) (dumps v +:+ rest) = Some (v, rest).
Proof.
  intros Hv Hr Ha. destruct v as [|[]|z|x|s| |]; try done.
  - simpl dumps. pose proof (scan_atom_number _ _ _ Hr (scan_py_str z)) as Hs.
    destruct (number_value_head (py_str z) rest (py_str_number_head z))
      as (c & s & E & _ & Hq & Hb & Hk).
    rewrite E in *. simpl. by rewrite Hq, Hb, Hk.
  - simpl dumps. pose proof (scan_atom_float x rest Hv Hr) as Hs.
    destruct x as [[]|[]| |s m e]; [exact Hs..|].
    destruct (number_value_head _ rest (float_number_head s m e Hv)) as (c & t & E & _ & Hq & Hb & Hk).
    change (dump_float (S754_finite s m e)) with (float_repr (S754_finite s m e)) in *. rewrite E in *. simpl. by rewrite Hq, Hb, Hk.
  - simpl dumps. unfold dump_str. rewrite append_cons, append_assoc.
    change (String double_quote EmptyString +:+ rest) with (String double_quote rest).
    simpl. by rewrite scan_string_escape.
Qed.

Lemma dict_set_fresh items k v : k ∉ items.*1 → dict_set items k v = items ++ [(k, v)].
Proof.
  induction items as [|[k' v'] items IH]; [done|]. simpl. rewrite not_elem_of_cons.
  intros [Hne Hk]. rewrite bool_decide_eq_false_2 by done. by rewrite IH.
Qed.

Lemma dict_of_distinct items : NoDup items.*1 → dict_of items = items.
Proof.
  unfold dict_of. intros H.
  enough (∀ acc, NoDup (acc ++ items).*1 →
    foldl (fun items kv => dict_set items kv.1 kv.2) acc items = acc ++ items) as Hg by by apply Hg.
  clear H. induction items as [|[k v] items IH]; intros acc H; simpl; [by rewrite app_nil_r|].
  rewrite dict_set_fresh, IH; rewrite <-?app_assoc; [done|done|].
  rewrite fmap_app in H. apply NoDup_app in H as (_ & H & _).
  intros Hk. apply (H k Hk). simpl. by left.
Qed.

Definition round_trips (v : json) : Prop :=
  ∀ fuel rest, well_formed v = true → stops rest = true → (need v ≤ fuel)%nat →
  parse_value fuel (dumps v +:+ rest) = Some (v, rest).

(** Between two elements. *)
Lemma after_comma s :
  strip_prefix "]" (skip_ws (", " +:+ s)) = None ∧ strip_prefix "}" (skip_ws (", " +:+ s)) = None ∧
  strip_prefix "," (skip_ws (", " +:+ s)) = Some (" " +:+ s) ∧ skip_ws (" " +:+ s) = skip_ws s.
Proof. by rewrite !append_cons, !append_nil_l. Qed.

Lemma after_colon s :
  strip_prefix ":" (skip_ws (": " +:+ s)) = Some (" " +:+ s) ∧ skip_ws (" " +:+ s) = skip_ws s.
Proof. by rewrite !append_cons, !append_nil_l. Qed.

Lemma dump_str_app k s :
  dump_str k +:+ s = String double_quote (escape k +:+ String double_quote s).
Proof. unfold dump_str. by rewrite append_cons, append_assoc. Qed.

Ltac reduce_binds := cbn -[join String.append skip_ws strip_prefix parse_value parse_elements parse_items map dumps].

(** In front of a list's closing bracket. *)
Lemma parse_elements_dumps l fuel rest :
  l ≠ [] → Forall round_trips l → forallb well_formed l = true →
  (list_sum (map (fun v => S (need v)) l) ≤ fuel)%nat →
  parse_elements fuel (join ", " (map dumps l) +:+ "]" +:+ rest) = Some (l, rest).
Proof.
  intros Hne Hl. revert fuel. induction Hl as [|v l Hv Hl IH]; [done|]. clear Hne.
  intros fuel [Hw Hws]%andb_prop Hn. destruct fuel as [|fuel]; [simpl in Hn; lia|].
  simpl in Hn. destruct l as [|v' l].
  - simpl. rewrite Hv; [done|done|done|simpl in Hn; lia].
  - change (join ", " (map dumps (v :: v' :: l)))
      with (dumps v +:+ ", " +:+ join ", " (map dumps (v' :: l))).
    rewrite !append_assoc. cbn [parse_elements]. rewrite Hv; [|done|done|simpl in Hn; lia]. reduce_binds.
    set (s := join _ _ +:+ _). destruct (after_comma s) as (-> & _ & -> & Hs). reduce_binds. rewrite Hs. subst s.
    pose proof Hws as [Hw' _]%andb_prop.
    assert (∃ r, join ", " (map dumps (v' :: l)) +:+ "]" +:+ rest = dumps v' +:+ r) as [r Hr].
    { destruct l; [by eexists|]. simpl. rewrite !append_assoc. by eexists. }
    rewrite Hr, skip_ws_value by done. rewrite <-Hr, IH; [done|done|done|lia].
Qed.

Lemma parse_items_dumps items fuel rest :
  items ≠ [] → Forall (fun kv => round_trips kv.2) items →
  forallb (fun kv => well_formed kv.2) items = true →
  (list_sum (map (fun kv => S (need kv.2)) items) ≤ fuel)%nat →
  parse_items fuel (join ", " (map (dump_item dumps) items) +:+ "}" +:+ rest) = Some (items, rest).
Proof.
  intros Hne Hl. revert fuel. induction Hl as [|[k v] l Hv Hl IH]; [done|]. clear Hne.
  intros fuel [Hw Hws]%andb_prop Hn. destruct fuel as [|fuel]; [simpl in Hn; lia|].
  simpl in Hn, Hv, Hw.
  assert (∀ s, parse_items (S fuel) (dump_item dumps (k, v) +:+ s) =
    '(v', r) ← parse_value fuel (dumps v +:+ s);
    match strip_prefix "}" (skip_ws r) with
    | Some r' => Some ([(k, v')], r')
    | None => r' ← strip_prefix "," (skip_ws r);
              '(l, r'') ← parse_items fuel (skip_ws r'); Some ((k, v') :: l, r'')
    end) as Hitem.
  { intros s. unfold dump_item. simpl fst. simpl snd.
    rewrite !append_assoc, dump_str_app. cbn [parse_items].
    rewrite strip_char, Ascii.eqb_refl. reduce_binds. rewrite scan_string_escape. reduce_binds.
    destruct (after_colon (dumps v +:+ s)) as [-> Hs]. reduce_binds.
    by rewrite Hs, skip_ws_value. }
  destruct l as [|[k' v'] l].
  - change (join ", " (map (dump_item dumps) [(k, v)])) with (dump_item dumps (k, v)).
    rewrite Hitem, Hv; [done|done|done|simpl in Hn; lia].
  - change (join ", " (map (dump_item dumps) ((k, v) :: (k', v') :: l)))
      with (dump_item dumps (k, v) +:+ ", " +:+ join ", " (map (dump_item dumps) ((k', v') :: l))).
    rewrite !append_assoc, Hitem, Hv; [|done|done|simpl in Hn; lia]. reduce_binds.
    set (s := join _ _ +:+ _). destruct (after_comma s) as (_ & -> & -> & Hs). reduce_binds. rewrite Hs. subst s.
    assert (∃ r, join ", " (map (dump_item dumps) ((k', v') :: l)) +:+ "}" +:+ rest
                 = String double_quote r) as [r Hr].
    { destruct l; [by eexists|]. simpl. unfold dump_item at 1. rewrite !append_assoc. by eexists. }
    rewrite Hr.
    change (skip_ws (String double_quote r)) with (String double_quote r).
    rewrite <-Hr, IH; [done|done|done|lia].
Qed.

Lemma parse_list fuel s :
  parse_value (S fuel) ("[" +:+ s) =
  match strip_prefix "]" (skip_ws s) with
  | Some r => Some (JsList [], r)
  | None => '(l, r) ← parse_elements fuel (skip_ws s); Some (JsList l, r)
  end.
Proof. by rewrite append_cons, append_nil_l. Qed.

Lemma parse_dict fuel s :
  parse_value (S fuel) ("{" +:+ s) =
  match strip_prefix "}" (skip_ws s) with
  | Some r => Some (JsDict [], r)
  | None => '(items, r) ← parse_items fuel (skip_ws s); Some (JsDict (dict_of items), r)
  end.
Proof. by rewrite append_cons, append_nil_l. Qed.

Lemma all_round_trip v : round_trips v.
Proof.
  induction v as [| | | | |l IH|items IH] using json_nested_ind; intros fuel rest Hw Hr Hn;
    (destruct fuel as [|fuel]; [simpl in Hn; lia|]); try (by apply parse_atom).
  - change (dumps (JsList l)) with ("[" +:+ join ", " (map dumps l) +:+ "]").
    rewrite !append_assoc, parse_list. destruct l as [|v l]; [done|].
    simpl in Hw. pose proof Hw as [Hwv _]%andb_prop.
    assert (∃ r, join ", " (map dumps (v :: l)) +:+ "]" +:+ rest = dumps v +:+ r) as [r E].
    { destruct l; [by eexists|]. simpl. rewrite !append_assoc. by eexists. }
    rewrite E, skip_ws_value by done.
    destruct (value_not_closing v r Hwv) as [-> _]. rewrite <-E.
    rewrite parse_elements_dumps; [done|done|done|done|simpl in Hn |- *; lia].
  - change (dumps (JsDict items)) with ("{" +:+ join ", " (map (dump_item dumps) items) +:+ "}").
    rewrite !append_assoc, parse_dict. destruct items as [|kv items]; [done|].
    apply andb_prop in Hw as [Hd Hw].
    assert (∃ r, join ", " (map (dump_item dumps) (kv :: items)) +:+ "}" +:+ rest
                 = String double_quote r) as [r E].
    { destruct items; [by eexists|]. simpl. unfold dump_item at 1. rewrite !append_assoc. by eexists. }
    rewrite E. change (skip_ws (String double_quote r)) with (String double_quote r).
    rewrite strip_char. change (Ascii.eqb double_quote "}") with false. cbv iota.
    rewrite <-E, parse_items_dumps; [|done|done|done|simpl in Hn |- *; lia].
    simpl. rewrite dict_of_distinct; [done|]. by apply bool_decide_eq_true in Hd.
Qed.

Lemma length_append s1 s2 : String.length (s1 +:+ s2) = (String.length s1 + String.length s2)%nat.
Proof. induction s1 as [|c s1 IH]; [done|]. rewrite append_cons. simpl. by rewrite IH. Qed.

(** Texts joined by a two-character separator. *)
Lemma length_join l :
  l ≠ [] → String.length (join ", " l) = (list_sum (map String.length l) + 2 * (length l - 1))%nat.
Proof.
  induction l as [|s [|s' l] IH]; [done|simpl; lia|]. intros _.
  change (join ", " (s :: s' :: l)) with (s +:+ ", " +:+ join ", " (s' :: l)).
  rewrite !length_append, IH by done. simpl. lia.
Qed.

(** One unit per element and two per character of its text. *)
Lemma needs_of_elements {A} (n : A → nat) (text : A → string) l :
  Forall (fun a => (n a ≤ 2 * String.length (text a))%nat) l → l ≠ [] →
  (S (list_sum (map (fun a => S (n a)) l)) ≤ 2 * (2 + String.length (join ", " (map text l))))%nat.
Proof.
  intros H Hne. rewrite length_join by (by destruct l). rewrite length_map.
  assert (list_sum (map (fun a => S (n a)) l) ≤
          length l + 2 * list_sum (map String.length (map text l)))%nat.
  { clear Hne. induction H as [|a l Ha _ IH]; simpl in *; lia. }
  destruct l; [done|]. simpl length in *. lia.
Qed.

Lemma need_bound v : well_formed v = true → (need v ≤ 2 * String.length (dumps v))%nat.
Proof.
  assert (∀ v, well_formed v = true → (1 ≤ String.length (dumps v))%nat) as Hone.
  { intros w Hw. destruct (dumps_head w EmptyString Hw) as (c & s & E & _).
    rewrite append_nil_r in E. rewrite E. simpl. lia. }
  induction v as [| | | | |l IH|items IH] using json_nested_ind; intros Hw;
    try (pose proof (Hone _ Hw); cbn [need]; lia).
  - change (dumps (JsList l)) with ("[" +:+ join ", " (map dumps l) +:+ "]").
    rewrite !length_append. destruct l as [|v l]; [simpl; lia|].
    etrans; [apply (needs_of_elements need dumps); [|done]|simpl; lia].
    change (forallb well_formed (v :: l) = true) in Hw. rewrite forallb_forall in Hw. rewrite Forall_forall in IH |- *.
    intros w Hin. apply IH; [done|]. apply Hw. by apply list_elem_of_In.
  - change (dumps (JsDict items)) with ("{" +:+ join ", " (map (dump_item dumps) items) +:+ "}").
    rewrite !length_append. destruct items as [|kv items]; [simpl; lia|].
    etrans; [apply (needs_of_elements (fun kv => need kv.2) (dump_item dumps)); [|done]|simpl; lia].
    apply andb_prop in Hw as [_ Hw].
    rewrite forallb_forall in Hw. rewrite Forall_forall in IH |- *.
    intros [k w] Hin. unfold dump_item. rewrite !length_append. simpl snd.
    assert (need w ≤ 2 * String.length (dumps w))%nat; [|lia].
    apply (IH (k, w)); [done|]. apply (Hw (k, w)). by apply list_elem_of_In.
Qed.

(** [json.loads(json.dumps(v)) == v] *)
Lemma loads_dumps v : well_formed v = true → loads (dumps v) = Some v.
Proof.
  intros Hw. unfold loads. rewrite <-(append_nil_r (dumps v)) at 2.
  rewrite skip_ws_value by done. pose proof (need_bound v Hw).
  rewrite (all_round_trip v); [done|done|done|lia].
Qed.

Lemma dumps_inj v w :
  well_formed v = true → well_formed w = true → dumps v = dumps w → v = w.
Proof.
  intros Hv Hw E. apply (inj Some). by rewrite <-(loads_dumps v), <-(loads_dumps w), E.
Qed.
