(* ===== verification/JsonRead.v ===== *)
(** * What [json.loads] returns

    Its values are well formed: dicts with distinct keys, floats that are
    doubles ([loads_well_formed]).  And it returns: every part of the reader
    leaves a shorter rest, so the fuel is enough for every text, and [None]
    is a syntax error ([loads_fuel]). *)
From Stdlib Require Import Ascii.
From S2P Require Import Prelude PyFloat PyStr PyNum PyRepr FloatText Json.

#[local] Set Warnings "-register-all".

(** ** What is read is well formed *)

Lemma scan_number_well_formed s v r : scan_number s = Some (v, r) → well_formed v = true.
Proof.
  unfold scan_number. destruct (match s with String "-"%char _ => _ | _ => _ end) as [sign s1].
  destruct (int_part s1) as [[ip s2]|]; [|done]. simpl.
  destruct (frac_part s2) as [fp s3]. destruct (exp_part s3) as [ep s4].
  assert (∀ t, (x ← py_float t; Some (JsFloat x, s4)) = Some (v, r) → well_formed v = true) as Hx.
  { intros t. destruct (py_float t) as [x|] eqn:E; [|done]. intros [= <- _]. by apply py_float_valid in E. }
  destruct fp, ep; [|by apply Hx..]. destruct (py_int _); [|done]. by intros [= <- _].
Qed.

Lemma scan_atom_well_formed s v r : scan_atom s = Some (v, r) → well_formed v = true.
Proof.
  unfold scan_atom. repeat (case_match; [by intros [= <- _]|]). apply scan_number_well_formed.
Qed.

Lemma dict_set_keys items k v k' : k' ∈ (dict_set items k v).*1 → k' = k ∨ k' ∈ items.*1.
Proof.
  induction items as [|[k0 v0] items IH]; simpl; [set_solver|].
  destruct (bool_decide_reflect (k = k0)) as [->|]; simpl; set_solver.
Qed.

Lemma dict_set_NoDup items k v : NoDup items.*1 → NoDup (dict_set items k v).*1.
Proof.
  induction items as [|[k0 v0] items IH]; simpl; [intros; apply NoDup_singleton|].
  intros [Hk Hnd]%NoDup_cons. destruct (bool_decide_reflect (k = k0)) as [->|Hne]; simpl.
  - by constructor.
  - constructor; [|by apply IH]. by intros [|]%dict_set_keys.
Qed.

Lemma dict_set_Forall (P : string * json → Prop) items k v :
  Forall P items → P (k, v) → Forall P (dict_set items k v).
Proof.
  intros Hi Hv. induction Hi as [|[k0 v0] items H0 Hi IH]; simpl; [by constructor|].
  destruct (bool_decide_reflect (k = k0)) as [->|]; by constructor.
Qed.

Lemma dict_of_well_formed pairs :
  Forall (fun kv => well_formed kv.2 = true) pairs → well_formed (JsDict (dict_of pairs)) = true.
Proof.
  intros Hp. assert (∀ items, NoDup items.*1 → Forall (fun kv => well_formed kv.2 = true) items →
    well_formed (JsDict (foldl (fun items kv => dict_set items kv.1 kv.2) items pairs)) = true) as H.
  { induction Hp as [|[k v] pairs Hv _ IH]; intros items Hnd Hi; simpl foldl.
    - simpl. rewrite bool_decide_eq_true_2 by done. apply forallb_forall.
      by rewrite <-List.Forall_forall.
    - apply IH; [by apply dict_set_NoDup|by apply dict_set_Forall]. }
  apply H; [constructor|done].
Qed.

Lemma parse_well_formed fuel :
  (∀ s v r, parse_value fuel s = Some (v, r) → well_formed v = true) ∧
  (∀ s l r, parse_elements fuel s = Some (l, r) → Forall (fun v => well_formed v = true) l) ∧
  (∀ s l r, parse_items fuel s = Some (l, r) → Forall (fun kv => well_formed kv.2 = true) l).
Proof.
  induction fuel as [|fuel (IHv & IHe & IHi)]; [done|]. split; [|split].
  - intros [|c s] v r; [done|]. cbn [parse_value].
    destruct (Ascii.eqb c double_quote).
    { destruct (scan_string s) as [[t r']|]; [|done]. by intros [= <- _]. }
    destruct (Ascii.eqb c "{"%char).
    { destruct (strip_prefix "}" (skip_ws s)); [by intros [= <- _]|].
      destruct (parse_items fuel _) as [[l r']|] eqn:E; [|done]. intros [= <- _].
      apply dict_of_well_formed. by eapply IHi. }
    destruct (Ascii.eqb c "["%char); [|apply scan_atom_well_formed].
    destruct (strip_prefix "]" (skip_ws s)); [by intros [= <- _]|].
    destruct (parse_elements fuel _) as [[l r']|] eqn:E; [|done]. intros [= <- _].
    apply IHe in E. simpl. apply forallb_forall. by rewrite <-List.Forall_forall.
  - intros s l r. cbn [parse_elements].
    destruct (parse_value fuel s) as [[v r1]|] eqn:E; [|done]. cbn [mbind option_bind]. apply IHv in E.
    destruct (strip_prefix "]" (skip_ws r1)); [intros [= <- _]; by constructor|].
    destruct (strip_prefix "," (skip_ws r1)); [|done]. cbn [mbind option_bind].
    destruct (parse_elements fuel _) as [[l' r2]|] eqn:E'; [|done]. intros [= <- _].
    constructor; [done|]. by eapply IHe.
  - intros s l r. cbn [parse_items].
    destruct (strip_prefix (String double_quote EmptyString) s) as [s1|]; [|done]. cbn [mbind option_bind].
    destruct (scan_string s1) as [[k s2]|]; [|done]. cbn [mbind option_bind].
    destruct (strip_prefix ":" (skip_ws s2)) as [s3|]; [|done]. cbn [mbind option_bind].
    destruct (parse_value fuel _) as [[v r1]|] eqn:E; [|done]. cbn [mbind option_bind]. apply IHv in E.
    destruct (strip_prefix "}" (skip_ws r1)); [intros [= <- _]; by constructor|].
    destruct (strip_prefix "," (skip_ws r1)); [|done]. cbn [mbind option_bind].
    destruct (parse_items fuel _) as [[l' r2]|] eqn:E'; [|done]. intros [= <- _].
    constructor; [done|]. by eapply IHi.
Qed.

Lemma loads_well_formed s v : loads s = Some v → well_formed v = true.
Proof.
  unfold loads. destruct (parse_value _ _) as [[v' r]|] eqn:E; [|done]. cbn [mbind option_bind].
  destruct (skip_ws r); [|done]. intros [= <-]. by eapply parse_well_formed.
Qed.

(** ** The fuel is enough

    Every part of the reader leaves a shorter rest, so two units of fuel per
    character are as good as any larger amount: [None] is a syntax error. *)

#[local] Abbreviation len := String.length.

Lemma skip_ws_len s : (len (skip_ws s) ≤ len s)%nat.
Proof.
  unfold skip_ws. induction s as [|c s IH]; [done|]. simpl. destruct (is_json_space c); simpl in *; lia.
Qed.

Lemma strip_prefix_len p s r : strip_prefix p s = Some r → len s = (len p + len r)%nat.
Proof.
  revert s. induction p as [|a p IH]; intros s; simpl; [by destruct s; intros [= <-]|].
  destruct s as [|b s]; [done|]. destruct (Ascii.eqb a b); [|done].
  intros H. simpl. by rewrite (IH _ H).
Qed.

Lemma scan_string_len s t r : scan_string s = Some (t, r) → (len r < len s)%nat.
Proof.
  assert (∀ n s t r, (len s ≤ n)%nat → scan_string s = Some (t, r) → (len r < len s)%nat) as H;
    [|by eapply H].
  clear s t r. induction n as [|n IH]; intros s t r Hn; [by destruct s; simpl in Hn; [|lia]|].
  destruct s as [|c s]; [done|]. simpl in Hn. cbn [scan_string].
  assert (∀ a s', (len s' ≤ len s)%nat →
    ('(t', r') ← scan_string s'; Some (String a t', r')) = Some (t, r) → (len r < len (String c s))%nat) as Hs.
  { intros a s' Hl. destruct (scan_string s') as [[t' r']|] eqn:E; [|done].
    intros [= _ <-]. apply IH in E; [simpl; lia|lia]. }
  destruct (Ascii.eqb c double_quote); [intros [= _ <-]; simpl; lia|].
  destruct (Ascii.eqb c backslash).
  - destruct s as [|e s2]; [done|]. destruct (Ascii.eqb e "u"%char).
    + destruct s2 as [|h1 [|h2 [|h3 [|h4 s3]]]]; try done.
      destruct (hex4 h1 h2 h3 h4) as [a|]; [|done]. apply (Hs a s3). simpl. lia.
    + destruct (unescape e) as [a|]; [|done]. apply (Hs a s2). simpl. lia.
  - destruct (_ <? _)%N; [done|]. by apply Hs.
Qed.

Lemma span_digits_len s d r : span_digits s = (d, r) → (len d + len r = len s)%nat.
Proof.
  revert d r. induction s as [|c s IH]; intros d r; simpl; [by intros [= <- <-]|].
  destruct (is_digit c); [|by intros [= <- <-]].
  destruct (span_digits s) as [d' r'] eqn:E. intros [= <- <-]. simpl. by rewrite (IH _ _ eq_refl).
Qed.

Lemma int_part_len s d r : int_part s = Some (d, r) → (len r < len s)%nat.
Proof.
  destruct s as [|c s]; [done|]. unfold int_part.
  destruct (Ascii.eqb c "0"%char); [intros [= _ <-]; simpl; lia|].
  destruct (is_digit c) eqn:Hc; [|done]. intros [= H].
  simpl in H. rewrite Hc in H. destruct (span_digits s) as [d' r'] eqn:E.
  injection H as _ <-. apply span_digits_len in E. simpl. lia.
Qed.

Lemma frac_part_len s f r : frac_part s = (f, r) → (len r ≤ len s)%nat.
Proof.
  destruct s as [|c s]; simpl; [by intros [= _ <-]|].
  destruct (Ascii.eqb c "."%char); [|intros [= _ <-]; simpl; lia].
  destruct (span_digits s) as [d r'] eqn:E. apply span_digits_len in E.
  destruct d; intros [= _ <-]; simpl in *; lia.
Qed.

Lemma exp_part_len s x r : exp_part s = (x, r) → (len r ≤ len s)%nat.
Proof.
  destruct s as [|c s]; simpl; [by intros [= _ <-]|].
  destruct (_ || _); [|intros [= _ <-]; simpl; lia].
  destruct (sign_part s) as [sg t] eqn:Es.
  assert (len t ≤ len s)%nat.
  { destruct s as [|c' s]; simpl in Es; [by injection Es as _ <-|].
    destruct (_ || _); injection Es as _ <-; simpl; lia. }
  destruct (span_digits t) as [d r'] eqn:E. apply span_digits_len in E.
  destruct d; intros [= _ <-]; simpl in *; lia.
Qed.

Lemma scan_number_len s v r : scan_number s = Some (v, r) → (len r < len s)%nat.
Proof.
  unfold scan_number.
  change (match s with String "-" r => ("-", r) | _ => (EmptyString, s) end) with (unsign s).
  destruct (unsign s) as [sg s1] eqn:Hu.
  assert (len s1 ≤ len s)%nat as H1.
  { destruct s as [|[[] [] [] [] [] [] [] []] s]; injection Hu as _ <-; simpl; lia. }
  destruct (int_part s1) as [[ip s2]|] eqn:H2; [|done]. simpl. apply int_part_len in H2.
  destruct (frac_part s2) as [fp s3] eqn:H3. apply frac_part_len in H3.
  destruct (exp_part s3) as [ep s4] eqn:H4. apply exp_part_len in H4. intros H.
  assert (r = s4) as ->; [|lia].
  destruct fp, ep; [destruct (py_int _)|destruct (py_float _)..]; simpl in H; by simplify_eq.
Qed.

Lemma scan_atom_len s v r : scan_atom s = Some (v, r) → (len r < len s)%nat.
Proof.
  unfold scan_atom.
  repeat (case_match; [intros [= _ <-]; match goal with H : strip_prefix _ _ = _ |- _ =>
    apply strip_prefix_len in H; rewrite H; simpl; lia end|]).
  apply scan_number_len.
Qed.

Lemma strip_ws_len p s r : strip_prefix p (skip_ws s) = Some r → (len p + len r ≤ len s)%nat.
Proof. intros H%strip_prefix_len. pose proof (skip_ws_len s). lia. Qed.

Lemma parse_len fuel :
  (∀ s v r, parse_value fuel s = Some (v, r) → (len r < len s)%nat) ∧
  (∀ s l r, parse_elements fuel s = Some (l, r) → (len r < len s)%nat) ∧
  (∀ s l r, parse_items fuel s = Some (l, r) → (len r < len s)%nat).
Proof.
  induction fuel as [|fuel (IHv & IHe & IHi)]; [done|]. split; [|split].
  - intros [|c s] v r; [done|]. cbn [parse_value]. pose proof (skip_ws_len s).
    destruct (Ascii.eqb c double_quote).
    { destruct (scan_string s) as [[t r']|] eqn:E; [|done]. intros [= _ <-].
      apply scan_string_len in E. simpl. lia. }
    destruct (Ascii.eqb c "{"%char).
    { destruct (strip_prefix "}" (skip_ws s)) eqn:E.
      { intros [= _ <-]. apply strip_ws_len in E. simpl in *. lia. }
      destruct (parse_items fuel _) as [[l r']|] eqn:E'; [|done]. intros [= _ <-].
      apply IHi in E'. simpl. lia. }
    destruct (Ascii.eqb c "["%char); [|apply scan_atom_len].
    destruct (strip_prefix "]" (skip_ws s)) eqn:E.
    { intros [= _ <-]. apply strip_ws_len in E. simpl in *. lia. }
    destruct (parse_elements fuel _) as [[l r']|] eqn:E'; [|done]. intros [= _ <-].
    apply IHe in E'. simpl. lia.
  - intros s l r. cbn [parse_elements].
    destruct (parse_value fuel s) as [[v r1]|] eqn:E; [|done]. cbn [mbind option_bind].
    apply IHv in E. destruct (strip_prefix "]" (skip_ws r1)) eqn:E1.
    { intros [= _ <-]. apply strip_ws_len in E1. lia. }
    destruct (strip_prefix "," (skip_ws r1)) as [r2|] eqn:E2; [|done]. cbn [mbind option_bind].
    apply strip_ws_len in E2. pose proof (skip_ws_len r2).
    destruct (parse_elements fuel _) as [[l' r3]|] eqn:E'; [|done]. intros [= _ <-].
    apply IHe in E'. lia.
  - intros s l r. cbn [parse_items].
    destruct (strip_prefix (String double_quote EmptyString) s) as [s1|] eqn:E1; [|done].
    cbn [mbind option_bind]. apply strip_prefix_len in E1.
    destruct (scan_string s1) as [[k s2]|] eqn:E2; [|done]. cbn [mbind option_bind].
    apply scan_string_len in E2.
    destruct (strip_prefix ":" (skip_ws s2)) as [s3|] eqn:E3; [|done]. cbn [mbind option_bind].
    apply strip_ws_len in E3. pose proof (skip_ws_len s3).
    destruct (parse_value fuel _) as [[v r1]|] eqn:E; [|done]. cbn [mbind option_bind].
    apply IHv in E. destruct (strip_prefix "}" (skip_ws r1)) eqn:E4.
    { intros [= _ <-]. apply strip_ws_len in E4. lia. }
    destruct (strip_prefix "," (skip_ws r1)) as [r2|] eqn:E5; [|done]. cbn [mbind option_bind].
    apply strip_ws_len in E5. pose proof (skip_ws_len r2).
    destruct (parse_items fuel _) as [[l' r3]|] eqn:E'; [|done]. intros [= _ <-].
    apply IHi in E'. lia.
Qed.

(** Two amounts of fuel, both enough, read alike. *)
Lemma parse_fuel n :
  (∀ s f f', (len s < n)%nat → (2 * len s + 1 ≤ f)%nat → (2 * len s + 1 ≤ f')%nat →
    parse_value f s = parse_value f' s) ∧
  (∀ s f f', (len s < n)%nat → (2 * len s + 2 ≤ f)%nat → (2 * len s + 2 ≤ f')%nat →
    parse_elements f s = parse_elements f' s) ∧
  (∀ s f f', (len s < n)%nat → (2 * len s + 2 ≤ f)%nat → (2 * len s + 2 ≤ f')%nat →
    parse_items f s = parse_items f' s).
Proof.
  induction n as [|n (IHv & IHe & IHi)]; [split; [|split]; intros; lia|].
  assert (∀ s f f', (len s < S n)%nat → (2 * len s + 1 ≤ f)%nat → (2 * len s + 1 ≤ f')%nat →
    parse_value f s = parse_value f' s) as Hv.
  { intros s [|f] [|f'] Hn Hf Hf'; [lia..|]. destruct s as [|c s]; [done|].
    cbn [parse_value]. simpl in Hn, Hf, Hf'. pose proof (skip_ws_len s).
    destruct (Ascii.eqb c double_quote); [done|].
    destruct (Ascii.eqb c "{"%char); [by rewrite (IHi (skip_ws s) f f') by lia|].
    destruct (Ascii.eqb c "["%char); [by rewrite (IHe (skip_ws s) f f') by lia|done]. }
  split; [done|]. split.
  - intros s [|f] [|f'] Hn Hf Hf'; [lia..|]. cbn [parse_elements].
    rewrite (Hv s f f') by lia. destruct (parse_value f' s) as [[v r]|] eqn:E; [|done].
    cbn [mbind option_bind]. apply parse_len in E.
    destruct (strip_prefix "]" (skip_ws r)); [done|].
    destruct (strip_prefix "," (skip_ws r)) as [r2|] eqn:E2; [|done]. cbn [mbind option_bind].
    apply strip_ws_len in E2. pose proof (skip_ws_len r2). simpl in E2.
    by rewrite (IHe (skip_ws r2) f f') by lia.
  - intros s [|f] [|f'] Hn Hf Hf'; [lia..|]. cbn [parse_items].
    destruct (strip_prefix (String double_quote EmptyString) s) as [s1|] eqn:E1; [|done].
    cbn [mbind option_bind]. apply strip_prefix_len in E1. simpl in E1.
    destruct (scan_string s1) as [[k s2]|] eqn:E2; [|done]. cbn [mbind option_bind].
    apply scan_string_len in E2.
    destruct (strip_prefix ":" (skip_ws s2)) as [s3|] eqn:E3; [|done]. cbn [mbind option_bind].
    apply strip_ws_len in E3. pose proof (skip_ws_len s3). simpl in E3.
    rewrite (Hv (skip_ws s3) f f') by lia.
    destruct (parse_value f' (skip_ws s3)) as [[v r]|] eqn:E; [|done]. cbn [mbind option_bind].
    apply parse_len in E. destruct (strip_prefix "}" (skip_ws r)); [done|].
    destruct (strip_prefix "," (skip_ws r)) as [r2|] eqn:E4; [|done]. cbn [mbind option_bind].
    apply strip_ws_len in E4. pose proof (skip_ws_len r2). simpl in E4.
    by rewrite (IHi (skip_ws r2) f f') by lia.
Qed.

Lemma loads_fuel s fuel :
  (2 * len s + 2 ≤ fuel)%nat →
  loads s = '(v, r) ← parse_value fuel (skip_ws s);
            match skip_ws r with EmptyString => Some v | _ => None end.
Proof.
  intros Hf. unfold loads. pose proof (skip_ws_len s).
  by rewrite (proj1 (parse_fuel (S (len s))) (skip_ws s) (2 * len s + 2)%nat fuel) by lia.
Qed.
