(* ===== verification/PyM.v ===== *)
(** * Effectful Python: commands, programs, traces

    A script is a tree of external commands: every call that leaves the
    interpreter (database, clock, subprocess, shared memory, file system,
    output) is a [Do] node whose continuation takes the reply.  Replies are
    unconstrained, so a theorem about [exec] holds for every behaviour of the
    outside world; [run] executes a tree against one concrete world.
    Exceptions are values of [result]; a call whose reply is a [result] is one
    the scripts may see raise.  Signals (KeyboardInterrupt) are not modelled. *)
From S2P Require Import Prelude PyFloat Rounding PyStr Json.

Inductive exn :=
| InternalError (msg : string)   (* psycopg.errors.InternalError_ *)
| DbError (msg : string)         (* any other psycopg error *)
| ValueError
| TypeError
| ZeroDivisionError
| IndexError
| KeyError
| AttributeError
| AssertionError
| RuntimeError (msg : string)
| FileNotFoundError
| OSError (msg : string)
| TimeoutExpired
| AsyncTimeout                   (* asyncio.TimeoutError *)
| StructError.                   (* struct.error *)

#[export] Instance exn_eq_dec : EqDecision exn.
Proof. solve_decision. Defined.

Inductive result (A : Type) :=
| Ok (a : A)
| Err (e : exn).
Arguments Ok {A} a.
Arguments Err {A} e.

(** ** Commands *)

(** Query parameters and result columns. *)
Inductive pval :=
| VNone
| VInt (z : Z)
| VStr (s : string)
| VFloat (x : float)
| VJson (v : json).

#[local] Set Warnings "-register-all".

(** A value in a JSON object; [JRound x d] is [round(x, d)]. *)
Inductive jval :=
| JNull
| JBool (b : bool)
| JInt (z : Z)
| JInts (l : list Z)
| JFloat (x : float)
| JRound (x : float) (digits : Z)
| JStr (s : string).

(** A printed line, as the pieces of its f-string: a value keeps its format
    specification ([Render.v] gives its text). *)
Inductive frag :=
| FPad (spec : string) (l : list frag)   (* formatted text, formatted again *)
| FS (s : string)
| FZ (z : Z)
| FI (spec : string) (z : Z)
| FF (spec : string) (x : float)
| FR (s : string)                    (* a string, by its repr *)
| FO (o : option string)             (* a string or None, by its str *)
| FL (l : list (option string))      (* a list, by its repr *)
| FLZ (l : list (option Z))
| FT (table : list (Z * option float))    (* a dict, by its repr *)
| FJson (fields : list (string * jval)).  (* a dict, by json.dumps *)

(** A monitor's sample: sustained and filtered record one pair of counters
    and their difference, multi_queue one pair per queue. *)
Inductive sample :=
| SBacklog (t : float) (p c b : Z)
| SRow (t : float) (row : list (Z * Z)).

(** Values a worker puts on a result queue. *)
Inductive qmsg :=
| QInt (n : Z)
| QIdx (i n : Z)
| QRes (worker published : Z) (elapsed t0 : float).

(** What an asyncio script awaits (nats-py and the event loop). *)
Inductive awaitable :=
| NatsConnect (url : string)
| NatsPublish (subject data : string)
| NatsSubscribe (subject : string) (queue : option string)
| NatsFlush
| NatsUnsubscribe (subject : string)
| NatsClose
| AsyncSleep (secs : float)
| AsyncWaitEvent (timeout : Z).

(** A message handed to a subscription's callback. *)
Record delivery := Delivery {
  d_subject : string;
  d_data : string;
}.

Inductive cmd :=
(* psycopg *)
| Connect (dsn : string)
| CloseConn
| Execute (sql : string) (params : list pval)
| Fetchone
| Fetchall
(* clocks and randomness *)
| PerfCounter
| WallTime
| Monotonic
| Random
| Uuid4Hex
| Sleep (secs : float)
(* multiprocessing *)
| BarrierArrive
| BarrierPass
| Acquire (c : nat)
| Release (c : nat)
| ReadValue (c : nat)
| WriteValue (c : nat) (z : Z)
| QueuePut (q : nat) (m : qmsg)
| AppendSample (s : sample)
(* subprocess and files *)
| PathExists (path : string)
| Rmtree (path : string)
| Remove (path : string)
| Makedirs (path : string)
| OpenFile (path mode : string)
| CloseFile (fd : Z)
| ReadFile (path : string)
| Popen (argv : list string) (out : option Z)
| Terminate (pid : Z)
| Kill (pid : Z)
| Wait (pid : Z) (timeout : Z)
| Poll (pid : Z)
| RunProc (argv : list string) (timeout : Z)
| Communicate (pid : Z) (timeout : Z)
| SendSignal (pid sig : Z)
| WriteFile (fd : Z) (text : string)
| HttpGet (url : string) (timeout : Z)
(* asyncio *)
| Await (a : awaitable)
(* output *)
| DumpJson (fd : Z) (fields : list (string * jval))
| Print (to_stderr : bool) (line : list frag).

(** A finished [subprocess.run]. *)
Record completed := Completed {
  returncode : Z;
  proc_stdout : string;
  proc_stderr : string;
}.

Definition reply (c : cmd) : Type :=
  match c with
  | Connect _ | Execute _ _ => result unit
  | Fetchone => result (option (list pval))
  | Fetchall => result (list (list pval))
  | PerfCounter | WallTime | Monotonic => float
  | Random | ReadValue _ => Z
  | Uuid4Hex => string
  | PathExists _ => bool
  | Rmtree _ | Makedirs _ | Remove _ => result unit
  | OpenFile _ _ => result Z
  | ReadFile _ => result string
  | Popen _ _ => result Z
  | Terminate _ | Kill _ | SendSignal _ _ => result unit
  | Wait _ _ => result Z
  | Poll _ => option Z
  | RunProc _ _ => result completed
  | Communicate _ _ | HttpGet _ _ => result string
  | WriteFile _ _ | DumpJson _ _ => result unit
  (* the callbacks due while waiting, and what the wait came to *)
  | Await _ => list delivery * result unit
  | CloseConn | Sleep _ | BarrierArrive | BarrierPass | Acquire _ | Release _
  | WriteValue _ _ | QueuePut _ _ | AppendSample _ | CloseFile _
  | Print _ _ => unit
  end.

(** ** Programs *)

Inductive prog (A : Type) : Type :=
| Ret (a : A)
| OutOfFuel
| Do (c : cmd) (k : reply c → prog A).
Arguments Ret {A} a.
Arguments OutOfFuel {A}.
Arguments Do {A} c k.

Fixpoint bindp {A B} (m : prog A) (f : A → prog B) : prog B :=
  match m with
  | Ret a => f a
  | OutOfFuel => OutOfFuel
  | Do c k => Do c (fun x => bindp (k x) f)
  end.

(** Python computations: programs that return a value or raise. *)
Definition Py (A : Type) : Type := prog (result A).

Definition ret {A} (a : A) : Py A := Ret (Ok a).
Definition raise {A} (e : exn) : Py A := Ret (Err e).

Definition bind {A B} (m : Py A) (f : A → Py B) : Py B :=
  bindp m (fun r => match r with Ok a => f a | Err e => Ret (Err e) end).

(** A call that cannot raise, and one that can. *)
Definition call (c : cmd) : Py (reply c) := Do c (fun x => Ret (Ok x)).

Definition lift {A} (r : result A) : Py A := Ret r.

Declare Scope py_scope.
Delimit Scope py_scope with py.
Notation "x <- m ;; k" := (bind m (fun x => k))
  (at level 100, m at next level, right associativity) : py_scope.
Notation "m ;; k" := (bind m (fun _ => k))
  (at level 100, right associativity) : py_scope.
#[global] Open Scope py_scope.

Definition execute (sql : string) (params : list pval) : Py unit :=
  Do (Execute sql params) Ret.
Definition fetchone : Py (option (list pval)) := Do Fetchone Ret.
Definition fetchall : Py (list (list pval)) := Do Fetchall Ret.
Definition perf_counter : Py float := call PerfCounter.
Definition wall_time : Py float := call WallTime.
Definition monotonic : Py float := call Monotonic.
Definition print (line : list frag) : Py unit := call (Print false line).
Definition eprint (line : list frag) : Py unit := call (Print true line).

(** [cur.fetchone()[0]], an integer column: [None[0]] is a [TypeError]. *)
Definition fetch_int : Py Z :=
  row <- fetchone;;
  match row with
  | Some (VInt n :: _) => ret n
  | _ => raise TypeError
  end.

(** [time.sleep(x)] raises [ValueError] for a negative or NaN duration. *)
Definition sleep (x : float) : Py unit :=
  if nonneg x then call (Sleep x) else raise ValueError.

(** [random.random()]: 53 random bits (the reply, reduced) over 2^53. *)
Definition random_of (bits : Z) : float :=
  fmul (of_int (bits `mod` 2 ^ 53)) (lit 1 (2 ^ 53)).

(** [random.uniform(a, b)] is [a + (b - a) * random()]. *)
Definition uniform_of (a b : float) (bits : Z) : float :=
  fadd a (fmul (fsub b a) (random_of bits)).

Definition uniform (a b : float) : Py float :=
  bits <- call Random;; ret (uniform_of a b bits).

#[global] Arguments random_of : simpl never.
#[global] Arguments uniform_of : simpl never.
#[global] Arguments sleep : simpl never.

(** Float division. *)
Definition fdiv (x y : float) : Py float :=
  if is_zero y then raise ZeroDivisionError else ret (fquot x y).

(** A number that is an int or a float. *)
Inductive number :=
| NInt (z : Z)
| NFloat (x : float).

Definition num_positive (r : number) : bool :=
  match r with NInt z => 0 <? z | NFloat x => fgt x fzero end.

Definition number_frag (r : number) : frag :=
  match r with NInt z => FZ z | NFloat x => FF EmptyString x end.

(** [n / d] of ints: the double nearest the exact quotient (an OverflowError
    needs a quotient above 2^1024). *)
Definition int_quotient (n d : Z) : float :=
  let s := xorb (n <? 0) (d <? 0) in
  match Z.abs n, Z.abs d with
  | Zpos p, Zpos q => quotient s p q
  | _, _ => S754_zero s
  end.

(** [n / r] *)
Definition div_number (n : Z) (r : number) : Py float :=
  match r with
  | NInt d => if d =? 0 then raise ZeroDivisionError else ret (int_quotient n d)
  | NFloat x => fdiv (of_int n) x
  end.

(** [while cond: body], one unit of fuel per test of the guard. *)
Fixpoint while_ {S} (fuel : nat) (cond : S → Py bool) (body : S → Py S) (s : S) : Py S :=
  match fuel with
  | O => OutOfFuel
  | Datatypes.S fuel' =>
      b <- cond s;;
      if b : bool then s' <- body s;; while_ fuel' cond body s' else ret s
  end.

(** [try: m  except ...: h]: the handler sees the exception. *)
Definition try_except {A} (m : Py A) (h : exn → Py A) : Py A :=
  bindp m (fun r => match r with Ok a => ret a | Err e => h e end).

(** [with psycopg.connect(dsn) as conn: with conn.cursor() as cur: body] *)
Definition with_connection {A} (dsn : string) (body : Py A) : Py A :=
  Do (Connect dsn) (fun r =>
    match r with
    | Err e => Ret (Err e)
    | Ok _ => bindp body (fun r => Do CloseConn (fun _ => Ret r))
    end).

(** ** Statements with local state, early return and [finally]

    Inside [try: ... finally: ...] the cleanup reads locals the body has
    updated so far, whether the body ends, returns early or raises: a
    statement maps the locals to the new locals and the way it ended. *)

Inductive ctl (R : Type) :=
| Next
| Return (r : R)
| Raised (e : exn).
Arguments Next {R}.
Arguments Return {R} r.
Arguments Raised {R} e.

Definition stmt (F R : Type) : Type := F → prog (F * ctl R).

Section Stmt.
Context {F R : Type}.

Definition s_skip : stmt F R := fun f => Ret (f, Next).
Definition s_return (r : R) : stmt F R := fun f => Ret (f, Return r).
Definition s_assign (g : F → F) : stmt F R := fun f => Ret (g f, Next).

Definition s_seq (s1 s2 : stmt F R) : stmt F R := fun f =>
  bindp (s1 f) (fun '(f', c) =>
    match c with Next => s2 f' | _ => Ret (f', c) end).

(** [x = m; rest x] *)
Definition s_let {A} (m : Py A) (s : A → stmt F R) : stmt F R := fun f =>
  bindp m (fun r =>
    match r with Ok a => s a f | Err e => Ret (f, Raised e) end).

Definition s_if (b : bool) (s : stmt F R) : stmt F R := if b then s else s_skip.

Fixpoint s_for {A} (l : list A) (body : A → stmt F R) : stmt F R :=
  match l with
  | [] => s_skip
  | a :: l' => s_seq (body a) (s_for l' body)
  end.

(** Reads a local. *)
Definition s_get {A} (g : F → A) (s : A → stmt F R) : stmt F R := fun f => s (g f) f.

(** [try: body  finally: fin], in tail position; falling off the end
    returns [dflt]. *)
Definition try_finally (f0 : F) (body : stmt F R) (fin : F → Py unit) (dflt : R) : Py R :=
  bindp (body f0) (fun '(f, c) =>
    bindp (fin f) (fun r =>
      match r, c with
      | Err e, _ => Ret (Err e)
      | Ok _, Next => Ret (Ok dflt)
      | Ok _, Return r => Ret (Ok r)
      | Ok _, Raised e => Ret (Err e)
      end)).
End Stmt.

Notation "x <-- m ;;; s" := (s_let m (fun x => s))
  (at level 100, m at next level, right associativity) : py_scope.
Notation "s1 ;;; s2" := (s_seq s1 s2)
  (at level 100, right associativity) : py_scope.

(** [for x in l: body x], for a body that only performs effects. *)
Fixpoint for_ {A} (l : list A) (body : A → Py unit) : Py unit :=
  match l with
  | [] => ret ()
  | a :: l' => body a;; for_ l' body
  end.

(** [with open(path, mode) as f: body(f)] *)
Definition with_open {A} (path mode : string) (body : Z → Py A) : Py A :=
  fd <- Do (OpenFile path mode) Ret;;
  bindp (body fd) (fun r => Do (CloseFile fd) (fun _ => Ret r)).

(** [with open(path, mode) as f: f.write(text)] *)
Definition write_file (path mode text : string) : Py unit :=
  with_open path mode (fun fd => Do (WriteFile fd text) Ret).

(** [range(a, b)] *)
Definition range (a b : Z) : list Z := (fun i => a + Z.of_nat i) <$> seq 0 (Z.to_nat (b - a)).

Lemma length_range n : length (range 0 n) = Z.to_nat n.
Proof. unfold range. by rewrite length_fmap, length_seq, Z.sub_0_r. Qed.

(** ** Traces

    [exec p t r]: against some world, [p] performs the calls of [t] in order,
    with those replies, and ends with [r] ([None]: the fuel ran out). *)

Record event := Ev { ev_cmd : cmd; ev_reply : reply ev_cmd }.
Add Printing Constructor event.

Abbreviation trace := (list event).

Fixpoint exec {A} (p : prog A) (t : trace) (r : option A) : Prop :=
  match p with
  | Ret a => t = [] ∧ r = Some a
  | OutOfFuel => t = [] ∧ r = None
  | Do c k => ∃ x t', t = Ev c x :: t' ∧ exec (k x) t' r
  end.

(** The weakest precondition of a postcondition on traces. *)
Fixpoint wp {A} (p : prog A) (Φ : trace → option A → Prop) : Prop :=
  match p with
  | Ret a => Φ [] (Some a)
  | OutOfFuel => Φ [] None
  | Do c k => ∀ x, wp (k x) (fun t r => Φ (Ev c x :: t) r)
  end.

Lemma wp_exec {A} (p : prog A) Φ : wp p Φ ↔ ∀ t r, exec p t r → Φ t r.
Proof.
  revert Φ. induction p as [a| |c k IH]; intros Φ; simpl.
  - split; [by intros ? t r [-> ->]|auto].
  - split; [by intros ? t r [-> ->]|auto].
  - setoid_rewrite IH. naive_solver.
Qed.

Lemma exec_wp {A} (p : prog A) Φ t r : wp p Φ → exec p t r → Φ t r.
Proof. rewrite wp_exec. auto. Qed.

Lemma wp_mono {A} (p : prog A) (Φ Ψ : trace → option A → Prop) :
  (∀ t r, Φ t r → Ψ t r) → wp p Φ → wp p Ψ.
Proof. rewrite !wp_exec. auto. Qed.

Lemma wp_bindp {A B} (m : prog A) (f : A → prog B) Φ :
  wp (bindp m f) Φ ↔
  wp m (fun t r =>
    match r with
    | Some a => wp (f a) (fun t' r' => Φ (t ++ t') r')
    | None => Φ t None
    end).
Proof. revert Φ. induction m as [a| |c k IH]; intros Φ; simpl; [done..|]. by setoid_rewrite IH. Qed.

Lemma wp_bind {A B} (m : Py A) (f : A → Py B) Φ :
  wp (bind m f) Φ ↔
  wp m (fun t r =>
    match r with
    | Some (Ok a) => wp (f a) (fun t' r' => Φ (t ++ t') r')
    | Some (Err e) => Φ t (Some (Err e))
    | None => Φ t None
    end).
Proof.
  unfold bind. rewrite wp_bindp, !wp_exec.
  split; intros H t r Hr; specialize (H t r Hr);
    destruct r as [[a|e]|]; simpl in *; rewrite ?app_nil_r in *; done.
Qed.

Lemma exec_bindp {A B} (m : prog A) (f : A → prog B) t r :
  exec (bindp m f) t r ↔
  (∃ a t1 t2, t = t1 ++ t2 ∧ exec m t1 (Some a) ∧ exec (f a) t2 r) ∨
  (exec m t None ∧ r = None).
Proof.
  revert t. induction m as [a| |c k IH]; intros t; simpl.
  - split; [|naive_solver]. intros H. left. by exists a, [], t.
  - naive_solver.
  - setoid_rewrite IH. split.
    + intros (x & t' & -> & [(a & t1 & t2 & -> & H1 & H2)|[H ->]]); [left|right].
      * exists a, (Ev c x :: t1), t2. naive_solver.
      * naive_solver.
    + intros [(a & t1 & t2 & -> & (x & t' & -> & H1) & H2)|[(x & t' & -> & H) ->]].
      * exists x, (t' ++ t2). split; [done|]. left. by exists a, t', t2.
      * exists x, t'. auto.
Qed.

(** Traces that occur in [t] one after the other, without overlap. *)
Fixpoint in_order (xs : list trace) (t : trace) : Prop :=
  match xs with
  | [] => True
  | x :: xs' => ∃ before after, t = before ++ x ++ after ∧ in_order xs' after
  end.

Lemma in_order_app xs a t b : in_order xs t → in_order xs (a ++ t ++ b).
Proof.
  revert a t b. induction xs as [|x xs IH]; intros a t b; [done|].
  intros (l & r & -> & H). exists (a ++ l), (r ++ b). rewrite <-!app_assoc. split; [done|].
  by apply (IH []).
Qed.

Lemma in_order_app_l xs a t : in_order xs t → in_order xs (a ++ t).
Proof. intros H. rewrite <-(app_nil_r t). by apply in_order_app. Qed.

Lemma in_order_both xs ys t1 t2 : in_order xs t1 → in_order ys t2 → in_order (xs ++ ys) (t1 ++ t2).
Proof.
  intros Hx Hy. revert t1 Hx. induction xs as [|x xs IH]; intros t1; [intros _; by apply in_order_app_l|].
  intros (l & r & -> & H). exists l, (r ++ t2). rewrite <-!app_assoc. auto.
Qed.

(** A computation that raised did not return, and one that returned first ran
    its first part. *)
Lemma exec_bind_ok {A B} (m : Py A) (f : A → Py B) t b :
  exec (bind m f) t (Some (Ok b)) →
  ∃ a t1 t2, t = t1 ++ t2 ∧ exec m t1 (Some (Ok a)) ∧ exec (f a) t2 (Some (Ok b)).
Proof.
  intros [([a|e] & t1 & t2 & -> & H1 & H2)|[_ ?]]%exec_bindp; [eauto 6| |done].
  by destruct H2 as [_ ?].
Qed.

(** A call on its own. *)
Lemma exec_do_ret (c : cmd) t (x : reply c) : exec (Do c Ret) t (Some x) → t = [Ev c x].
Proof. by intros (y & t' & -> & -> & [= ->]). Qed.

(** Stepping through a run that returned. *)
Lemma exec_call_ok (c : cmd) t x : exec (call c) t (Some (Ok x)) → t = [Ev c x].
Proof. by intros (y & t' & -> & -> & [= ->]). Qed.

Lemma exec_lift_ok {A} (r : result A) t a : exec (lift r) t (Some (Ok a)) → t = [] ∧ r = Ok a.
Proof. by intros [-> [= ->]]. Qed.

(** The first call of a sequence that returned. *)
Ltac first_call H t H1 :=
  let x := fresh "x" in let t1 := fresh t in let t2 := fresh t in
  apply exec_bind_ok in H as (x & t1 & t2 & -> & H1 & H).

Lemma fetch_int_row t n :
  exec fetch_int t (Some (Ok n)) → ∃ row, t = [Ev Fetchone (Ok (Some (VInt n :: row)))].
Proof.
  unfold fetch_int. intros He. first_call He t H1. apply exec_do_ret in H1 as ->.
  destruct x as [[|[] row]|]; destruct He as [-> [=]]. subst. by exists row.
Qed.

Lemma fetch_int_ok t n : exec fetch_int t (Some (Ok n)) → ∃ row, t = [Ev Fetchone row].
Proof.
  unfold fetch_int. intros He. first_call He t H1. apply exec_do_ret in H1 as ->.
  exists (Ok x). destruct x as [[|[]]|]; by destruct He as [-> _].
Qed.

Lemma fdiv_silent x y t r : exec (fdiv x y) t r → t = [].
Proof. unfold fdiv. by destruct (is_zero y); intros [-> _]. Qed.

(** ** Running against one world *)

Definition world := trace → ∀ c, reply c.

Fixpoint run {A} (w : world) (p : prog A) (h : trace) : trace * option A :=
  match p with
  | Ret a => ([], Some a)
  | OutOfFuel => ([], None)
  | Do c k =>
      let x := w h c in
      let '(t, r) := run w (k x) (h ++ [Ev c x]) in
      (Ev c x :: t, r)
  end.

Lemma run_exec {A} w (p : prog A) h : exec p (run w p h).1 (run w p h).2.
Proof.
  revert h. induction p as [a| |c k IH]; intros h; simpl; [done..|].
  specialize (IH (w h c) (h ++ [Ev c (w h c)])).
  destruct (run w (k (w h c)) _) as [t r]. simpl in *. eauto.
Qed.

(** Every program has a behaviour in every world, so [exec] is inhabited. *)
Lemma exec_total {A} (w : world) (p : prog A) : ∃ t r, exec p t r.
Proof. eexists _, _. apply (run_exec w p []). Qed.

(** ** Programs without fuel *)

(** No branch of [p] runs out of fuel. *)
Fixpoint completes {A} (p : prog A) : Prop :=
  match p with
  | Ret _ => True
  | OutOfFuel => False
  | Do c k => ∀ x, completes (k x)
  end.

Lemma completes_exec {A} (p : prog A) t : completes p → ¬ exec p t None.
Proof.
  revert t. induction p as [a| |c k IH]; intros t; simpl; [by intros _ [_ ?]|done|].
  intros H (x & t' & _ & He). by eapply IH.
Qed.

Lemma completes_bindp {A B} (m : prog A) (f : A → prog B) :
  completes m → (∀ a, completes (f a)) → completes (bindp m f).
Proof. intros Hm Hf. induction m as [a| |c k IH]; simpl in *; auto. Qed.

Lemma completes_bind {A B} (m : Py A) (f : A → Py B) :
  completes m → (∀ a, completes (f a)) → completes (bind m f).
Proof. intros Hm Hf. apply completes_bindp; [done|]. by intros []. Qed.

Lemma completes_try {A} (m : Py A) (h : exn → Py A) :
  completes m → (∀ e, completes (h e)) → completes (try_except m h).
Proof. intros Hm Hh. apply completes_bindp; [done|]. by intros []. Qed.

Lemma completes_for {A} (l : list A) (body : A → Py unit) :
  (∀ x, completes (body x)) → completes (for_ l body).
Proof. intros H. induction l as [|x l IH]; [done|]. by apply completes_bind. Qed.

Lemma completes_with_connection {A} dsn (body : Py A) :
  completes body → completes (with_connection dsn body).
Proof. intros H [u|e]; [|done]. by apply completes_bindp. Qed.

Lemma completes_do {A} (c : cmd) (k : reply c → prog A) :
  (∀ x, completes (k x)) → completes (Do c k).
Proof. done. Qed.

Lemma completes_fetch_int : completes fetch_int.
Proof. by intros [[[|[]]|]|]. Qed.

Lemma completes_fdiv x y : completes (fdiv x y).
Proof. unfold fdiv. by destruct (is_zero y). Qed.

Create HintDb completes.
#[export] Hint Resolve completes_bind completes_try completes_for completes_with_connection
  completes_do completes_fetch_int completes_fdiv : completes.
#[export] Hint Extern 1 (completes (Ret _)) => exact I : completes.
#[export] Hint Extern 1 (completes (ret _)) => exact I : completes.
#[export] Hint Extern 1 (completes (raise _)) => exact I : completes.
#[export] Hint Extern 1 (completes (lift _)) => exact I : completes.
#[export] Hint Extern 1 (completes (call _)) => exact (fun _ => I) : completes.

(** Only the part that may run out of fuel can make the whole run out. *)
Lemma exec_bind_out {A B} (m : Py A) (f : A → Py B) t :
  exec (bind m f) t None →
  exec m t None ∨ ∃ a t1 t2, t = t1 ++ t2 ∧ exec m t1 (Some (Ok a)) ∧ exec (f a) t2 None.
Proof.
  intros [([a|e] & t1 & t2 & -> & H1 & H2)|[H _]]%exec_bindp; [right|by destruct H2|by left].
  by exists a, t1, t2.
Qed.
