(* ===== verification/Render.v ===== *)
(** * The text of printed lines

    What [print(f"...")], [print(json.dumps(...))] and [json.dump(..., f)]
    write for the lines the other files keep as pieces ([frag], [jval]). *)
From S2P Require Import Prelude PyFloat PyStr PyNum PyRepr FloatText PyFormat Json PyM.

(** ** JSON records *)

(** The value [json.dumps] is given. *)
Definition json_of (v : jval) : json :=
  match v with
  | JNull => JsNull
  | JBool b => JsBool b
  | JInt z => JsInt z
  | JInts l => JsList (map JsInt l)
  | JFloat x => JsFloat x
  | JRound x digits => JsFloat (py_round x (Z.to_nat digits))
  | JStr s => JsStr s
  end.

Definition record_json (fields : list (string * jval)) : json :=
  JsDict (map (fun kv => (kv.1, json_of kv.2)) fields).

(** ** Pieces of an f-string *)

Definition opt_repr {A} (text : A → string) (o : option A) : string :=
  match o with Some a => text a | None => "None" end.

Definition list_repr {A} (text : A → string) (l : list A) : string :=
  "[" +:+ join ", " (map text l) +:+ "]".

(** [None]: a specification that [parse_spec] does not know. *)
Fixpoint render_frag (f : frag) : option string :=
  match f with
  | FPad spec l =>
      sp ← parse_spec spec;
      s ← (fix go (l : list frag) : option string :=
             match l with
             | [] => Some EmptyString
             | f :: l' => s ← render_frag f; s' ← go l'; Some (s +:+ s')
             end) l;
      Some (pad (width sp) s)
  | FS s => Some s
  | FZ z => Some (py_str z)
  | FI spec z => sp ← parse_spec spec; Some (format_int sp z)
  | FF spec x => float_text spec x
  | FR s => Some (str_repr s)
  | FO o => Some (opt_repr id o)
  | FL l => Some (list_repr (opt_repr str_repr) l)
  | FLZ l => Some (list_repr (opt_repr py_str) l)
  | FT table =>
      Some ("{" +:+ join ", " (map (fun kv => py_str kv.1 +:+ ": " +:+ opt_repr float_repr kv.2) table)
            +:+ "}")
  | FJson fields => Some (dumps (record_json fields))
  end.

(** A printed line, without the newline [print] ends it with. *)
Fixpoint render_line (l : list frag) : option string :=
  match l with
  | [] => Some EmptyString
  | f :: l' => s ← render_frag f; s' ← render_line l'; Some (s +:+ s')
  end.

(** What a program's calls write to standard output. *)
Definition printed_by (e : event) : option string :=
  match ev_cmd e with
  | Print false line => s ← render_line line; Some (s +:+ newline)
  | _ => Some EmptyString
  end.

Fixpoint stdout_text (t : trace) : option string :=
  match t with
  | [] => Some EmptyString
  | e :: t' => s ← printed_by e; s' ← stdout_text t'; Some (s +:+ s')
  end.

Example render_curve_line :
  render_line [FS "  t="; FF "6.1f" (of_int 3); FS "s  published="; FI ">9" 12345;
               FS " consumed="; FI ">9" 12000; FS " backlog="; FI ">7" 345]
  = Some "  t=   3.0s  published=    12345 consumed=    12000 backlog=    345".
Proof. vm_compute. reflexivity. Qed.

Example render_table_row :
  render_line [FI ">3" 4; FS "  "; FPad ">12" [FF ",.0f" (of_int 812345)]; FS "  "; FPad ">12" [FS "n/a"]]
  = Some "  4       812,345           n/a".
Proof. vm_compute. reflexivity. Qed.

Example render_filters :
  render_line [FS "filters="; FL [Some "texi == 0"; None]] = Some "filters=['texi == 0', None]".
Proof. vm_compute. reflexivity. Qed.

(** ** Records read back *)

(** Every float of the record is a double. *)
Definition valid_field (v : jval) : bool :=
  match v with JFloat x | JRound x _ => valid x | _ => true end.

Lemma py_round_valid x k : valid x = true → valid (py_round x k) = true.
Proof. intros Hx. destruct x as [| | |s m e]; try done. apply decimal_valid. Qed.

Lemma json_of_well_formed v : valid_field v = true → well_formed (json_of v) = true.
Proof.
  destruct v as [|b|z|l|x|x d|s]; simpl; try done.
  - intros _. induction l as [|z l IH]; [done|]. exact IH.
  - intros Hx. by apply py_round_valid.
Qed.

Lemma record_reads_back fields :
  NoDup fields.*1 → Forall (fun kv => valid_field kv.2 = true) fields →
  loads (dumps (record_json fields)) = Some (record_json fields).
Proof.
  intros Hnd Hv. apply loads_dumps. unfold record_json. cbn [well_formed]. apply andb_true_intro. split.
  - apply bool_decide_eq_true. rewrite <-list_fmap_compose. exact Hnd.
  - apply forallb_forall. intros kv Hin. apply in_map_iff in Hin as ((k & v) & <- & Hin).
    apply json_of_well_formed. apply list_elem_of_In in Hin.
    exact (proj1 (Forall_forall _ _) Hv _ Hin).
Qed.

(** ** Lines that can be formatted *)

Definition formats (l : list frag) : Prop := Forall (fun f => is_Some (render_frag f)) l.

Lemma formats_line l : formats l → is_Some (render_line l).
Proof.
  induction 1 as [|f l [s Hs] _ [s' Hs']]; [by eexists|]. simpl. rewrite Hs, Hs'. by eexists.
Qed.

Lemma formats_stdout t :
  Forall (fun e => match ev_cmd e with Print false l => formats l | _ => True end) t →
  is_Some (stdout_text t).
Proof.
  induction 1 as [|[c x] t He _ [s' Hs']]; [by eexists|]. cbn [stdout_text].
  assert (is_Some (printed_by (Ev c x))) as [s ->]; [|rewrite Hs'; by eexists].
  destruct c; try by eexists. cbn in *. destruct to_stderr; [by eexists|].
  destruct (formats_line _ He) as [s ->]. by eexists.
Qed.
