(* ===== verification/JsVerify.v ===== *)
(** * The content check of bench/js_bench.py

    Delivered rows and reference rows are compared as sorted lists of
    normalised JSON texts.  [norm_eq] says when two rows have the same text:
    when they are the same JSON, numbers compared by value ([json_same]).
    [json_same_py_equal] says where that is Python's [==] ([py_equal]): on
    values without booleans and NaNs. *)
From stdpp Require Import sorting.
From S2P Require Import Prelude PyFloat PyStr PyNum PyRepr Json PyM.

(** [v.is_integer()], and [int(v)] if it is. *)
Definition whole (x : float) : option Z :=
  match x with
  | S754_zero _ => Some 0
  | S754_finite s m e =>
      let v := if s then Z.neg m else Z.pos m in
      if 0 <=? e then Some (v * 2 ^ e)
      else if v `mod` 2 ^ (- e) =? 0 then Some (v / 2 ^ (- e)) else None
  | _ => None
  end.

(** [canon(v)] *)
Fixpoint canon (v : json) : json :=
  match v with
  | JsFloat x => match whole x with Some z => JsInt z | None => v end
  | JsDict items => JsDict (map (fun kv => (kv.1, canon kv.2)) items)
  | JsList l => JsList (map canon l)
  | _ => v
  end.

(** [norm(d)]: a value without [keys] raises. *)
Definition norm (d : json) : result string :=
  match d with
  | JsDict items =>
      Ok (dumps (sort_keys (JsDict (map (fun kv => (kv.1, canon kv.2)) (sort_items items)))))
  | _ => Err AttributeError
  end.

(** [d["payload"]] *)
Definition payload (d : json) : result json :=
  match d with
  | JsDict items => match dict_get "payload" items with Some v => Ok v | None => Err KeyError end
  | _ => Err TypeError
  end.

(** A comprehension: the first exception is the one that leaves it. *)
Fixpoint each {A B} (f : A → result B) (l : list A) : result (list B) :=
  match l with
  | [] => Ok []
  | a :: l' =>
      match f a with
      | Err e => Err e
      | Ok b => match each f l' with Err e => Err e | Ok bs => Ok (b :: bs) end
      end
  end.

Definition norm_payload (d : json) : result string :=
  match payload d with Ok v => norm v | Err e => Err e end.

(** [sorted(norm(d["payload"]) for d in dumped)] *)
Definition dumped_set (dumped : list json) : result (list string) :=
  match each norm_payload dumped with Ok l => Ok (sorted_strs l) | Err e => Err e end.

(** [sorted(norm(r) for r in reference)] *)
Definition ref_set (reference : list json) : result (list string) :=
  match each norm reference with Ok l => Ok (sorted_strs l) | Err e => Err e end.

(** [sum(a != b for a, b in zip(l1, l2))] *)
Fixpoint zip_mismatches (l1 l2 : list string) : Z :=
  match l1, l2 with
  | a :: l1', b :: l2' => (if bool_decide (a = b) then 0 else 1) + zip_mismatches l1' l2'
  | _, _ => 0
  end.

(** The text of the verdict. *)
Definition verify (ds rs : list string) : string :=
  if bool_decide (ds = rs) then "PASS"
  else "FAIL (mismatched_groups=" +:+ py_str (zip_mismatches ds rs) +:+ ")".

(** [Counter(l1) - Counter(l2)], its elements: what is left of [l1] when each
    element of [l2] has taken away one equal to it. *)
Fixpoint remove_one (s : string) (l : list string) : list string :=
  match l with
  | [] => []
  | x :: l' => if bool_decide (x = s) then l' else x :: remove_one s l'
  end.

Definition counter_minus (l1 l2 : list string) : list string :=
  foldl (fun l s => remove_one s l) l1 l2.

(** ** Equality of rows *)

(** Two numbers are the same if both are whole and equal, or neither is whole
    and they are the same float. *)
Definition number_of (v : json) : option (Z + float) :=
  match v with
  | JsInt z => Some (inl z)
  | JsFloat x => Some (match whole x with Some z => inl z | None => inr x end)
  | _ => None
  end.

Definition all2 {A B} (f : A → B → bool) : list A → list B → bool :=
  fix go l1 l2 :=
    match l1, l2 with
    | [], [] => true
    | a :: l1', b :: l2' => f a b && go l1' l2'
    | _, _ => false
    end.

(** The same JSON, numbers by value: dicts are the same if they have as many
    items and each key has the same value, in whatever order; values of
    different kinds are not, so a bool is not a number; a NaN is itself. *)
Fixpoint json_same (v w : json) : bool :=
  match v, w with
  | JsNull, JsNull => true
  | JsBool a, JsBool b => Bool.eqb a b
  | JsStr s, JsStr t => bool_decide (s = t)
  | JsList l, JsList l' => all2 json_same l l'
  | JsDict items, JsDict items' =>
      (length items =? length items')%nat &&
      forallb (fun kv => match dict_get kv.1 items' with
                         | Some v' => json_same kv.2 v'
                         | None => false
                         end) items
  | _, _ =>
      match number_of v, number_of w with
      | Some a, Some b => bool_decide (a = b)
      | _, _ => false
      end
  end.

(** Python's [==] on parsed JSON: a bool is the number 0 or 1, and a NaN is
    not even itself. *)
Definition py_number_of (v : json) : option (Z + float) :=
  match v with JsBool b => Some (inl (if b then 1 else 0)) | _ => number_of v end.

Definition py_number_equal (a b : Z + float) : bool :=
  match a, b with
  | inl m, inl n => m =? n
  | inr x, inr y => SFeqb x y
  | _, _ => false
  end.

Fixpoint py_equal (v w : json) : bool :=
  match v, w with
  | JsNull, JsNull => true
  | JsStr s, JsStr t => bool_decide (s = t)
  | JsList l, JsList l' => all2 py_equal l l'
  | JsDict items, JsDict items' =>
      (length items =? length items')%nat &&
      forallb (fun kv => match dict_get kv.1 items' with
                         | Some v' => py_equal kv.2 v'
                         | None => false
                         end) items
  | _, _ =>
      match py_number_of v, py_number_of w with
      | Some a, Some b => py_number_equal a b
      | _, _ => false
      end
  end.

(** No boolean and no NaN anywhere. *)
Fixpoint plain (v : json) : bool :=
  match v with
  | JsBool _ => false
  | JsFloat x => negb (is_nan x)
  | JsList l => forallb plain l
  | JsDict items => forallb (fun kv => plain kv.2) items
  | _ => true
  end.

(** The canonical form behind [norm]. *)
Definition normal (v : json) : json := sort_keys (canon v).

Definition normal_item (kv : string * json) : string * json := (kv.1, normal kv.2).

Lemma normal_list l : normal (JsList l) = JsList (map normal l).
Proof. unfold normal. simpl. by rewrite map_map. Qed.

Lemma normal_dict items : normal (JsDict items) = JsDict (sort_items (map normal_item items)).
Proof. unfold normal. simpl. by rewrite map_map. Qed.

(** ** Sorting items *)

#[export] Instance key_order_total : Total key_order.
Proof. intros a b. unfold key_order. destruct (total str_order a.1 b.1); auto. Qed.

#[export] Instance key_order_trans : Transitive key_order.
Proof. intros a b c. unfold key_order. apply transitivity. Qed.

Lemma sort_items_perm items : sort_items items ≡ₚ items.
Proof. apply merge_sort_Permutation. Qed.

Lemma keys_distinct_inj (items : list (string * json)) a b :
  NoDup items.*1 → a ∈ items → b ∈ items → a.1 = b.1 → a = b.
Proof.
  intros Hnd (i & Hi)%list_elem_of_lookup (j & Hj)%list_elem_of_lookup E.
  assert (i = j) as ->; [|congruence].
  apply (NoDup_lookup items.*1 i j a.1 Hnd); rewrite list_lookup_fmap; [by rewrite Hi|].
  by rewrite Hj, E.
Qed.

(** With distinct keys, the sorted list depends on the items only. *)
Lemma sort_items_unique items items' :
  NoDup items.*1 → items ≡ₚ items' → sort_items items = sort_items items'.
Proof.
  intros Hnd Hp. apply (Sorted_unique_strong key_order).
  - intros a b Ha Hb Hab Hba. rewrite sort_items_perm in Ha, Hb.
    apply (keys_distinct_inj items); [done|done|by rewrite Hp|].
    by apply (anti_symm str_order).
  - apply Sorted_merge_sort, _.
  - apply Sorted_merge_sort, _.
  - by rewrite !sort_items_perm.
Qed.

Lemma normal_keys items : (map normal_item items).*1 = items.*1.
Proof. induction items as [|kv items IH]; [done|]. simpl. f_equal. exact IH. Qed.

(** The text of a row is the text of its canonical form. *)
Lemma norm_dict items :
  NoDup items.*1 → norm (JsDict items) = Ok (dumps (normal (JsDict items))).
Proof.
  intros Hnd. unfold norm. do 2 f_equal. rewrite normal_dict. simpl. f_equal.
  rewrite map_map. change (map _ (sort_items items)) with (map normal_item (sort_items items)).
  apply sort_items_unique.
  - rewrite normal_keys. by rewrite sort_items_perm.
  - by rewrite sort_items_perm.
Qed.

(** ** Canonical forms are equal exactly for equal values *)

Lemma dict_get_in k v items : dict_get k items = Some v → (k, v) ∈ items.
Proof.
  induction items as [|[k' v'] items IH]; [done|]. simpl.
  destruct (bool_decide (k = k')) eqn:E.
  - apply bool_decide_eq_true in E as ->. intros [= ->]. by left.
  - intros H. right. auto.
Qed.

Lemma dict_get_distinct k v items : NoDup items.*1 → (k, v) ∈ items → dict_get k items = Some v.
Proof.
  induction items as [|[k' v'] items IH]; [by intros _ ?%elem_of_nil|]. csimpl.
  intros [Hk Hnd]%NoDup_cons [E|Hin]%elem_of_cons.
  - injection E as -> ->. by rewrite bool_decide_eq_true_2.
  - rewrite bool_decide_eq_false_2; [auto|]. intros ->. apply Hk.
    apply list_elem_of_fmap. by exists (k', v).
Qed.

Lemma all2_spec {A} (f : A → A → Prop) (b : A → A → bool) l l' :
  (∀ x y, x ∈ l → y ∈ l' → b x y = true ↔ f x y) →
  all2 b l l' = true ↔ Forall2 f l l'.
Proof.
  revert l'. induction l as [|x l IH]; intros [|y l'] H; simpl.
  - split; [constructor|done].
  - split; [done|by inversion 1].
  - split; [done|by inversion 1].
  - rewrite andb_true_iff, IH, H by (intros; try apply H; set_solver).
    split; [intros []; by constructor|by inversion 1].
Qed.

Lemma map_eq_Forall2 {A B} (f : A → B) l l' :
  map f l = map f l' ↔ Forall2 (fun x y => f x = f y) l l'.
Proof.
  revert l'. induction l as [|x l IH]; intros [|y l']; simpl.
  - split; [constructor|done].
  - split; [done|by inversion 1].
  - split; [done|by inversion 1].
  - split; [intros [= ? ?]; constructor; [done|by apply IH]|].
    inversion 1; subst. f_equal; [done|by apply IH].
Qed.

(** Same length and the same value under each key: the items are a
    permutation of each other. *)
Lemma items_perm items items' :
  NoDup items.*1 → NoDup items'.*1 →
  length items = length items' →
  (∀ kv, kv ∈ items → ∃ v', dict_get kv.1 items' = Some v' ∧ normal kv.2 = normal v') →
  map normal_item items ≡ₚ map normal_item items'.
Proof.
  intros Hnd Hnd' Hlen H. apply submseteq_length_Permutation; [|by rewrite !length_map, Hlen].
  apply NoDup_submseteq.
  - apply (NoDup_fmap_1 fst). by rewrite normal_keys.
  - intros kw (kv & <- & Hin)%list_elem_of_In%in_map_iff.
    apply list_elem_of_In in Hin. destruct (H kv Hin) as (v' & Hg & Hn).
    apply list_elem_of_In, in_map_iff. exists (kv.1, v'). split.
    + unfold normal_item. simpl. by rewrite Hn.
    + by apply list_elem_of_In, dict_get_in.
Qed.

Lemma normal_dict_eq items items' :
  NoDup items.*1 → NoDup items'.*1 →
  normal (JsDict items) = normal (JsDict items') ↔
  length items = length items' ∧
  ∀ kv, kv ∈ items → ∃ v', dict_get kv.1 items' = Some v' ∧ normal kv.2 = normal v'.
Proof.
  intros Hnd Hnd'. rewrite !normal_dict. split.
  - intros [= E].
    assert (map normal_item items ≡ₚ map normal_item items') as Hp.
    { rewrite <-(sort_items_perm (map normal_item items)), E. apply sort_items_perm. }
    split; [pose proof (Permutation_length Hp) as Hl; by rewrite !length_map in Hl|].
    intros kv Hin.
    assert (normal_item kv ∈ map normal_item items') as Hin'.
    { rewrite <-Hp. apply list_elem_of_In, in_map, list_elem_of_In, Hin. }
    apply list_elem_of_In, in_map_iff in Hin' as ([k' v'] & [= E1 E2] & Hin').
    exists v'. rewrite <-E1. split; [|done].
    apply dict_get_distinct; [done|]. by apply list_elem_of_In.
  - intros [Hlen H]. f_equal. apply sort_items_unique; [by rewrite normal_keys|].
    by apply items_perm.
Qed.

Lemma well_formed_dict items :
  well_formed (JsDict items) = true →
  NoDup items.*1 ∧ ∀ kv, kv ∈ items → well_formed kv.2 = true.
Proof.
  simpl. intros [Hnd%bool_decide_eq_true Hw]%andb_prop. split; [done|].
  intros kv Hin. rewrite forallb_forall in Hw. by apply Hw, list_elem_of_In.
Qed.

Lemma well_formed_list l : well_formed (JsList l) = true → ∀ v, v ∈ l → well_formed v = true.
Proof. simpl. rewrite forallb_forall. intros Hw v Hin. by apply Hw, list_elem_of_In. Qed.

(** Numbers: the canonical form is the number. *)
Lemma normal_number v n :
  number_of v = Some n →
  normal v = match n with inl z => JsInt z | inr x => JsFloat x end.
Proof.
  destruct v; try done; simpl; intros [= <-]; [done|].
  unfold normal. simpl. by destruct (whole x).
Qed.

(** Values of different kinds. *)
Ltac kinds := unfold normal; simpl; repeat case_match; (split; [discriminate || done|discriminate || done]).


Lemma normal_eq v : ∀ w,
  well_formed v = true → well_formed w = true → normal v = normal w ↔ json_same v w = true.
Proof.
  assert (∀ v w a b, number_of v = Some a → number_of w = Some b →
    normal v = normal w ↔ bool_decide (a = b) = true) as Hnum.
  { intros v0 w a b Ha Hb. rewrite (normal_number _ _ Ha), (normal_number _ _ Hb).
    rewrite bool_decide_eq_true. destruct a, b; naive_solver. }
  induction v as [|b|z|x|s|l IH|items IH] using json_nested_ind; intros w Hv Hw.
  - destruct w; by kinds.
  - destruct w as [|b'| | | | |]; [by kinds|by destruct b, b'|by kinds..].
  - destruct w; try (by kinds); by apply Hnum.
  - destruct w; try (by kinds); by apply Hnum.
  - destruct w as [| | | |s'| |]; try (by kinds).
    unfold normal. simpl. rewrite bool_decide_eq_true. split; [by intros [= ->]|by intros ->].
  - destruct w as [| | | | |l'|]; try (by kinds).
    rewrite !normal_list.
    assert (all2 json_same l l' = true ↔ Forall2 (fun x y => normal x = normal y) l l') as Hall.
    { apply all2_spec. intros x y Hx Hy. symmetry.
      rewrite Forall_forall in IH.
      by apply IH; [|apply (well_formed_list l)|apply (well_formed_list l')]. }
    change (json_same (JsList l) (JsList l')) with (all2 json_same l l').
    rewrite Hall, <-map_eq_Forall2. split; [by intros [= ->]|by intros ->].
  - destruct w as [| | | | | |items']; try (by kinds).
    apply well_formed_dict in Hv as [Hnd Hi], Hw as [Hnd' Hi'].
    rewrite normal_dict_eq by done. cbn [json_same].
    rewrite andb_true_iff, Nat.eqb_eq, forallb_forall.
    rewrite Forall_forall in IH. split; intros [Hlen H]; (split; [done|]); intros kv Hin.
    + apply list_elem_of_In in Hin. destruct (H kv Hin) as (v' & Hg & Hn). rewrite Hg.
      apply IH; [done|auto| |done]. by apply (Hi' (kv.1, v')), dict_get_in.
    + specialize (H kv (proj1 (list_elem_of_In _ _) Hin)).
      destruct (dict_get kv.1 items') as [v'|] eqn:Hg; [|done].
      exists v'. split; [done|]. apply IH; [done|auto| |done].
      by apply (Hi' (kv.1, v')), dict_get_in.
Qed.

(** ** Python's equality *)

(** A float that is neither whole nor NaN is equal to itself only. *)
Lemma SFeqb_spec x y : whole x = None → is_nan x = false → SFeqb x y = bool_decide (x = y).
Proof.
  intros Hw Hx. apply eq_true_iff_eq. rewrite bool_decide_eq_true. unfold SFeqb.
  destruct x as [s|s| |s m e]; [done| |done|].
  - destruct y as [s'|s'| |s' m' e'], s; try destruct s'; simpl; split; done.
  - clear Hw Hx. destruct y as [s'|s'| |s' m' e']; [by destruct s|by destruct s, s'|by destruct s|].
    destruct s, s'; simpl; [|done|done|];
      (destruct (Z.compare_spec e e') as [->|He|He];
       [|split; [done|intros [= -> ->]; lia]|split; [done|intros [= -> ->]; lia]]);
      change (Pos.compare_cont Eq m m') with (m ?= m')%positive;
      (destruct (Pos.compare_spec m m') as [->|Hm|Hm]; simpl;
       [done|split; [done|intros [= ->]; lia]|split; [done|intros [= ->]; lia]]).
Qed.

Lemma number_plain v : plain v = true → py_number_of v = number_of v.
Proof. by destruct v. Qed.

Lemma number_same v w a b :
  plain v = true → number_of v = Some a → number_of w = Some b →
  bool_decide (a = b) = py_number_equal a b.
Proof.
  intros Hp Ha Hb. destruct v as [| |z|x| | |]; try done; simpl in Ha.
  - injection Ha as <-. destruct b as [n|y]; cbn [py_number_equal]; [|by apply bool_decide_eq_false].
    apply eq_true_iff_eq. rewrite bool_decide_eq_true, Z.eqb_eq. naive_solver.
  - simpl in Hp. apply negb_true_iff in Hp. destruct (whole x) as [z|] eqn:Hw; injection Ha as <-.
    + destruct b as [n|y]; cbn [py_number_equal]; [|by apply bool_decide_eq_false].
      apply eq_true_iff_eq. rewrite bool_decide_eq_true, Z.eqb_eq. naive_solver.
    + destruct b as [n|y]; cbn [py_number_equal]; [by apply bool_decide_eq_false|].
      rewrite SFeqb_spec by done. apply bool_decide_ext. naive_solver.
Qed.

Lemma all2_ext {A B} (f g : A → B → bool) l l' :
  (∀ x y, x ∈ l → y ∈ l' → f x y = g x y) → all2 f l l' = all2 g l l'.
Proof.
  revert l'. induction l as [|x l IH]; intros [|y l'] H; [done..|]. cbn [all2].
  rewrite H by set_solver. f_equal. apply IH. intros. apply H; set_solver.
Qed.

(** On values without booleans and NaNs the check's notion is Python's. *)
Lemma json_same_py_equal v : ∀ w, plain v = true → plain w = true → json_same v w = py_equal v w.
Proof.
  induction v as [|b|z|x|s|l IH|items IH] using json_nested_ind; intros w Hv Hw; [by destruct w|done|..].
  - destruct w as [| |z'|x'| | |]; try done.
    + exact (number_same (JsInt z) (JsInt z') _ _ Hv eq_refl eq_refl).
    + exact (number_same (JsInt z) (JsFloat x') _ _ Hv eq_refl eq_refl).
  - destruct w as [| |z'|x'| | |]; try done.
    + exact (number_same (JsFloat x) (JsInt z') _ _ Hv eq_refl eq_refl).
    + exact (number_same (JsFloat x) (JsFloat x') _ _ Hv eq_refl eq_refl).
  - by destruct w.
  - destruct w as [| | | | |l'|]; try done. simpl in Hv, Hw. rewrite forallb_forall in Hv, Hw.
    rewrite Forall_forall in IH. apply all2_ext. intros x y Hx Hy.
    apply IH; [done|by apply Hv, list_elem_of_In|by apply Hw, list_elem_of_In].
  - destruct w as [| | | | | |items']; try done. simpl in Hv, Hw. rewrite forallb_forall in Hv, Hw.
    rewrite Forall_forall in IH. cbn [json_same py_equal]. f_equal.
    apply eq_true_iff_eq. rewrite !forallb_forall. apply forall_proper. intros kv.
    apply forall_proper. intros Hin. destruct (dict_get kv.1 items') as [v'|] eqn:Hg; [|done].
    rewrite IH; [done|by apply list_elem_of_In|by apply Hv|].
    apply (Hw (kv.1, v')), list_elem_of_In. by apply dict_get_in.
Qed.

(** A canonical form is well formed. *)
Lemma well_formed_normal v : well_formed v = true → well_formed (normal v) = true.
Proof.
  induction v as [|b|z|x|s|l IH|items IH] using json_nested_ind; intros Hv; try done.
  - unfold normal. simpl. by destruct (whole x).
  - rewrite normal_list. simpl. rewrite forallb_forall. rewrite Forall_forall in IH.
    intros w (v & <- & Hin%list_elem_of_In)%in_map_iff. apply IH; [done|].
    by apply (well_formed_list l).
  - rewrite normal_dict. apply well_formed_dict in Hv as [Hnd Hi]. simpl.
    rewrite andb_true_iff, bool_decide_eq_true, forallb_forall. split.
    + rewrite sort_items_perm. by rewrite normal_keys.
    + intros kw Hin%list_elem_of_In. rewrite sort_items_perm in Hin.
      apply list_elem_of_In, in_map_iff in Hin as (kv & <- & Hin%list_elem_of_In).
      rewrite Forall_forall in IH. simpl. apply IH; [done|auto].
Qed.

(** Two rows have the same text exactly when they are the same row. *)
Lemma norm_eq items items' :
  well_formed (JsDict items) = true → well_formed (JsDict items') = true →
  norm (JsDict items) = norm (JsDict items') ↔ json_same (JsDict items) (JsDict items') = true.
Proof.
  intros Hv Hw. pose proof (well_formed_dict _ Hv) as [Hnd _]. pose proof (well_formed_dict _ Hw) as [Hnd' _].
  rewrite !norm_dict by done. rewrite <-normal_eq by done. split; [|by intros ->].
  intros E. apply dumps_inj; [by apply well_formed_normal..|congruence].
Qed.

(** ** The verdict *)

Lemma each_spec {A B} (f : A → result B) l bs :
  each f l = Ok bs ↔ Forall2 (fun a b => f a = Ok b) l bs.
Proof.
  revert bs. induction l as [|a l IH]; intros bs; simpl.
  - split; [by intros [= <-]|by inversion 1].
  - destruct (f a) as [b|e] eqn:Ef; [|split; [done|inversion 1; congruence]].
    destruct (each f l) as [bs'|e]; split.
    + intros [= <-]. constructor; [done|by apply IH].
    + inversion 1 as [|? b' ? bs2 Hb Hbs]; subst. apply IH in Hbs. congruence.
    + done.
    + inversion 1 as [|? b' ? bs2 Hb Hbs]; subst. by apply IH in Hbs.
Qed.

Lemma Forall2_follow {A B} (R : A → B → Prop) l k k' :
  Forall2 R l k → k ≡ₚ k' → ∃ l', l' ≡ₚ l ∧ Forall2 R l' k'.
Proof.
  intros H Hp. revert l H. induction Hp as [|b k k' _ IH|b b' k|k1 k2 k3 _ IH1 _ IH2]; intros l H.
  - inversion H; subst. by exists [].
  - inversion H as [|a ? l0 ? Ha Hl]; subst. destruct (IH _ Hl) as (l' & Hl' & HR).
    exists (a :: l'). split; [by rewrite Hl'|by constructor].
  - inversion H as [|a ? l0 ? Ha Hl]; subst. inversion Hl as [|a' ? l1 ? Ha' Hl1]; subst.
    exists (a' :: a :: l1). split; [constructor|by repeat constructor].
  - destruct (IH1 _ H) as (l1 & Hl1 & H1). destruct (IH2 _ H1) as (l2 & Hl2 & H2).
    exists l2. split; [by rewrite Hl2|done].
Qed.

Lemma norm_ok d t : norm d = Ok t → ∃ items, d = JsDict items.
Proof. destruct d; try done. by eexists. Qed.

Lemma norm_same p r t :
  well_formed p = true → well_formed r = true → norm p = Ok t →
  norm r = Ok t ↔ json_same p r = true.
Proof.
  intros Hp Hr Hn. destruct (norm_ok _ _ Hn) as [items ->]. split.
  - intros Hn'. destruct (norm_ok _ _ Hn') as [items' ->]. apply norm_eq; [done..|congruence].
  - intros Hs. destruct r as [| | |x| | |items']; try done.
    rewrite <-Hn. symmetry. by apply norm_eq.
Qed.

Lemma verify_pass ds rs : verify ds rs = "PASS" ↔ ds = rs.
Proof. unfold verify. destruct (bool_decide_reflect (ds = rs)); [done|]. by split. Qed.

Lemma each_norm_payload dumped l :
  each norm_payload dumped = Ok l ↔ ∃ ps, each payload dumped = Ok ps ∧ each norm ps = Ok l.
Proof.
  setoid_rewrite each_spec. split.
  - induction 1 as [|d t dumped l Hd _ (ps & H1 & H2)]; [by exists []|].
    unfold norm_payload in Hd. destruct (payload d) as [p|e] eqn:Ep; [|done].
    exists (p :: ps). split; by constructor.
  - intros (ps & H1 & H2). revert l H2. induction H1 as [|d p dumped ps Hp _ IH]; intros l H2;
      inversion H2; subst; constructor; [|auto]. unfold norm_payload. by rewrite Hp.
Qed.

(** Rows that have a text, listed with it, match rows listed with the same
    texts exactly when they are the same rows. *)
Lemma rows_match ps rs l :
  Forall (fun v => well_formed v = true) ps → Forall (fun v => well_formed v = true) rs →
  Forall2 (fun p t => norm p = Ok t) ps l →
  Forall2 (fun r t => norm r = Ok t) rs l ↔ Forall2 (fun p r => json_same p r = true) ps rs.
Proof.
  intros Hps Hrs H. revert rs Hrs. induction H as [|p t ps l Hp _ IH]; intros rs Hrs.
  - split; by inversion 1.
  - inversion Hps as [|? ? Hwp Hwps]; subst. split.
    + inversion 1 as [|r ? rs' ? Hr Hl]; subst. inversion Hrs; subst.
      constructor; [by apply (norm_same p r t)|by apply IH].
    + inversion 1 as [|? r ? rs' Hr Hl]; subst. inversion Hrs; subst.
      constructor; [by apply (norm_same p r t)|by apply IH].
Qed.

Lemma payload_well_formed d p : payload d = Ok p → well_formed d = true → well_formed p = true.
Proof.
  destruct d as [| | | | | |items]; try done. simpl.
  destruct (dict_get "payload" items) as [v|] eqn:Hg; [|done]. intros [= ->].
  intros [_ Hw]%andb_prop. rewrite forallb_forall in Hw.
  by apply (Hw ("payload", p)), list_elem_of_In, dict_get_in.
Qed.

(** How often a text occurs. *)
Definition occurrences (s : string) (l : list string) : Z := Z.of_nat (length (filter (s =.) l)).

#[export] Instance occurrences_proper s : Proper ((≡ₚ) ==> (=)) (occurrences s).
Proof. intros l1 l2 H. unfold occurrences. by rewrite H. Qed.

Lemma occurrences_cons s x l :
  occurrences s (x :: l) = (if bool_decide (s = x) then 1 else 0) + occurrences s l.
Proof.
  unfold occurrences. rewrite filter_cons. case_decide; case_bool_decide; simpl; lia || done.
Qed.

Lemma occurrences_pos s l : s ∈ l → 0 < occurrences s l.
Proof.
  intros H. unfold occurrences.
  assert (s ∈ filter (s =.) l) as Hin by by apply list_elem_of_filter.
  destruct (filter (s =.) l); [by apply elem_of_nil in Hin|simpl; lia].
Qed.

Lemma occurrences_absent s l : s ∉ l → occurrences s l = 0.
Proof.
  induction l as [|x l IH]; [done|]. rewrite not_elem_of_cons, occurrences_cons. intros [Hne Hl].
  by rewrite bool_decide_eq_false_2, IH.
Qed.

Lemma occurrences_remove s x l :
  occurrences s (remove_one x l)
  = occurrences s l - (if bool_decide (s = x ∧ x ∈ l) then 1 else 0).
Proof.
  induction l as [|y l IH]; simpl.
  - rewrite bool_decide_eq_false_2; [done|]. by intros [_ ?%elem_of_nil].
  - destruct (bool_decide_reflect (y = x)) as [->|Hne].
    + rewrite occurrences_cons. destruct (bool_decide_reflect (s = x)) as [->|Hs].
      * rewrite bool_decide_eq_true_2 by (split; [done|by left]). lia.
      * rewrite bool_decide_eq_false_2 by tauto. lia.
    + rewrite !occurrences_cons, IH.
      assert (bool_decide (s = x ∧ x ∈ l) = bool_decide (s = x ∧ x ∈ y :: l)) as ->; [|lia].
      apply bool_decide_ext. rewrite elem_of_cons. naive_solver.
Qed.

(** [Counter] subtraction keeps only positive counts. *)
Lemma occurrences_minus s l1 l2 :
  occurrences s (counter_minus l1 l2) = Z.max 0 (occurrences s l1 - occurrences s l2).
Proof.
  unfold counter_minus. revert l1. induction l2 as [|x l2 IH]; intros l1; simpl.
  - unfold occurrences. simpl. lia.
  - rewrite IH, occurrences_remove, occurrences_cons.
    assert (0 ≤ occurrences s l2) by (unfold occurrences; lia).
    destruct (bool_decide_reflect (s = x)) as [->|Hne].
    + destruct (decide (x ∈ l1)) as [Hin|Hin].
      * rewrite bool_decide_eq_true_2 by done. lia.
      * rewrite bool_decide_eq_false_2 by tauto.
        rewrite (occurrences_absent x l1) by done. lia.
    + rewrite bool_decide_eq_false_2 by tauto. lia.
Qed.

(** The rows printed when the check fails: the first three of the sorted
    differences, in pairs. *)
Definition shown_pairs (ds rs : list string) : list (string * string) :=
  zip (take 3 (sorted_strs (counter_minus ds rs))) (take 3 (sorted_strs (counter_minus rs ds))).

(** Counts that do not exceed those of a list no longer make a permutation. *)
Lemma occurrences_perm l1 l2 :
  (length l2 ≤ length l1)%nat → (∀ s, occurrences s l1 ≤ occurrences s l2) → l1 ≡ₚ l2.
Proof.
  revert l2. induction l1 as [|x l1 IH]; intros l2 Hlen Hle.
  - simpl in Hlen. destruct l2; [done|simpl in Hlen; lia].
  - assert (x ∈ l2) as Hx.
    { destruct (decide (x ∈ l2)) as [|Hx]; [done|]. specialize (Hle x).
      rewrite (occurrences_absent x l2), occurrences_cons, bool_decide_eq_true_2 in Hle by done.
      unfold occurrences in Hle. lia. }
    apply list_elem_of_split in Hx as (k1 & k2 & ->).
    rewrite <-Permutation_middle. constructor. apply IH.
    + rewrite length_app in *. simpl in Hlen. lia.
    + intros s. specialize (Hle s). revert Hle.
      rewrite occurrences_cons. unfold occurrences.
      rewrite !filter_app, !length_app, filter_cons.
      destruct (decide (s = x)), (bool_decide_reflect (s = x)); simpl; try done; lia.
Qed.

(** A multiset that is not included in another has an element left. *)
Lemma minus_nonempty l1 l2 :
  (length l2 ≤ length l1)%nat → ¬ l1 ≡ₚ l2 → counter_minus l1 l2 ≠ [].
Proof.
  intros Hlen Hne E. apply Hne, occurrences_perm; [done|].
  intros s. pose proof (occurrences_minus s l1 l2) as H. rewrite E in H.
  unfold occurrences in H at 1. simpl in H. lia.
Qed.

Lemma sorted_nonempty l : l ≠ [] → sorted_strs l ≠ [].
Proof. intros H E. apply H, Permutation_nil_r. rewrite <-E. symmetry. apply sorted_strs_perm. Qed.

Lemma shown_nonempty ds rs :
  length ds = length rs → ¬ ds ≡ₚ rs → shown_pairs ds rs ≠ [].
Proof.
  intros Hlen Hne. unfold shown_pairs.
  pose proof (sorted_nonempty _ (minus_nonempty ds rs ltac:(lia) Hne)) as H1.
  pose proof (sorted_nonempty _ (minus_nonempty rs ds ltac:(lia) (fun H => Hne (symmetry H)))) as H2.
  by destruct (sorted_strs (counter_minus ds rs)), (sorted_strs (counter_minus rs ds)).
Qed.

Lemma dumped_set_inv dumped ds :
  dumped_set dumped = Ok ds →
  ∃ ps l, each payload dumped = Ok ps ∧ Forall2 (fun p t => norm p = Ok t) ps l ∧ ds = sorted_strs l.
Proof.
  unfold dumped_set. destruct (each norm_payload dumped) as [l|e] eqn:E; [|done]. intros [= <-].
  apply each_norm_payload in E as (ps & Hps & Hl%each_spec). eauto.
Qed.

Lemma ref_set_inv reference rs :
  ref_set reference = Ok rs →
  ∃ l, Forall2 (fun r t => norm r = Ok t) reference l ∧ rs = sorted_strs l.
Proof.
  unfold ref_set. destruct (each norm reference) as [l|e] eqn:E; [|done]. intros [= <-].
  exists l. by rewrite <-each_spec.
Qed.

Lemma shown_only ds rs a b :
  (a, b) ∈ shown_pairs ds rs →
  occurrences a rs < occurrences a ds ∧ occurrences b ds < occurrences b rs.
Proof.
  intros Hin. pose proof (elem_of_zip_l _ _ _ _ Hin) as Ha. pose proof (elem_of_zip_r _ _ _ _ Hin) as Hb.
  assert (∀ s k1 k2, s ∈ take 3 (sorted_strs (counter_minus k1 k2)) →
    occurrences s k2 < occurrences s k1) as H; [|auto].
  intros s k1 k2 Hs. assert (s ∈ sorted_strs (counter_minus k1 k2)) as Hs'.
  { rewrite <-(take_drop 3 (sorted_strs _)). apply elem_of_app. by left. }
  rewrite sorted_strs_perm in Hs'. apply occurrences_pos in Hs'.
  rewrite occurrences_minus in Hs'. lia.
Qed.

(** The payloads delivered can be paired off with the reference rows so that
    paired rows are equal. *)
Definition paired_by (equal : json → json → bool) (dumped reference : list json) : Prop :=
  ∃ payloads reference', each payload dumped = Ok payloads ∧ reference' ≡ₚ reference ∧
    Forall2 (fun p r => equal p r = true) payloads reference'.

Definition same_rows : list json → list json → Prop := paired_by json_same.

Lemma payload_plain d p : payload d = Ok p → plain d = true → plain p = true.
Proof.
  destruct d as [| | | | | |items]; try done. simpl. destruct (dict_get _ items) as [v|] eqn:Hg; [|done].
  intros [= <-]. rewrite forallb_forall. intros H.
  apply (H ("payload", v)), list_elem_of_In. by apply (dict_get_in ("payload")).
Qed.

Lemma each_plain dumped ps :
  each payload dumped = Ok ps → Forall (fun v => plain v = true) dumped →
  Forall (fun v => plain v = true) ps.
Proof.
  intros H%each_spec. induction H as [|d p dumped ps Hp _ IH]; [done|].
  inversion 1; subst. constructor; [by eapply payload_plain|auto].
Qed.

Lemma pairs_plain ps rs :
  Forall (fun v => plain v = true) ps → Forall (fun v => plain v = true) rs →
  Forall2 (fun p r => json_same p r = true) ps rs ↔ Forall2 (fun p r => py_equal p r = true) ps rs.
Proof.
  intros Hp. revert rs. induction Hp as [|p ps Hp _ IH]; intros rs Hr; destruct Hr as [|r rs Hr Hrs].
  - done.
  - split; by inversion 1.
  - split; by inversion 1.
  - by rewrite !Forall2_cons, (json_same_py_equal p r Hp Hr), (IH rs Hrs).
Qed.

Lemma same_rows_py_equal dumped reference :
  Forall (fun v => plain v = true) dumped → Forall (fun v => plain v = true) reference →
  same_rows dumped reference ↔ paired_by py_equal dumped reference.
Proof.
  intros Hd Hr.
  split; intros (ps & rs & Hps & Hp & H); exists ps, rs; (split; [done|]; split; [done|]);
    pose proof (each_plain _ _ Hps Hd); rewrite <-Hp in Hr; by apply pairs_plain.
Qed.

Lemma payloads_well_formed dumped ps :
  each payload dumped = Ok ps → Forall (fun v => well_formed v = true) dumped →
  Forall (fun v => well_formed v = true) ps.
Proof.
  intros H%each_spec. induction H as [|d p dumped ps Hp _ IH]; [done|].
  inversion 1; subst. constructor; [by eapply payload_well_formed|auto].
Qed.

Lemma pass_same_rows dumped reference ds rs :
  Forall (fun v => well_formed v = true) dumped →
  Forall (fun v => well_formed v = true) reference →
  dumped_set dumped = Ok ds → ref_set reference = Ok rs →
  verify ds rs = "PASS" ↔ same_rows dumped reference.
Proof.
  intros Hd Hr (ps & l & Hps & Hl & ->)%dumped_set_inv (l' & Hl' & ->)%ref_set_inv.
  pose proof (payloads_well_formed _ _ Hps Hd) as Hwp.
  rewrite verify_pass, sorted_strs_eq. split.
  - intros Hp. destruct (Forall2_follow _ _ _ _ Hl' (symmetry Hp)) as (r' & Hr' & HR).
    exists ps, r'. split; [done|]. split; [done|].
    apply (rows_match ps r' l); [done|by rewrite Hr'|done|done].
  - intros (ps' & r' & Hps' & Hr' & HR). assert (ps' = ps) as -> by congruence.
    apply (rows_match ps r' l) in HR; [|done|by rewrite Hr'|done].
    destruct (Forall2_follow (flip (fun r t => norm r = Ok t)) l' reference r')
      as (l2 & Hl2 & H2); [by apply Forall2_flip|done|]. apply Forall2_flip in H2.
    rewrite <-Hl2. clear -HR H2. revert l2 H2.
    induction HR as [|r t r' l Ht _ IH]; intros l2 H2; inversion H2; subst; [done|].
    assert (t = y) as -> by congruence. constructor. by apply IH.
Qed.

(** C14. The content check is exact.  On values as json.loads returns them
    (dicts with distinct keys, floats that are doubles), it prints PASS
    exactly when the delivered payloads can be paired off with the reference
    rows so that paired rows are the same JSON: the same keys, in whatever
    order, numbers compared by value (a whole float is its int), a boolean the
    same only as the same boolean, a NaN the same as a NaN.  Where there is no
    boolean and no NaN that is Python's equality; with them it is not
    (true == 1 in Python, and a NaN is not equal to itself).  Every row it shows as
    DUMPED-ONLY is delivered more often than referenced and every row shown
    as REF-ONLY the other way round, and if it fails on as many rows as
    expected it shows at least one such pair. *)
Theorem content_verify_exact dumped reference ds rs :
  Forall (fun v => well_formed v = true) dumped →
  Forall (fun v => well_formed v = true) reference →
  dumped_set dumped = Ok ds → ref_set reference = Ok rs →
  (verify ds rs = "PASS" ↔ same_rows dumped reference) ∧
  (Forall (fun v => plain v = true) dumped → Forall (fun v => plain v = true) reference →
   verify ds rs = "PASS" ↔ paired_by py_equal dumped reference) ∧
  (∀ a b, (a, b) ∈ shown_pairs ds rs →
     occurrences a rs < occurrences a ds ∧ occurrences b ds < occurrences b rs) ∧
  (verify ds rs ≠ "PASS" → length dumped = length reference → shown_pairs ds rs ≠ []).
Proof.
  intros Hd Hr Hds Hrs. split; [by apply pass_same_rows|]. split; [|split; [intros a b; apply shown_only|]].
  { intros Hpd Hpr. rewrite <-same_rows_py_equal by done. by apply pass_same_rows. }
  apply dumped_set_inv in Hds as (ps & l & Hps & Hl & ->).
  apply ref_set_inv in Hrs as (l' & Hl' & ->). intros Hne Hlen. apply shown_nonempty.
  - rewrite !(Permutation_length (sorted_strs_perm _)).
    apply each_spec, Forall2_length in Hps. apply Forall2_length in Hl, Hl'. congruence.
  - intros Hp. apply Hne, verify_pass. rewrite !sorted_strs_perm in Hp. by apply sorted_strs_eq.
Qed.

Module VerifyExample.
Definition row (id : json) (price : json) : json := JsDict [("id", id); ("price", price)].

(** [{"payload": {"price": 11.0, "id": 2}}] against [{"id": 2, "price": 11}]. *)
Definition dumped : list json :=
  [JsDict [("payload", JsDict [("price", JsFloat (of_int 11)); ("id", JsInt 2)])];
   JsDict [("payload", row (JsInt 1) (JsFloat (lit 5 2)))]].
Definition reference : list json :=
  [row (JsInt 1) (JsFloat (lit 5 2)); row (JsInt 2) (JsInt 11)].

Definition texts (r : result (list string)) : list string :=
  match r with Ok l => l | Err _ => [] end.
End VerifyExample.

Lemma content_verify_exact_witness :
  let ds := VerifyExample.texts (dumped_set VerifyExample.dumped) in
  let rs := VerifyExample.texts (ref_set VerifyExample.reference) in
  (verify ds rs = "PASS" ↔ same_rows VerifyExample.dumped VerifyExample.reference) ∧
  (Forall (fun v => plain v = true) VerifyExample.dumped →
   Forall (fun v => plain v = true) VerifyExample.reference →
   verify ds rs = "PASS" ↔ paired_by py_equal VerifyExample.dumped VerifyExample.reference) ∧
  (∀ a b, (a, b) ∈ shown_pairs ds rs →
     occurrences a rs < occurrences a ds ∧ occurrences b ds < occurrences b rs) ∧
  (verify ds rs ≠ "PASS" → length VerifyExample.dumped = length VerifyExample.reference →
     shown_pairs ds rs ≠ []).
Proof.
  apply (content_verify_exact VerifyExample.dumped VerifyExample.reference).
  - repeat constructor; vm_compute; reflexivity.
  - repeat constructor; vm_compute; reflexivity.
  - vm_compute. reflexivity.
  - vm_compute. reflexivity.
Defined.

Example content_verify_passes :
  verify (VerifyExample.texts (dumped_set VerifyExample.dumped))
         (VerifyExample.texts (ref_set VerifyExample.reference)) = "PASS".
Proof. vm_compute. reflexivity. Qed.

(** The count in a FAIL is of positions in the two sorted lists: a delivery
    that is a row short, at the end, counts none and shows none. *)
Example missing_row_uncounted :
  verify ["a"] ["a"; "b"] = "FAIL (mismatched_groups=0)" ∧ shown_pairs ["a"] ["a"; "b"] = [].
Proof. vm_compute. by split. Qed.

(** One that is a row short at the start counts every other row. *)
Example missing_row_shifts :
  verify ["b"; "c"; "d"] ["a"; "b"; "c"; "d"] = "FAIL (mismatched_groups=3)".
Proof. vm_compute. done. Qed.

(** Where the check and Python's [==] differ: true and 1, and a NaN. *)
Example booleans_and_nans :
  py_equal (JsBool true) (JsInt 1) = true ∧ json_same (JsBool true) (JsInt 1) = false ∧
  py_equal (JsFloat fnan) (JsFloat fnan) = false ∧ json_same (JsFloat fnan) (JsFloat fnan) = true.
Proof. vm_compute. done. Qed.
