(* ===== verification/OpenRetry.v ===== *)
(** * [execute_with_open_retry]

    The bounded retry around the first open of a queue handle
    (bench/sustained_bench.py, and verbatim in filtered_bench.py and
    multi_queue_bench.py): rc=100 is retried with a growing randomised
    back-off, anything else and the last attempt's error propagate. *)
From S2P Require Import Prelude PyFloat PyStr PyM.

(** [isinstance(e, InternalError_) and "rc=100" in str(e)] *)
Definition is_rc100 (e : exn) : bool :=
  match e with InternalError msg => contains "rc=100" msg | _ => false end.

(** [0.05 * (attempt + 1) + random.uniform(0, 0.05)] *)
Definition backoff (attempt bits : Z) : float :=
  fadd (fmul (lit 5 100) (of_int (attempt + 1)))
       (uniform_of (of_int 0) (lit 5 100) bits).

(** The loop body and the iterations after it: [todo] iterations of
    [for attempt in range(max_attempts)] are left. *)
Fixpoint open_retry_loop (sql : string) (params : list pval)
    (max_attempts : Z) (todo : nat) (attempt : Z) : Py unit :=
  match todo with
  | O => ret ()
  | S todo' =>
      try_except (execute sql params) (fun e =>
        if is_rc100 e && (attempt <? max_attempts - 1) then
          bits <- call Random;;
          sleep (backoff attempt bits);;
          open_retry_loop sql params max_attempts todo' (attempt + 1)
        else raise e)
  end.

Definition execute_with_open_retry (sql : string) (params : list pval)
    (max_attempts : Z) : Py unit :=
  open_retry_loop sql params max_attempts (Z.to_nat max_attempts) 0.

(** The default of the keyword argument. *)
Definition default_max_attempts : Z := 8.

(** ** What a call does to the outside world *)

(** One failed attempt that is retried. *)
Definition retried_attempt (sql : string) (params : list pval) (attempt : Z)
    (f : exn * Z) : trace :=
  [ Ev (Execute sql params) (Err f.1);
    Ev Random f.2;
    Ev (Sleep (backoff attempt f.2)) () ].

Fixpoint retried_attempts (sql : string) (params : list pval) (attempt : Z)
    (fails : list (exn * Z)) : trace :=
  match fails with
  | [] => []
  | f :: fails' =>
      retried_attempt sql params attempt f
        ++ retried_attempts sql params (attempt + 1) fails'
  end.

(** The back-off never asks [time.sleep] for a negative duration. *)
Lemma random_of_nonneg bits :
  nonneg (random_of bits) = true ∧ is_finite (random_of bits) = true ∧
  valid (random_of bits) = true.
Proof.
  pose proof (Z.mod_pos_bound bits (2 ^ 53) ltac:(lia)) as Hb.
  assert (nonneg (of_int (bits `mod` 2 ^ 53)) = true) by (apply of_int_nonneg; lia).
  assert (is_finite (of_int (bits `mod` 2 ^ 53)) = true) as Hf.
  { apply of_int_finite. pose proof (Z.pow_le_mono_r 2 53 1000). lia. }
  split; [by apply fmul_nonneg|]. unfold random_of.
  apply (fmul_small _ false 4503599627370496 (-105)); [apply of_int_valid|done|done|done].
Qed.

Lemma backoff_nonneg attempt bits :
  0 ≤ attempt < 2 ^ 63 → nonneg (backoff attempt bits) = true.
Proof.
  intros Ha. destruct (random_of_nonneg bits) as (Hn & Hf & _).
  unfold backoff, uniform_of. apply fadd_nonneg.
  - apply fmul_nonneg; [done|apply of_int_nonneg; lia|done|].
    apply of_int_finite. pose proof (Z.pow_le_mono_r 2 64 1000). lia.
  - apply fadd_nonneg; [done|]. by apply fmul_nonneg.
Qed.

#[local] Opaque backoff.

Lemma open_retry_loop_trace sql params m todo attempt t r :
  exec (open_retry_loop sql params m todo attempt) t r →
  (0 < todo)%nat → attempt + Z.of_nat todo = m → 0 ≤ attempt → m < 2 ^ 63 →
  ∃ fails final,
    t = retried_attempts sql params attempt fails ++ [Ev (Execute sql params) final] ∧
    Forall (fun f => is_rc100 f.1 = true) fails ∧
    (length fails < todo)%nat ∧ r = Some final ∧
    ∀ e, final = Err e → is_rc100 e = true → S (length fails) = todo.
Proof.
  revert attempt t r. induction todo as [|todo IH]; [lia|].
  intros attempt t r He _ Hm Ha Hmax. simpl in He.
  destruct He as (x & t' & -> & He). destruct x as [u|e]; simpl in He.
  { destruct He as [-> ->]. exists [], (Ok u). destruct u. simpl.
    repeat split; [constructor|lia|done]. }
  destruct (is_rc100 e && (attempt <? m - 1)) eqn:Hc.
  - apply andb_prop in Hc as [Hrc Hlt]. apply Z.ltb_lt in Hlt.
    destruct He as (bits & t'' & -> & He). simpl in He. unfold sleep in He.
    rewrite backoff_nonneg in He by lia.
    destruct He as ([] & t3 & -> & He). simpl in He.
    destruct (IH (attempt + 1) t3 r He) as (fails & final & -> & Hf & Hl & -> & Hlast);
      [lia..|].
    exists ((e, bits) :: fails), final. simpl.
    split; [done|]. split; [by constructor|]. split; [lia|]. split; [done|].
    intros e' ? ?. by rewrite (Hlast e').
  - destruct He as [-> ->]. exists [], (Err e). simpl.
    repeat split; [constructor|lia|]. intros e' [= ->] Hrc. rewrite Hrc in Hc.
    apply Z.ltb_ge in Hc. lia.
Qed.

(** Conversely, every such trace is one of the function's. *)
Lemma open_retry_loop_exec sql params m todo attempt fails final :
  Forall (fun f => is_rc100 f.1 = true) fails →
  (length fails < todo)%nat → attempt + Z.of_nat todo = m → 0 ≤ attempt → m < 2 ^ 63 →
  (∀ e, final = Err e → is_rc100 e = true → S (length fails) = todo) →
  exec (open_retry_loop sql params m todo attempt)
    (retried_attempts sql params attempt fails ++ [Ev (Execute sql params) final])
    (Some final).
Proof.
  intros Hf. revert todo attempt. induction Hf as [|f fails Hf _ IH];
    intros todo attempt Hl Hm Ha Hmax Hlast; (destruct todo as [|todo]; [simpl in Hl; lia|]).
  - simpl. exists final, []. split; [done|]. destruct final as [[]|e]; [done|]. simpl.
    destruct (is_rc100 e) eqn:Hrc; simpl; [|done].
    specialize (Hlast e eq_refl Hrc). simpl in Hlast.
    by rewrite (proj2 (Z.ltb_ge _ _)) by lia.
  - simpl. eexists (Err f.1), _. split; [done|]. simpl. rewrite Hf. simpl in *.
    rewrite (proj2 (Z.ltb_lt _ _)) by lia. simpl.
    eexists _, _. split; [done|]. simpl. unfold sleep. rewrite backoff_nonneg by lia.
    eexists (), _. split; [done|]. simpl. apply IH; [lia..|].
    intros e He Hrc. specialize (Hlast e He Hrc). lia.
Qed.

(** ** Properties *)

(** C15. [execute_with_open_retry] makes exactly these calls: some number (fewer
    than [max_attempts]) of attempts that fail with rc=100, each followed by a
    back-off sleep of a non-negative duration, then one final attempt whose
    outcome is the function's; the final attempt fails with rc=100 only if it
    is the last one allowed.  Any other error is raised at once. *)
Theorem execute_with_open_retry_spec sql params max_attempts t r :
  0 < max_attempts < 2 ^ 63 →
  exec (execute_with_open_retry sql params max_attempts) t r ↔
  ∃ fails final,
    t = retried_attempts sql params 0 fails ++ [Ev (Execute sql params) final] ∧
    Forall (fun f => is_rc100 f.1 = true) fails ∧
    Z.of_nat (length fails) < max_attempts ∧
    r = Some final ∧
    ∀ e, final = Err e → is_rc100 e = true → Z.of_nat (length fails) + 1 = max_attempts.
Proof.
  intros Hm. split.
  - intros He. apply open_retry_loop_trace in He as (fails & final & -> & Hf & Hl & -> & Hlast); [|lia..].
    exists fails, final. repeat split; [done|lia|]. intros e He Hrc. specialize (Hlast e He Hrc). lia.
  - intros (fails & final & -> & Hf & Hl & -> & Hlast).
    apply open_retry_loop_exec; [done|lia..|]. intros e He Hrc. specialize (Hlast e He Hrc). lia.
Qed.

Lemma execute_with_open_retry_spec_witness :
  exec (execute_with_open_retry "q" [] 8)
    (retried_attempts "q" [] 0 [(InternalError "open: rc=100", 7)] ++ [Ev (Execute "q" []) (Ok ())])
    (Some (Ok ())).
Proof.
  apply (execute_with_open_retry_spec "q" [] 8); [lia|].
  exists [(InternalError "open: rc=100", 7)], (Ok ()).
  split; [reflexivity|]. split; [repeat constructor|]. split; [simpl; lia|].
  split; [reflexivity|]. intros e He. discriminate He.
Defined.
