(* ===== verification/Pool.v ===== *)
(** * Processes over shared memory

    Interleaving semantics for the worker processes a benchmark's [main]
    starts: a pool of programs takes turns, one command at a time, over the
    [mp.Value] counters and their locks, the [mp.Barrier], the result queues
    and the sample list.  Every other command (database, clock) may reply
    anything.  A worker is checked on its own, against what its own commands
    do to a private ledger ([ledger], [safe]); [pool_invariant] then holds for
    every interleaving. *)
From S2P Require Import Prelude PyFloat PyStr PyM.

(** ** Shared objects *)

Record shared := Shared {
  value : nat → Z;                 (* mp.Value("l", 0), by index *)
  holder : nat → option nat;       (* who is inside get_lock() *)
  parties : nat;                   (* mp.Barrier(parties) *)
  arrived : list nat;              (* processes that reached barrier.wait() *)
  queue : nat → list qmsg;         (* mp.Queue, by index *)
  samples : list sample;
}.

Definition set_value σ v := Shared v (holder σ) (parties σ) (arrived σ) (queue σ) (samples σ).
Definition set_holder σ h := Shared (value σ) h (parties σ) (arrived σ) (queue σ) (samples σ).
Definition set_arrived σ a := Shared (value σ) (holder σ) (parties σ) a (queue σ) (samples σ).
Definition set_queue σ q := Shared (value σ) (holder σ) (parties σ) (arrived σ) q (samples σ).
Definition set_samples σ s := Shared (value σ) (holder σ) (parties σ) (arrived σ) (queue σ) s.

Definition init_shared (n : nat) : shared :=
  Shared (fun _ => 0) (fun _ => None) n [] (fun _ => []) [].

(** [act i σ c x σ']: process [i] performs [c] on [σ], gets [x], leaves [σ'].
    [barrier.wait()] is an arrival and, once everyone has arrived, a release;
    [acquire] waits for the lock. *)
Definition act (i : nat) (σ : shared) (c : cmd) : reply c → shared → Prop :=
  match c with
  | BarrierArrive => fun _ σ' => σ' = set_arrived σ (i :: arrived σ)
  | BarrierPass => fun _ σ' => (parties σ ≤ length (arrived σ))%nat ∧ σ' = σ
  | Acquire l => fun _ σ' => holder σ l = None ∧ σ' = set_holder σ (upd (holder σ) l (Some i))
  | Release l => fun _ σ' => holder σ l = Some i ∧ σ' = set_holder σ (upd (holder σ) l None)
  | ReadValue l => fun x σ' => x = value σ l ∧ σ' = σ
  | WriteValue l z => fun _ σ' => σ' = set_value σ (upd (value σ) l z)
  | QueuePut q m => fun _ σ' => σ' = set_queue σ (upd (queue σ) q (queue σ q ++ [m]))
  | AppendSample s => fun _ σ' => σ' = set_samples σ (samples σ ++ [s])
  | _ => fun _ σ' => σ' = σ
  end.

Abbreviation process := (Py unit).
Abbreviation config := (shared * list process)%type.

Inductive step : config → config → Prop :=
| step_do i c (k : reply c → process) x σ σ' ps :
    ps !! i = Some (Do c k) →
    act i σ c x σ' →
    step (σ, ps) (σ', <[i := k x]> ps).

Inductive steps : config → config → Prop :=
| steps_refl s : steps s s
| steps_step s1 s2 s3 : steps s1 s2 → step s2 s3 → steps s1 s3.

(** ** Executing a schedule *)

(** The outside world's answer to one command, untyped. *)
Inductive answer :=
| AUnit
| AFloat (x : float)
| AInt (z : Z)
| ABool (b : bool)
| AStr (s : string)
| ARow (row : list pval)
| ARows (rows : list (list pval))
| ARun (p : completed)
| AMsgs (ds : list delivery)
| AErr (e : exn).

Definition decode (c : cmd) : answer → option (reply c) :=
  match c with
  | Connect _ | Execute _ _ | Rmtree _ | Makedirs _ | Remove _ | Terminate _ | Kill _ | SendSignal _ _
  | WriteFile _ _ | DumpJson _ _ => fun a =>
      match a with AUnit => Some (Ok ()) | AErr e => Some (Err e) | _ => None end
  | Fetchone => fun a =>
      match a with ARow r => Some (Ok (Some r)) | AUnit => Some (Ok None)
                 | AErr e => Some (Err e) | _ => None end
  | Fetchall => fun a =>
      match a with ARows r => Some (Ok r) | AErr e => Some (Err e) | _ => None end
  | PerfCounter | WallTime | Monotonic => fun a =>
      match a with AFloat x => Some x | _ => None end
  | Random | ReadValue _ => fun a => match a with AInt z => Some z | _ => None end
  | Uuid4Hex => fun a => match a with AStr s => Some s | _ => None end
  | PathExists _ => fun a => match a with ABool b => Some b | _ => None end
  | OpenFile _ _ | Popen _ _ | Wait _ _ => fun a =>
      match a with AInt z => Some (Ok z) | AErr e => Some (Err e) | _ => None end
  | Poll _ => fun a =>
      match a with AInt z => Some (Some z) | AUnit => Some None | _ => None end
  | ReadFile _ | Communicate _ _ | HttpGet _ _ => fun a =>
      match a with AStr s => Some (Ok s) | AErr e => Some (Err e) | _ => None end
  | Await _ => fun a =>
      match a with AUnit => Some ([], Ok ()) | AMsgs ds => Some (ds, Ok ())
                 | AErr e => Some ([], Err e) | _ => None end
  | RunProc _ _ => fun a =>
      match a with ARun p => Some (Ok p) | AErr e => Some (Err e) | _ => None end
  | CloseConn | Sleep _ | BarrierArrive | BarrierPass | Acquire _ | Release _
  | WriteValue _ _ | QueuePut _ _ | AppendSample _ | CloseFile _ | Print _ _ => fun _ => Some ()
  end.

(** [act] as a function; [a] answers the commands the pool does not. *)
Definition act_fn (i : nat) (σ : shared) (a : answer) (c : cmd) : option (reply c * shared) :=
  match c with
  | BarrierArrive => Some ((), set_arrived σ (i :: arrived σ))
  | BarrierPass => if (parties σ <=? length (arrived σ))%nat then Some ((), σ) else None
  | Acquire l =>
      match holder σ l with
      | None => Some ((), set_holder σ (upd (holder σ) l (Some i)))
      | Some _ => None
      end
  | Release l =>
      match holder σ l with
      | Some j => if (i =? j)%nat then Some ((), set_holder σ (upd (holder σ) l None)) else None
      | None => None
      end
  | ReadValue l => Some (value σ l, σ)
  | WriteValue l z => Some ((), set_value σ (upd (value σ) l z))
  | QueuePut q m => Some ((), set_queue σ (upd (queue σ) q (queue σ q ++ [m])))
  | AppendSample s => Some ((), set_samples σ (samples σ ++ [s]))
  | c => match decode c a with Some x => Some (x, σ) | None => None end
  end.

Lemma act_fn_sound i σ a c x σ' : act_fn i σ a c = Some (x, σ') → act i σ c x σ'.
Proof.
  destruct c; simpl; intros H; repeat case_match; simplify_eq; try done.
  - split; [by apply Nat.leb_le|done].
  - by apply Nat.eqb_eq in H1 as ->.
Qed.

Definition step_fn (s : config) (la : nat * answer) : option config :=
  match s.2 !! la.1 with
  | Some (Do c k) =>
      match act_fn la.1 s.1 la.2 c with
      | Some (x, σ') => Some (σ', <[la.1 := k x]> s.2)
      | None => None
      end
  | _ => None
  end.

Fixpoint run_schedule (s : config) (sched : list (nat * answer)) : option config :=
  match sched with
  | [] => Some s
  | la :: sched' =>
      match step_fn s la with Some s' => run_schedule s' sched' | None => None end
  end.

Lemma step_fn_sound s la s' : step_fn s la = Some s' → step s s'.
Proof.
  unfold step_fn. destruct s as [σ ps], la as [i a]. simpl.
  destruct (ps !! i) as [[r| |c k]|] eqn:Hi; try done.
  destruct (act_fn i σ a c) as [[x σ']|] eqn:Ha; [|done]. intros [= <-].
  by eapply step_do, act_fn_sound.
Qed.

Lemma steps_trans s1 s2 s3 : steps s1 s2 → steps s2 s3 → steps s1 s3.
Proof. intros H1 H2. induction H2; eauto using steps_step. Qed.

Lemma run_schedule_sound s sched s' : run_schedule s sched = Some s' → steps s s'.
Proof.
  revert s. induction sched as [|la sched IH]; intros s; simpl.
  - intros [= ->]. constructor.
  - destruct (step_fn s la) as [s1|] eqn:H1; [|done]. intros H2.
    apply steps_trans with s1; [|by apply IH].
    eapply steps_step; [constructor|]. by eapply step_fn_sound.
Qed.

(** ** One process on its own *)

Inductive phase := Setup | Waiting | Running.

#[export] Instance phase_eq_dec : EqDecision phase.
Proof. solve_decision. Defined.

(** What a process has done so far: how much it has added to each counter,
    the lock it is inside of with the value it read there, its side of the
    barrier, and what it has put on the queues. *)
Record ledger := Ledger {
  added : nat → Z;
  holding : option (nat * option Z);
  at_phase : phase;
  puts : list (nat * qmsg);
}.

Definition ledger0 : ledger := Ledger (fun _ => 0) None Setup [].

Definition hold (g : ledger) h := Ledger (added g) h (at_phase g) (puts g).
Definition enter (g : ledger) p := Ledger (added g) (holding g) p (puts g).

(** Shared memory is touched under its lock only, a counter is written with
    an in-range value after having been read under the same lock, and the
    barrier is used once. *)
Definition allowed (g : ledger) (c : cmd) : Prop :=
  match c with
  | BarrierArrive => at_phase g = Setup
  | BarrierPass => at_phase g = Waiting
  | Acquire _ => holding g = None
  | Release l | ReadValue l => ∃ o, holding g = Some (l, o)
  | WriteValue l z => ∃ v, holding g = Some (l, Some v) ∧ wrap64 z = z
  | _ => True
  end.

Definition record_write (g : ledger) (l : nat) (z : Z) : ledger :=
  match holding g with
  | Some (_, Some v) =>
      Ledger (upd (added g) l (added g l + z - v)) (Some (l, None)) (at_phase g) (puts g)
  | _ => g
  end.

Definition record (g : ledger) (c : cmd) : reply c → ledger :=
  match c with
  | BarrierArrive => fun _ => enter g Waiting
  | BarrierPass => fun _ => enter g Running
  | Acquire l => fun _ => hold g (Some (l, None))
  | Release _ => fun _ => hold g None
  | ReadValue l => fun x => hold g (Some (l, Some x))
  | WriteValue l z => fun _ => record_write g l z
  | QueuePut q m => fun _ => Ledger (added g) (holding g) (at_phase g) (puts g ++ [(q, m)])
  | _ => fun _ => g
  end.

(** [safe P Φ p g]: from ledger [g], every command of [p] is allowed and
    satisfies the client's [P], and a result [a] is reached with a ledger
    in [Φ a]. *)
Fixpoint safe {A} (P : ledger → cmd → Prop) (Φ : A → ledger → Prop)
    (p : prog A) (g : ledger) : Prop :=
  match p with
  | Ret a => Φ a g
  | OutOfFuel => True
  | Do c k => allowed g c ∧ P g c ∧ ∀ x, safe P Φ (k x) (record g c x)
  end.

Lemma safe_bindp {A B} P Φ (m : prog A) (f : A → prog B) g :
  safe P (fun a g' => safe P Φ (f a) g') m g → safe P Φ (bindp m f) g.
Proof.
  revert g. induction m as [a| |c k IH]; intros g; simpl; [done..|].
  intros (H1 & H2 & H3). split; [done|]. split; [done|]. auto.
Qed.

Lemma safe_mono {A} P (Φ Ψ : A → ledger → Prop) (p : prog A) g :
  (∀ a g', Φ a g' → Ψ a g') → safe P Φ p g → safe P Ψ p g.
Proof.
  intros H. revert g. induction p as [a| |c k IH]; intros g; simpl; [auto..|].
  intros (H1 & H2 & H3). auto.
Qed.

(** Sequencing of computations that may raise. *)
Lemma safe_bind {A B} P Φ (m : Py A) (f : A → Py B) g :
  safe P (fun r g' =>
    match r with Ok a => safe P Φ (f a) g' | Err e => Φ (Err e) g' end) m g →
  safe P Φ (bind m f) g.
Proof.
  intros H. apply safe_bindp. eapply safe_mono; [|apply H].
  intros [a|e] g'; auto.
Qed.

(** ** The invariant of a pool *)

(** The ledgers agree with the shared objects. *)
Definition lock_ok (σ : shared) (gs : list ledger) : Prop :=
  (∀ l i, holder σ l = Some i ↔ ∃ g o, gs !! i = Some g ∧ holding g = Some (l, o)) ∧
  (∀ i g l v, gs !! i = Some g → holding g = Some (l, Some v) → value σ l = v).

Definition total_added (l : nat) (gs : list ledger) : Z :=
  Zsum ((fun g => added g l) <$> gs).

Definition value_ok (σ : shared) (gs : list ledger) : Prop :=
  ∀ l, value σ l = wrap64 (total_added l gs).

Definition barrier_ok (σ : shared) (gs : list ledger) : Prop :=
  NoDup (arrived σ) ∧
  (∀ i, i ∈ arrived σ ↔ ∃ g, gs !! i = Some g ∧ at_phase g ≠ Setup) ∧
  (∀ i g, gs !! i = Some g → at_phase g = Running → (parties σ ≤ length (arrived σ))%nat).

Definition puts_on (q : nat) (g : ledger) : list qmsg :=
  omap (fun '(q', m) => if (q' =? q)%nat then Some m else None) (puts g).

Definition queue_ok (σ : shared) (gs : list ledger) : Prop :=
  ∀ q, queue σ q ≡ₚ concat (puts_on q <$> gs).

Lemma concat_insert_snoc {A B} (f : A → list B) (l : list A) i a a' m :
  l !! i = Some a → f a' = f a ++ m → concat (f <$> l) ++ m ≡ₚ concat (f <$> <[i := a']> l).
Proof.
  revert i. induction l as [|b l IH]; intros [|i] Hi Hf; simplify_eq/=.
  - rewrite Hf. solve_Permutation.
  - rewrite <-(IH i Hi Hf). by rewrite app_assoc.
Qed.

(** Which commands concern which object; the others leave it alone. *)
Definition on_value (c : cmd) : bool := match c with WriteValue _ _ => true | _ => false end.
Definition on_lock (c : cmd) : bool :=
  match c with Acquire _ | Release _ | ReadValue _ | WriteValue _ _ => true | _ => false end.
Definition on_barrier (c : cmd) : bool :=
  match c with BarrierArrive | BarrierPass => true | _ => false end.
Definition on_queue (c : cmd) : bool := match c with QueuePut _ _ => true | _ => false end.

Lemma act_frame i σ c x σ' :
  act i σ c x σ' →
  parties σ' = parties σ ∧
  (on_value c = false → value σ' = value σ) ∧
  (on_lock c = false → holder σ' = holder σ) ∧
  (on_barrier c = false → arrived σ' = arrived σ) ∧
  (on_queue c = false → queue σ' = queue σ).
Proof. by destruct c; simpl; intros H; destruct_and?; subst. Qed.

Lemma record_frame g c x :
  (on_value c = false → added (record g c x) = added g) ∧
  (on_lock c = false → holding (record g c x) = holding g) ∧
  (on_barrier c = false → at_phase (record g c x) = at_phase g) ∧
  (on_queue c = false → puts (record g c x) = puts g).
Proof.
  by destruct c; simpl; repeat split; intros; try done; unfold record_write;
    destruct (holding g) as [[? []]|].
Qed.

Lemma on_value_inv c : on_value c = true → ∃ l z, c = WriteValue l z.
Proof. destruct c; eauto; done. Qed.

Lemma on_queue_inv c : on_queue c = true → ∃ q m, c = QueuePut q m.
Proof. destruct c; eauto; done. Qed.

(** A process of the new pool is the one that moved, or was there before. *)
Lemma lookup_moved {A} (l : list A) i a b : l !! i = Some a → <[i := b]> l !! i = Some b.
Proof. intros H. apply list_lookup_insert_eq. by eapply lookup_lt_Some. Qed.

Lemma lookup_moved_inv {A} (l : list A) i j a b h :
  l !! i = Some a → <[i := b]> l !! j = Some h → j = i ∧ h = b ∨ j ≠ i ∧ l !! j = Some h.
Proof.
  intros Ha. destruct (decide (j = i)) as [->|Hne].
  - rewrite (lookup_moved _ _ _ _ Ha). intros [= <-]. auto.
  - rewrite list_lookup_insert_ne by done. auto.
Qed.

Section preserve.
Context (i : nat) (σ σ' : shared) (c : cmd) (x : reply c) (g : ledger) (gs : list ledger).
Context (Hact : act i σ c x σ') (Hg : gs !! i = Some g) (Hall : allowed g c).

Abbreviation gs' := (<[i := record g c x]> gs).

Lemma queue_preserved : queue_ok σ gs → queue_ok σ' gs'.
Proof using Hact Hg.
  intros H q.
  assert (∀ m, queue σ' q = queue σ q ++ m → puts_on q (record g c x) = puts_on q g ++ m →
               queue σ' q ≡ₚ concat (puts_on q <$> gs')) as Hgen.
  { intros m -> Hp. rewrite (H q). by apply concat_insert_snoc with g. }
  destruct (act_frame _ _ _ _ _ Hact) as (_ & _ & _ & _ & Hq).
  destruct (record_frame g c x) as (_ & _ & _ & Hp).
  destruct (on_queue c) eqn:E.
  - apply on_queue_inv in E as (q' & m & E). clear Hall. subst c. clear Hq Hp.
    simpl in Hact. subst σ'. simpl in *. unfold upd in *.
    destruct (Nat.eqb_spec q q') as [Heq|Hqq]; [subst q'|].
    + apply (Hgen [m]); [done|]. unfold puts_on. simpl. rewrite omap_app. simpl.
      by rewrite Nat.eqb_refl.
    + apply (Hgen []); rewrite app_nil_r; [done|]. unfold puts_on. simpl.
      rewrite omap_app. simpl.
      apply not_eq_sym, Nat.eqb_neq in Hqq as ->. by rewrite app_nil_r.
  - apply (Hgen []); rewrite app_nil_r; [by rewrite Hq|].
    unfold puts_on. by rewrite Hp.
Qed.

Lemma value_preserved : lock_ok σ gs → value_ok σ gs → value_ok σ' gs'.
Proof using Hact Hg Hall.
  intros [_ Hread] H l. unfold total_added.
  rewrite (Zsum_insert_fmap _ _ _ _ _ Hg). fold (total_added l gs).
  destruct (act_frame _ _ _ _ _ Hact) as (_ & Hv & _).
  destruct (record_frame g c x) as (Ha & _).
  destruct (on_value c) eqn:E.
  - apply on_value_inv in E as (l' & z & E). subst c. clear Hv Ha.
    destruct Hall as (v & Hh & Hz). simpl in Hact. subst σ'. simpl.
    unfold record_write. rewrite Hh. simpl.
    pose proof (Hread _ _ _ _ Hg Hh) as Hval. rewrite H in Hval.
    destruct (decide (l = l')) as [->|Hne].
    + rewrite !upd_eq. rewrite <-Hz at 1. subst v.
      rewrite <-(wrap64_cancel (total_added l' gs) z). f_equal. lia.
    + rewrite !upd_ne by done. rewrite H. f_equal. lia.
  - rewrite Hv, Ha by done. rewrite H. f_equal. lia.
Qed.

Lemma barrier_preserved : barrier_ok σ gs → barrier_ok σ' gs'.
Proof using Hact Hg Hall.
  intros (Hnd & Harr & Hrun).
  destruct (act_frame _ _ _ _ _ Hact) as (Hpar & _ & _ & Ha & _).
  destruct (record_frame g c x) as (_ & _ & Hp & _).
  assert (∀ p, at_phase (record g c x) = p → (p = Setup ↔ at_phase g = Setup) →
               (p = Running → at_phase g = Running ∨ (parties σ ≤ length (arrived σ))%nat) →
               arrived σ' = arrived σ → barrier_ok σ' gs') as Hsame.
  { intros p Hph Hset Hr Harr'. unfold barrier_ok. rewrite Harr', Hpar.
    split; [done|]. split.
    - intros j. rewrite Harr. split; intros (h & Hh & Hne).
      + destruct (decide (j = i)) as [->|Hji].
        * exists (record g c x). rewrite (lookup_moved _ _ _ _ Hg). naive_solver.
        * exists h. by rewrite list_lookup_insert_ne.
      + apply (lookup_moved_inv _ _ _ _ _ _ Hg) in Hh as [[-> ->]|[_ Hh]]; [|by eauto].
        exists g. naive_solver.
    - intros j h Hh Hrun'. apply (lookup_moved_inv _ _ _ _ _ _ Hg) in Hh as [[-> ->]|[_ Hh]]; [|by eauto].
      destruct Hr as [Hr|Hr]; [congruence|by eauto|done]. }
  destruct (on_barrier c) eqn:E; [|by eapply Hsame; [apply Hp| |auto|apply Ha]].
  destruct c; try done; clear Hp Ha.
  - simpl in Hact, Hall. subst σ'. clear Hsame.
    assert (i ∉ arrived σ) as Hni.
    { rewrite Harr. intros (h & Hh & Hne). congruence. }
    split; [by constructor|]. split.
    + intros j. simpl. rewrite elem_of_cons, Harr. split.
      * intros [->|(h & Hh & Hne)]; [by eexists; split; [apply (lookup_moved _ _ _ _ Hg)|]|].
        exists h. rewrite list_lookup_insert_ne; [done|]. intros ->. congruence.
      * intros (h & Hh & Hne). apply (lookup_moved_inv _ _ _ _ _ _ Hg) in Hh as [[-> _]|[_ Hh]]; [by left|].
        right. eauto.
    + simpl. intros j h Hh Hr. apply (lookup_moved_inv _ _ _ _ _ _ Hg) in Hh as [[-> ->]|[_ Hh]]; [done|].
      specialize (Hrun _ _ Hh Hr). lia.
  - simpl in Hact, Hall. destruct Hact as [Hle ->].
    apply (Hsame Running); simpl; auto. rewrite Hall. naive_solver.
Qed.
End preserve.

Section locks.
Context (i : nat) (σ σ' : shared) (g g' : ledger) (gs : list ledger).
Context (Hg : gs !! i = Some g) (Hlk : lock_ok σ gs).

(** [lock_ok] after process [i] moves: who holds what, then what the holders
    have read. *)
Lemma lock_moved :
  (∀ l, holder σ' l = Some i ↔ ∃ o, holding g' = Some (l, o)) →
  (∀ l j, j ≠ i → holder σ' l = Some j ↔ holder σ l = Some j) →
  (∀ l v, holding g' = Some (l, Some v) → value σ' l = v) →
  (∀ j h l o, j ≠ i → gs !! j = Some h → holding h = Some (l, o) → value σ' l = value σ l) →
  lock_ok σ' (<[i := g']> gs).
Proof using Hg Hlk.
  destruct Hlk as [Hl Hr]. intros Hi Hj Hvi Hvj. split.
  - intros l j. destruct (decide (j = i)) as [->|Hne].
    + rewrite Hi, (lookup_moved _ _ _ _ Hg). naive_solver.
    + by rewrite Hj, Hl, list_lookup_insert_ne.
  - intros j h l v Hh Hv.
    apply (lookup_moved_inv _ _ _ _ _ _ Hg) in Hh as [[-> ->]|[Hne Hh]]; [by apply Hvi|].
    rewrite (Hvj j h l (Some v)) by done. eauto.
Qed.

Lemma lock_unique l j o o' h :
  holding g = Some (l, o) → gs !! j = Some h → holding h = Some (l, o') → j = i.
Proof using Hg Hlk.
  intros H1 H2 H3. destruct Hlk as [Hl _].
  assert (holder σ l = Some i) by (apply Hl; eauto).
  assert (holder σ l = Some j) by (apply Hl; eauto). congruence.
Qed.

Lemma holder_self l : holder σ l = Some i ↔ ∃ o, holding g = Some (l, o).
Proof using Hg Hlk. destruct Hlk as [Hl _]. rewrite Hl. naive_solver. Qed.
End locks.

Lemma lock_acquire i σ l g gs :
  gs !! i = Some g → lock_ok σ gs → holding g = None → holder σ l = None →
  lock_ok (set_holder σ (upd (holder σ) l (Some i))) (<[i := hold g (Some (l, None))]> gs).
Proof.
  intros Hg Hlk Hn Hfree. eapply lock_moved; [done|done|..]; simpl; [| |naive_solver|done].
  - intros l'. unfold upd. destruct (Nat.eqb_spec l' l) as [->|Hne]; [naive_solver|].
    rewrite (holder_self _ _ _ _ Hg Hlk). naive_solver.
  - intros l' j Hj. unfold upd. destruct (Nat.eqb_spec l' l) as [->|Hne]; [|done].
    rewrite Hfree. naive_solver.
Qed.

Lemma lock_release i σ l g gs o :
  gs !! i = Some g → lock_ok σ gs → holding g = Some (l, o) →
  lock_ok (set_holder σ (upd (holder σ) l None)) (<[i := hold g None]> gs).
Proof.
  intros Hg Hlk Hh.
  assert (holder σ l = Some i) as Hl by (apply (holder_self _ _ _ _ Hg Hlk); eauto).
  eapply lock_moved; [done|done|..]; simpl; [| |naive_solver|done].
  - intros l'. unfold upd. destruct (Nat.eqb_spec l' l) as [->|Hne]; [naive_solver|].
    rewrite (holder_self _ _ _ _ Hg Hlk). naive_solver.
  - intros l' j Hj. unfold upd. destruct (Nat.eqb_spec l' l) as [->|Hne]; [|done].
    rewrite Hl. naive_solver.
Qed.

Lemma lock_read i σ l g gs o :
  gs !! i = Some g → lock_ok σ gs → holding g = Some (l, o) →
  lock_ok σ (<[i := hold g (Some (l, Some (value σ l)))]> gs).
Proof.
  intros Hg Hlk Hh. eapply lock_moved; [done|done|..]; simpl; [| |naive_solver|done].
  - intros l'. rewrite (holder_self _ _ _ _ Hg Hlk). naive_solver.
  - done.
Qed.

Lemma lock_write i σ l z g gs v :
  gs !! i = Some g → lock_ok σ gs → holding g = Some (l, Some v) →
  lock_ok (set_value σ (upd (value σ) l z)) (<[i := record_write g l z]> gs).
Proof.
  intros Hg Hlk Hh. unfold record_write. rewrite Hh.
  eapply lock_moved; [done|done|..]; simpl; [| |naive_solver|].
  - intros l'. rewrite (holder_self _ _ _ _ Hg Hlk). naive_solver.
  - done.
  - intros j h l' o Hne Hj Hh'. apply upd_ne. intros ->.
    by apply Hne, (lock_unique _ _ _ _ Hg Hlk l j (Some v) o h).
Qed.

Lemma lock_preserved i σ σ' c x g gs :
  act i σ c x σ' → gs !! i = Some g → allowed g c →
  lock_ok σ gs → lock_ok σ' (<[i := record g c x]> gs).
Proof.
  intros Hact Hg Hall Hlk.
  destruct (act_frame _ _ _ _ _ Hact) as (_ & Hv & Hh & _).
  destruct (record_frame g c x) as (_ & Hd & _).
  destruct (on_lock c) eqn:E.
  - clear Hv Hh Hd. destruct c; try done; simpl in Hact, Hall |- *; clear E.
    + destruct Hact as [? ->]. by apply lock_acquire.
    + destruct Hact as [? ->], Hall as [o ?]. by apply lock_release with o.
    + destruct Hact as [-> ->], Hall as [o ?]. by apply lock_read with o.
    + subst σ'. destruct Hall as (v & ? & _). by apply lock_write with v.
  - assert (on_value c = false) as Hval by by destruct c.
    specialize (Hv Hval). specialize (Hh eq_refl). specialize (Hd eq_refl).
    eapply lock_moved; [done|done|..]; rewrite ?Hd, ?Hh, ?Hv.
    + intros l. apply (holder_self _ _ _ _ Hg Hlk).
    + done.
    + destruct Hlk as [_ Hr]. eauto.
    + done.
Qed.

(** ** Every interleaving keeps the invariant *)

Record pool_inv (P : nat → ledger → cmd → Prop) (Φ : nat → result unit → ledger → Prop)
    (n : nat) (σ : shared) (ps : list process) (gs : list ledger) : Prop := PoolInv {
  inv_length : length gs = length ps;
  inv_safe : ∀ i p g, ps !! i = Some p → gs !! i = Some g → safe (P i) (Φ i) p g;
  inv_lock : lock_ok σ gs;
  inv_value : value_ok σ gs;
  inv_barrier : barrier_ok σ gs;
  inv_queue : queue_ok σ gs;
  inv_parties : parties σ = n;
  inv_party : ∀ i g, gs !! i = Some g → at_phase g ≠ Setup → (i < n)%nat;
}.

Lemma lookup_ledger {A} (gs : list ledger) (ps : list A) i p :
  length gs = length ps → ps !! i = Some p → ∃ g, gs !! i = Some g.
Proof.
  intros Hlen Hp. apply lookup_lt_is_Some_2. rewrite Hlen. by eapply lookup_lt_Some.
Qed.

Lemma pool_inv_step P Φ n σ ps gs σ' ps' :
  (∀ i g, P i g BarrierArrive → (i < n)%nat) →
  pool_inv P Φ n σ ps gs → step (σ, ps) (σ', ps') →
  ∃ gs', pool_inv P Φ n σ' ps' gs'.
Proof.
  intros Hparty [Hlen Hsafe Hlk Hval Hbar Hq Hpar Hpn] Hstep.
  inversion Hstep as [i c k x σ0 σ1 ps0 Hp Hact]; subst.
  destruct (lookup_ledger gs ps i _ Hlen Hp) as [g Hg].
  destruct (Hsafe _ _ _ Hp Hg) as (Hall & HP & Hk).
  exists (<[i := record g c x]> gs). split.
  - by rewrite !length_insert.
  - intros j p h Hj Hh.
    apply (lookup_moved_inv _ _ _ _ _ _ Hp) in Hj as [[-> ->]|[Hne Hj]].
    + rewrite (lookup_moved _ _ _ _ Hg) in Hh. injection Hh as <-. apply Hk.
    + rewrite list_lookup_insert_ne in Hh by done. eauto.
  - by apply (lock_preserved i σ).
  - by apply (value_preserved i σ).
  - by apply (barrier_preserved i σ).
  - by apply (queue_preserved i σ).
  - destruct (act_frame _ _ _ _ _ Hact) as [-> _]. done.
  - intros j h Hh Hne.
    apply (lookup_moved_inv _ _ _ _ _ _ Hg) in Hh as [[-> ->]|[_ Hh]]; [|by eauto].
    destruct (record_frame g c x) as (_ & _ & Hph & _).
    destruct (on_barrier c) eqn:E; [|rewrite Hph in Hne by done; eauto].
    destruct c; try done; [by eapply Hparty|].
    apply (Hpn _ _ Hg). simpl in Hall. by rewrite Hall.
Qed.

Lemma steps_inv P Φ n s1 s2 :
  (∀ i g, P i g BarrierArrive → (i < n)%nat) →
  steps s1 s2 → (∃ gs, pool_inv P Φ n s1.1 s1.2 gs) → ∃ gs, pool_inv P Φ n s2.1 s2.2 gs.
Proof.
  intros Hparty Hs H. induction Hs as [|s1 s2 s3 Hs IH Hst]; [done|].
  destruct (IH H) as [gs Hinv]. destruct s2, s3. by eapply pool_inv_step.
Qed.

Lemma lookup_replicate_ledger0 k i g : replicate k ledger0 !! i = Some g → g = ledger0.
Proof. by intros [? _]%lookup_replicate. Qed.

Lemma pool_inv_init P Φ n ps :
  (∀ i p, ps !! i = Some p → safe (P i) (Φ i) p ledger0) →
  pool_inv P Φ n (init_shared n) ps (replicate (length ps) ledger0).
Proof.
  intros H. split; simpl.
  - by rewrite length_replicate.
  - intros i p g Hp ->%lookup_replicate_ledger0. eauto.
  - split; [split; [done|]|].
    + by intros (g & o & ->%lookup_replicate_ledger0 & Hh).
    + by intros i g l v ->%lookup_replicate_ledger0 Hh.
  - intros l. unfold total_added. rewrite fmap_replicate. simpl.
    assert (∀ m, Zsum (replicate m 0) = 0) as -> by (induction m; simpl; lia). done.
  - split; [constructor|]. split; simpl.
    + intros i. split; [by intros ?%elem_of_nil|].
      by intros (g & ->%lookup_replicate_ledger0 & Hh).
    + by intros i g ->%lookup_replicate_ledger0 Hr.
  - intros q. simpl. rewrite fmap_replicate. by induction (length ps).
  - done.
  - by intros i g ->%lookup_replicate_ledger0 Hr.
Qed.

(** Interleaving any number of individually safe processes keeps the shared
    objects and the ledgers in agreement. *)
Lemma pool_invariant P Φ n ps σ ps' :
  (∀ i g, P i g BarrierArrive → (i < n)%nat) →
  (∀ i p, ps !! i = Some p → safe (P i) (Φ i) p ledger0) →
  steps (init_shared n, ps) (σ, ps') →
  ∃ gs, pool_inv P Φ n σ ps' gs.
Proof.
  intros Hparty H Hs. apply (steps_inv P Φ n _ _ Hparty Hs). simpl.
  eexists. by apply pool_inv_init.
Qed.

(** ** Rules for the constructs the workers use *)

Section rules.
Context (P : ledger → cmd → Prop).

(** A call that leaves the ledger alone. *)
Lemma safe_call c g Φ :
  allowed g c → P g c → (∀ x, Φ (Ok x) (record g c x)) → safe P Φ (call c) g.
Proof. intros. simpl. auto. Qed.

Lemma safe_while {S} Φ (I : S → ledger → Prop) fuel cond (body : S → Py S) s g :
  I s g →
  (∀ s g, I s g →
     safe P (fun r g' =>
       match r with
       | Ok true => safe P (fun r' g'' =>
           match r' with Ok s' => I s' g'' | Err e => Φ (Err e) g'' end) (body s) g'
       | Ok false => Φ (Ok s) g'
       | Err e => Φ (Err e) g'
       end) (cond s) g) →
  safe P Φ (while_ fuel cond body s) g.
Proof.
  intros HI H. revert s g HI. induction fuel as [|fuel IH]; intros s g HI; [done|].
  cbn [while_]. apply safe_bind. eapply safe_mono; [|by apply H].
  intros [[]|e] g'; [|done..]. intros Hb. apply safe_bind.
  eapply safe_mono; [|apply Hb]. intros [s'|e] g'' Hr; [|done]. by apply IH.
Qed.

Lemma safe_with_connection {A} Φ dsn (body : Py A) g :
  P g (Connect dsn) →
  (∀ e, Φ (Err e) g) →
  safe P (fun r g' => P g' CloseConn ∧ Φ r g') body g →
  safe P Φ (with_connection dsn body) g.
Proof.
  intros Hc He Hb. unfold with_connection. simpl. split; [done|]. split; [done|].
  intros [u|e]; [|by apply He]. apply safe_bindp. eapply safe_mono; [|apply Hb].
  intros r g' [? ?]. simpl. auto.
Qed.
End rules.

(** One command whose side conditions are immediate. *)
Ltac safe_cmd :=
  split; [solve [eauto]|split; [solve [eauto]|
    let x := fresh "x" in intros x; try (destruct x; [])]].
