(* ===== verification/Workers.v ===== *)
(** * What the multiprocessing benchmarks share

    The constructs bench/sustained_bench.py, filtered_bench.py and
    multi_queue_bench.py have in common (locked counter updates, the start
    barrier, pacing), and the interface [Bench]: a pool of workers, each safe
    on its own, with the result queues that account for the counters.  The
    guarantees at the end hold for every instance and every interleaving. *)
From S2P Require Import Prelude PyFloat PyStr PyM OpenRetry Pool.

(** [with counter.get_lock(): counter.value += n] *)
Definition counter_add (counter : nat) (n : Z) : Py unit :=
  call (Acquire counter);;
  v <- call (ReadValue counter);;
  call (WriteValue counter (wrap64 (v + n)));;
  call (Release counter).

(** [counter.value]: the synchronized wrapper reads under its lock. *)
Definition counter_value (counter : nat) : Py Z :=
  call (Acquire counter);;
  v <- call (ReadValue counter);;
  call (Release counter);;
  ret v.

(** [barrier.wait()] *)
Definition barrier_wait : Py unit := call BarrierArrive;; call BarrierPass.

(** [time.perf_counter() < deadline] *)
Definition before (deadline : float) : Py bool :=
  now <- perf_counter;; ret (flt now deadline).

(** ** The interface *)

(** Arrivals come from the barrier's parties, and a timed statement is issued
    only once the barrier has released. *)
Definition client (parties : nat) (timed : string → bool) (i : nat) (g : ledger) (c : cmd) : Prop :=
  match c with
  | BarrierArrive => (i < parties)%nat
  | Execute sql _ => timed sql = true → at_phase g = Running
  | _ => True
  end.

(** A counter [c] is accounted for on queue [q]: [f] reads the amount off a
    message. *)
Record account := Account {
  acc_counter : nat;
  acc_queue : nat;
  acc_amount : qmsg → Z;
}.

Definition reported (a : account) (ms : list qmsg) : Z := Zsum (acc_amount a <$> ms).

Definition settled (accounts : list account) (g : ledger) : Prop :=
  Forall (fun a =>
    wrap64 (added g (acc_counter a)) = wrap64 (reported a (puts_on (acc_queue a) g))) accounts.

(** What identifies a message apart from its amount. *)
Inductive key := KInt | KIdx (i : Z) | KRes (worker : Z).

#[export] Instance key_eq_dec : EqDecision key.
Proof. solve_decision. Defined.

Definition key_of (m : qmsg) : key :=
  match m with QInt _ => KInt | QIdx i _ => KIdx i | QRes worker _ _ _ => KRes worker end.

Definition report_of (qm : nat * qmsg) : nat * key := (qm.1, key_of qm.2).

(** How a worker may end: having passed the barrier (if it is a party to it),
    its counters settled, and having put one message on each queue and under
    each key of [reports]; or with an exception, and then it has reported
    nothing, and unless it is a party it has counted nothing either. *)
Definition finished (parties : nat) (accounts : list account) (reports : list (nat * key)) (i : nat)
    (r : result unit) (g : ledger) : Prop :=
  match r with
  | Ok _ =>
      ((i < parties)%nat → at_phase g = Running) ∧ settled accounts g ∧ report_of <$> puts g = reports
  | Err _ => puts g = [] ∧ (¬ (i < parties)%nat → settled accounts g)
  end.

Class Bench := {
  bench_parties : nat;
  bench_workers : list process;
  bench_timed : string → bool;
  bench_accounts : list account;
  bench_reports : list (list (nat * key));
  bench_length : length bench_reports = length bench_workers;
  bench_silent : ∀ i r, bench_reports !! i = Some r → ¬ (i < bench_parties)%nat → r = [];
  bench_safe : ∀ i p, bench_workers !! i = Some p →
    safe (client bench_parties bench_timed i)
         (finished bench_parties bench_accounts (default [] (bench_reports !! i)) i) p ledger0;
}.

(** Configurations a benchmark can get to. *)
Definition reachable `{Bench} (s : config) : Prop :=
  steps (init_shared bench_parties, bench_workers) s.

Definition all_ok (ps : list process) : Prop := Forall (fun p => p = Ret (Ok ())) ps.

(** Every process has ended, one way or the other: [main]'s joins return. *)
Definition all_ended (ps : list process) : Prop := Forall (fun p => ∃ r, p = Ret r) ps.

(** Every process has ended, and the barrier's [n] parties have completed:
    only a process outside the barrier, the monitor, may have failed. *)
Definition parties_ok (n : nat) (ps : list process) : Prop :=
  all_ended ps ∧ ∀ i p, (i < n)%nat → ps !! i = Some p → p = Ret (Ok ()).

(** The keys of the messages the workers mean to put on [q]. *)
Definition keys_on (q : nat) (r : list (nat * key)) : list key :=
  omap (fun '(q', k) => if (q' =? q)%nat then Some k else None) r.

Definition due (q : nat) (reports : list (list (nat * key))) : list key := concat (keys_on q <$> reports).

(** The SQL statement a process is about to issue. *)
Definition next_statement (p : process) : option string :=
  match p with Do (Execute sql _) _ => Some sql | _ => None end.

Lemma all_ok_parties n ps : all_ok ps → parties_ok n ps.
Proof.
  intros Hok. split; [eapply Forall_impl; [apply Hok|]; naive_solver|].
  intros i p _ Hp. by apply (proj1 (Forall_lookup _ _) Hok i).
Qed.

(** ** Guarantees *)

Section guarantees.
Context `{HB : Bench}.

Lemma reachable_inv σ ps :
  reachable (σ, ps) →
  ∃ gs, pool_inv (client bench_parties bench_timed)
                 (fun i => finished bench_parties bench_accounts
                             (default [] (bench_reports !! i)) i) bench_parties σ ps gs.
Proof. apply pool_invariant; [done|]. apply bench_safe. Qed.

(** The barrier's arrivals are distinct parties. *)
Lemma arrived_bounded σ ps :
  reachable (σ, ps) → NoDup (arrived σ) ∧ ∀ i, i ∈ arrived σ → (i < bench_parties)%nat.
Proof.
  intros [gs Hinv]%reachable_inv. destruct Hinv as [_ _ _ _ (Hnd & Harr & _) _ _ Hpn].
  split; [done|]. intros i (g & Hg & Hne)%Harr. eauto.
Qed.

Lemma all_arrived σ ps :
  reachable (σ, ps) → (bench_parties ≤ length (arrived σ))%nat →
  ∀ i, (i < bench_parties)%nat → i ∈ arrived σ.
Proof.
  intros Hr Hlen i Hi. destruct (arrived_bounded _ _ Hr) as [Hnd Hb].
  assert (arrived σ ≡ₚ seq 0 bench_parties) as ->; [|by apply elem_of_seq; lia].
  apply submseteq_length_Permutation; [|by rewrite length_seq].
  apply NoDup_submseteq; [done|]. intros j Hj%Hb. apply elem_of_seq. lia.
Qed.

(** No timed statement is issued before every worker has come to the
    barrier. *)
Lemma timed_after_barrier σ ps i sql :
  reachable (σ, ps) → (ps !! i ≫= next_statement) = Some sql →
  bench_timed sql = true →
  ∀ j, (j < bench_parties)%nat → j ∈ arrived σ.
Proof.
  intros Hr (p & Hi & Hp)%bind_Some Ht.
  destruct p as [?| |c k]; try done. destruct c; try done. injection Hp as ->. destruct (reachable_inv _ _ Hr) as [gs Hinv].
  destruct (lookup_ledger _ _ _ _ (inv_length _ _ _ _ _ _ Hinv) Hi) as [g Hg].
  destruct (inv_safe _ _ _ _ _ _ Hinv _ _ _ Hi Hg) as (_ & Hc & _).
  apply (all_arrived _ _ Hr). rewrite <-(inv_parties _ _ _ _ _ _ Hinv).
  destruct (inv_barrier _ _ _ _ _ _ Hinv) as (_ & _ & Hrun).
  apply (Hrun _ _ Hg). by apply Hc.
Qed.

(** A process that has ended neither moves nor arrives. *)
Lemma ended_stays j r s s' :
  steps s s' → s.2 !! j = Some (Ret r) → j ∉ arrived s.1 →
  s'.2 !! j = Some (Ret r) ∧ j ∉ arrived s'.1.
Proof.
  intros Hs Hj Hn. induction Hs as [|s1 s2 s3 _ IH Hst]; [done|].
  destruct (IH Hj Hn) as [Hj2 Hn2]. clear IH.
  destruct Hst as [i c k x σ σ' ps Hp Hact]. simpl in *.
  assert (i ≠ j) as Hij by (intros ->; congruence).
  rewrite list_lookup_insert_ne by done. split; [done|].
  destruct (act_frame _ _ _ _ _ Hact) as (_ & _ & _ & Ha & _).
  destruct (on_barrier c) eqn:E; [|by rewrite Ha].
  destruct c; try done; simpl in Hact.
  - subst σ'. simpl. set_solver.
  - by destruct Hact as [_ ->].
Qed.

(** If one worker dies before the barrier, none of the others ever
    completes. *)
Lemma stuck_at_barrier σ ps σ' ps' j e :
  reachable (σ, ps) → ps !! j = Some (Ret (Err e)) →
  (j < bench_parties)%nat → j ∉ arrived σ →
  steps (σ, ps) (σ', ps') →
  ∀ i, (i < bench_parties)%nat → ps' !! i ≠ Some (Ret (Ok ())).
Proof.
  intros Hr Hj Hjp Hn Hs i Hip Hi.
  destruct (ended_stays j _ _ _ Hs Hj Hn) as [_ Hn']. simpl in Hn'.
  assert (reachable (σ', ps')) as Hr' by by eapply steps_trans.
  apply Hn', (all_arrived _ _ Hr'); [|done].
  destruct (reachable_inv _ _ Hr') as [gs Hinv].
  destruct (lookup_ledger _ _ _ _ (inv_length _ _ _ _ _ _ Hinv) Hi) as [g Hg].
  destruct (inv_safe _ _ _ _ _ _ Hinv _ _ _ Hi Hg) as (Hrun & _).
  rewrite <-(inv_parties _ _ _ _ _ _ Hinv).
  destruct (inv_barrier _ _ _ _ _ _ Hinv) as (_ & _ & H). eauto.
Qed.

Lemma reported_app a m1 m2 : reported a (m1 ++ m2) = reported a m1 + reported a m2.
Proof. unfold reported. by rewrite fmap_app, Zsum_app. Qed.

Lemma settled_total a gs :
  Forall (fun g => wrap64 (added g (acc_counter a)) =
                   wrap64 (reported a (puts_on (acc_queue a) g))) gs →
  wrap64 (total_added (acc_counter a) gs) =
  wrap64 (reported a (concat (puts_on (acc_queue a) <$> gs))).
Proof.
  unfold total_added. induction 1 as [|g gs Hg _ IH]; [done|]. simpl.
  rewrite reported_app. by apply wrap64_add_congr.
Qed.

Abbreviation pool_ok := (pool_inv (client bench_parties bench_timed)
  (fun i => finished bench_parties bench_accounts (default [] (bench_reports !! i)) i)
  bench_parties).

(** Where the parties have completed, every ledger is settled. *)
Lemma parties_settled σ ps gs i g :
  pool_ok σ ps gs → parties_ok bench_parties ps → gs !! i = Some g →
  settled bench_accounts g ∧ report_of <$> puts g = default [] (bench_reports !! i).
Proof.
  intros Hinv [Hend Hok] Hg.
  assert (∃ p, ps !! i = Some p) as [p Hp].
  { apply lookup_lt_is_Some_2. rewrite <-(inv_length _ _ _ _ _ _ Hinv).
    by eapply lookup_lt_Some. }
  destruct (proj1 (Forall_lookup _ _) Hend i p Hp) as [[u|e] ->];
    pose proof (inv_safe _ _ _ _ _ _ Hinv _ _ _ Hp Hg) as Hf; simpl in Hf; [tauto|].
  destruct Hf as [-> Hset]. destruct (decide (i < bench_parties)%nat) as [Hlt|Hge].
  - by specialize (Hok _ _ Hlt Hp).
  - split; [auto|]. destruct (bench_reports !! i) as [r|] eqn:Hr; [|done].
    by rewrite (bench_silent _ _ Hr).
Qed.

(** When the parties have completed, each counter holds exactly what they
    reported on its queue, modulo the width of the counter. *)
Lemma counters_accounted σ ps a :
  reachable (σ, ps) → parties_ok bench_parties ps → a ∈ bench_accounts →
  value σ (acc_counter a) = wrap64 (reported a (queue σ (acc_queue a))).
Proof.
  intros Hr Hok Ha. destruct (reachable_inv _ _ Hr) as [gs Hinv].
  rewrite (inv_value _ _ _ _ _ _ Hinv).
  assert (reported a (queue σ (acc_queue a)) =
          reported a (concat (puts_on (acc_queue a) <$> gs))) as ->.
  { apply Zsum_perm. by rewrite (inv_queue _ _ _ _ _ _ Hinv (acc_queue a)). }
  apply settled_total. apply Forall_lookup. intros i g Hg.
  destruct (parties_settled _ _ _ _ _ Hinv Hok Hg) as [Hset _].
  by apply (proj1 (Forall_forall _ _) Hset).
Qed.

Lemma keys_puts_on q g : key_of <$> puts_on q g = keys_on q (report_of <$> puts g).
Proof.
  unfold puts_on, keys_on. induction (puts g) as [|[q' m] l IH]; [done|]. csimpl.
  destruct (Nat.eqb q' q); csimpl; by rewrite IH.
Qed.

Lemma due_at_most q gs reports :
  Forall2 (fun g r => report_of <$> puts g = r ∨ puts g = []) gs reports →
  (length (concat (puts_on q <$> gs)) ≤ length (due q reports))%nat.
Proof.
  unfold due. induction 1 as [|g r gs reports Hg _ IH]; [done|]. csimpl.
  rewrite !length_app.
  assert (length (puts_on q g) ≤ length (keys_on q r))%nat; [|lia].
  rewrite <-(length_fmap key_of (puts_on q g)), keys_puts_on.
  destruct Hg as [-> | ->]; [done|apply Nat.le_0_l].
Qed.

Lemma due_exactly q gs reports :
  Forall2 (fun g r => report_of <$> puts g = r) gs reports →
  key_of <$> concat (puts_on q <$> gs) = due q reports.
Proof.
  unfold due. induction 1 as [|g r gs reports Hg _ IH]; [done|]. csimpl.
  by rewrite fmap_app, keys_puts_on, Hg, IH.
Qed.

Lemma due_insert q reports j r :
  reports !! j = Some r →
  length (due q reports) = (length (due q (<[j := []]> reports)) + length (keys_on q r))%nat.
Proof.
  unfold due. revert j. induction reports as [|r' rs IH]; intros [|j] Hj; simplify_eq/=;
    rewrite !length_app; [lia|]. rewrite (IH j Hj). lia.
Qed.

Lemma ledgers_length (ps : list process) (gs : list ledger) :
  length gs = length ps → length ps = length bench_workers → length gs = length bench_reports.
Proof. intros -> ->. by rewrite bench_length. Qed.

Lemma steps_length s s' : steps s s' → length s'.2 = length s.2.
Proof.
  induction 1 as [|s1 s2 s3 _ IH Hst]; [done|]. rewrite <-IH.
  destruct Hst. simpl. apply length_insert.
Qed.

Lemma ended_ledgers σ ps gs i g :
  pool_ok σ ps gs → all_ended ps → gs !! i = Some g →
  (ps !! i = Some (Ret (Ok ())) ∧ report_of <$> puts g = default [] (bench_reports !! i)) ∨
  (∃ e, ps !! i = Some (Ret (Err e)) ∧ puts g = []).
Proof.
  intros Hinv Hend Hg.
  assert (∃ p, ps !! i = Some p) as [p Hp].
  { apply lookup_lt_is_Some_2. rewrite <-(inv_length _ _ _ _ _ _ Hinv).
    by eapply lookup_lt_Some. }
  destruct (proj1 (Forall_lookup _ _) Hend i p Hp) as [r ->]; destruct r as [u|e]; [destruct u|];
    pose proof (inv_safe _ _ _ _ _ _ Hinv _ _ _ Hp Hg) as Hf; simpl in Hf; naive_solver.
Qed.

(** When the parties have completed, each result queue holds the messages
    that were due. *)
Lemma reports_complete σ ps q :
  reachable (σ, ps) → parties_ok bench_parties ps → key_of <$> queue σ q ≡ₚ due q bench_reports.
Proof.
  intros Hr Hok. destruct (reachable_inv _ _ Hr) as [gs Hinv].
  rewrite (inv_queue _ _ _ _ _ _ Hinv q).
  erewrite due_exactly; [done|]. apply Forall2_same_length_lookup_2.
  { apply (ledgers_length ps); [apply (inv_length _ _ _ _ _ _ Hinv)|].
    apply (steps_length _ _ Hr). }
  intros i g r Hg Hri. destruct (parties_settled _ _ _ _ _ Hinv Hok Hg) as [_ ->].
  by rewrite Hri.
Qed.

(** A worker that raised leaves its reports missing for good. *)
Lemma reports_missing σ ps q j e r :
  reachable (σ, ps) → all_ended ps → ps !! j = Some (Ret (Err e)) →
  bench_reports !! j = Some r →
  (length (queue σ q) + length (keys_on q r) ≤ length (due q bench_reports))%nat.
Proof.
  intros Hr Hend Hj Hrj. destruct (reachable_inv _ _ Hr) as [gs Hinv].
  rewrite (Permutation_length (inv_queue _ _ _ _ _ _ Hinv q)), (due_insert _ _ _ _ Hrj).
  apply Nat.add_le_mono_r, due_at_most, Forall2_same_length_lookup_2.
  { rewrite length_insert. apply (ledgers_length ps); [apply (inv_length _ _ _ _ _ _ Hinv)|].
    apply (steps_length _ _ Hr). }
  intros i g r' Hg Hri.
  destruct (ended_ledgers _ _ _ _ _ Hinv Hend Hg) as [[Hp Hputs]|(e' & _ & ?)]; [|by right].
  left. rewrite Hputs, <-(list_lookup_insert_ne _ j i []), Hri; [done|]. congruence.
Qed.
End guarantees.

(** ** Checking a worker *)

(** The SQL text every worker is given. *)
Definition set_broker_sql (sql_literal : string → string) (broker_uri : string) : string :=
  "SET blazingmq.broker_uri = " +:+ sql_literal broker_uri.

(** [ARRAY['Sequence Number','Trade Id']] *)
Definition attr_array_sql : string := "ARRAY['Sequence Number','Trade Id']".

(** The pacing at the end of a producer's iteration:
    [if rate_limit > 0: target_elapsed = local / (rate_limit / producers); ...] *)
Definition pace (target : Py float) (worker_start : float) : Py unit :=
  target_elapsed <- target;;
  now <- perf_counter;;
  let actual_elapsed := fsub now worker_start in
  if flt actual_elapsed target_elapsed
  then sleep (fsub target_elapsed actual_elapsed)
  else ret ().

Section worker_rules.
Context (parties : nat) (timed : string → bool) (i : nat).
Abbreviation P := (client parties timed i).

Lemma safe_execute sql params Φ g :
  (timed sql = true → at_phase g = Running) → (∀ r, Φ r g) →
  safe P Φ (execute sql params) g.
Proof. intros H HΦ. simpl. auto. Qed.

Lemma safe_sleep x (Φ : result unit → ledger → Prop) g :
  (∀ r, Φ r g) → safe P Φ (sleep x) g.
Proof. intros H. unfold sleep. destruct (nonneg x); simpl; auto. Qed.

Lemma safe_retry_loop sql params m todo attempt Φ g :
  (timed sql = true → at_phase g = Running) → (∀ r, Φ r g) →
  safe P Φ (open_retry_loop sql params m todo attempt) g.
Proof.
  intros H HΦ. revert attempt. induction todo as [|todo IH]; intros attempt; [apply HΦ|].
  cbn [open_retry_loop]. unfold try_except. apply safe_bindp.
  apply safe_execute; [done|]. intros [u|e]; [apply HΦ|].
  destruct (is_rc100 e && _); [|apply HΦ].
  apply safe_bind. split; [done|]. split; [done|]. intros bits.
  apply safe_bind. apply safe_sleep. intros [u|e']; [apply IH|apply HΦ].
Qed.

Lemma safe_retry sql params m Φ g :
  (timed sql = true → at_phase g = Running) → (∀ r, Φ r g) →
  safe P Φ (execute_with_open_retry sql params m) g.
Proof. apply safe_retry_loop. Qed.

Lemma safe_fetch_int (Φ : result Z → ledger → Prop) g :
  (∀ r, Φ r g) → safe P Φ fetch_int g.
Proof.
  intros H. unfold fetch_int. apply safe_bind. split; [done|]. split; [done|].
  intros [[[|[] ?]|]|e]; simpl; apply H.
Qed.

Lemma safe_before d (Φ : result bool → ledger → Prop) g :
  (∀ b, Φ (Ok b) g) → safe P Φ (before d) g.
Proof. intros H. simpl. auto. Qed.

Lemma safe_fdiv x y (Φ : result float → ledger → Prop) g :
  (∀ r, Φ r g) → safe P Φ (fdiv x y) g.
Proof. intros H. unfold fdiv. destruct (is_zero y); simpl; auto. Qed.

Lemma safe_div_number n r (Φ : result float → ledger → Prop) g :
  (∀ r', Φ r' g) → safe P Φ (div_number n r) g.
Proof. intros H. destruct r as [d|x]; [|by apply safe_fdiv]. simpl. destruct (_ =? _); simpl; auto. Qed.

Lemma safe_pace target ws (Φ : result unit → ledger → Prop) g :
  (∀ Ψ, (∀ r, Ψ r g) → safe P Ψ target g) → (∀ r, Φ r g) →
  safe P Φ (pace target ws) g.
Proof.
  intros Ht H. unfold pace. apply safe_bind, Ht. intros [t|e]; [|apply H].
  apply safe_bind. simpl. split; [done|]. split; [done|]. intros now.
  destruct (flt _ _); [|apply H]. by apply safe_sleep.
Qed.

(** A locked update adds exactly [n] to the counter, and to nothing else. *)
Lemma safe_counter_add l n (Φ : result unit → ledger → Prop) g :
  holding g = None →
  (∀ g', wrap64 (added g' l) = wrap64 (added g l + n) →
         (∀ l', l' ≠ l → added g' l' = added g l') →
         holding g' = None → at_phase g' = at_phase g → puts g' = puts g →
         Φ (Ok ()) g') →
  safe P Φ (counter_add l n) g.
Proof.
  intros Hh HΦ. unfold counter_add. simpl. safe_cmd. safe_cmd.
  split; [exists x; split; [done|apply wrap64_small; pose proof (wrap64_range (x + n)); lia]|].
  split; [done|]. intros []. safe_cmd. apply HΦ; simpl; [|intros l' Hne; by rewrite upd_ne|done..].
  rewrite upd_eq. rewrite <-(wrap64_cancel x (added g l + n)).
  replace (added g l + wrap64 (x + n) - x) with (wrap64 (x + n) + (added g l - x)) by lia.
  rewrite wrap64_add_l. rewrite wrap64_cancel. f_equal. lia.
Qed.

Lemma safe_counter_value l (Φ : result Z → ledger → Prop) g :
  holding g = None →
  (∀ v, Φ (Ok v) (hold g None)) →
  safe P Φ (counter_value l) g.
Proof.
  intros Hh HΦ. unfold counter_value. simpl. do 3 safe_cmd. apply HΦ.
Qed.

Lemma safe_barrier_wait (Φ : result unit → ledger → Prop) g :
  (i < parties)%nat → at_phase g = Setup → Φ (Ok ()) (enter g Running) →
  safe P Φ barrier_wait g.
Proof. intros Hi Hs HΦ. simpl. repeat safe_cmd. done. Qed.

Lemma safe_put q m (Φ : result unit → ledger → Prop) g :
  (Φ (Ok ()) (Ledger (added g) (holding g) (at_phase g) (puts g ++ [(q, m)]))) →
  safe P Φ (call (QueuePut q m)) g.
Proof. intros H. simpl. safe_cmd. done. Qed.
End worker_rules.

(** ** Loops that count *)

(** Between iterations of a timed loop that has counted [n] so far, a worker
    is past the barrier, holds no lock, has added [n] (modulo the width) to
    its own counter only, and has reported nothing yet. *)
Definition tally (counter : nat) (n : Z) (g : ledger) : Prop :=
  holding g = None ∧ at_phase g = Running ∧ wrap64 (added g counter) = wrap64 n ∧
  (∀ l, l ≠ counter → added g l = 0) ∧ puts g = [].

Lemma tally_start counter : tally counter 0 (enter ledger0 Running).
Proof. done. Qed.

Section tally_rules.
Context (parties : nat) (timed : string → bool) (i : nat).
Abbreviation P := (client parties timed i).

Lemma tally_add counter n m (Φ : result unit → ledger → Prop) g :
  tally counter n g → (∀ g', tally counter (n + m) g' → Φ (Ok ()) g') →
  safe P Φ (counter_add counter m) g.
Proof.
  intros (Hh & Hp & Hw & Ho & Hputs) HΦ. apply safe_counter_add; [done|].
  intros g' Hw' Ho' Hh' Hp' Hputs'. apply HΦ. split; [done|]. split; [congruence|].
  split; [rewrite Hw'; by apply wrap64_add_congr|]. split; [|congruence].
  intros l Hl. rewrite Ho' by done. auto.
Qed.

(** [while perf_counter() < deadline: ...], whose locals hold the count. *)
Lemma safe_timed_loop {S} (count : S → Z) counter fuel deadline (body : S → Py S) Φ n g :
  tally counter (count n) g →
  (∀ n g Ψ, tally counter (count n) g → (∀ e g', puts g' = [] → Ψ (Err e) g') →
     (∀ n' g', tally counter (count n') g' → Ψ (Ok n') g') → safe P Ψ (body n) g) →
  (∀ e g', puts g' = [] → Φ (Err e) g') →
  (∀ n g', tally counter (count n) g' → Φ (Ok n) g') →
  safe P Φ (while_ fuel (fun _ => before deadline) body n) g.
Proof.
  intros Ht Hbody He HΦ. apply (safe_while _ _ (fun s => tally counter (count s))); [done|].
  intros m g' Hm. apply safe_before. intros [].
  - apply Hbody; [done|auto..].
  - by apply HΦ.
Qed.
End tally_rules.

Definition int_of (m : qmsg) : Z := match m with QInt n => n | _ => 0 end.

(** [sum(q.get() for _ in range(n))]: [None] when the queue runs dry, since
    [get] then waits for ever. *)
Definition sum_get (n : Z) (amount : qmsg → Z) (msgs : list qmsg) : option Z :=
  if (Z.to_nat n <=? length msgs)%nat
  then Some (Zsum (amount <$> take (Z.to_nat n) msgs))
  else None.

Lemma sum_get_all n amount msgs :
  length msgs = Z.to_nat n → sum_get n amount msgs = Some (Zsum (amount <$> msgs)).
Proof.
  intros H. unfold sum_get. rewrite <-H, Nat.leb_refl. by rewrite take_ge.
Qed.

Lemma sum_get_short n amount msgs :
  (length msgs < Z.to_nat n)%nat → sum_get n amount msgs = None.
Proof. intros H. unfold sum_get. by rewrite (proj2 (Nat.leb_gt _ _) H). Qed.

Lemma foldl_snoc {A} (l acc : list A) : foldl (fun acc x => acc ++ [x]) acc l = acc ++ l.
Proof. revert acc. induction l as [|x l IH]; intros acc; simpl; [by rewrite app_nil_r|]. by rewrite IH, <-app_assoc. Qed.

Lemma foldl_sum {A} (amount : A → Z) (msgs : list A) x :
  foldl (fun total m => total + amount m) x msgs = x + Zsum (amount <$> msgs).
Proof. revert x. induction msgs as [|m msgs IH]; intros x; csimpl; [lia|]. rewrite IH. lia. Qed.

Lemma due_app q r1 r2 : due q (r1 ++ r2) = due q r1 ++ due q r2.
Proof. unfold due. by rewrite fmap_app, concat_app. Qed.

Lemma due_fmap {A} q q' (f : A → key) l :
  due q ((fun x => [(q', f x)]) <$> l) = if (q' =? q)%nat then f <$> l else [].
Proof.
  unfold due. induction l as [|x l IH]; csimpl; [by destruct (q' =? q)%nat|].
  rewrite IH. unfold keys_on. csimpl. by destruct (q' =? q)%nat.
Qed.
