(* ===== verification/System.v ===== *)
(** * The main program over its worker processes

    [main] of the multiprocessing benchmarks as a program of its own
    ([mainp]): it starts processes, joins them, takes results off the queues
    and makes calls that concern nobody else.  [sstep] runs it together with
    the processes it has started so far (Pool.v), one call of anyone at a
    time.  [mwp] reasons about it: what holds if [main] returns, whatever the
    interleaving, and that it is not left waiting once the processes have
    stopped. *)
From S2P Require Import Prelude PyFloat PyStr PyM Pool Workers.

(** ** Main programs *)

Inductive mainp (A : Type) : Type :=
| MRet (a : A)
| MDo (c : cmd) (k : reply c → mainp A)
| MStart (p : process) (k : nat → mainp A)     (* Process(target=...).start() *)
| MJoin (i : nat) (k : mainp A)                (* p.join() *)
| MGet (q : nat) (k : qmsg → mainp A)          (* q.get() *)
| MSamples (k : list sample → mainp A)         (* iterating over samples *)
| MValue (l : nat) (k : Z → mainp A).          (* counter.value *)
Arguments MRet {A} a.
Arguments MDo {A} c k.
Arguments MStart {A} p k.
Arguments MJoin {A} i k.
Arguments MGet {A} q k.
Arguments MSamples {A} k.
Arguments MValue {A} l k.

Fixpoint mbindp {A B} (m : mainp A) (f : A → mainp B) : mainp B :=
  match m with
  | MRet a => f a
  | MDo c k => MDo c (fun x => mbindp (k x) f)
  | MStart p k => MStart p (fun i => mbindp (k i) f)
  | MJoin i k => MJoin i (mbindp k f)
  | MGet q k => MGet q (fun m => mbindp (k m) f)
  | MSamples k => MSamples (fun l => mbindp (k l) f)
  | MValue l k => MValue l (fun v => mbindp (k v) f)
  end.

(** Like [Py], a main program returns a value or raises. *)
Definition Main (A : Type) : Type := mainp (result A).

Definition mret {A} (a : A) : Main A := MRet (Ok a).
Definition mraise {A} (e : exn) : Main A := MRet (Err e).
Definition mlift {A} (r : result A) : Main A := MRet r.

Definition mbind {A B} (m : Main A) (f : A → Main B) : Main B :=
  mbindp m (fun r => match r with Ok a => f a | Err e => MRet (Err e) end).

Notation "x <~ m ;; k" := (mbind m (fun x => k))
  (at level 100, m at next level, right associativity) : py_scope.

Definition mcall (c : cmd) : Main (reply c) := MDo c (fun x => mret x).
Definition mprint (line : list frag) : Main unit := mcall (Print false line).
Definition mstart (p : process) : Main nat := MStart p mret.
Definition mjoin (i : nat) : Main unit := MJoin i (mret ()).
Definition mget (q : nat) : Main qmsg := MGet q mret.
Definition msamples : Main (list sample) := MSamples mret.
Definition mvalue (l : nat) : Main Z := MValue l mret.

(** [for x in l: body(x)] *)
Fixpoint mfor {A} (l : list A) (body : A → Main unit) : Main unit :=
  match l with
  | [] => mret ()
  | x :: l' => _ <~ body x;; mfor l' body
  end.

(** [for x in l: p = mp.Process(target=f, args=(x,)); p.start(); procs.append(p)] *)
Fixpoint start_each {A} (f : A → process) (l : list A) (procs : list nat) : Main (list nat) :=
  match l with
  | [] => mret procs
  | x :: l' => p <~ mstart (f x);; start_each f l' (procs ++ [p])
  end.

(** [for _ in range(n): acc = f(acc, q.get())] *)
Fixpoint get_each {S} (q : nat) (f : S → qmsg → S) (n : nat) (acc : S) : Main S :=
  match n with
  | O => mret acc
  | Datatypes.S n' => m <~ mget q;; get_each q f n' (f acc m)
  end.

(** What main of the three timed benchmarks does with its processes: starts
    the producers, the consumers and the monitor, joins them all. *)
Definition run_fleet (run_producer run_consumer : Z → process) (producers consumers : Z)
    (monitor : process) : Main unit :=
  procs <~ start_each run_producer (range 0 producers) [];;
  procs <~ start_each run_consumer (range 0 consumers) procs;;
  mon <~ mstart monitor;;
  _ <~ mfor procs mjoin;;
  mjoin mon.

(** [sum(q.get() for _ in range(n))] *)
Definition sum_gets (q : nat) (n : Z) : Main Z :=
  get_each q (fun total m => total + int_of m) (Z.to_nat n) 0.

(** ** Running it *)

(** What main shares with the processes: the processes it has started, as
    they were when started and as they are; the shared objects; how many
    messages it has taken off each queue ([queue] keeps them all); the calls
    it has made. *)
Record sys := Sys {
  started : list process;
  pool : list process;
  shm : shared;
  taken : nat → nat;
  calls : trace;
}.

Definition sys0 (n : nat) : sys := Sys [] [] (init_shared n) (fun _ => 0%nat) [].

Definition with_pool (s : sys) σ ps := Sys (started s) ps σ (taken s) (calls s).
Definition with_start (s : sys) p := Sys (started s ++ [p]) (pool s ++ [p]) (shm s) (taken s) (calls s).
Definition with_taken (s : sys) t := Sys (started s) (pool s) (shm s) t (calls s).
Definition with_call (s : sys) e := Sys (started s) (pool s) (shm s) (taken s) (calls s ++ [e]).

(** The calls that concern main only. *)
Definition own_call (c : cmd) : bool :=
  match c with PerfCounter | Print _ _ => true | _ => false end.

Inductive sstep {A} : mainp A * sys → mainp A * sys → Prop :=
| s_worker m s σ' ps' :
    step (shm s, pool s) (σ', ps') → sstep (m, s) (m, with_pool s σ' ps')
| s_do c k x s : own_call c = true → sstep (MDo c k, s) (k x, with_call s (Ev c x))
| s_start p k s : sstep (MStart p k, s) (k (length (pool s)), with_start s p)
| s_join i r k s : pool s !! i = Some (Ret r) → sstep (MJoin i k, s) (k, s)
| s_get q m k s :
    queue (shm s) q !! taken s q = Some m →
    sstep (MGet q k, s) (k m, with_taken s (upd (taken s) q (S (taken s q))))
| s_samples k s : sstep (MSamples k, s) (k (samples (shm s)), s)
| s_value l k s : holder (shm s) l = None → sstep (MValue l k, s) (k (value (shm s) l), s).

Definition srun {A} : mainp A * sys → mainp A * sys → Prop := rtc sstep.

(** ** Executing a schedule *)

(** Whose turn it is, with the outside world's answer to the call. *)
Inductive move :=
| MainMoves (a : answer)
| WorkerMoves (i : nat) (a : answer).

Definition main_fn {A} (m : mainp A) (s : sys) (a : answer) : option (mainp A * sys) :=
  match m with
  | MRet _ => None
  | MDo c k =>
      if own_call c then x ← decode c a; Some (k x, with_call s (Ev c x)) else None
  | MStart p k => Some (k (length (pool s)), with_start s p)
  | MJoin i k => match pool s !! i with Some (Ret _) => Some (k, s) | _ => None end
  | MGet q k =>
      x ← queue (shm s) q !! taken s q;
      Some (k x, with_taken s (upd (taken s) q (S (taken s q))))
  | MSamples k => Some (k (samples (shm s)), s)
  | MValue l k =>
      match holder (shm s) l with None => Some (k (value (shm s) l), s) | Some _ => None end
  end.

Definition move_fn {A} (c : mainp A * sys) (mv : move) : option (mainp A * sys) :=
  match mv with
  | MainMoves a => main_fn c.1 c.2 a
  | WorkerMoves i a =>
      '(σ', ps') ← step_fn (shm c.2, pool c.2) (i, a); Some (c.1, with_pool c.2 σ' ps')
  end.

Fixpoint run_moves {A} (c : mainp A * sys) (mvs : list move) : option (mainp A * sys) :=
  match mvs with
  | [] => Some c
  | mv :: mvs' => match move_fn c mv with Some c' => run_moves c' mvs' | None => None end
  end.

Lemma move_fn_sound {A} (c c' : mainp A * sys) mv : move_fn c mv = Some c' → sstep c c'.
Proof.
  destruct c as [m s], mv as [a|i a]; simpl.
  - destruct m as [r|c k|p k|i k|q k|k|l k]; simpl; intros H; try done.
    + destruct (own_call c) eqn:E; [|done]. apply bind_Some in H as (x & _ & [= <-]). by constructor.
    + injection H as <-. constructor.
    + destruct (pool s !! i) as [[r| |]|] eqn:E; try done. injection H as <-. by econstructor.
    + apply bind_Some in H as (x & Hx & [= <-]). by constructor.
    + injection H as <-. constructor.
    + destruct (holder (shm s) l) eqn:E; [done|]. injection H as <-. by constructor.
  - intros ([σ' ps'] & Hst%step_fn_sound & [= <-])%bind_Some. by constructor.
Qed.

Lemma run_moves_sound {A} (c c' : mainp A * sys) mvs : run_moves c mvs = Some c' → srun c c'.
Proof.
  revert c. induction mvs as [|mv mvs IH]; intros c; simpl; [intros [= ->]; apply rtc_refl|].
  destruct (move_fn c mv) as [c1|] eqn:E; [|done]. intros H.
  eapply rtc_l; [by eapply move_fn_sound|by apply IH].
Qed.

(** The end of a run that goes through. *)
Definition outcome {A} (c : mainp A * sys) (mvs : list move) : mainp A * sys := default c (run_moves c mvs).

Definition goes_through {A} (c : mainp A * sys) (mvs : list move) : bool :=
  match run_moves c mvs with Some _ => true | None => false end.

Lemma outcome_run {A} (c : mainp A * sys) mvs : goes_through c mvs = true → srun c (outcome c mvs).
Proof.
  unfold goes_through, outcome. destruct (run_moves c mvs) as [c'|] eqn:E; [|done].
  intros _. by eapply run_moves_sound.
Qed.

Definition returned {A} (m : mainp A) : option A := match m with MRet a => Some a | _ => None end.

Lemma outcome_returned {A} (c : mainp A * sys) mvs r :
  goes_through c mvs = true → returned (outcome c mvs).1 = Some r → srun c (MRet r, (outcome c mvs).2).
Proof.
  intros H%outcome_run Hr. destruct (outcome c mvs) as [m s]. simpl in *.
  destruct m; try done. by injection Hr as ->.
Qed.

(** ** The started processes are a pool *)

Definition pooled (n : nat) (s : sys) : Prop :=
  steps (init_shared n, started s) (shm s, pool s).

Lemma step_app σ ps σ' ps' p : step (σ, ps) (σ', ps') → step (σ, ps ++ [p]) (σ', ps' ++ [p]).
Proof.
  intros Hs. inversion Hs; subst. rewrite <-insert_app_l by (by eapply lookup_lt_Some).
  eapply step_do; [|done]. by apply lookup_app_l_Some.
Qed.

Lemma steps_app s s' p : steps s s' → steps (s.1, s.2 ++ [p]) (s'.1, s'.2 ++ [p]).
Proof.
  induction 1 as [s|s1 s2 s3 _ IH Hst]; [constructor|].
  eapply steps_step; [done|]. destruct s2, s3. by apply step_app.
Qed.

Lemma pooled_start n s p : pooled n s → pooled n (with_start s p).
Proof. apply (steps_app (init_shared n, started s) (shm s, pool s)). Qed.

Lemma pooled_worker n s σ' ps' :
  pooled n s → step (shm s, pool s) (σ', ps') → pooled n (with_pool s σ' ps').
Proof. intros. by eapply steps_step. Qed.

Lemma pooled_run {A} n (m m' : mainp A) s s' : pooled n s → srun (m, s) (m', s') → pooled n s'.
Proof.
  intros H Hr. remember (m, s) as c eqn:Ec. remember (m', s') as c' eqn:Ec'.
  revert m s H Ec. induction Hr as [|c1 [m2 s2] c3 Hst Hr IH]; intros m s H ->; [by simplify_eq|].
  apply (IH Ec' m2 s2); [|done].
  inversion Hst; subst; try done; [by apply pooled_worker|by apply pooled_start].
Qed.

(** A process that has ended stays as it is, whatever anyone does. *)
Lemma run_ended {A} (m m' : mainp A) s s' j r :
  srun (m, s) (m', s') → pool s !! j = Some (Ret r) → pool s' !! j = Some (Ret r).
Proof.
  intros Hr. remember (m, s) as c eqn:Ec. remember (m', s') as c' eqn:Ec'.
  revert m s Ec. induction Hr as [|c1 [m2 s2] c3 Hst Hr IH]; intros m s -> Hj; [by simplify_eq|].
  apply (IH Ec' m2 s2); [done|].
  inversion Hst as [? ? ? ? Hw| | | | | |]; subst; try done; simpl.
  - inversion Hw; subst. rewrite list_lookup_insert_ne; [done|]. intros ->. congruence.
  - by apply lookup_app_l_Some.
Qed.

Lemma pooled_length n s : pooled n s → length (pool s) = length (started s).
Proof. apply (steps_length (init_shared n, started s) (shm s, pool s)). Qed.

(** What the processes do while main waits. *)
Inductive wstep : sys → sys → Prop :=
| w_step s σ' ps' : step (shm s, pool s) (σ', ps') → wstep s (with_pool s σ' ps').

Lemma pooled_worked n s s' : pooled n s → rtc wstep s s' → pooled n s'.
Proof. intros H Hs. induction Hs as [|s1 s2 s3 [] _ IH]; [done|]. by apply IH, pooled_worker. Qed.

Lemma worked_frame s s' :
  rtc wstep s s' → started s' = started s ∧ taken s' = taken s ∧ calls s' = calls s.
Proof. induction 1 as [|s1 s2 s3 [] _ IH]; done. Qed.

(** A process that has ended stays as it is. *)
Lemma worked_ended s s' i r :
  rtc wstep s s' → pool s !! i = Some (Ret r) → pool s' !! i = Some (Ret r).
Proof.
  induction 1 as [|s1 s2 s3 [s σ' ps' Hst] _ IH]; [done|]. intros Hi. apply IH. simpl.
  inversion Hst; subst. rewrite list_lookup_insert_ne; [done|]. intros ->. congruence.
Qed.

(** Once all have ended, nothing moves. *)
Lemma worked_all_ended s s' : all_ended (pool s) → rtc wstep s s' → s' = s.
Proof.
  intros Hend Hs. destruct Hs as [|s1 s2 s3 [s σ' ps' Hst] _]; [done|]. exfalso.
  inversion Hst as [i c k x ? ? ? Hp]; subst.
  by destruct (proj1 (Forall_lookup _ _) Hend i _ Hp) as [r ?].
Qed.

(** ** Reasoning about main *)

Section mwp.
(** [quiet s]: the processes have stopped and main should not be waiting. *)
Context (quiet : config → Prop).

(** At every call of [m] from [s] on: if the processes are quiet, the call
    can be made; and where [m] returns [a], [Φ a] holds. *)
Fixpoint mwp {A} (m : mainp A) (Φ : A → sys → Prop) (s : sys) : Prop :=
  ∀ s', rtc wstep s s' →
  match m with
  | MRet a => Φ a s'
  | MDo c k => own_call c = true ∧ ∀ x, mwp (k x) Φ (with_call s' (Ev c x))
  | MStart p k => mwp (k (length (pool s'))) Φ (with_start s' p)
  | MJoin i k =>
      (quiet (shm s', pool s') → ∃ r, pool s' !! i = Some (Ret r)) ∧
      ∀ r, pool s' !! i = Some (Ret r) → mwp k Φ s'
  | MGet q k =>
      (quiet (shm s', pool s') → is_Some (queue (shm s') q !! taken s' q)) ∧
      ∀ m, queue (shm s') q !! taken s' q = Some m →
        mwp (k m) Φ (with_taken s' (upd (taken s') q (S (taken s' q))))
  | MSamples k => mwp (k (samples (shm s'))) Φ s'
  | MValue l k =>
      (quiet (shm s', pool s') → holder (shm s') l = None) ∧
      (holder (shm s') l = None → mwp (k (value (shm s') l)) Φ s')
  end.

Lemma mwp_worked {A} (m : mainp A) Φ s s' : rtc wstep s s' → mwp m Φ s → mwp m Φ s'.
Proof. intros Hs H. destruct m; intros s'' Hs'; apply H; by etrans. Qed.

Lemma mwp_step {A} (m m' : mainp A) Φ s s' : mwp m Φ s → sstep (m, s) (m', s') → mwp m' Φ s'.
Proof.
  intros H Hst. inversion Hst; subst;
    first [apply (mwp_worked _ _ s); [|done]; apply rtc_once; by constructor
          |specialize (H s' (rtc_refl _ _))|idtac]; try by eapply H.
Qed.

Lemma mwp_run {A} (m m' : mainp A) Φ s s' : mwp m Φ s → srun (m, s) (m', s') → mwp m' Φ s'.
Proof.
  intros H Hr. remember (m, s) as c eqn:Ec. remember (m', s') as c' eqn:Ec'.
  revert m s m' s' H Ec Ec'. induction Hr as [|c1 [m2 s2] c3 Hst Hr IH];
    intros m s m' s' H -> E; [by simplify_eq|].
  eapply IH; [|done..]. by eapply mwp_step.
Qed.

(** If main has returned. *)
Lemma mwp_returned {A} (m : mainp A) a Φ s s' : mwp m Φ s → srun (m, s) (MRet a, s') → Φ a s'.
Proof. intros H Hr. by apply (mwp_run _ _ _ _ _ H Hr s' (rtc_refl _ _)). Qed.

(** If everyone has stopped. *)
Lemma mwp_stopped {A} (m m' : mainp A) Φ s s' :
  mwp m Φ s → srun (m, s) (m', s') → quiet (shm s', pool s') → (¬ ∃ c, sstep (m', s') c) → ∃ a, m' = MRet a.
Proof.
  intros H Hr Hq Hstop. pose proof (mwp_run _ _ _ _ _ H Hr) as Hw.
  destruct m' as [a|c k|p k|i k|q k|k|l k]; [by eexists|exfalso; apply Hstop..];
    specialize (Hw s' (rtc_refl _ _)).
  - destruct Hw as [Hc _].
    destruct c; try done; eexists; [by apply (s_do PerfCounter k fzero)|by apply (s_do (Print _ _) k ())].
  - eexists. apply s_start.
  - destruct Hw as [[r Hi]%(fun f => f Hq) _]. eexists. by eapply s_join.
  - destruct Hw as [[m0 Hm]%(fun f => f Hq) _]. eexists. by eapply s_get.
  - eexists. apply s_samples.
  - destruct Hw as [Hl%(fun f => f Hq) _]. eexists. by apply s_value.
Qed.

Lemma mwp_mono {A} (m : mainp A) (Φ Ψ : A → sys → Prop) s :
  (∀ a s', Φ a s' → Ψ a s') → mwp m Φ s → mwp m Ψ s.
Proof.
  intros HΦ. revert s.
  induction m as [a|c k IH|p k IH|i k IH|q k IH|k IH|l k IH]; intros s H s' Hs;
    specialize (H s' Hs); simpl in *; naive_solver.
Qed.

Abbreviation bound f Φ := (fun r s => match r with Ok a => mwp (f a) Φ s | Err e => mwp (mraise e) Φ s end).

Lemma mwp_bind {A B} (m : Main A) (f : A → Main B) Φ s :
  mwp (mbind m f) Φ s ↔ mwp m (bound f Φ) s.
Proof.
  unfold mbind. revert s.
  induction m as [[a|e]|c k IH|p k IH|i k IH|q k IH|k IH|l k IH]; intros s;
    (split; [intros H s' Hs|intros H]);
    try (by apply (H s (rtc_refl _ _)));
    try (by eapply mwp_worked);
    try intros s' Hs; specialize (H s' Hs); simpl in *; naive_solver.
Qed.

(** One after the other. *)
Lemma mwp_seq {A B C} (m : Main A) (f : A → Main B) (g : B → Main C) Φ s :
  mwp (y <~ (x <~ m;; f x);; g y) Φ s ↔ mwp (x <~ m;; y <~ f x;; g y) Φ s.
Proof.
  rewrite !mwp_bind. split; intros H; (eapply mwp_mono; [|apply H]);
    intros [a|e] s'; simpl; rewrite ?mwp_bind; auto.
  - intros H' s'' Hs''. by apply (H' s'' Hs'' s'').
  - intros H' s'' Hs'' s3 Hs3. apply H'. by etrans.
Qed.

(** ** Rules *)

Lemma mwp_mret {A B} (x : A) (f : A → Main B) Φ s : mwp (f x) Φ s → mwp (y <~ mret x;; f y) Φ s.
Proof. done. Qed.

(** While the processes run: which have been started and which joined, what
    main has called. *)
Record launched (n : nat) (ps : list process) (js : list nat) (tr : trace) (s : sys) : Prop := Launched {
  la_pooled : pooled n s;
  la_started : started s = ps;
  la_joined : ∀ i, i ∈ js → ∃ r, pool s !! i = Some (Ret r);
  la_calls : calls s = tr;
  la_taken : ∀ q, taken s q = 0%nat;
}.

Lemma launched_worked n ps js tr s s' :
  launched n ps js tr s → rtc wstep s s' → launched n ps js tr s'.
Proof.
  intros [Hp Hs Hj Hc Ht] Hw. destruct (worked_frame _ _ Hw) as (E1 & E2 & E3).
  split; [by eapply pooled_worked|congruence| |congruence|intros q; by rewrite E2].
  intros i [r Hr]%Hj. exists r. by eapply worked_ended.
Qed.

Lemma launched_sys0 n : launched n [] [] [] (sys0 n).
Proof. split; [constructor|done| |done..]. by intros i ?%elem_of_nil. Qed.

Lemma mwp_call {A} c (f : reply c → Main A) Φ n ps js tr s :
  own_call c = true → launched n ps js tr s →
  (∀ x s', launched n ps js (tr ++ [Ev c x]) s' → mwp (f x) Φ s') →
  mwp (x <~ mcall c;; f x) Φ s.
Proof.
  intros Hc Hl H s' Hs. split; [done|]. intros x. apply H.
  destruct (launched_worked _ _ _ _ _ _ Hl Hs) as [Hp Hst Hj Hcl Ht]. split; [done..| |done].
  simpl. by rewrite Hcl.
Qed.

Lemma mwp_start {A} p (f : nat → Main A) Φ n ps tr s :
  launched n ps [] tr s →
  (∀ s', launched n (ps ++ [p]) [] tr s' → mwp (f (length ps)) Φ s') →
  mwp (i <~ mstart p;; f i) Φ s.
Proof.
  intros Hl H s' Hs. destruct (launched_worked _ _ _ _ _ _ Hl Hs) as [Hp Hst Hj Hcl Ht].
  rewrite (pooled_length _ _ Hp), Hst. apply H.
  split; [by apply pooled_start|simpl; by rewrite Hst| |done|done].
  by intros i ?%elem_of_nil.
Qed.

Lemma mwp_start_each {A B} (f : A → process) l procs (g : list nat → Main B) Φ n ps tr s :
  launched n ps [] tr s →
  (∀ s', launched n (ps ++ (f <$> l)) [] tr s' →
     mwp (g (procs ++ seq (length ps) (length l))) Φ s') →
  mwp (procs' <~ start_each f l procs;; g procs') Φ s.
Proof.
  revert procs ps s. induction l as [|x l IH]; intros procs ps s Hl H.
  - apply mwp_bind. intros s' Hs. simpl in H. rewrite !app_nil_r in H. apply H.
    by eapply launched_worked.
  - cbn [start_each]. apply mwp_seq, (mwp_start _ _ _ n ps tr); [done|]. intros s1 H1.
    apply (IH _ (ps ++ [f x])); [done|]. intros s2. rewrite length_app. simpl.
    rewrite <-!app_assoc, Nat.add_1_r. apply H.
Qed.

(** The joins, under the promise that a quiet pool has ended. *)
Section joins.
Context (n : nat) (ps : list process) (tr : trace).
Context (Hquiet : ∀ js s, launched n ps js tr s → quiet (shm s, pool s) → all_ended (pool s)).

Lemma mwp_join {B} i (m : Main B) Φ js s :
  (i < length ps)%nat → launched n ps js tr s →
  (∀ s', launched n ps (i :: js) tr s' → mwp m Φ s') →
  mwp (_ <~ mjoin i;; m) Φ s.
Proof using Hquiet.
  intros Hi Hl H s1 H1. pose proof (launched_worked _ _ _ _ _ _ Hl H1) as Hl1. split.
  - intros Hqs. assert (is_Some (pool s1 !! i)) as [p Hp].
    { apply lookup_lt_is_Some_2. rewrite (pooled_length _ _ (la_pooled _ _ _ _ _ Hl1)).
      by rewrite (la_started _ _ _ _ _ Hl1). }
    destruct (proj1 (Forall_lookup _ _) (Hquiet _ _ Hl1 Hqs) i p Hp) as [r ->]. by exists r.
  - intros r Hr. apply H. destruct Hl1 as [Hp Hst Hj Hcl Ht]. split; [done..| |done|done].
    intros j [-> | Hj']%elem_of_cons; [by exists r|auto].
Qed.

Lemma mwp_join_each {B} pids (m : Main B) Φ js s :
  (∀ i, i ∈ pids → (i < length ps)%nat) → launched n ps js tr s →
  (∀ s' js', launched n ps js' tr s' → (∀ i, i ∈ pids ∨ i ∈ js → i ∈ js') → mwp m Φ s') →
  mwp (_ <~ mfor pids mjoin;; m) Φ s.
Proof using Hquiet.
  revert s js. induction pids as [|i pids IH]; intros s js Hlt Hl H.
  - apply (H s js Hl). by intros i [?%elem_of_nil|].
  - cbn [mfor]. apply mwp_seq, (mwp_join i _ _ js);
      [apply Hlt; by left|done|].
    intros s' Hl'. apply (IH s' (i :: js)); [intros j Hj; apply Hlt; by right|done|].
    intros s2 js' Hl2 H2. apply (H s2 js' Hl2).
    intros j [[-> | Hj]%elem_of_cons|Hj]; apply H2; rewrite ?elem_of_cons; auto.
Qed.
End joins.

(** Once all have ended: nothing moves but main. *)
Record over (tr : trace) (σ : shared) (qs : list process) (s : sys) : Prop := Over {
  ov_ended : all_ended (pool s);
  ov_shm : shm s = σ;
  ov_pool : pool s = qs;
  ov_calls : calls s = tr;
}.

Lemma launched_over n ps js tr s :
  launched n ps js tr s → (∀ i, (i < length ps)%nat → i ∈ js) → over tr (shm s) (pool s) s.
Proof.
  intros [Hp Hst Hj Hcl Ht] H. split; [|done..]. apply Forall_lookup. intros i p Hi.
  destruct (Hj i) as [r Hr]; [apply H|exists r; apply (inj Some); etrans; [symmetry; exact Hi|exact Hr]].
  rewrite <-Hst, <-(pooled_length _ _ Hp).
  by eapply lookup_lt_Some.
Qed.

Lemma over_worked tr σ qs s s' : over tr σ qs s → rtc wstep s s' → s' = s.
Proof. intros [Hend _ _ _]. by apply worked_all_ended. Qed.

Lemma mwp_over_call {A} c (f : reply c → Main A) Φ tr σ qs s :
  own_call c = true → over tr σ qs s →
  (∀ x s', over (tr ++ [Ev c x]) σ qs s' → mwp (f x) Φ s') →
  mwp (x <~ mcall c;; f x) Φ s.
Proof.
  intros Hc Ho H s' Hs. rewrite (over_worked _ _ _ _ _ Ho Hs). split; [done|]. intros x.
  apply H. destruct Ho as [He Hσ Hp Hcl]. split; [done..|]. simpl. by rewrite Hcl.
Qed.

Lemma mwp_get {B} q (g : qmsg → Main B) Φ tr σ qs s :
  over tr σ qs s →
  (quiet (σ, qs) → is_Some (queue σ q !! taken s q)) →
  (∀ m s', queue σ q !! taken s q = Some m → over tr σ qs s' →
     taken s' = upd (taken s) q (S (taken s q)) → mwp (g m) Φ s') →
  mwp (m <~ mget q;; g m) Φ s.
Proof.
  intros Ho Hq H s' Hs'. rewrite (over_worked _ _ _ _ _ Ho Hs').
  destruct Ho as [He Hσ Hp Hc]. rewrite Hσ, Hp. split; [done|].
  intros m Hm. by apply (H m).
Qed.

(** Taking [n] results off queue [q]. *)
Lemma mwp_get_each {S B} q (f : S → qmsg → S) n acc (g : S → Main B) Φ tr σ qs s :
  over tr σ qs s →
  (quiet (σ, qs) → (taken s q + n ≤ length (queue σ q))%nat) →
  (∀ s', over tr σ qs s' → (∀ q', q' ≠ q → taken s' q' = taken s q') →
     (taken s q + n ≤ length (queue σ q))%nat →
     mwp (g (foldl f acc (take n (drop (taken s q) (queue σ q))))) Φ s') →
  (taken s q ≤ length (queue σ q))%nat →
  mwp (x <~ get_each q f n acc;; g x) Φ s.
Proof.
  revert acc s. induction n as [|n IH]; intros acc s Ho Hq H Hle.
  - cbn [get_each]. apply mwp_mret, (H s); [done..|lia].
  - cbn [get_each]. apply mwp_seq, (mwp_get q _ _ tr σ qs); [done| |].
    { intros Hqs%Hq. apply lookup_lt_is_Some_2. lia. }
    intros m s' Hm Ho' Ht. pose proof (lookup_lt_Some _ _ _ Hm) as Hlt.
    assert (taken s' q = Datatypes.S (taken s q)) as Htq by by rewrite Ht, upd_eq.
    apply IH; rewrite ?Htq; [done|intros Hqs%Hq; lia| |lia].
    intros s2 Ho2 Ht2 Hl2. specialize (H s2 Ho2).
    rewrite (drop_S _ _ _ Hm) in H. apply H; [|lia].
    intros q' Hne. by rewrite Ht2, Ht, upd_ne.
Qed.

(** Lines printed one by one. *)
Definition prints (lines : list (list frag)) : trace := (fun l => Ev (Print false l) ()) <$> lines.

Lemma prints_app l1 l2 : prints (l1 ++ l2) = prints l1 ++ prints l2.
Proof. apply fmap_app. Qed.

Lemma mwp_over_prints {A B} (l : list A) (line : A → list frag) (m : Main B) Φ tr σ qs s :
  over tr σ qs s →
  (∀ s', over (tr ++ prints (line <$> l)) σ qs s' → mwp m Φ s') →
  mwp (_ <~ mfor l (fun x => mprint (line x));; m) Φ s.
Proof.
  revert tr s. induction l as [|x l IH]; intros tr s Ho H.
  - apply mwp_mret, H. by rewrite app_nil_r.
  - cbn [mfor]. apply mwp_seq, (mwp_over_call (Print false (line x)) _ _ tr σ qs); [done..|].
    intros [] s' Ho'. apply (IH _ _ Ho'). intros s2. rewrite <-app_assoc. apply H.
Qed.

Lemma mwp_over_samples {B} (g : list sample → Main B) Φ tr σ qs s :
  over tr σ qs s → mwp (g (samples σ)) Φ s → mwp (l <~ msamples;; g l) Φ s.
Proof.
  intros Ho H s' Hs'. rewrite (over_worked _ _ _ _ _ Ho Hs'). by rewrite (ov_shm _ _ _ _ Ho).
Qed.

Lemma mwp_over_value {B} l (g : Z → Main B) Φ tr σ qs s :
  over tr σ qs s → (quiet (σ, qs) → holder σ l = None) → mwp (g (value σ l)) Φ s →
  mwp (v <~ mvalue l;; g v) Φ s.
Proof.
  intros Ho Hq H s' Hs'. rewrite (over_worked _ _ _ _ _ Ho Hs').
  destruct Ho as [He Hσ Hp Hc]. rewrite Hσ, Hp. auto.
Qed.
End mwp.
