(* ===== verification/Observe.v ===== *)
(** * What a trace shows

    Observations on the calls a worker makes (the counts it fetches, the
    statements that succeed, the clock readings), and the rules that compute
    them through the constructs the workers use. *)
From S2P Require Import Prelude PyFloat PyStr PyM OpenRetry Pool Workers.

(** The integer of [fetchone()[0]]. *)
Definition fetched_of (e : event) : list Z :=
  match e with
  | Ev c x =>
      match c return reply c → list Z with
      | Fetchone => fun r => match r with Ok (Some (VInt n :: _)) => [n] | _ => [] end
      | _ => fun _ => []
      end x
  end.

(** The statement, when it succeeded. *)
Definition succeeded_of (e : event) : list string :=
  match e with
  | Ev c x =>
      match c return reply c → list string with
      | Execute sql _ => fun r => match r with Ok _ => [sql] | Err _ => [] end
      | _ => fun _ => []
      end x
  end.

Definition clock_of (e : event) : list float :=
  match e with
  | Ev c x =>
      match c return reply c → list float with
      | PerfCounter => fun r => [r]
      | _ => fun _ => []
      end x
  end.

Definition fetched (t : trace) : list Z := t ≫= fetched_of.
Definition succeeded (t : trace) : list string := t ≫= succeeded_of.
Definition clocks (t : trace) : list float := t ≫= clock_of.

(** Readings below a deadline. *)
Definition below (deadline : float) (l : list float) : nat :=
  length (filter (fun x => flt x deadline = true) l).

Definition times (sql : string) (l : list string) : nat := length (filter (eq sql) l).

Lemma fetched_app t1 t2 : fetched (t1 ++ t2) = fetched t1 ++ fetched t2.
Proof. apply bind_app. Qed.
Lemma succeeded_app t1 t2 : succeeded (t1 ++ t2) = succeeded t1 ++ succeeded t2.
Proof. apply bind_app. Qed.
Lemma clocks_app t1 t2 : clocks (t1 ++ t2) = clocks t1 ++ clocks t2.
Proof. apply bind_app. Qed.
Lemma below_app d l1 l2 : below d (l1 ++ l2) = (below d l1 + below d l2)%nat.
Proof. unfold below. by rewrite filter_app, length_app. Qed.
Lemma times_app s l1 l2 : times s (l1 ++ l2) = (times s l1 + times s l2)%nat.
Proof. unfold times. by rewrite filter_app, length_app. Qed.

Lemma below_one d x : flt x d = true → below d [x] = 1%nat.
Proof. intros H. unfold below. by rewrite filter_cons_True. Qed.

Create Rewrite HintDb obs.
#[export] Hint Rewrite fetched_app succeeded_app clocks_app below_app times_app Zsum_app : obs.

(** ** Rules *)

(** The calls so far are [t0]: [after t0 p Φ]. *)
Definition after {A} (t0 : trace) (p : prog A) (Φ : trace → option A → Prop) : Prop :=
  wp p (fun t r => Φ (t0 ++ t) r).

Lemma after_start {A} (p : prog A) Φ : after [] p Φ → wp p Φ.
Proof. done. Qed.

Lemma after_do {A} t0 c (k : reply c → prog A) Φ :
  (∀ x, after (t0 ++ [Ev c x]) (k x) Φ) → after t0 (Do c k) Φ.
Proof.
  intros H x. specialize (H x). unfold after in H. eapply wp_mono; [|apply H].
  intros t r. simpl. by rewrite <-app_assoc.
Qed.

Lemma after_ret {A} t0 (a : A) (Φ : trace → option A → Prop) : Φ t0 (Some a) → after t0 (Ret a) Φ.
Proof. intros H. unfold after. simpl. by rewrite app_nil_r. Qed.

Lemma after_bindp {A B} t0 (m : prog A) (f : A → prog B) Φ :
  after t0 m (fun t r =>
    match r with Some a => after t (f a) Φ | None => Φ t None end) →
  after t0 (bindp m f) Φ.
Proof.
  unfold after. rewrite wp_bindp. apply wp_mono. intros t [a|]; [|done].
  apply wp_mono. intros t' r. by rewrite app_assoc.
Qed.

Lemma after_bind {A B} t0 (m : Py A) (f : A → Py B) Φ :
  after t0 m (fun t r =>
    match r with
    | Some (Ok a) => after t (f a) Φ
    | Some (Err e) => Φ t (Some (Err e))
    | None => Φ t None
    end) →
  after t0 (bind m f) Φ.
Proof.
  intros H. apply after_bindp. eapply wp_mono; [|apply H].
  intros t [[a|e]|]; [done| |done]. apply after_ret.
Qed.

Lemma after_mono {A} t0 (p : prog A) (Φ Ψ : trace → option A → Prop) :
  (∀ t r, Φ t r → Ψ t r) → after t0 p Φ → after t0 p Ψ.
Proof. intros H. apply wp_mono. auto. Qed.

Lemma after_exec {A} t0 (p : prog A) Φ :
  (∀ t r, exec p t r → Φ (t0 ++ t) r) → after t0 p Φ.
Proof. intros H. by apply wp_exec. Qed.

Lemma after_with_connection {A} t0 dsn (body : Py A) Φ :
  (∀ e, Φ (t0 ++ [Ev (Connect dsn) (Err e)]) (Some (Err e))) →
  after (t0 ++ [Ev (Connect dsn) (Ok ())]) body (fun t r =>
    match r with
    | Some r => Φ (t ++ [Ev CloseConn ()]) (Some r)
    | None => Φ t None
    end) →
  after t0 (with_connection dsn body) Φ.
Proof.
  intros He H. apply after_do. intros [[]|e]; [|by apply after_ret].
  apply after_bindp. eapply after_mono; [|apply H].
  intros t [r|]; [|done]. intros Hr. apply after_do. intros []. by apply after_ret.
Qed.

(** [I k t s]: after [k] iterations. *)
Lemma after_while {S} (I : nat → trace → S → Prop) Φ fuel cond (body : S → Py S) s k t0 :
  I k t0 s →
  (∀ k t s, I k t s → after t (cond s) (fun t r =>
     match r with
     | Some (Ok true) => after t (body s) (fun t r =>
         match r with
         | Some (Ok s') => I (Datatypes.S k) t s'
         | Some (Err e) => Φ t (Some (Err e))
         | None => Φ t None
         end)
     | Some (Ok false) => Φ t (Some (Ok s))
     | Some (Err e) => Φ t (Some (Err e))
     | None => Φ t None
     end)) →
  (∀ t s, I (k + fuel)%nat t s → Φ t None) →
  after t0 (while_ fuel cond body s) Φ.
Proof.
  intros HI Hbody. revert k s t0 HI. induction fuel as [|fuel IH]; intros k s t0 HI Hout.
  - unfold after. simpl. rewrite app_nil_r. apply (Hout _ s). by rewrite Nat.add_0_r.
  - cbn [while_]. apply after_bind. eapply after_mono; [|by apply (Hbody k)].
    intros t [[[]|e]|]; [|by intros; apply after_ret|done..].
    intros Hb. apply after_bind. eapply after_mono; [|apply Hb].
    intros t' [[s'|e]|]; [|done..]. intros HI'. apply (IH (Datatypes.S k)); [done|].
    intros t'' s''. rewrite Nat.add_succ_comm. apply Hout.
Qed.

(** A bounded retry fetches nothing, reads no clock, and on success has
    executed its statement exactly once with success. *)
Lemma retried_attempts_silent sql params attempt fails :
  fetched (retried_attempts sql params attempt fails) = [] ∧
  succeeded (retried_attempts sql params attempt fails) = [] ∧
  clocks (retried_attempts sql params attempt fails) = [].
Proof.
  revert attempt. induction fails as [|f fails IH]; intros attempt; [done|]. apply IH.
Qed.

Lemma after_retry t0 sql params m Φ :
  0 < m < 2 ^ 63 →
  (∀ t u, fetched t = fetched t0 → succeeded t = succeeded t0 ++ [sql] → clocks t = clocks t0 →
     Φ t (Some (Ok u))) →
  (∀ t e, fetched t = fetched t0 → succeeded t = succeeded t0 → clocks t = clocks t0 →
     Φ t (Some (Err e))) →
  after t0 (execute_with_open_retry sql params m) Φ.
Proof.
  intros Hm HO HE. apply after_exec. intros t r He.
  apply open_retry_loop_trace in He as (fails & final & -> & _ & _ & -> & _); [|lia..].
  destruct (retried_attempts_silent sql params 0 fails) as (Hf & Hs & Hc).
  destruct final as [u|e]; [apply HO|apply HE]; autorewrite with obs;
    rewrite ?Hf, ?Hs, ?Hc; cbn; by rewrite ?app_nil_r.
Qed.

(** ** Code that touches neither the database nor the fuel *)

Definition quiet_cmd (c : cmd) : bool :=
  match c with Fetchone | Execute _ _ => false | _ => true end.

Fixpoint quiet {A} (p : prog A) : Prop :=
  match p with
  | Ret _ => True
  | OutOfFuel => False
  | Do c k => quiet_cmd c = true ∧ ∀ x, quiet (k x)
  end.

Lemma quiet_bind {A B} (m : Py A) (f : A → Py B) :
  quiet m → (∀ a, quiet (f a)) → quiet (bind m f).
Proof.
  intros Hm Hf. induction m as [[a|e]| |c k IH]; simpl in *; [apply Hf|done|done|].
  destruct Hm as [Hc Hk]. split; [done|]. intros x. by apply IH.
Qed.

Lemma after_quiet {A} t0 (p : prog A) Φ :
  quiet p →
  (∀ t r, fetched t = fetched t0 → succeeded t = succeeded t0 →
     (∀ d, below d (clocks t0) ≤ below d (clocks t))%nat → Φ t (Some r)) →
  after t0 p Φ.
Proof.
  revert t0. induction p as [r| |c k IH]; intros t0 Hq HΦ; [by apply after_ret, HΦ|done|].
  destruct Hq as [Hc Hk]. apply after_do. intros x. apply IH; [done|].
  intros t r Hf Hs Hb. apply HΦ.
  - rewrite Hf, fetched_app. destruct c; try done; simpl; by rewrite app_nil_r.
  - rewrite Hs, succeeded_app. destruct c; try done; simpl; by rewrite app_nil_r.
  - intros d. specialize (Hb d). rewrite clocks_app, below_app in Hb. lia.
Qed.

Lemma quiet_counter_add l n : quiet (counter_add l n).
Proof. by repeat split. Qed.

Lemma quiet_barrier_wait : quiet barrier_wait.
Proof. by repeat split. Qed.

Lemma quiet_sleep x : quiet (sleep x).
Proof. unfold sleep. by destruct (nonneg x). Qed.

Lemma quiet_pace target ws : quiet target → quiet (pace target ws).
Proof.
  intros Ht. apply quiet_bind; [done|]. intros x. split; [done|]. intros now. simpl.
  destruct (flt _ _); [apply quiet_sleep|done].
Qed.

Lemma quiet_fdiv x y : quiet (fdiv x y).
Proof. unfold fdiv. by destruct (is_zero y). Qed.

Lemma quiet_div_number n r : quiet (div_number n r).
Proof. destruct r as [d|x]; [|apply quiet_fdiv]. simpl. by destruct (_ =? _). Qed.

Create HintDb quiet.
#[export] Hint Resolve quiet_bind quiet_counter_add quiet_barrier_wait quiet_sleep
  quiet_pace quiet_fdiv quiet_div_number : quiet.

(** One call, and what follows it if it does not raise. *)
Lemma after_execute {B} t0 sql params (f : unit → Py B) Φ :
  (∀ t, fetched t = fetched t0 → succeeded t = succeeded t0 ++ [sql] → clocks t = clocks t0 →
     after t (f ()) Φ) →
  (∀ t e, Φ t (Some (Err e))) →
  after t0 (bind (execute sql params) f) Φ.
Proof.
  intros Hf He. apply after_bind, after_do. intros [[]|e]; apply after_ret; [|apply He].
  apply Hf; autorewrite with obs; cbn; by rewrite ?app_nil_r.
Qed.

Lemma after_fetch_int {B} t0 (f : Z → Py B) Φ :
  (∀ t n, fetched t = fetched t0 ++ [n] → succeeded t = succeeded t0 → clocks t = clocks t0 →
     after t (f n) Φ) →
  (∀ t e, Φ t (Some (Err e))) →
  after t0 (bind fetch_int f) Φ.
Proof.
  intros Hf He. apply after_bind, after_bind, after_do.
  intros [[[|[|n|s|x|j] l]|]|e]; apply after_ret; try apply after_ret; try apply He.
  apply Hf; autorewrite with obs; cbn; by rewrite ?app_nil_r.
Qed.

(** The guard of a timed loop. *)
Lemma after_before t0 d (Φ : trace → option (result bool) → Prop) :
  (∀ t, fetched t = fetched t0 → succeeded t = succeeded t0 →
     (below d (clocks t) = S (below d (clocks t0)))%nat → Φ t (Some (Ok true))) →
  (∀ t, fetched t = fetched t0 → succeeded t = succeeded t0 → Φ t (Some (Ok false))) →
  after t0 (before d) Φ.
Proof.
  intros H1 H2. apply after_bind, after_do. intros now. apply after_ret, after_ret.
  destruct (flt now d) eqn:E; [apply H1|apply H2]; autorewrite with obs;
    try (cbn; by rewrite ?app_nil_r).
  simpl. rewrite below_one by done. lia.
Qed.

(** ** The monotonic clock *)

Definition monotonic_of (e : event) : list float :=
  match ev_cmd e as c return reply c → list float with
  | Monotonic => fun x => [x]
  | _ => fun _ => []
  end (ev_reply e).

Definition monotonics (t : trace) : list float := t ≫= monotonic_of.

Lemma monotonics_app t1 t2 : monotonics (t1 ++ t2) = monotonics t1 ++ monotonics t2.
Proof. apply bind_app. Qed.

(** Readings of the clock below a deadline. *)
Definition early (deadline : float) (t : trace) : nat :=
  length (filter (fun x => flt x deadline = true) (monotonics t)).

Lemma early_app d t1 t2 : early d (t1 ++ t2) = (early d t1 + early d t2)%nat.
Proof. unfold early, monotonics. by rewrite bind_app, filter_app, length_app. Qed.

(** ** Delivered rows *)

Definition rows_of (e : event) : list (list pval) :=
  match e with
  | Ev c x =>
      match c return reply c → list (list pval) with
      | Fetchall => fun r => match r with Ok rows => rows | Err _ => [] end
      | _ => fun _ => []
      end x
  end.

Definition delivered (t : trace) : list (list pval) := t ≫= rows_of.

Lemma delivered_app t1 t2 : delivered (t1 ++ t2) = delivered t1 ++ delivered t2.
Proof. apply bind_app. Qed.

(** ** Replaying replies *)

Fixpoint replay {A} (p : prog A) (l : list answer) : option (trace * option A) :=
  match p with
  | Ret a => match l with [] => Some ([], Some a) | _ => None end
  | OutOfFuel => match l with [] => Some ([], None) | _ => None end
  | Do c k =>
      match l with
      | [] => None
      | a :: l' =>
          match decode c a with
          | Some x =>
              match replay (k x) l' with
              | Some (t, r) => Some (Ev c x :: t, r)
              | None => None
              end
          | None => None
          end
      end
  end.

Lemma replay_exec {A} (p : prog A) l t r : replay p l = Some (t, r) → exec p t r.
Proof.
  revert l t. induction p as [a| |c k IH]; intros l t; simpl.
  - destruct l; [|done]. by intros [= <- <-].
  - destruct l; [|done]. by intros [= <- <-].
  - destruct l as [|a l]; [done|]. destruct (decode c a) as [x|]; [|done].
    destruct (replay (k x) l) as [[t' r']|] eqn:E; [|done].
    intros [= <- <-]. eauto.
Qed.

(** The trace, and the outcome, of a replay. *)
Definition replayed {A} (p : prog A) (l : list answer) : trace :=
  match replay p l with Some (t, _) => t | None => [] end.

Definition outcome {A} (p : prog A) (l : list answer) : option (option A) := snd <$> replay p l.

Lemma replayed_exec {A} (p : prog A) l r : outcome p l = Some r → exec p (replayed p l) r.
Proof.
  unfold outcome, replayed. destruct (replay p l) as [[t r']|] eqn:E; [|done].
  intros [= <-]. by apply replay_exec in E.
Qed.
