(* ===== verification/Histories.v ===== *)
(** * The history of a pool

    A run of the pool with its log: every call of every process, in the order
    in which they took effect.  The log says what each process has done so far
    ([calls_of]), and the queues and the barrier hold what the log put there.
    A process is checked on its own against its calls so far ([guarded]), and
    what was checked holds of the log of every interleaving. *)
From S2P Require Import Prelude PyFloat PyStr PyM OpenRetry Pool Workers Observe.

(** ** Logged runs *)

Abbreviation log := (list (nat * event)).

Inductive logged (s0 : config) : log → config → Prop :=
| logged_nil : logged s0 [] s0
| logged_snoc l i c (k : reply c → process) x σ σ' ps :
    logged s0 l (σ, ps) → ps !! i = Some (Do c k) → act i σ c x σ' →
    logged s0 (l ++ [(i, Ev c x)]) (σ', <[i := k x]> ps).

Definition call_of (j : nat) (ie : nat * event) : option event :=
  if (ie.1 =? j)%nat then Some ie.2 else None.

(** What process [j] has called, in order. *)
Definition calls_of (j : nat) (l : log) : trace := omap (call_of j) l.

(** The messages put on queue [q]. *)
Definition put_of (q : nat) (e : event) : option qmsg :=
  match ev_cmd e with QueuePut q' m => if (q' =? q)%nat then Some m else None | _ => None end.

Definition puts_to (q : nat) (t : trace) : list qmsg := omap (put_of q) t.

Lemma logged_steps s0 l s : logged s0 l s → steps s0 s.
Proof. induction 1; [constructor|]. eapply steps_step; [done|]. by econstructor. Qed.

Lemma steps_logged s0 s : steps s0 s → ∃ l, logged s0 l s.
Proof.
  induction 1 as [s|s1 s2 s3 _ [l IH] Hst]; [exists []; constructor|].
  destruct Hst. eexists. by econstructor.
Qed.

Lemma logged_app_inv s0 l1 l2 s :
  logged s0 (l1 ++ l2) s → ∃ s1, logged s0 l1 s1 ∧ logged s1 l2 s.
Proof.
  intros H. remember (l1 ++ l2) as l eqn:E. revert l2 E.
  induction H as [|l i c k x σ σ' ps H IH Hp Ha]; intros l2 E.
  - destruct l1; [|done]. simpl in E. subst l2. exists s0. split; constructor.
  - destruct l2 as [|e2 l2 _] using rev_ind.
    + rewrite app_nil_r in E. subst l1. eexists. split; [by econstructor|constructor].
    + rewrite app_assoc in E. apply app_inj_tail in E as [E <-].
      destruct (IH l2 E) as (s1 & H1 & H2). exists s1. split; [done|]. by econstructor.
Qed.

Lemma logged_length s0 l s : logged s0 l s → length s.2 = length s0.2.
Proof. intros H%logged_steps. by apply steps_length. Qed.

Lemma logged_bound s0 l s i e : logged s0 l s → (i, e) ∈ l → (i < length s0.2)%nat.
Proof.
  intros H Hin. induction H as [|l j c k x σ σ' ps H IH Hp Ha]; [by apply elem_of_nil in Hin|].
  apply elem_of_app in Hin as [Hin|[= -> _]%list_elem_of_singleton]; [auto|].
  rewrite <-(logged_length _ _ _ H). by eapply lookup_lt_Some.
Qed.

Lemma calls_of_app j l1 l2 : calls_of j (l1 ++ l2) = calls_of j l1 ++ calls_of j l2.
Proof. apply omap_app. Qed.

Lemma calls_of_one j i e : calls_of j [(i, e)] = if (i =? j)%nat then [e] else [].
Proof. unfold calls_of. simpl. unfold call_of. simpl. by destruct (i =? j)%nat. Qed.

Lemma puts_to_app q t1 t2 : puts_to q (t1 ++ t2) = puts_to q t1 ++ puts_to q t2.
Proof. apply omap_app. Qed.

Lemma calls_of_logged j l e : e ∈ calls_of j l → (j, e) ∈ l.
Proof.
  unfold calls_of. rewrite list_elem_of_omap. intros ([i e'] & Hin & He). unfold call_of in He. simpl in He.
  destruct (Nat.eqb_spec i j) as [->|]; [|done]. by injection He as ->.
Qed.

Lemma puts_to_logged q l j m : Ev (QueuePut q m) () ∈ calls_of j l → m ∈ puts_to q l.*2.
Proof.
  intros Hin%calls_of_logged. apply list_elem_of_omap. exists (Ev (QueuePut q m) ()). split.
  - apply list_elem_of_fmap. by exists (j, Ev (QueuePut q m) ()).
  - unfold put_of. simpl. by rewrite Nat.eqb_refl.
Qed.

(** ** What the shared objects hold *)

Lemma logged_queue n ps0 l σ ps q :
  logged (init_shared n, ps0) l (σ, ps) → queue σ q = puts_to q l.*2.
Proof.
  intros H. remember (init_shared n, ps0) as s0 eqn:E0. remember (σ, ps) as s eqn:E.
  revert σ ps E. induction H as [|l i c k x σ σ' ps H IH Hp Ha]; intros σ1 ps1 E; [by simplify_eq|].
  injection E as <- <-. rewrite fmap_app, puts_to_app, <-(IH _ _ eq_refl). cbn.
  destruct (act_frame _ _ _ _ _ Ha) as (_ & _ & _ & _ & Hq).
  destruct (on_queue c) eqn:Ec.
  - apply on_queue_inv in Ec as (q' & m & ->). simpl in Ha. subst σ'. simpl. unfold put_of, upd. simpl.
    rewrite (Nat.eqb_sym q' q). destruct (Nat.eqb_spec q q') as [->|_]; [done|]. by rewrite app_nil_r.
  - rewrite Hq by done. destruct c; try done; by rewrite app_nil_r.
Qed.

Lemma logged_arrived n ps0 l σ ps j :
  logged (init_shared n, ps0) l (σ, ps) → j ∈ arrived σ ↔ Ev BarrierArrive () ∈ calls_of j l.
Proof.
  intros H. remember (init_shared n, ps0) as s0 eqn:E0. remember (σ, ps) as s eqn:E.
  revert σ ps E. induction H as [|l i c k x σ σ' ps H IH Hp Ha]; intros σ1 ps1 E.
  { simplify_eq. simpl. by rewrite !elem_of_nil. }
  injection E as <- <-. rewrite calls_of_app, elem_of_app, <-(IH _ _ eq_refl), calls_of_one.
  destruct (act_frame _ _ _ _ _ Ha) as (_ & _ & _ & Hr & _).
  destruct (on_barrier c) eqn:Ec.
  - destruct c; try done; simpl in Ha.
    + subst σ'. simpl. rewrite elem_of_cons. destruct x.
      destruct (Nat.eqb_spec i j) as [->|Hij]; [rewrite list_elem_of_singleton; tauto|].
      rewrite elem_of_nil. naive_solver.
    + destruct Ha as [_ ->]. destruct (i =? j)%nat; [|rewrite elem_of_nil; tauto].
      rewrite list_elem_of_singleton. naive_solver.
  - rewrite Hr by done. destruct (i =? j)%nat; [|rewrite elem_of_nil; tauto].
    rewrite list_elem_of_singleton. split; [tauto|]. intros [?|Heq]; [done|].
    apply (f_equal ev_cmd) in Heq. simpl in Heq. by subst c.
Qed.

(** ** One process: from its program and its calls to what is left of it *)

Fixpoint goes {A} (p : prog A) (t : trace) (p' : prog A) {struct t} : Prop :=
  match t with
  | [] => p' = p
  | e :: t' => match p with Do c k => ∃ x, e = Ev c x ∧ goes (k x) t' p' | _ => False end
  end.

Lemma goes_snoc {A} (p : prog A) t c (k : reply c → prog A) x :
  goes p t (Do c k) → goes p (t ++ [Ev c x]) (k x).
Proof.
  revert p. induction t as [|e t IH]; intros p H.
  - simpl in H. subst p. by exists x.
  - destruct p as [|  |c' k']; [done..|]. destruct H as (y & -> & H). exists y. auto.
Qed.

Lemma goes_exec {A} (p : prog A) t a : goes p t (Ret a) → exec p t (Some a).
Proof.
  revert p. induction t as [|e t IH]; intros p; simpl; [by intros <-|].
  destruct p as [|  |c k]; [done..|]. intros (x & -> & H). exists x, t. auto.
Qed.

Lemma logged_goes s0 l s j p0 :
  logged s0 l s → s0.2 !! j = Some p0 → ∃ p, s.2 !! j = Some p ∧ goes p0 (calls_of j l) p.
Proof.
  intros H Hj. induction H as [|l i c k x σ σ' ps H IH Hp Ha]; [by exists p0|].
  destruct IH as (p & Hp' & Hg). simpl in *. rewrite calls_of_app, calls_of_one.
  destruct (Nat.eqb_spec i j) as [->|Hij].
  - exists (k x). split; [by apply (lookup_moved _ _ _ _ Hp)|].
    apply goes_snoc. rewrite Hp in Hp'. by injection Hp' as <-.
  - exists p. rewrite list_lookup_insert_ne, app_nil_r by done. done.
Qed.

Lemma logged_exec s0 l s j p0 a :
  logged s0 l s → s0.2 !! j = Some p0 → s.2 !! j = Some (Ret a) → exec p0 (calls_of j l) (Some a).
Proof.
  intros H Hj Ha. destruct (logged_goes _ _ _ _ _ H Hj) as (p & Hp & Hg).
  rewrite Ha in Hp. injection Hp as <-. by apply goes_exec.
Qed.

(** ** Checking the calls of one process

    [guarded ok h p Φ]: after the calls [h], [p] makes a call [c] only when
    [ok] allows it after the calls so far, and where it returns, [Φ] holds of
    all its calls and its value. *)
Section guarded.
Context (ok : trace → cmd → Prop).

Fixpoint guarded {A} (h : trace) (p : prog A) (Φ : trace → A → Prop) : Prop :=
  match p with
  | Ret a => Φ h a
  | OutOfFuel => True
  | Do c k => ok h c ∧ ∀ x, guarded (h ++ [Ev c x]) (k x) Φ
  end.

Lemma guarded_mono {A} h (p : prog A) (Φ Ψ : trace → A → Prop) :
  (∀ h a, Φ h a → Ψ h a) → guarded h p Φ → guarded h p Ψ.
Proof.
  intros HΦ. revert h. induction p as [a| |c k IH]; intros h; simpl; [auto|done|].
  intros [Hc Hk]. auto.
Qed.

Lemma guarded_bindp {A B} h (m : prog A) (f : A → prog B) Φ :
  guarded h m (fun h a => guarded h (f a) Φ) → guarded h (bindp m f) Φ.
Proof.
  revert h. induction m as [a| |c k IH]; intros h; simpl; [done..|]. intros [Hc Hk]. auto.
Qed.

Lemma guarded_bind {A B} h (m : Py A) (f : A → Py B) Φ :
  guarded h m (fun h r => match r with Ok a => guarded h (f a) Φ | Err e => Φ h (Err e) end) →
  guarded h (bind m f) Φ.
Proof. intros H. apply guarded_bindp. eapply guarded_mono; [|apply H]. by intros h' [a|e]. Qed.

Lemma guarded_goes {A} h (p p' : prog A) t Φ :
  guarded h p Φ → goes p t p' → ∀ t1 e t2, t = t1 ++ e :: t2 → ok (h ++ t1) (ev_cmd e).
Proof.
  revert h p. induction t as [|e t IH]; intros h p Hg Ht t1 e' t2 E; [by destruct t1|].
  destruct p as [| |c k]; [done..|]. destruct Ht as (x & -> & Ht), Hg as [Hc Hk].
  destruct t1 as [|e1 t1]; injection E as <- ->; [by rewrite app_nil_r|].
  pose proof (IH _ _ (Hk x) Ht t1 e' t2 eq_refl) as H. by rewrite <-app_assoc in H.
Qed.

(** Every call of a run of the pool was allowed when it was made. *)
Lemma guarded_logged s0 l s j p0 Φ :
  logged s0 l s → s0.2 !! j = Some p0 → guarded [] p0 Φ →
  ∀ t1 e t2, calls_of j l = t1 ++ e :: t2 → ok t1 (ev_cmd e).
Proof.
  intros H Hj Hg t1 e t2 E. destruct (logged_goes _ _ _ _ _ H Hj) as (p & _ & Ht).
  by apply (guarded_goes _ _ _ _ _ Hg Ht t1 e t2).
Qed.
End guarded.

(** Programs that never make a [bad] call. *)
Fixpoint avoids {A} (bad : cmd → bool) (p : prog A) : Prop :=
  match p with
  | Ret _ | OutOfFuel => True
  | Do c k => bad c = false ∧ ∀ x, avoids bad (k x)
  end.

Lemma avoids_bindp {A B} bad (m : prog A) (f : A → prog B) :
  avoids bad m → (∀ a, avoids bad (f a)) → avoids bad (bindp m f).
Proof. intros Hm Hf. induction m as [a| |c k IH]; simpl in *; [auto|done|]. destruct Hm. auto. Qed.

Lemma avoids_bind {A B} bad (m : Py A) (f : A → Py B) :
  avoids bad m → (∀ a, avoids bad (f a)) → avoids bad (bind m f).
Proof. intros Hm Hf. apply avoids_bindp; [done|]. by intros []. Qed.

Lemma avoids_while {S} bad fuel cond (body : S → Py S) s :
  (∀ s, avoids bad (cond s)) → (∀ s, avoids bad (body s)) → avoids bad (while_ fuel cond body s).
Proof.
  intros Hc Hb. revert s. induction fuel as [|fuel IH]; intros s; [done|]. cbn [while_].
  apply avoids_bind; [done|]. intros []; [|done]. by apply avoids_bind.
Qed.

(** What [ok] allows at any time once [I] holds of the calls so far. *)
Lemma guarded_avoids {A} ok bad (I : trace → Prop) h (p : prog A) (Φ : trace → A → Prop) :
  (∀ h e, I h → I (h ++ [e])) → (∀ h c, I h → bad c = false → ok h c) →
  I h → avoids bad p → (∀ h a, I h → Φ h a) → guarded ok h p Φ.
Proof.
  intros Hstep Hok. revert h. induction p as [a| |c k IH]; intros h HI Hp HΦ; [by apply HΦ|done|].
  destruct Hp as [Hc Hk]. split; [auto|]. intros x. apply IH; auto.
Qed.

(** ** Executing a schedule, with its log *)

Lemma logged_trans s0 l1 s1 l2 s2 : logged s0 l1 s1 → logged s1 l2 s2 → logged s0 (l1 ++ l2) s2.
Proof.
  intros H1 H2. induction H2 as [|l i c k x σ σ' ps _ IH Hp Ha]; [by rewrite app_nil_r|].
  rewrite app_assoc. by econstructor.
Qed.

(** Who is logged first was about to make that call. *)
Lemma logged_next s0 l s i c x :
  logged s0 ((i, Ev c x) :: l) s → ∃ k, s0.2 !! i = Some (Do c k).
Proof.
  change ((i, Ev c x) :: l) with ([(i, Ev c x)] ++ l). intros (s1 & H & _)%logged_app_inv.
  inversion H as [|l' j c' k y σ σ' ps H' Hp Ha E1]; subst.
  apply (app_inj_tail l' []) in E1 as [-> E1]. inversion H' as [|l2]; subst; [|by destruct l2].
  simplify_eq. by exists k.
Qed.

(** The call a turn makes, and the configuration after it. *)
Definition step_log (s : config) (la : nat * answer) : option (nat * event * config) :=
  match s.2 !! la.1 with
  | Some (Do c k) =>
      match act_fn la.1 s.1 la.2 c with
      | Some (x, σ') => Some (la.1, Ev c x, (σ', <[la.1 := k x]> s.2))
      | None => None
      end
  | _ => None
  end.

Fixpoint run_log (s : config) (sched : list (nat * answer)) : option (log * config) :=
  match sched with
  | [] => Some ([], s)
  | la :: sched' =>
      '(e, s') ← step_log s la; '(l, s'') ← run_log s' sched'; Some (e :: l, s'')
  end.

Lemma run_log_logged s sched l s' : run_log s sched = Some (l, s') → logged s l s'.
Proof.
  revert s l. induction sched as [|[i a] sched IH]; intros s l; cbn [run_log].
  { intros [= <- <-]. constructor. }
  intros ([e s1] & He & ([l' s''] & Hl & [= <- <-])%bind_Some)%bind_Some.
  apply (logged_trans _ [e] s1); [|by apply IH]. unfold step_log in He.
  destruct s as [σ ps]. simpl in He. destruct (ps !! i) as [[| |c k]|] eqn:Hp; try done.
  destruct (act_fn i σ a c) as [[x σ']|] eqn:Ha; [|done]. injection He as <- <-.
  apply (logged_snoc _ [] i c k x σ); [constructor|done|by eapply act_fn_sound].
Qed.

(** The log of a schedule that goes through. *)
Definition history (s : config) (sched : list (nat * answer)) : log :=
  match run_log s sched with Some (l, _) => l | None => [] end.

Definition reached (s : config) (sched : list (nat * answer)) : config :=
  match run_log s sched with Some (_, s') => s' | None => s end.

Definition recorded (s : config) (sched : list (nat * answer)) : bool :=
  match run_log s sched with Some _ => true | None => false end.

Lemma history_logged s sched :
  recorded s sched = true → logged s (history s sched) (reached s sched).
Proof.
  unfold recorded, history, reached. destruct (run_log s sched) as [[l s']|] eqn:E; [|done].
  intros _. by apply run_log_logged in E.
Qed.
