(* ===== verification/Timed.v ===== *)
(** * The timed producers and consumers

    bench/sustained_bench.py, filtered_bench.py and multi_queue_bench.py run
    the same producer loop, and (content verification apart) the same
    consumer loop, with different statements and pacing: here they are once,
    with the checks the three instances share, and the [Bench] a fleet of
    producers, consumers and one monitor makes. *)
From S2P Require Import Prelude PyFloat PyStr PyM OpenRetry Pool Workers Observe Histories.

(** Connect, run the [setup] statements, prime the queue handle, wait for the
    others, then publish until [stop_time]; [throttle] sees the rows published
    so far and the loop's start.  [fuel] bounds the iterations. *)
Definition timed_producer (fuel : nat) (dsn : string) (setup : list string)
    (prime_sql publish_sql queue_uri : string) (throttle : Z → float → Py unit)
    (stop_time : float) (counter : nat) : Py Z :=
  with_connection dsn (
    for_ setup (fun sql => execute sql []);;
    execute_with_open_retry prime_sql [VStr queue_uri] default_max_attempts;;
    barrier_wait;;
    worker_start <- perf_counter;;
    while_ fuel (fun _ => before stop_time)
      (fun local_published =>
        execute_with_open_retry publish_sql [VStr queue_uri] default_max_attempts;;
        n <- fetch_int;;
        counter_add counter n;;
        throttle (local_published + n) worker_start;;
        ret (local_published + n)) 0).

(** Connect, prime the read handle with [prime_sql], wait for the others, then
    consume until [hard_stop_time]. *)
Definition timed_consumer (fuel : nat) (dsn : string) (broker_sql : string)
    (prime_sql : string) (prime_params : list pval)
    (consume_sql : string) (consume_params : list pval)
    (hard_stop_time : float) (counter : nat) : Py Z :=
  with_connection dsn (
    execute broker_sql [];;
    execute_with_open_retry prime_sql prime_params default_max_attempts;;
    barrier_wait;;
    while_ fuel (fun _ => before hard_stop_time)
      (fun local_consumed =>
        execute consume_sql consume_params;;
        n <- fetch_int;;
        counter_add counter n;;
        ret (local_consumed + n)) 0).

(** [while perf_counter() < stop_time: sleep(interval); samples.append(...)] *)
Definition timed_monitor (fuel : nat) (take_sample : Py sample)
    (stop_time sample_interval : float) : Py unit :=
  while_ fuel (fun _ => before stop_time)
    (fun _ => sleep sample_interval;; s <- take_sample;; call (AppendSample s)) ().

(** [t = perf_counter(); p = published.value; c = consumed.value] in the
    order sustained and filtered read them. *)
Definition backlog_sample (published consumed : nat) : Py sample :=
  p <- counter_value published;;
  c <- counter_value consumed;;
  t <- perf_counter;;
  ret (SBacklog t p c (p - c)).

(** ** Priming comes first *)

Definition issued_of (e : event) : list string :=
  match ev_cmd e with Execute sql _ => [sql] | _ => [] end.

(** The statements issued, whether they succeeded or not. *)
Definition issued (t : trace) : list string := t ≫= issued_of.

Lemma issued_app t1 t2 : issued (t1 ++ t2) = issued t1 ++ issued t2.
Proof. apply bind_app. Qed.

Definition is_arrival (c : cmd) : bool := match c with BarrierArrive => true | _ => false end.

Section priming.
Context (timed : string → bool) (prime_sql : string) (prime_params : list pval).

Definition untimed (h : trace) : Prop := Forall (fun sql => timed sql = false) (issued h).

(** After the calls [h] the priming statement has succeeded, and no timed
    statement has been issued. *)
Definition primed (h : trace) : Prop :=
  Ev (Execute prime_sql prime_params) (Ok ()) ∈ h ∧ untimed h.

(** Who comes to the barrier is primed. *)
Definition primes (h : trace) (c : cmd) : Prop := is_arrival c = true → primed h.

Lemma untimed_snoc h e :
  untimed h → Forall (fun sql => timed sql = false) (issued_of e) → untimed (h ++ [e]).
Proof.
  intros Hh He. unfold untimed. rewrite issued_app. apply Forall_app. split; [done|].
  unfold issued. simpl. by rewrite app_nil_r.
Qed.

Lemma primes_setup setup (Φ : trace → result unit → Prop) h :
  Forall (fun sql => timed sql = false) setup → untimed h →
  (∀ h r, untimed h → Φ h r) → guarded primes h (for_ setup (fun sql => execute sql [])) Φ.
Proof.
  intros Hs. revert h. induction Hs as [|sql setup Hsql _ IH]; intros h Hh HΦ; [by apply HΦ|].
  cbn [for_]. apply guarded_bind. split; [done|]. intros r.
  assert (untimed (h ++ [Ev (Execute sql []) r])) by (apply untimed_snoc; [done|by repeat constructor]).
  destruct r as [[]|e]; [by apply IH|by apply HΦ].
Qed.

Lemma primes_sleep x (Φ : trace → result unit → Prop) h :
  untimed h → (∀ h r, untimed h → Φ h r) → guarded primes h (sleep x) Φ.
Proof.
  intros Hh HΦ. unfold sleep. destruct (nonneg x); [|by apply HΦ]. split; [done|].
  intros u. apply HΦ, untimed_snoc; [done|constructor].
Qed.

Lemma primes_retry_loop m todo attempt (Φ : trace → result unit → Prop) h :
  timed prime_sql = false → untimed h → todo ≠ O → attempt + Z.of_nat todo = m →
  (∀ h, primed h → Φ h (Ok ())) → (∀ h e, Φ h (Err e)) →
  guarded primes h (open_retry_loop prime_sql prime_params m todo attempt) Φ.
Proof.
  intros Ht Hh Hne Hm HO HE. revert attempt h Hh Hne Hm.
  induction todo as [|todo IH]; intros attempt h Hh Hne Hm; [done|].
  cbn [open_retry_loop]. unfold try_except. apply guarded_bindp. split; [done|]. intros r.
  assert (untimed (h ++ [Ev (Execute prime_sql prime_params) r]))
    by (apply untimed_snoc; [done|by repeat constructor]).
  destruct r as [[]|e]; [apply HO; split; [set_solver|done]|].
  cbn [guarded]. destruct (is_rc100 e); [|apply HE]. cbn [andb]. destruct (Z.ltb_spec attempt (m - 1)); [|apply HE].
  apply guarded_bind. split; [done|]. intros bits. cbn [guarded]. apply guarded_bind.
  apply primes_sleep; [apply untimed_snoc; [done|constructor]|].
  intros h' [u|e'] Hh'; [|apply HE]. apply IH; [done|lia..].
Qed.

Lemma primes_retry m (Φ : trace → result unit → Prop) h :
  0 < m → timed prime_sql = false → untimed h →
  (∀ h, primed h → Φ h (Ok ())) → (∀ h e, Φ h (Err e)) →
  guarded primes h (execute_with_open_retry prime_sql prime_params m) Φ.
Proof. intros Hm Ht Hh HO HE. apply primes_retry_loop; [done|done|lia|lia|done|done]. Qed.

(** The barrier, and whatever comes after it. *)
Lemma primes_barrier {B} (k : unit → Py B) (Φ : trace → result B → Prop) h :
  primed h → avoids is_arrival (k ()) → (∀ h r, Φ h r) →
  guarded primes h (bind barrier_wait k) Φ.
Proof.
  intros Hh Hk HΦ. split; [exact (fun _ => Hh)|]. intros []. split; [done|]. intros [].
  apply (guarded_avoids _ is_arrival (fun _ => True)); [done| |exact I|exact Hk|by intros].
  intros h' c _ Hc. unfold primes. by rewrite Hc.
Qed.

Lemma primes_with_connection {B} dsn (body : Py B) (Φ : trace → result B → Prop) :
  (∀ h, untimed h → guarded primes h body (fun _ _ => True)) → (∀ h r, Φ h r) →
  guarded primes [] (with_connection dsn body) Φ.
Proof.
  intros Hb HΦ. split; [done|]. intros [u|e]; [|apply HΦ]. apply guarded_bindp.
  eapply guarded_mono; [|apply Hb; by repeat constructor].
  intros h r _. split; [done|]. intros []. apply HΦ.
Qed.

Lemma no_arrival_before d : avoids is_arrival (before d).
Proof. by split. Qed.

Lemma no_arrival_fetch_int : avoids is_arrival fetch_int.
Proof. split; [done|]. by intros [[[|[] ?]|]|e]. Qed.

Lemma no_arrival_sleep x : avoids is_arrival (sleep x).
Proof. unfold sleep. by destruct (nonneg x). Qed.

Lemma no_arrival_retry sql params m : avoids is_arrival (execute_with_open_retry sql params m).
Proof.
  unfold execute_with_open_retry. generalize 0. induction (Z.to_nat m) as [|todo IH]; intros attempt; [done|].
  cbn [open_retry_loop]. apply avoids_bindp; [by split|]. intros [u|e]; [done|].
  destruct (is_rc100 e && _); [|done]. apply avoids_bind; [by split|]. intros bits.
  apply avoids_bind; [apply no_arrival_sleep|]. intros _. apply IH.
Qed.

Lemma no_arrival_counter_add l n : avoids is_arrival (counter_add l n).
Proof. by repeat split. Qed.

Lemma timed_consumer_primes fuel dsn broker_sql consume_sql consume_params stop counter
    (Φ : trace → result Z → Prop) :
  timed prime_sql = false → timed broker_sql = false → (∀ h r, Φ h r) →
  guarded primes [] (timed_consumer fuel dsn broker_sql prime_sql prime_params consume_sql
                       consume_params stop counter) Φ.
Proof.
  intros Ht Hb HΦ. unfold timed_consumer. apply primes_with_connection; [|done]. intros h Hh.
  apply guarded_bind. split; [done|]. intros r.
  assert (untimed (h ++ [Ev (Execute broker_sql []) r]))
    by (apply untimed_snoc; [done|by repeat constructor]).
  destruct r as [u|e]; [|done].
  apply guarded_bind, primes_retry; [done..| |done]. intros h2 Hh2. apply primes_barrier; [done| |done].
  apply avoids_while; [intros _; apply no_arrival_before|].
  intros n. apply avoids_bind; [by split|]. intros _.
  apply avoids_bind; [apply no_arrival_fetch_int|]. intros m.
  by apply avoids_bind; [apply no_arrival_counter_add|].
Qed.
End priming.

Lemma timed_producer_primes timed prime_sql fuel dsn setup publish_sql uri throttle stop counter
    (Φ : trace → result Z → Prop) :
  timed prime_sql = false →
  Forall (fun sql => timed sql = false) setup →
  (∀ n ws, avoids is_arrival (throttle n ws)) → (∀ h r, Φ h r) →
  guarded (primes timed prime_sql [VStr uri]) [] (timed_producer fuel dsn setup prime_sql publish_sql uri throttle stop counter) Φ.
Proof.
  intros Ht Hs Hthr HΦ. unfold timed_producer.
  apply primes_with_connection; [|done]. intros h Hh.
  apply guarded_bind, primes_setup; [done|done|]. intros h1 [u|e] Hh1; [|done].
  apply guarded_bind, primes_retry; [done..| |done]. intros h2 Hh2. apply primes_barrier; [done| |done].
  apply avoids_bind; [by split|]. intros ws. apply avoids_while; [intros _; apply no_arrival_before|].
  intros n. apply avoids_bind; [apply no_arrival_retry|]. intros _.
  apply avoids_bind; [apply no_arrival_fetch_int|]. intros m.
  apply avoids_bind; [apply no_arrival_counter_add|]. intros _.
  by apply avoids_bind.
Qed.

(** ** Each worker on its own *)

Section safety.
Context (parties : nat) (timed : string → bool) (i : nat).
Abbreviation P := (client parties timed i).

Lemma safe_setup {B} setup (Φ : result B → ledger → Prop) (k : Py B) g :
  Forall (fun sql => timed sql = false) setup →
  (∀ e, Φ (Err e) g) → safe P Φ k g →
  safe P Φ (bind (for_ setup (fun sql => execute sql [])) (fun _ => k)) g.
Proof.
  intros Hs He Hk. apply safe_bind. induction Hs as [|sql setup Hsql _ IH]; [done|].
  cbn [for_]. apply safe_bind, safe_execute; [by rewrite Hsql|].
  intros [_|e]; [apply IH|apply He].
Qed.

Lemma timed_producer_safe fuel dsn setup prime_sql publish_sql uri throttle stop counter Φ :
  (i < parties)%nat →
  Forall (fun sql => timed sql = false) setup → timed prime_sql = false →
  (∀ n ws g (Ψ : result unit → ledger → Prop), (∀ r, Ψ r g) → safe P Ψ (throttle n ws) g) →
  (∀ e g, puts g = [] → Φ (Err e) g) →
  (∀ m g, tally counter m g → Φ (Ok m) g) →
  safe P Φ (timed_producer fuel dsn setup prime_sql publish_sql uri throttle stop counter) ledger0.
Proof.
  intros Hi Hset Hprime Hthr He HΦ. unfold timed_producer.
  apply safe_with_connection; [done|by intros; apply He|].
  apply safe_setup; [done|intros; split; [done|by apply He]|].
  apply safe_bind, safe_retry; [by rewrite Hprime|]. intros [_|e]; [|split; [done|by apply He]].
  apply safe_bind, safe_barrier_wait; [done..|].
  apply safe_bind, safe_call; [done..|]. intros ws.
  apply (safe_timed_loop _ _ _ (fun n => n) counter);
    [apply tally_start| |intros; split; [done|auto]..].
  intros m g Ψ Ht HE HO. pose proof Ht as (_ & Hrun & _ & _ & Hputs).
  apply safe_bind, safe_retry; [done|]. intros [_|e]; [|by apply HE].
  apply safe_bind, safe_fetch_int. intros [k|e]; [|by apply HE].
  apply safe_bind, (tally_add _ _ _ _ m); [done|]. intros g' Ht'.
  apply safe_bind, Hthr. intros [_|e]; [by apply HO|].
  apply HE. by destruct Ht' as (_ & _ & _ & _ & ?).
Qed.

Lemma timed_consumer_safe fuel dsn broker_sql prime_sql pp consume_sql cp stop counter Φ :
  (i < parties)%nat → timed broker_sql = false → timed prime_sql = false →
  (∀ e g, puts g = [] → Φ (Err e) g) →
  (∀ m g, tally counter m g → Φ (Ok m) g) →
  safe P Φ (timed_consumer fuel dsn broker_sql prime_sql pp consume_sql cp stop counter) ledger0.
Proof.
  intros Hi Hset Hprime He HΦ. unfold timed_consumer.
  apply safe_with_connection; [done|by intros; apply He|].
  apply safe_bind, safe_execute; [by rewrite Hset|]. intros [_|e]; [|split; [done|by apply He]].
  apply safe_bind, safe_retry; [by rewrite Hprime|]. intros [_|e]; [|split; [done|by apply He]].
  apply safe_bind, safe_barrier_wait; [done..|].
  apply (safe_timed_loop _ _ _ (fun n => n) counter);
    [apply tally_start| |intros; split; [done|auto]..].
  intros m g Ψ Ht HE HO. pose proof Ht as (_ & Hrun & _ & _ & Hputs).
  apply safe_bind, safe_execute; [done|]. intros [_|e]; [|by apply HE].
  apply safe_bind, safe_fetch_int. intros [k|e]; [|by apply HE].
  apply safe_bind, (tally_add _ _ _ _ m); [done|]. intros g' Ht'. by apply HO.
Qed.

(** A monitor keeps no ledger. *)
Lemma timed_monitor_safe accounts fuel take_sample stop interval :
  (parties ≤ i)%nat →
  (∀ (Ψ : result sample → ledger → Prop), (∀ s, Ψ (Ok s) ledger0) → safe P Ψ take_sample ledger0) →
  safe P (finished parties accounts [] i) (timed_monitor fuel take_sample stop interval) ledger0.
Proof.
  intros Hi Hs. unfold timed_monitor.
  apply (safe_while _ _ (fun _ g => g = ledger0)); [done|].
  intros [] g ->. apply safe_before. intros [].
  - apply safe_bind, safe_sleep. intros [_|e]; [|by split; [|intros _; apply Forall_true]].
    apply safe_bind, Hs. intros s. by apply safe_call.
  - simpl. split; [lia|]. split; [|done]. unfold settled. apply Forall_true. done.
Qed.

Lemma backlog_sample_safe p c (Ψ : result sample → ledger → Prop) :
  (∀ s, Ψ (Ok s) ledger0) → safe P Ψ (backlog_sample p c) ledger0.
Proof.
  intros H. apply safe_bind, safe_counter_value; [done|]. intros x.
  apply safe_bind, safe_counter_value; [done|]. intros y.
  apply safe_bind, safe_call; [done..|]. intros t. apply H.
Qed.

(** Ready to report [n], counted on [counter]. *)
Definition reportable (accounts : list account) (counter : nat) (n : Z) (g : ledger) : Prop :=
  at_phase g = Running ∧ wrap64 (added g counter) = wrap64 n ∧
  Forall (fun a => acc_counter a ≠ counter → added g (acc_counter a) = 0) accounts ∧
  puts g = [].

Lemma tally_reportable accounts counter n g :
  tally counter n g → reportable accounts counter n g.
Proof.
  intros (_ & Hrun & Hw & Ho & Hp). split; [done|]. split; [done|]. split; [|done].
  apply Forall_true. intros a. apply Ho.
Qed.

(** Reporting what was counted settles the one account it is on. *)
Lemma safe_report accounts counter n g q m :
  reportable accounts counter n g →
  Forall (fun a => if (acc_counter a =? counter)%nat
                   then acc_queue a = q ∧ acc_amount a m = n
                   else acc_queue a = q → acc_amount a m = 0) accounts →
  safe P (finished parties accounts [(q, key_of m)] i) (call (QueuePut q m)) g.
Proof.
  intros (Hrun & Hw & Ho & Hp) Hacc. apply safe_put. unfold finished. simpl.
  rewrite Hp. split; [done|]. split; [|done]. unfold settled, reported, puts_on. simpl.
  eapply Forall_impl; [apply Forall_and; split; [apply Hacc|apply Ho]|].
  intros acc [Hacc' Hz0]. revert Hacc'. simpl.
  destruct (Nat.eqb_spec (acc_counter acc) counter) as [->|Hne].
  - intros [-> Hamt]. rewrite Nat.eqb_refl. simpl. by rewrite Hamt, Z.add_0_r, Hw.
  - intros Hz. rewrite (Hz0 Hne).
    destruct (Nat.eqb_spec q (acc_queue acc)) as [->|?]; simpl; [|done].
    by rewrite (Hz eq_refl).
Qed.
End safety.

(** ** What a worker's calls add up to *)

(** A completed producer returns the sum of the counts it fetched, one per
    successful publish statement, and has primed its handle exactly once; it
    can only fail to end while the clock stays below the deadline. *)
Definition count_facts (prime_sql timed_sql : string) (deadline : float) (fuel : nat)
    (t : trace) (r : option (result Z)) : Prop :=
  match r with
  | Some (Ok n) =>
      n = Zsum (fetched t) ∧
      times prime_sql (succeeded t) = 1%nat ∧
      times timed_sql (succeeded t) = length (fetched t)
  | Some (Err _) => True
  | None => (fuel ≤ below deadline (clocks t))%nat
  end.

Section facts.
Context (prime_sql timed_sql : string) (deadline : float).

(** The loop invariant: [n] is what was fetched, in [k] rounds. *)
Definition counted (k : nat) (t : trace) (n : Z) : Prop :=
  n = Zsum (fetched t) ∧
  times prime_sql (succeeded t) = 1%nat ∧
  times timed_sql (succeeded t) = length (fetched t) ∧
  (k ≤ below deadline (clocks t))%nat.

Lemma counted_round k t t1 t2 n m :
  counted k t n → prime_sql ≠ timed_sql →
  fetched t1 = fetched t → succeeded t1 = succeeded t →
  below deadline (clocks t1) = S (below deadline (clocks t)) →
  fetched t2 = fetched t1 ++ [m] → succeeded t2 = succeeded t1 ++ [timed_sql] →
  (below deadline (clocks t1) ≤ below deadline (clocks t2))%nat →
  counted (S k) t2 (n + m).
Proof.
  intros (-> & Hp & Hn & Hk) Hne Hf1 Hs1 Hb1 Hf2 Hs2 Hb2.
  unfold counted. rewrite Hf2, Hs2, Hf1, Hs1. autorewrite with obs.
  rewrite Hp, Hn, length_app. unfold times.
  rewrite filter_cons_False, filter_cons_True by done.
  split; [simpl; lia|]. split; [done|]. split; [done|lia].
Qed.

Lemma counted_end fuel k t t' n :
  counted k t n → fetched t' = fetched t → succeeded t' = succeeded t →
  count_facts prime_sql timed_sql deadline fuel (t' ++ [Ev CloseConn ()]) (Some (Ok n)).
Proof.
  intros (-> & Hp & Hn & Hk) Hf Hs. unfold count_facts. autorewrite with obs.
  rewrite Hf, Hs, Hp, Hn. cbn. rewrite app_nil_r. repeat split; lia.
Qed.

(** The setup statements are neither of the two. *)
Lemma after_setup {B} t0 setup (f : unit → Py B) Φ :
  (∀ t, fetched t = fetched t0 → succeeded t = succeeded t0 ++ setup → clocks t = clocks t0 →
     after t (f ()) Φ) →
  (∀ t e, Φ t (Some (Err e))) →
  after t0 (bind (for_ setup (fun sql => execute sql [])) f) Φ.
Proof.
  intros H He. apply after_bind.
  assert (∀ t1, fetched t1 = fetched t0 → clocks t1 = clocks t0 →
    (∀ t, fetched t = fetched t0 → succeeded t = succeeded t1 ++ setup → clocks t = clocks t0 →
      after t (f ()) Φ) →
    after t1 (for_ setup (fun sql => execute sql [])) (fun t r => match r with
      | Some (Ok a) => after t (f a) Φ
      | Some (Err e) => Φ t (Some (Err e))
      | None => Φ t None end)) as Hgen; [|by apply Hgen].
  clear H. induction setup as [|sql setup IH]; intros t1 Hf Hc H.
  - apply after_ret, H; [done|by rewrite app_nil_r|done].
  - cbn [for_]. apply after_execute; [|done]. intros t Hft Hst Hct.
    apply IH; [congruence..|]. intros t' Hf' Hs' Hc'. apply H; [done| |done].
    by rewrite Hs', Hst, <-app_assoc.
Qed.

Lemma after_timed_loop fuel t0 (body : Z → Py Z) (Φ : trace → option (result Z) → Prop) :
  counted 0 t0 0 →
  (∀ k t t1 n, counted k t n →
     fetched t1 = fetched t → succeeded t1 = succeeded t →
     (below deadline (clocks t1) = S (below deadline (clocks t)))%nat →
     after t1 (body n) (fun t r => match r with
       | Some (Ok s') => counted (S k) t s'
       | Some (Err e) => Φ t (Some (Err e))
       | None => Φ t None end)) →
  (∀ k t t' n, counted k t n → fetched t' = fetched t → succeeded t' = succeeded t →
     Φ t' (Some (Ok n))) →
  (∀ t n, counted fuel t n → Φ t None) →
  after t0 (while_ fuel (fun _ => before deadline) body 0) Φ.
Proof.
  intros H0 Hbody Hend Hout. apply (after_while counted) with (k := 0%nat); [done| |apply Hout].
  intros k t n Hn. apply after_before; [intros t1 Hf Hs Hb|intros t1 Hf Hs].
  - by apply (Hbody k t).
  - by apply (Hend k t).
Qed.
End facts.

Lemma times_unrelated s l : Forall (fun x => s ≠ x) l → times s l = 0%nat.
Proof.
  unfold times. induction 1 as [|x l Hx _ IH]; [done|]. by rewrite filter_cons_False.
Qed.

Lemma times_one s : times s [s] = 1%nat.
Proof. unfold times. by rewrite filter_cons_True. Qed.

Lemma times_other s x : s ≠ x → times s [x] = 0%nat.
Proof. intros H. apply times_unrelated. by constructor. Qed.

Lemma timed_producer_facts fuel dsn setup prime_sql publish_sql uri throttle stop counter :
  Forall (fun s => prime_sql ≠ s) setup → Forall (fun s => publish_sql ≠ s) setup →
  prime_sql ≠ publish_sql → (∀ n ws, quiet (throttle n ws)) →
  wp (timed_producer fuel dsn setup prime_sql publish_sql uri throttle stop counter)
     (count_facts prime_sql publish_sql stop fuel).
Proof.
  intros Hp Hq Hne Hthr. apply after_start, after_with_connection; [done|].
  apply after_setup; [intros t1 Hf1 Hs1 _|done].
  apply after_bind, after_retry; [done| |done]. intros t2 _ Hf2 Hs2 _.
  apply after_bind, after_quiet; [apply quiet_barrier_wait|].
  intros t3 [[]|e] Hf3 Hs3 _; [|done].
  apply after_bind, after_quiet; [done|]. intros t4 [ws|e] Hf4 Hs4 _; [|done].
  apply (after_timed_loop prime_sql publish_sql).
  - unfold counted. rewrite Hf4, Hf3, Hf2, Hf1, Hs4, Hs3, Hs2, Hs1. autorewrite with obs.
    rewrite !(times_unrelated _ setup), times_one, times_other by done. cbn. repeat split. lia.
  - intros k t t' n Hn Hf Hs Hb.
    apply after_bind, after_retry; [done| |done]. intros t6 _ Hf6 Hs6 Hc6.
    apply after_fetch_int; [intros t7 m Hf7 Hs7 Hc7|done].
    apply after_bind, after_quiet; [apply quiet_counter_add|]. intros t8 [_|e] Hf8 Hs8 Hb8; [|done].
    apply after_bind, after_quiet; [apply Hthr|]. intros t9 [_|e] Hf9 Hs9 Hb9; [|done].
    apply after_ret, (counted_round _ _ _ k t t'); [done..|congruence|congruence|].
    specialize (Hb8 stop). specialize (Hb9 stop). rewrite Hc7, Hc6 in Hb8. lia.
  - intros k t t' n Hn Hf Hs. by apply (counted_end _ _ _ _ k t).
  - intros t n (_ & _ & _ & Hk). done.
Qed.

Lemma timed_consumer_facts fuel dsn broker_sql prime_sql pp consume_sql cp stop counter :
  prime_sql ≠ broker_sql → consume_sql ≠ broker_sql → prime_sql ≠ consume_sql →
  wp (timed_consumer fuel dsn broker_sql prime_sql pp consume_sql cp stop counter)
     (count_facts prime_sql consume_sql stop fuel).
Proof.
  intros Hp Hq Hne. apply after_start, after_with_connection; [done|].
  apply after_execute; [intros t1 Hf1 Hs1 _|done].
  apply after_bind, after_retry; [done| |done]. intros t2 _ Hf2 Hs2 _.
  apply after_bind, after_quiet; [apply quiet_barrier_wait|].
  intros t3 [[]|e] Hf3 Hs3 _; [|done].
  apply (after_timed_loop prime_sql consume_sql).
  - unfold counted. rewrite Hf3, Hf2, Hf1, Hs3, Hs2, Hs1. autorewrite with obs.
    rewrite times_one, !times_other by done. cbn. repeat split. lia.
  - intros k t t' n Hn Hf Hs Hb.
    apply after_execute; [intros t6 Hf6 Hs6 Hc6|done].
    apply after_fetch_int; [intros t7 m Hf7 Hs7 Hc7|done].
    apply after_bind, after_quiet; [apply quiet_counter_add|]. intros t8 [_|e] Hf8 Hs8 Hb8; [|done].
    apply after_ret, (counted_round _ _ _ k t t'); [done..|congruence|congruence|].
    specialize (Hb8 stop). rewrite Hc7, Hc6 in Hb8. lia.
  - intros k t t' n Hn Hf Hs. by apply (counted_end _ _ _ _ k t).
  - intros t n (_ & _ & _ & Hk). done.
Qed.

(** ** A fleet: producers, consumers, one monitor *)

Section fleet.
Context (timed : string → bool) (accounts : list account).
Context (producer_ids consumer_ids : list Z).
Context (run_producer run_consumer : Z → process) (monitor : process).
Context (pub_key con_key : Z → key).

Definition fleet_parties : nat := (length producer_ids + length consumer_ids)%nat.

Definition fleet_workers : list process :=
  (run_producer <$> producer_ids) ++ (run_consumer <$> consumer_ids) ++ [monitor].

(** Producers report on queue 0, consumers on queue 1. *)
Definition fleet_reports : list (list (nat * key)) :=
  ((fun k => [(0%nat, pub_key k)]) <$> producer_ids) ++
  ((fun k => [(1%nat, con_key k)]) <$> consumer_ids) ++ [[]].

(** Where in the list a worker sits. *)
Lemma fleet_lookup i p :
  fleet_workers !! i = Some p →
  (i < length producer_ids)%nat ∧
    (∃ k, k ∈ producer_ids ∧ p = run_producer k ∧ fleet_reports !! i = Some [(0%nat, pub_key k)])
  ∨ (length producer_ids ≤ i < fleet_parties)%nat ∧
    (∃ k, k ∈ consumer_ids ∧ p = run_consumer k ∧ fleet_reports !! i = Some [(1%nat, con_key k)])
  ∨ i = fleet_parties ∧ p = monitor ∧ fleet_reports !! i = Some [].
Proof.
  unfold fleet_workers, fleet_reports, fleet_parties. intros H.
  apply lookup_app_Some in H as [H|[Hi H]]; rewrite ?length_fmap in *.
  { left. pose proof (lookup_lt_Some _ _ _ H) as Hlt. rewrite length_fmap in Hlt.
    rewrite list_lookup_fmap in H. apply fmap_Some in H as (k & Hk & ->).
    split; [done|]. exists k. split; [by eapply list_elem_of_lookup_2|]. split; [done|].
    rewrite lookup_app_l by (by rewrite length_fmap). by rewrite list_lookup_fmap, Hk. }
  right. apply lookup_app_Some in H as [H|[Hi' H]]; rewrite ?length_fmap in *.
  { left. pose proof (lookup_lt_Some _ _ _ H) as Hlt. rewrite length_fmap in Hlt.
    rewrite list_lookup_fmap in H. apply fmap_Some in H as (k & Hk & ->).
    split; [lia|]. exists k. split; [by eapply list_elem_of_lookup_2|]. split; [done|].
    rewrite lookup_app_r by (by rewrite length_fmap). rewrite length_fmap.
    rewrite lookup_app_l by (by rewrite length_fmap). by rewrite list_lookup_fmap, Hk. }
  right. apply list_lookup_singleton_Some in H as [H ->].
  assert (i = (length producer_ids + length consumer_ids)%nat) as -> by lia.
  split; [done|]. split; [done|].
  rewrite lookup_app_r by (rewrite length_fmap; lia). rewrite length_fmap.
  rewrite lookup_app_r by (rewrite length_fmap; lia). rewrite length_fmap.
  replace (_ - _ - _)%nat with 0%nat by lia. done.
Qed.

Abbreviation fin := (finished fleet_parties accounts).
Context (producer_ok : ∀ i k, k ∈ producer_ids → (i < fleet_parties)%nat →
  safe (client fleet_parties timed i) (fin [(0%nat, pub_key k)] i) (run_producer k) ledger0).
Context (consumer_ok : ∀ i k, k ∈ consumer_ids → (i < fleet_parties)%nat →
  safe (client fleet_parties timed i) (fin [(1%nat, con_key k)] i) (run_consumer k) ledger0).
Context (monitor_ok : ∀ i, (fleet_parties ≤ i)%nat →
  safe (client fleet_parties timed i) (fin [] i) monitor ledger0).

#[refine] Instance fleet : Bench := {|
  bench_parties := fleet_parties;
  bench_workers := fleet_workers;
  bench_timed := timed;
  bench_accounts := accounts;
  bench_reports := fleet_reports;
|}.
Proof using All.
  - unfold fleet_reports, fleet_workers. by rewrite !length_app, !length_fmap.
  - intros i r Hr Hge. pose proof (lookup_lt_Some _ _ _ Hr) as Hlt.
    unfold fleet_reports, fleet_parties in *. rewrite !length_app, !length_fmap in Hlt. simpl in Hlt.
    rewrite !lookup_app_r in Hr; rewrite ?length_fmap in *; try lia.
    by apply list_lookup_singleton_Some in Hr as [_ <-].
  - intros i p [(Hi & k & Hk & -> & ->)|[(Hi & k & Hk & -> & ->)|(-> & -> & ->)]]%fleet_lookup.
    + apply producer_ok; [done|]. unfold fleet_parties. lia.
    + apply consumer_ok; [done|lia].
    + by apply monitor_ok.
Defined.

Lemma fleet_parties_workers : (fleet_parties ≤ length fleet_workers)%nat.
Proof. clear. unfold fleet_parties, fleet_workers. rewrite !length_app, !length_fmap. simpl. lia. Qed.

Lemma due_published : due 0 fleet_reports = pub_key <$> producer_ids.
Proof. clear. unfold fleet_reports. rewrite !due_app, !due_fmap. simpl. by rewrite app_nil_r. Qed.

Lemma due_consumed : due 1 fleet_reports = con_key <$> consumer_ids.
Proof. clear. unfold fleet_reports. rewrite !due_app, !due_fmap. simpl. by rewrite app_nil_r. Qed.

(** The parties have completed: both queues hold their messages. *)
Lemma fleet_complete σ ps :
  steps (init_shared fleet_parties, fleet_workers) (σ, ps) → parties_ok fleet_parties ps →
  key_of <$> queue σ 0 ≡ₚ pub_key <$> producer_ids ∧
  key_of <$> queue σ 1 ≡ₚ con_key <$> consumer_ids ∧
  ∀ a, a ∈ accounts → value σ (acc_counter a) = wrap64 (reported a (queue σ (acc_queue a))).
Proof using producer_ok consumer_ok monitor_ok.
  intros Hs Hok. rewrite <-due_published, <-due_consumed.
  split; [by apply (reports_complete (HB := fleet) σ ps 0)|].
  split; [by apply (reports_complete (HB := fleet) σ ps 1)|].
  intros a Ha. by apply (counters_accounted (HB := fleet) σ ps).
Qed.

(** Someone has failed: a queue is short. *)
Lemma fleet_failed σ ps j e :
  steps (init_shared fleet_parties, fleet_workers) (σ, ps) → all_ended ps →
  ps !! j = Some (Ret (Err e)) → (j < fleet_parties)%nat →
  (length (queue σ 0) < length producer_ids)%nat ∨
  (length (queue σ 1) < length consumer_ids)%nat.
Proof using producer_ok consumer_ok monitor_ok.
  intros Hs Hend Hj Hlt.
  assert (∃ p, fleet_workers !! j = Some p) as [p Hp].
  { apply lookup_lt_is_Some_2. pose proof (steps_length _ _ Hs) as Hl. simpl in Hl.
    rewrite <-Hl. by eapply lookup_lt_Some. }
  apply fleet_lookup in Hp as [(_ & k & _ & _ & Hr)|[(_ & k & _ & _ & Hr)|[-> _]]]; [..|lia].
  - left. pose proof (reports_missing (HB := fleet) σ ps 0 j e _ Hs Hend Hj Hr) as H.
    simpl in H. rewrite due_published, length_fmap in H. cbn in H. lia.
  - right. pose proof (reports_missing (HB := fleet) σ ps 1 j e _ Hs Hend Hj Hr) as H.
    simpl in H. rewrite due_consumed, length_fmap in H. cbn in H. lia.
Qed.
(** Once all have ended, the parties have completed if and only if the
    results are there. *)
Lemma fleet_results σ ps :
  steps (init_shared fleet_parties, fleet_workers) (σ, ps) → all_ended ps →
  parties_ok fleet_parties ps ↔
  (length producer_ids ≤ length (queue σ 0))%nat ∧ (length consumer_ids ≤ length (queue σ 1))%nat.
Proof using producer_ok consumer_ok monitor_ok.
  intros Hs Hend. split.
  - intros Hok. destruct (fleet_complete σ ps Hs Hok) as (H0 & H1 & _).
    apply Permutation_length in H0, H1. rewrite !length_fmap in H0, H1. lia.
  - intros [H0 H1]. split; [done|]. intros i p Hi Hp.
    destruct (proj1 (Forall_lookup _ _) Hend i p Hp) as [[[]|e] ->]; [done|].
    destruct (fleet_failed σ ps i e) as [H|H]; [done..|lia|lia].
Qed.
End fleet.

(** ** Running a schedule from the start *)

Definition final (s : config) (sched : list (nat * answer)) : config :=
  default s (run_schedule s sched).

Definition runs (s : config) (sched : list (nat * answer)) : bool :=
  match run_schedule s sched with Some _ => true | None => false end.

Lemma final_steps s sched : runs s sched = true → steps s ((final s sched).1, (final s sched).2).
Proof.
  unfold runs, final. destruct (run_schedule s sched) as [[σ ps]|] eqn:E; [|done].
  intros _. by apply run_schedule_sound in E.
Qed.

Definition ended_ok (p : process) : bool :=
  match p with Ret (Ok _) => true | _ => false end.

Lemma all_ok_check ps : forallb ended_ok ps = true → all_ok ps.
Proof.
  intros H. apply Forall_forall. intros p Hp. rewrite forallb_forall in H.
  specialize (H p (proj1 (list_elem_of_In _ _) Hp)). by destruct p as [[[]|]| |].
Qed.

Definition ended (p : process) : bool := match p with Ret _ => true | _ => false end.

Lemma all_ended_check ps : forallb ended ps = true → all_ended ps.
Proof.
  intros H. apply Forall_forall. intros p Hp. rewrite forallb_forall in H.
  specialize (H p (proj1 (list_elem_of_In _ _) Hp)). destruct p as [r| |]; [|done..]. by exists r.
Qed.


Lemma NoDup_range n : NoDup (range 0 n).
Proof. unfold range. apply NoDup_fmap_2; [intros x y; lia|apply NoDup_seq]. Qed.

#[export] Instance KIdx_inj : Inj eq eq KIdx.
Proof. by intros x y [= ->]. Qed.
