(* ===== verification/Atomic.v ===== *)
(** * Locked counters as atomic counters

    The benchmarks update and read their [mp.Value] counters in critical
    sections of three or four calls.  The specification here is a pool whose
    processes run the same programs but update and read a counter in one
    step, and that has no locks.  [reduction] is the forward simulation: what
    a pool of disciplined processes can do with locks, it can do atomically,
    each critical section taking effect at its write (or, if it has none, at
    its read). *)
From S2P Require Import Prelude PyFloat PyStr PyM OpenRetry Pool Workers Timed.

(** ** Disciplined processes *)

(** [counter_add l n] and [counter_value l], followed by the rest. *)
Definition add_block {A} (l : nat) (n : Z) (k : unit → prog A) : prog A :=
  Do (Acquire l) (fun _ => Do (ReadValue l) (fun v =>
    Do (WriteValue l (wrap64 (v + n))) (fun _ => Do (Release l) k))).

Definition value_block {A} (l : nat) (k : Z → prog A) : prog A :=
  Do (Acquire l) (fun _ => Do (ReadValue l) (fun v => Do (Release l) (fun _ => k v))).

(** Counters and locks are used in those blocks only. *)
Inductive disciplined {A} : prog A → Prop :=
| disc_ret a : disciplined (Ret a)
| disc_fuel : disciplined OutOfFuel
| disc_do c k : on_lock c = false → (∀ x, disciplined (k x)) → disciplined (Do c k)
| disc_add l n k : (∀ u, disciplined (k u)) → disciplined (add_block l n k)
| disc_value l k : (∀ v, disciplined (k v)) → disciplined (value_block l k).

Create HintDb atomic.
#[export] Hint Constructors disciplined : atomic.

Lemma disciplined_bindp {A B} (m : prog A) (f : A → prog B) :
  disciplined m → (∀ a, disciplined (f a)) → disciplined (bindp m f).
Proof.
  intros Hm Hf. induction Hm as [a| |c k Hc _ IH|l n k _ IH|l k _ IH]; simpl; auto with atomic.
  - by apply (disc_add l n).
  - by apply (disc_value l).
Qed.

Lemma disciplined_bind {A B} (m : Py A) (f : A → Py B) :
  disciplined m → (∀ a, disciplined (f a)) → disciplined (bind m f).
Proof. intros Hm Hf. apply disciplined_bindp; [done|]. intros []; auto with atomic. Qed.

Lemma disciplined_counter_add l n : disciplined (counter_add l n).
Proof. exact (disc_add l n (fun u => Ret (Ok u)) (fun u => disc_ret _)). Qed.

Lemma disciplined_counter_value l : disciplined (counter_value l).
Proof. exact (disc_value l (fun v => Ret (Ok v)) (fun v => disc_ret _)). Qed.

Lemma disciplined_while {S} fuel cond (body : S → Py S) s :
  (∀ s, disciplined (cond s)) → (∀ s, disciplined (body s)) → disciplined (while_ fuel cond body s).
Proof.
  intros Hc Hb. revert s. induction fuel as [|fuel IH]; intros s; [constructor|].
  cbn [while_]. apply disciplined_bind; [done|]. intros []; [|constructor].
  by apply disciplined_bind.
Qed.

Lemma disciplined_for {A} (l : list A) (body : A → Py unit) :
  (∀ x, disciplined (body x)) → disciplined (for_ l body).
Proof.
  intros Hb. induction l as [|x l IH]; [constructor|]. by apply disciplined_bind.
Qed.

Lemma disciplined_with_connection {A} dsn (body : Py A) :
  disciplined body → disciplined (with_connection dsn body).
Proof.
  intros Hb. apply disc_do; [done|]. intros [u|e]; [|constructor].
  apply disciplined_bindp; [done|]. intros r. apply disc_do; [done|]. constructor.
Qed.

Lemma disciplined_sleep x : disciplined (sleep x).
Proof. unfold sleep. destruct (nonneg x); [|constructor]. by repeat constructor. Qed.

Lemma disciplined_fdiv x y : disciplined (fdiv x y).
Proof. unfold fdiv. destruct (is_zero y); constructor. Qed.

Lemma disciplined_div_number n r : disciplined (div_number n r).
Proof. destruct r as [d|x]; [|apply disciplined_fdiv]. simpl. destruct (_ =? _); constructor. Qed.

Lemma disciplined_fetch_int : disciplined fetch_int.
Proof.
  apply disciplined_bind; [by repeat constructor|].
  intros [[|[] ?]|]; constructor.
Qed.

Lemma disciplined_call c : on_lock c = false → disciplined (call c).
Proof. intros H. apply disc_do; [done|]. constructor. Qed.

Lemma disciplined_execute sql params : disciplined (execute sql params).
Proof. apply disc_do; [done|]. constructor. Qed.

Lemma disciplined_retry sql params m : disciplined (execute_with_open_retry sql params m).
Proof.
  unfold execute_with_open_retry. generalize 0 (Z.to_nat m). intros attempt todo. revert attempt.
  induction todo as [|todo IH]; intros attempt; [constructor|].
  cbn [open_retry_loop]. apply disciplined_bindp; [apply disciplined_execute|].
  intros [u|e]; [constructor|]. destruct (_ && _); [|constructor].
  apply disciplined_bind; [by apply disciplined_call|]. intros bits.
  by apply disciplined_bind; [apply disciplined_sleep|].
Qed.

Lemma disciplined_ret {A} (a : A) : disciplined (ret a).
Proof. constructor. Qed.

Lemma disciplined_perf_counter : disciplined perf_counter.
Proof. exact (disciplined_call PerfCounter eq_refl). Qed.

#[export] Hint Extern 1 (disciplined (call ?c)) => exact (disciplined_call c eq_refl) : atomic.
#[export] Hint Resolve disciplined_ret disciplined_perf_counter disciplined_bind disciplined_counter_add disciplined_counter_value
  disciplined_while disciplined_for disciplined_with_connection disciplined_sleep disciplined_fdiv disciplined_div_number
  disciplined_fetch_int disciplined_execute disciplined_retry : atomic.

Lemma disciplined_before d : disciplined (before d).
Proof. unfold before. auto with atomic. Qed.

Lemma disciplined_pace target ws : disciplined target → disciplined (pace target ws).
Proof.
  intros H. unfold pace. apply disciplined_bind; [done|]. intros t.
  apply disciplined_bind; [apply disciplined_perf_counter|]. intros now.
  destruct (flt _ _); auto with atomic.
Qed.

Lemma disciplined_barrier_wait : disciplined barrier_wait.
Proof. unfold barrier_wait. auto with atomic. Qed.

#[export] Hint Resolve disciplined_before disciplined_pace disciplined_barrier_wait : atomic.

Lemma disciplined_timed_producer fuel dsn setup psql sql uri throttle stop counter :
  (∀ n ws, disciplined (throttle n ws)) →
  disciplined (timed_producer fuel dsn setup psql sql uri throttle stop counter).
Proof. intros H. unfold timed_producer. auto 20 with atomic. Qed.

Lemma disciplined_timed_consumer fuel dsn broker_sql psql pp sql cp stop counter :
  disciplined (timed_consumer fuel dsn broker_sql psql pp sql cp stop counter).
Proof. unfold timed_consumer. auto 20 with atomic. Qed.

Lemma disciplined_timed_monitor fuel take_sample stop interval :
  disciplined take_sample → disciplined (timed_monitor fuel take_sample stop interval).
Proof. intros H. unfold timed_monitor. auto 20 with atomic. Qed.

Lemma disciplined_backlog_sample p c : disciplined (backlog_sample p c).
Proof. unfold backlog_sample. auto 20 with atomic. Qed.

#[export] Hint Resolve disciplined_timed_producer disciplined_timed_consumer
  disciplined_timed_monitor disciplined_backlog_sample : atomic.

(** ** The specification: counters without locks *)

Definition unlocked (σ : shared) : shared := set_holder σ (fun _ => None).

Definition add_to (σ : shared) (l : nat) (n : Z) : shared :=
  set_value σ (upd (value σ) l (wrap64 (value σ l + n))).

(** A whole block in one step; any other call as in the implementation. *)
Inductive astep : config → config → Prop :=
| astep_add i l n k σ ps :
    ps !! i = Some (add_block l n k) → astep (σ, ps) (add_to σ l n, <[i := k ()]> ps)
| astep_value i l k σ ps :
    ps !! i = Some (value_block l k) → astep (σ, ps) (σ, <[i := k (value σ l)]> ps)
| astep_do i c (k : reply c → process) x σ σ' ps :
    ps !! i = Some (Do c k) → on_lock c = false → act i σ c x σ' →
    astep (σ, ps) (σ', <[i := k x]> ps).

(** ** The simulation *)

(** How process [i] of the implementation, in state [σ], matches its
    counterpart: at the same point; inside a block its counterpart has still
    to execute; or about to release, its counterpart being past the block. *)
Inductive matches (σ : shared) (i : nat) : process → process → Prop :=
| match_same p : disciplined p → matches σ i p p
| match_acquired_add l n k :
    holder σ l = Some i → (∀ u, disciplined (k u)) →
    matches σ i (Do (ReadValue l) (fun v =>
      Do (WriteValue l (wrap64 (v + n))) (fun _ => Do (Release l) k))) (add_block l n k)
| match_read_add l n k :
    holder σ l = Some i → (∀ u, disciplined (k u)) →
    matches σ i (Do (WriteValue l (wrap64 (value σ l + n))) (fun _ => Do (Release l) k))
      (add_block l n k)
| match_acquired_value l k :
    holder σ l = Some i → (∀ v, disciplined (k v)) →
    matches σ i (Do (ReadValue l) (fun v => Do (Release l) (fun _ => k v))) (value_block l k)
| match_releasing l k :
    holder σ l = Some i → disciplined (k ()) →
    matches σ i (Do (Release l) k) (k ()).

#[export] Hint Constructors matches : atomic.

Record simulates (s sa : config) : Prop := Simulates {
  sim_shared : sa.1 = unlocked s.1;
  sim_length : length sa.2 = length s.2;
  sim_procs : ∀ i p q, s.2 !! i = Some p → sa.2 !! i = Some q → matches s.1 i p q;
}.

(** What a process makes of one call. *)
Definition moves (i : nat) (σ : shared) (p : process) (σ' : shared) (p' : process) : Prop :=
  match p with
  | Do c k => ∃ x, act i σ c x σ' ∧ p' = k x
  | _ => False
  end.

Lemma step_moves s s' :
  step s s' → ∃ i p p', s.2 !! i = Some p ∧ moves i s.1 p s'.1 p' ∧ s'.2 = <[i := p']> s.2.
Proof. intros [i c k x σ σ' ps Hi Ha]. simpl. exists i, (Do c k), (k x). simpl. eauto. Qed.

(** What the other processes' calls leave process [i]: its locks, and the
    counters under them. *)
Definition undisturbed (i : nat) (σ σ' : shared) : Prop :=
  ∀ l, holder σ l = Some i → holder σ' l = Some i ∧ value σ' l = value σ l.

Lemma matches_undisturbed σ σ' i p q :
  undisturbed i σ σ' → matches σ i p q → matches σ' i p q.
Proof.
  intros Hu [p' Hp|l n k Hh Hk|l n k Hh Hk|l k Hh Hk|l k Hh Hk]; eauto with atomic;
    try (destruct (Hu l Hh) as [Hh' Hv]; eauto with atomic).
  rewrite <-Hv. auto with atomic.
Qed.

Lemma undisturbed_frame i σ σ' :
  holder σ' = holder σ → value σ' = value σ → undisturbed i σ σ'.
Proof. intros Hh Hv l Hl. by rewrite Hh, Hv. Qed.

Lemma undisturbed_holder i σ l o :
  holder σ l ≠ Some i → undisturbed i σ (set_holder σ (upd (holder σ) l o)).
Proof.
  intros Hne l' Hl'. simpl. rewrite upd_ne; [done|]. by intros ->.
Qed.

Lemma undisturbed_write i σ l z :
  holder σ l ≠ Some i → undisturbed i σ (set_value σ (upd (value σ) l z)).
Proof. intros Hne l' Hl'. simpl. rewrite upd_ne; [done|]. by intros ->. Qed.

Lemma disciplined_inv {A} (p : prog A) :
  disciplined p →
  (∃ a, p = Ret a) ∨ p = OutOfFuel ∨
  (∃ c k, p = Do c k ∧ on_lock c = false ∧ ∀ x, disciplined (k x)) ∨
  (∃ l n k, p = add_block l n k ∧ ∀ u, disciplined (k u)) ∨
  (∃ l k, p = value_block l k ∧ ∀ v, disciplined (k v)).
Proof. intros []; eauto 12. Qed.

(** A call outside the blocks does the same without locks. *)
Lemma act_unlocked i σ c x σ' :
  on_lock c = false → act i σ c x σ' →
  act i (unlocked σ) c x (unlocked σ') ∧ holder σ' = holder σ ∧ value σ' = value σ.
Proof.
  intros Hc Ha. destruct (act_frame _ _ _ _ _ Ha) as (_ & Hv & Hh & _ & _).
  split; [|split; [auto|apply Hv; by destruct c]].
  destruct c; try done; simpl in *; destruct_and?; by subst.
Qed.

(** One call of process [i], matched by at most one step of its counterpart. *)
Definition answered (i : nat) (σ' : shared) (p' : process) (σ : shared) (qs : list process)
    (q : process) : Prop :=
  ∃ qs' q', rtc astep (unlocked σ, qs) (unlocked σ', qs') ∧ qs' = <[i := q']> qs ∧
    matches σ' i p' q' ∧ ∀ j, j ≠ i → undisturbed j σ σ'.

Lemma matches_moves i σ p σ' p' qs q :
  qs !! i = Some q → matches σ i p q → moves i σ p σ' p' → answered i σ' p' σ qs q.
Proof.
  intros Hq Hm Hmv. unfold answered.
  destruct Hm as [p Hp|l n k Hh Hk|l n k Hh Hk|l k Hh Hk|l k Hh Hk]; simpl in Hmv.
  - apply disciplined_inv in Hp as [[a ->]|[->|[(c & k & -> & Hc & Hk)|[(l & n & k & -> & Hk)|(l & k & -> & Hk)]]]];
      simpl in Hmv; [done..|destruct Hmv as (x & Ha & ->)| |].
    + destruct (act_unlocked _ _ _ _ _ Hc Ha) as (Hu & Hh & Hv).
      do 2 eexists. split; [by apply rtc_once, (astep_do i c k x)|]. split; [done|].
      split; [auto with atomic|]. intros j _. by apply undisturbed_frame.
    + destruct Hmv as (x & [Hn ->] & ->). exists qs, (add_block l n k).
      rewrite list_insert_id by done. split; [done|]. split; [done|].
      split; [apply match_acquired_add; [apply upd_eq|done]|].
      intros j _. apply undisturbed_holder. by rewrite Hn.
    + destruct Hmv as (x & [Hn ->] & ->). exists qs, (value_block l k).
      rewrite list_insert_id by done. split; [done|]. split; [done|].
      split; [apply match_acquired_value; [apply upd_eq|done]|].
      intros j _. apply undisturbed_holder. by rewrite Hn.
  - destruct Hmv as (x & [-> ->] & ->). exists qs, (add_block l n k).
    rewrite list_insert_id by done. split; [done|]. split; [done|].
    split; [auto with atomic|]. by intros j _ l'.
  - destruct Hmv as (x & -> & ->). exists (<[i := k ()]> qs), (k ()).
    split; [by apply rtc_once, (astep_add i l n k)|]. split; [done|].
    split; [by apply match_releasing|]. intros j Hj. apply undisturbed_write. rewrite Hh. congruence.
  - destruct Hmv as (x & [-> ->] & ->). exists (<[i := k (value σ l)]> qs), (k (value σ l)).
    split; [exact (rtc_once _ _ (astep_value i l k (unlocked σ) qs Hq))|]. split; [done|].
    split; [by apply (match_releasing _ _ l (fun _ => k (value σ l)))|]. by intros j _ l'.
  - destruct Hmv as ([] & [_ ->] & ->). exists qs, (k ()).
    rewrite list_insert_id by done. split; [done|]. split; [done|].
    split; [auto with atomic|]. intros j Hj. apply undisturbed_holder. rewrite Hh. congruence.
Qed.

Lemma simulates_step s sa s' :
  simulates s sa → step s s' → ∃ sa', rtc astep sa sa' ∧ simulates s' sa'.
Proof.
  intros [Hsh Hlen Hps] (i & p & p' & Hp & Hmv & Heq)%step_moves.
  destruct s as [σ ps], s' as [σ' ps'], sa as [σa qs]. simpl in *. subst σa ps'.
  assert (∃ q, qs !! i = Some q) as [q Hq].
  { apply lookup_lt_is_Some_2. rewrite Hlen. by eapply lookup_lt_Some. }
  destruct (matches_moves i σ p σ' p' qs q Hq (Hps _ _ _ Hp Hq) Hmv)
    as (qs' & q' & Hst & -> & Hm & Hu).
  eexists. split; [exact Hst|]. split; simpl; [done|by rewrite !length_insert|].
  intros j r w Hr Hw. apply (lookup_moved_inv _ _ _ _ _ _ Hp) in Hr as [[-> ->]|[Hne Hr]].
  - rewrite (lookup_moved _ _ _ _ Hq) in Hw. by injection Hw as <-.
  - rewrite list_lookup_insert_ne in Hw by done. eapply matches_undisturbed; eauto.
Qed.

Lemma simulates_init n ps :
  Forall disciplined ps → simulates (init_shared n, ps) (init_shared n, ps).
Proof.
  intros H. split; [done..|]. simpl. intros i p q Hp Hq. assert (p = q) as <- by congruence.
  apply match_same. by apply (proj1 (Forall_lookup _ _) H i).
Qed.

Lemma reduction n ps s :
  Forall disciplined ps → steps (init_shared n, ps) s →
  ∃ sa, rtc astep (init_shared n, ps) sa ∧ simulates s sa.
Proof.
  intros Hd. remember (init_shared n, ps) as s0 eqn:E0. intros Hs.
  induction Hs as [s|s1 s2 s3 _ IH Hst]; subst.
  - eexists. split; [done|]. by apply simulates_init.
  - destruct (IH eq_refl) as (sa & Hra & Hsim).
    destruct (simulates_step _ _ _ Hsim Hst) as (sa' & Hra' & Hsim').
    exists sa'. split; [by etrans|done].
Qed.

(** A process outside its critical sections is where its counterpart is. *)
Definition outside (p : process) : bool :=
  match p with Do c _ => negb (on_lock c) || match c with Acquire _ => true | _ => false end | _ => true end.

Lemma matches_outside σ i p q : matches σ i p q → outside p = true → q = p.
Proof. by intros []. Qed.

(** In between critical sections the two pools agree. *)
Lemma reduction_outside n ps σ ps' :
  Forall disciplined ps → steps (init_shared n, ps) (σ, ps') →
  ∃ qs, rtc astep (init_shared n, ps) (unlocked σ, qs) ∧
    ∀ i p, ps' !! i = Some p → outside p = true → qs !! i = Some p.
Proof.
  intros Hd Hs. destruct (reduction _ _ _ Hd Hs) as ([σa qs] & Hr & [Hsh Hlen Hps]).
  simpl in *. subst σa. exists qs. split; [done|]. intros i p Hp Ho.
  assert (∃ q, qs !! i = Some q) as [q Hq].
  { apply lookup_lt_is_Some_2. rewrite Hlen. by eapply lookup_lt_Some. }
  by rewrite Hq, (matches_outside _ _ _ _ (Hps _ _ _ Hp Hq) Ho).
Qed.
