(* ===== verification/Steady.v ===== *)
(** * The steady-state summary

    What [main] of bench/sustained_bench.py and filtered_bench.py prints from
    the monitor's samples: the samples inside [steady_start, stop_time], the
    rates between the first and the last of them, the extremes of the
    backlog. *)
From S2P Require Import Prelude PyFloat PyStr PyM.

(** The timeline every process is given. *)
Record timeline := Timeline {
  start_time : float;
  stop_time : float;
  hard_stop_time : float;
  steady_start : float;
}.

Definition make_timeline (duration_secs drain_tail_secs ramp_up_secs t_now : float) : timeline :=
  let start := fadd t_now (of_int 1) in
  let stop := fadd start duration_secs in
  Timeline start stop (fadd stop drain_tail_secs) (fadd start ramp_up_secs).

(** [steady_start <= t <= stop_time] *)
Definition steady_at (tl : timeline) (t : float) : bool :=
  fle (steady_start tl) t && fle t (stop_time tl).

(** [[(t, p, c) for (t, p, c, b) in samples if steady_start <= t <= stop_time]] *)
Definition in_window (tl : timeline) (samples : list sample) : list (float * Z * Z) :=
  omap (fun s =>
    match s with
    | SBacklog t p c _ => if steady_at tl t then Some (t, p, c) else None
    | SRow _ _ => None
    end) samples.

(** [d / span if span > 0 else 0]; the integer 0 is formatted like 0.0. *)
Definition rate (d : Z) (span : float) : float :=
  if fgt span fzero then fquot (of_int d) span else fzero.

Definition min_list (x : Z) (l : list Z) : Z := foldl Z.min x l.
Definition max_list (x : Z) (l : list Z) : Z := foldl Z.max x l.

Record summary := Summary {
  from_secs : float;       (* t0 - start_time *)
  to_secs : float;         (* t1 - start_time *)
  span_secs : float;
  pub_rate : float;
  con_rate : float;
  min_backlog : Z;
  max_backlog : Z;
}.

Definition backlog_of (x : float * Z * Z) : Z := let '(_, p, c) := x in p - c.

(** [None]: "not enough samples in steady-state window". *)
Definition steady_state (tl : timeline) (samples : list sample) : option summary :=
  match in_window tl samples with
  | ((t0, p0, c0) :: _ :: _) as w =>
      let '(t1, p1, c1) := List.last w (t0, p0, c0) in
      let span := fsub t1 t0 in
      Some (Summary (fsub t0 (start_time tl)) (fsub t1 (start_time tl)) span
              (rate (p1 - p0) span) (rate (c1 - c0) span)
              (min_list (p0 - c0) (backlog_of <$> w)) (max_list (p0 - c0) (backlog_of <$> w)))
  | _ => None
  end.

(** ** Facts *)

Lemma min_list_le x l y : y = x ∨ y ∈ l → min_list x l ≤ y.
Proof.
  unfold min_list. revert x y. induction l as [|z l IH]; intros x y; simpl.
  - intros [-> | ?%elem_of_nil]; [lia|done].
  - rewrite elem_of_cons. intros [-> | [-> | H]].
    + transitivity (Z.min x z); [apply IH; by left|lia].
    + transitivity (Z.min x z); [apply IH; by left|lia].
    + apply IH. by right.
Qed.

Lemma max_list_ge x l y : y = x ∨ y ∈ l → y ≤ max_list x l.
Proof.
  unfold max_list. revert x y. induction l as [|z l IH]; intros x y; simpl.
  - intros [-> | ?%elem_of_nil]; [lia|done].
  - rewrite elem_of_cons. intros [-> | [-> | H]].
    + transitivity (Z.max x z); [lia|apply IH; by left].
    + transitivity (Z.max x z); [lia|apply IH; by left].
    + apply IH. by right.
Qed.

Lemma min_list_in x l : min_list x l = x ∨ min_list x l ∈ l.
Proof.
  unfold min_list. revert x. induction l as [|z l IH]; intros x; simpl; [by left|].
  rewrite elem_of_cons. destruct (IH (Z.min x z)) as [-> | H]; [|by auto].
  destruct (Z.min_spec x z) as [[_ ->]|[_ ->]]; auto.
Qed.

Lemma max_list_in x l : max_list x l = x ∨ max_list x l ∈ l.
Proof.
  unfold max_list. revert x. induction l as [|z l IH]; intros x; simpl; [by left|].
  rewrite elem_of_cons. destruct (IH (Z.max x z)) as [-> | H]; [|by auto].
  destruct (Z.max_spec x z) as [[_ ->]|[_ ->]]; auto.
Qed.

(** A rate is a number, and not a negative one, when the count did not go
    down; a window of no or negative length has rate 0. *)
Lemma rate_nonneg d span : 0 ≤ d < 2 ^ 63 → nonneg (rate d span) = true.
Proof.
  intros Hd. unfold rate. destruct (fgt span fzero) eqn:E; [|done].
  apply fquot_nonneg_finite; [apply of_int_nonneg; lia| |done].
  apply of_int_finite. pose proof (Z.pow_le_mono_r 2 63 1000). lia.
Qed.

Lemma in_window_iff tl samples t p c :
  (t, p, c) ∈ in_window tl samples ↔
  ∃ b, SBacklog t p c b ∈ samples ∧ fle (steady_start tl) t = true ∧ fle t (stop_time tl) = true.
Proof.
  unfold in_window, steady_at. rewrite list_elem_of_omap. split.
  - intros ([t' p' c' b|] & Hs & Heq); [|done].
    destruct (_ && _) eqn:E; [|done]. injection Heq as -> -> ->.
    apply andb_prop in E. by exists b.
  - intros (b & Hs & H1 & H2). exists (SBacklog t p c b). by rewrite H1, H2.
Qed.

Lemma last_in {A} (l : list A) d : l ≠ [] → List.last l d ∈ l.
Proof.
  induction l as [|x l IH]; [done|]. intros _. destruct l as [|y l]; [by left|].
  right. by apply IH.
Qed.

Lemma steady_state_inv tl samples s :
  steady_state tl samples = Some s →
  ∃ t0 p0 c0 t1 p1 c1 w,
    in_window tl samples = (t0, p0, c0) :: w ∧ w ≠ [] ∧
    List.last w (t0, p0, c0) = (t1, p1, c1) ∧
    s = Summary (fsub t0 (start_time tl)) (fsub t1 (start_time tl)) (fsub t1 t0)
          (rate (p1 - p0) (fsub t1 t0)) (rate (c1 - c0) (fsub t1 t0))
          (min_list (p0 - c0) (backlog_of <$> (t0, p0, c0) :: w))
          (max_list (p0 - c0) (backlog_of <$> (t0, p0, c0) :: w)).
Proof.
  unfold steady_state. destruct (in_window tl samples) as [|[[t0 p0] c0] [|x w]]; [done..|].
  destruct (List.last ((t0, p0, c0) :: x :: w) (t0, p0, c0)) as [[t1 p1] c1] eqn:E.
  intros Hs. injection Hs as Hs. symmetry in Hs.
  exists t0, p0, c0, t1, p1, c1, (x :: w). auto.
Qed.

Lemma backlog_bounds (x : float * Z * Z) w y :
  y ∈ x :: w →
  min_list (backlog_of x) (backlog_of <$> x :: w) ≤ backlog_of y
    ≤ max_list (backlog_of x) (backlog_of <$> x :: w).
Proof.
  intros Hy. assert (backlog_of y ∈ backlog_of <$> x :: w) by by apply list_elem_of_fmap_2.
  split; [apply min_list_le|apply max_list_ge]; auto.
Qed.

Lemma backlog_attained (x : float * Z * Z) w :
  (∃ y, y ∈ x :: w ∧ backlog_of y = min_list (backlog_of x) (backlog_of <$> x :: w)) ∧
  (∃ y, y ∈ x :: w ∧ backlog_of y = max_list (backlog_of x) (backlog_of <$> x :: w)).
Proof.
  split.
  - destruct (min_list_in (backlog_of x) (backlog_of <$> x :: w)) as [-> | H].
    + exists x. by split; [left|].
    + apply list_elem_of_fmap in H as (y & -> & Hy). eauto.
  - destruct (max_list_in (backlog_of x) (backlog_of <$> x :: w)) as [-> | H].
    + exists x. by split; [left|].
    + apply list_elem_of_fmap in H as (y & -> & Hy). eauto.
Qed.

(** ** Properties *)

(** C32. The steady-state summary is printed exactly when at least two samples
    lie in the window [steady_start, stop_time]; its backlog extremes bound
    the backlog of every sample in the window and are attained there. *)
Theorem steady_state_sound tl samples :
  (steady_state tl samples = None ↔ (length (in_window tl samples) < 2)%nat) ∧
  ∀ s, steady_state tl samples = Some s →
    (∀ t p c b, SBacklog t p c b ∈ samples → steady_at tl t = true →
       min_backlog s ≤ p - c ≤ max_backlog s) ∧
    (∃ t p c b, SBacklog t p c b ∈ samples ∧ steady_at tl t = true ∧ p - c = min_backlog s) ∧
    (∃ t p c b, SBacklog t p c b ∈ samples ∧ steady_at tl t = true ∧ p - c = max_backlog s).
Proof.
  split.
  { unfold steady_state. destruct (in_window tl samples) as [|[[t0 p0] c0] [|x w]]; simpl;
      [split; [lia|done]..|]. destruct (match w with [] => x | _ => _ end) as [[t1 p1] c1].
    split; [done|lia]. }
  intros s (t0 & p0 & c0 & t1 & p1 & c1 & w & Hw & _ & _ & ->)%steady_state_inv. simpl.
  assert (∀ t p c, (t, p, c) ∈ (t0, p0, c0) :: w →
    ∃ b, SBacklog t p c b ∈ samples ∧ steady_at tl t = true) as Hin.
  { intros t p c H. rewrite <-Hw in H. apply in_window_iff in H as (b & Hb & H1 & H2).
    exists b. unfold steady_at. by rewrite H1, H2. }
  destruct (backlog_attained (t0, p0, c0) w) as [([[t p] c] & Hy & Hmin) ([[t' p'] c'] & Hy' & Hmax)].
  split; [|split].
  - intros t2 p2 c2 b Hs Ht. apply (backlog_bounds (t0, p0, c0) w (t2, p2, c2)).
    rewrite <-Hw. apply in_window_iff. exists b. by apply andb_prop in Ht.
  - destruct (Hin _ _ _ Hy) as (b & Hb & Ht). exists t, p, c, b. by split; [|split].
  - destruct (Hin _ _ _ Hy') as (b & Hb & Ht). exists t', p', c', b. by split; [|split].
Qed.

(** No division by zero and no negative rate: over counts that do not go
    down, both printed rates are non-negative numbers, even when the window
    has no length. *)
Theorem steady_rates_nonneg tl samples s :
  steady_state tl samples = Some s →
  (∀ t p c t' p' c', (t, p, c) ∈ in_window tl samples → (t', p', c') ∈ in_window tl samples →
     flt t' t = false → - 2 ^ 62 ≤ p ≤ p' ∧ p' < 2 ^ 62 ∧ - 2 ^ 62 ≤ c ≤ c' ∧ c' < 2 ^ 62) →
  (∀ t p c t' p' c' w, in_window tl samples = (t, p, c) :: w →
     last w = Some (t', p', c') → flt t' t = false) →
  nonneg (pub_rate s) = true ∧ nonneg (con_rate s) = true.
Proof.
  intros (t0 & p0 & c0 & t1 & p1 & c1 & w & Hw & Hne & Hl & ->)%steady_state_inv Hmono Hord. simpl.
  assert (last w = Some (t1, p1, c1)) as Hlast.
  { rewrite <-Hl. clear -Hne. induction w as [|x w IH]; [done|].
    destruct w as [|y w]; [done|]. by apply IH. }
  assert ((t1, p1, c1) ∈ in_window tl samples) as H1.
  { rewrite Hw. right. rewrite <-Hl. by apply last_in. }
  assert ((t0, p0, c0) ∈ in_window tl samples) as H0 by (rewrite Hw; by left).
  destruct (Hmono _ _ _ _ _ _ H0 H1 (Hord _ _ _ _ _ _ _ Hw Hlast)) as (? & ? & ? & ?).
  split; apply rate_nonneg; lia.
Qed.

Module SteadyExample.
Definition tl : timeline := make_timeline (of_int 9) (of_int 0) (of_int 2) fzero.
Definition samples : list sample :=
  [SBacklog (of_int 2) 1 0 1; SBacklog (of_int 4) 5 3 2; SBacklog (of_int 6) 9 8 1;
   SBacklog (of_int 8) 12 9 3].
Definition s : summary := default (Summary fzero fzero fzero fzero fzero 0 0) (steady_state tl samples).
End SteadyExample.

Lemma steady_rates_nonneg_witness :
  nonneg (pub_rate SteadyExample.s) = true ∧ nonneg (con_rate SteadyExample.s) = true.
Proof.
  apply (steady_rates_nonneg SteadyExample.tl SteadyExample.samples).
  - vm_compute. reflexivity.
  - change (in_window SteadyExample.tl SteadyExample.samples)
      with [(of_int 4, 5, 3); (of_int 6, 9, 8); (of_int 8, 12, 9)].
    intros t p c t' p' c' H1 H2 Hle.
    repeat (apply elem_of_cons in H1 as [H1|H1]); [..|by apply elem_of_nil in H1];
      repeat (apply elem_of_cons in H2 as [H2|H2]); try (by apply elem_of_nil in H2);
      simplify_eq; try (vm_compute in Hle; discriminate Hle); lia.
  - change (in_window SteadyExample.tl SteadyExample.samples)
      with [(of_int 4, 5, 3); (of_int 6, 9, 8); (of_int 8, 12, 9)].
    intros t p c t' p' c' w H1 H2. simplify_eq. simpl in H2. simplify_eq. reflexivity.
Defined.

Lemma steady_state_sound_witness :
  (∀ t p c b, SBacklog t p c b ∈ SteadyExample.samples → steady_at SteadyExample.tl t = true →
     min_backlog SteadyExample.s ≤ p - c ≤ max_backlog SteadyExample.s) ∧
  (∃ t p c b, SBacklog t p c b ∈ SteadyExample.samples ∧ steady_at SteadyExample.tl t = true ∧
     p - c = min_backlog SteadyExample.s) ∧
  (∃ t p c b, SBacklog t p c b ∈ SteadyExample.samples ∧ steady_at SteadyExample.tl t = true ∧
     p - c = max_backlog SteadyExample.s).
Proof.
  apply (proj2 (steady_state_sound SteadyExample.tl SteadyExample.samples)).
  vm_compute. reflexivity.
Defined.
