(* ===== verification/SustainedBench.v ===== *)
(** * bench/sustained_bench.py

    N producers and M consumers on one queue for a fixed window, two shared
    counters, a sampling monitor. *)
From S2P Require Import Prelude PyFloat PyStr PyM OpenRetry Pool Workers System Observe Histories Timed Steady.

(** The parsed command line ([ap.parse_args()]). *)
Record args := Args {
  dsn : string;
  sql : string;
  producers : Z;
  consumers : Z;
  batch_rows : Z;
  consume_batch : Z;
  consume_timeout_ms : Z;
  duration_secs : float;
  ramp_up_secs : float;
  drain_tail_secs : float;
  sample_interval_secs : float;
  producer_rate_limit : float;
  queue_uri : string;
  broker_uri : string;
}.

Section sustained.
(** [psycopg.sql.Literal(s).as_string(cur)] *)
Context (sql_literal : string → string).

(** [fuel] bounds the iterations of the timed loops. *)
Context (fuel : nat) (a : args) (tl : timeline).

Definition source_sql : string :=
  "CREATE TEMP TABLE prod_src AS " +:+ sql a +:+ " LIMIT " +:+ py_str (batch_rows a).

Definition publish_sql : string :=
  "SELECT count(*) FROM (SELECT bmq_publish_row(%s, t, "
    +:+ attr_array_sql +:+ ") FROM prod_src t) s".

Definition prime_publish_sql : string :=
  "SELECT bmq_publish_row(%s, t, " +:+ attr_array_sql +:+ ") FROM prod_src t LIMIT 1".

Definition prime_consume_sql : string :=
  "SELECT count(*) FROM bmq_consume(%s, NULL, 1, 50, true)".

Definition consume_sql : string :=
  "SELECT count(*) FROM bmq_consume(%s, NULL, %s, %s, true)".

(** [target_elapsed = local_published / (rate_limit / producers)] and the
    sleep towards it. *)
Definition throttle (local_published : Z) (worker_start : float) : Py unit :=
  if fgt (producer_rate_limit a) fzero then
    pace (share <- fdiv (producer_rate_limit a) (of_int (producers a));;
          fdiv (of_int local_published) share) worker_start
  else ret ().

Definition producer (counter : nat) : Py Z :=
  timed_producer fuel (dsn a)
    [set_broker_sql sql_literal (broker_uri a); source_sql]
    prime_publish_sql publish_sql (queue_uri a) throttle (stop_time tl) counter.

Definition consumer (counter : nat) : Py Z :=
  timed_consumer fuel (dsn a) (set_broker_sql sql_literal (broker_uri a))
    prime_consume_sql [VStr (queue_uri a)]
    consume_sql [VStr (queue_uri a); VInt (consume_batch a); VInt (consume_timeout_ms a)]
    (hard_stop_time tl) counter.

Definition monitor (published consumed : nat) : Py unit :=
  timed_monitor fuel (backlog_sample published consumed)
    (hard_stop_time tl) (sample_interval_secs a).

(** ** [main] *)

(** The shared objects: counters 0 and 1, result queues 0 and 1. *)
Definition published_counter : nat := 0.
Definition consumed_counter : nat := 1.
Definition pub_result_q : nat := 0.
Definition con_result_q : nat := 1.

Definition run_producer (i : Z) : process :=
  n <- producer published_counter;; call (QueuePut pub_result_q (QInt n)).

Definition run_consumer (i : Z) : process :=
  n <- consumer consumed_counter;; call (QueuePut con_result_q (QInt n)).

(** The processes [main] starts, in order. *)
Definition workers : list process :=
  (run_producer <$> range 0 (producers a)) ++
  (run_consumer <$> range 0 (consumers a)) ++
  [monitor published_counter consumed_counter].

Definition n_workers : nat := Z.to_nat (producers a + consumers a).

(** After the joins: [total_published], [total_consumed]. *)
Definition totals (σ : shared) : option (Z * Z) :=
  total_published ← sum_get (producers a) int_of (queue σ pub_result_q);
  total_consumed ← sum_get (consumers a) int_of (queue σ con_result_q);
  Some (total_published, total_consumed).

Definition steady_lines (samples : list sample) : list (list frag) :=
  match steady_state tl samples with
  | Some s =>
      [[FS newline; FS "steady-state window: t="; FF ".1f" (from_secs s); FS "s.."; FF ".1f" (to_secs s);
        FS "s (span="; FF ".1f" (span_secs s); FS "s)"];
       [FS "steady-state publish rate: "; FF ",.0f" (pub_rate s); FS "/s"];
       [FS "steady-state consume (sustained) rate: "; FF ",.0f" (con_rate s); FS "/s"];
       [FS "backlog in steady-state window: min="; FZ (min_backlog s);
        FS " max="; FZ (max_backlog s)]]
  | None =>
      [[FS newline; FS "not enough samples in steady-state window - increase --duration-secs or decrease --sample-interval-secs"]]
  end.

(** One line of the backlog curve. *)
Definition curve_line (s : sample) : list frag :=
  match s with
  | SBacklog t p c b =>
      [FS "  t="; FF "6.1f" (fsub t (start_time tl)); FS "s  published="; FI ">9" p;
       FS " consumed="; FI ">9" c; FS " backlog="; FI ">7" b]
  | SRow _ _ => []
  end.

Definition head_lines (total_published total_consumed : Z) : list (list frag) :=
  [[FS "producers="; FZ (producers a); FS " consumers="; FZ (consumers a);
    FS " duration="; FF EmptyString (duration_secs a);
    FS "s ramp_up="; FF EmptyString (ramp_up_secs a);
    FS "s drain_tail="; FF EmptyString (drain_tail_secs a); FS "s"];
   [FS "total_published="; FZ total_published; FS " total_consumed="; FZ total_consumed;
    FS " final_backlog="; FZ (total_published - total_consumed)];
   [FS "backlog curve (t_since_start, published_so_far, consumed_so_far, backlog):"]].

(** What [main] prints once it has its totals. *)
Definition report (σ : shared) : option (list (list frag)) :=
  '(total_published, total_consumed) ← totals σ;
  Some (head_lines total_published total_consumed
        ++ (curve_line <$> samples σ) ++ steady_lines (samples σ)).

(** ** Checking the workers *)

Definition timed_sql (s : string) : bool :=
  bool_decide (s = publish_sql) || bool_decide (s = consume_sql).

Definition accounts : list account :=
  [Account published_counter pub_result_q int_of;
   Account consumed_counter con_result_q int_of].

Section safety.
Context (n i : nat) (Hi : (i < n)%nat).

Lemma sustained_throttle_safe k ws g (Ψ : result unit → ledger → Prop) :
  (∀ r, Ψ r g) → safe (client n timed_sql i) Ψ (throttle k ws) g.
Proof using.
  intros H. unfold throttle. destruct (fgt _ _); [|apply H].
  apply safe_pace; [|done]. intros Ψ' HΨ'.
  apply safe_bind, safe_fdiv. intros [s|e]; [by apply safe_fdiv|apply HΨ'].
Qed.

Lemma sustained_run_producer_safe k :
  safe (client n timed_sql i) (finished n accounts [(0%nat, KInt)] i) (run_producer k) ledger0.
Proof using Hi.
  apply safe_bind, timed_producer_safe; [done|by repeat constructor|done| |done|].
  - intros. by apply sustained_throttle_safe.
  - intros m g Ht. apply (safe_report n timed_sql i accounts published_counter m); [by apply tally_reportable|].
    by repeat constructor.
Qed.

Lemma sustained_run_consumer_safe k :
  safe (client n timed_sql i) (finished n accounts [(1%nat, KInt)] i) (run_consumer k) ledger0.
Proof using Hi.
  apply safe_bind, timed_consumer_safe; [done..|].
  intros m g Ht. apply (safe_report n timed_sql i accounts consumed_counter m); [by apply tally_reportable|].
  by repeat constructor.
Qed.
End safety.

Lemma sustained_monitor_safe n i :
  (n ≤ i)%nat →
  safe (client n timed_sql i) (finished n accounts [] i)
    (monitor published_counter consumed_counter) ledger0.
Proof. intros Hi. apply timed_monitor_safe; [done|]. apply backlog_sample_safe. Qed.

Lemma producer_facts counter :
  wp (producer counter) (count_facts prime_publish_sql publish_sql (stop_time tl) fuel).
Proof.
  apply timed_producer_facts; [by repeat constructor..|done|].
  intros n ws. unfold throttle. destruct (fgt _ _); [|done]. auto with quiet.
Qed.

Lemma consumer_facts counter :
  wp (consumer counter) (count_facts prime_consume_sql consume_sql (hard_stop_time tl) fuel).
Proof. by apply timed_consumer_facts. Qed.
End sustained.

Definition main (sql_literal : string → string) (fuel : nat) (a : args) : Main unit :=
  t_now <~ mcall PerfCounter;;
  let tl := make_timeline (duration_secs a) (drain_tail_secs a) (ramp_up_secs a) t_now in
  _ <~ run_fleet (run_producer sql_literal fuel a tl) (run_consumer sql_literal fuel a tl)
         (producers a) (consumers a) (monitor fuel a tl published_counter consumed_counter);;
  total_published <~ sum_gets pub_result_q (producers a);;
  total_consumed <~ sum_gets con_result_q (consumers a);;
  _ <~ mfor (head_lines a total_published total_consumed) mprint;;
  samples <~ msamples;;
  _ <~ mfor samples (fun s => mprint (curve_line tl s));;
  samples <~ msamples;;
  _ <~ mfor (steady_lines tl samples) mprint;;
  mret ().

(** ** Properties *)

Section properties.
Context (sql_literal : string → string) (fuel : nat) (a : args) (tl : timeline).

(** [main] after its [start()] calls. *)
Abbreviation start := (init_shared (n_workers a), workers sql_literal fuel a tl).

Lemma sustained_start_fleet :
  0 ≤ producers a → 0 ≤ consumers a →
  n_workers a = fleet_parties (range 0 (producers a)) (range 0 (consumers a)).
Proof.
  intros Hp Hc. unfold n_workers, fleet_parties. rewrite !length_range. lia.
Qed.

#[local] Hint Resolve sustained_run_producer_safe sustained_run_consumer_safe sustained_monitor_safe : core.

Definition sustained : Bench :=
  fleet timed_sql accounts (range 0 (producers a)) (range 0 (consumers a))
    (run_producer sql_literal fuel a tl) (run_consumer sql_literal fuel a tl)
    (monitor fuel a tl published_counter consumed_counter) (fun _ => KInt) (fun _ => KInt)
    (fun i k _ Hi => sustained_run_producer_safe sql_literal fuel a tl _ i Hi k)
    (fun i k _ Hi => sustained_run_consumer_safe sql_literal fuel a tl _ i Hi k)
    (fun i Hi => sustained_monitor_safe fuel a tl _ i Hi).

Lemma complete_queues σ ps :
  0 ≤ producers a → 0 ≤ consumers a → steps start (σ, ps) → parties_ok (n_workers a) ps →
  length (queue σ pub_result_q) = Z.to_nat (producers a) ∧
  length (queue σ con_result_q) = Z.to_nat (consumers a) ∧
  ∀ acc, acc ∈ accounts → value σ (acc_counter acc) = wrap64 (reported acc (queue σ (acc_queue acc))).
Proof.
  intros Hp Hc Hs Hok. rewrite sustained_start_fleet in Hs, Hok by done.
  destruct (fleet_complete timed_sql accounts (range 0 (producers a)) (range 0 (consumers a))
    (run_producer sql_literal fuel a tl) (run_consumer sql_literal fuel a tl)
    (monitor fuel a tl published_counter consumed_counter) (fun _ => KInt) (fun _ => KInt))
    with (σ := σ) (ps := ps) as (Hq0 & Hq1 & Hacc); auto.
  apply Permutation_length in Hq0, Hq1.
  rewrite !length_fmap, !length_range in Hq0, Hq1. auto.
Qed.

Lemma sustained_results σ ps :
  0 ≤ producers a → 0 ≤ consumers a → steps start (σ, ps) → all_ended ps →
  parties_ok (n_workers a) ps ↔
  (Z.to_nat (producers a) ≤ length (queue σ pub_result_q))%nat ∧
  (Z.to_nat (consumers a) ≤ length (queue σ con_result_q))%nat.
Proof.
  intros Hp Hc Hs Hend. rewrite sustained_start_fleet in Hs |- * by done.
  rewrite <-!(length_range (producers a)), <-!(length_range (consumers a)).
  pose proof (fleet_results timed_sql accounts (range 0 (producers a)) (range 0 (consumers a))
    (run_producer sql_literal fuel a tl) (run_consumer sql_literal fuel a tl)
    (monitor fuel a tl published_counter consumed_counter) (fun _ => KInt) (fun _ => KInt)) as H.
  apply H; auto.
Qed.

(** When every producer and consumer has completed, whatever the
    interleaving and however the monitor ended, [main] gets all the results it waits for, and the two shared counters hold
    exactly the totals it prints (modulo the width of the C long behind
    them): no locked update is lost and none is counted twice. *)
Theorem totals_match_counters σ ps :
  0 ≤ producers a → 0 ≤ consumers a →
  steps start (σ, ps) → parties_ok (n_workers a) ps →
  ∃ total_published total_consumed,
    totals a σ = Some (total_published, total_consumed) ∧
    value σ published_counter = wrap64 total_published ∧
    value σ consumed_counter = wrap64 total_consumed.
Proof.
  intros Hp Hc Hs Hok. destruct (complete_queues σ ps) as (Hq0 & Hq1 & Hacc); [done..|].
  unfold totals. rewrite !sum_get_all by done. simpl. do 2 eexists. split; [done|].
  split; [apply (Hacc (Account published_counter pub_result_q int_of))
         |apply (Hacc (Account consumed_counter con_result_q int_of))]; set_solver.
Qed.

(** If any producer or consumer dies of an exception, then even after
    every process has ended [main] does not get its totals: a result queue
    runs dry and its [get] waits for ever, so nothing is printed. *)
Theorem failed_worker_hangs_main σ ps j e :
  0 ≤ producers a → 0 ≤ consumers a →
  steps start (σ, ps) → all_ended ps →
  ps !! j = Some (Ret (Err e)) → (j < n_workers a)%nat →
  report a tl σ = None.
Proof.
  intros Hp Hc Hs Hend Hj Hlt. rewrite sustained_start_fleet in Hs, Hlt by done.
  assert (totals a σ = None) as Ht; [|unfold report; by rewrite Ht].
  unfold totals.
  destruct (fleet_failed timed_sql accounts (range 0 (producers a)) (range 0 (consumers a))
    (run_producer sql_literal fuel a tl) (run_consumer sql_literal fuel a tl)
    (monitor fuel a tl published_counter consumed_counter) (fun _ => KInt) (fun _ => KInt))
    with (σ := σ) (ps := ps) (j := j) (e := e) as [Hq|Hq]; auto;
    rewrite length_range in Hq.
  - by rewrite (sum_get_short _ _ (queue σ pub_result_q)).
  - rewrite (sum_get_short _ _ (queue σ con_result_q)) by done.
    by destruct (sum_get (producers a) _ _).
Qed.

(** If a producer or consumer dies before it reaches the barrier (a
    failed connect, a missing source table, a priming error), no other
    producer or consumer ever completes: the barrier has no timeout and is
    not broken, so the survivors that reach it wait for ever. *)
Theorem death_before_barrier_blocks_all σ ps σ' ps' j e :
  0 ≤ producers a → 0 ≤ consumers a →
  steps start (σ, ps) → ps !! j = Some (Ret (Err e)) → (j < n_workers a)%nat →
  j ∉ arrived σ →
  steps (σ, ps) (σ', ps') →
  ∀ i, (i < n_workers a)%nat → ps' !! i ≠ Some (Ret (Ok ())).
Proof.
  intros Hp Hc Hs Hj Hlt Hn Hs' i Hi. rewrite sustained_start_fleet in Hs, Hlt, Hi by done.
  by apply (stuck_at_barrier (HB := sustained) σ ps σ' ps' j e).
Qed.

(** What worker [j] primes its queue handle with. *)
Definition prime_of (j : nat) : string :=
  if Z.of_nat j <? producers a then prime_publish_sql else prime_consume_sql.

Lemma worker_primes j p (Φ : trace → result unit → Prop) :
  0 ≤ producers a → 0 ≤ consumers a → (j < n_workers a)%nat →
  workers sql_literal fuel a tl !! j = Some p → (∀ h r, Φ h r) →
  guarded (primes timed_sql (prime_of j) [VStr (queue_uri a)]) [] p Φ.
Proof.
  intros Hp Hc Hj Hw HΦ. unfold n_workers in Hj. unfold workers in Hw.
  assert (∀ (q : nat) h n, guarded (primes timed_sql (prime_of j) [VStr (queue_uri a)]) h
            (call (QueuePut q (QInt n))) Φ) as Hput by (split; [done|intros; apply HΦ]).
  apply lookup_app_Some in Hw as [Hw|[Hge Hw]].
  - pose proof (lookup_lt_Some _ _ _ Hw) as Hlt. rewrite length_fmap, length_range in Hlt.
    apply list_lookup_fmap_Some in Hw as (k & -> & _). unfold run_producer.
    apply guarded_bind. unfold prime_of in *. rewrite (proj2 (Z.ltb_lt _ _)) in * by lia.
    apply timed_producer_primes; [done|by apply Forall_cons_2, Forall_cons_2|..|intros h [m|e]; [apply Hput|apply HΦ]].
    intros n ws. unfold throttle. destruct (fgt _ _); [|done]. apply avoids_bind; [|intros x].
    + apply avoids_bind; [unfold fdiv; by destruct (is_zero _)|]. intros x. unfold fdiv.
      by destruct (is_zero _).
    + split; [done|]. intros now. cbn. destruct (flt _ _); [apply no_arrival_sleep|done].
  - rewrite length_fmap, length_range in Hge, Hw. apply lookup_app_Some in Hw as [Hw|[Hge' _]].
    + apply list_lookup_fmap_Some in Hw as (k & -> & _). unfold run_consumer.
      apply guarded_bind. unfold prime_of in *. rewrite (proj2 (Z.ltb_ge _ _)) in * by lia.
      apply timed_consumer_primes; [done|done|intros h [m|e]; [apply Hput|apply HΦ]].
    + rewrite length_fmap, length_range in Hge'. lia.
Qed.

(** C17. The barrier keeps the timed window clean.  In every interleaving,
    when any producer or consumer issues a timed publish or consume statement,
    every producer and every consumer has by then called barrier.wait(), and
    before it did so its own priming statement on the benchmark's queue (the
    producers' one-row publish, the consumers' one-message consume) had
    succeeded and it had issued no timed statement. *)
Theorem timed_only_after_barrier l s before i stmt params x after :
  0 ≤ producers a → 0 ≤ consumers a →
  logged start l s → l = before ++ (i, Ev (Execute stmt params) x) :: after →
  stmt = publish_sql ∨ stmt = consume_sql →
  ∀ j, (j < n_workers a)%nat →
  ∃ t1 t2, calls_of j before = t1 ++ Ev BarrierArrive () :: t2 ∧
    primed timed_sql (prime_of j) [VStr (queue_uri a)] t1.
Proof.
  intros Hp Hc Hl -> Hstmt j Hj.
  destruct (logged_app_inv _ _ _ _ Hl) as ([σ ps] & Hb & Ha).
  destruct (logged_next _ _ _ _ _ _ Ha) as (k & Hi).
  assert (j ∈ arrived σ) as Hin.
  { apply (timed_after_barrier (HB := sustained) σ ps i stmt).
    - apply logged_steps in Hb. by rewrite sustained_start_fleet in Hb.
    - apply bind_Some. eexists. by split; [exact Hi|].
    - simpl. unfold timed_sql. by destruct Hstmt as [-> | ->].
    - simpl. by rewrite <-sustained_start_fleet. }
  apply (logged_arrived _ _ _ _ _ _ Hb) in Hin.
  apply list_elem_of_split in Hin as (t1 & t2 & E). exists t1, t2. split; [done|].
  destruct (lookup_lt_is_Some_2 (workers sql_literal fuel a tl) j) as [p Hw].
  { unfold workers. rewrite !length_app, !length_fmap, !length_range. unfold n_workers in Hj. lia. }
  apply (guarded_logged (primes timed_sql (prime_of j) [VStr (queue_uri a)]) _ _ _ j p
    (fun _ _ => True) Hb Hw) with (e := Ev BarrierArrive ()) (t2 := t2); [by apply worker_primes|done..].
Qed.

(** C16. A producer that completes returns the sum of the counts its timed
    publish statements returned, one count per successful statement; the
    one priming statement that also published (once, successfully) is not
    in the count. *)
Theorem producer_counts counter t n :
  exec (producer sql_literal fuel a tl counter) t (Some (Ok n)) →
  n = Zsum (fetched t) ∧
  times publish_sql (succeeded t) = length (fetched t) ∧
  times prime_publish_sql (succeeded t) = 1%nat.
Proof.
  intros He. destruct (exec_wp _ _ _ _ (producer_facts sql_literal fuel a tl counter) He)
    as (? & ? & ?). auto.
Qed.

(** C25. Against any database that answers, a producer ends as soon as its
    clock has passed the deadline: it is still running after [fuel]
    iterations only if it has read the clock below [stop_time] [fuel]
    times. *)
Theorem producer_terminates counter t r :
  exec (producer sql_literal fuel a tl counter) t r →
  (below (stop_time tl) (clocks t) < fuel)%nat →
  ∃ res, r = Some res.
Proof.
  intros He Hlt. pose proof (exec_wp _ _ _ _ (producer_facts sql_literal fuel a tl counter) He) as H.
  destruct r as [res|]; [by exists res|]. simpl in H. lia.
Qed.
End properties.

(** ** The properties at work: one producer, one consumer, the monitor *)

Module Example.
Definition quote (s : string) : string := "'" +:+ s +:+ "'".

Definition a : args :=
  Args "db" "SELECT 1" 1 1 2000 2000 200 (of_int 9) (of_int 1) (of_int 0) (of_int 2)
    fzero "bmq://bmq.test.mem.priority/q" "tcp://localhost:30114".

Definition tl : timeline := make_timeline (duration_secs a) (drain_tail_secs a) (ramp_up_secs a) fzero.

Definition begin : config := (init_shared (n_workers a), workers quote 3 a tl).

(** Each primes, both pass the barrier, the producer publishes 3 rows, the
    consumer drains 2, the monitor samples once. *)
Definition producer_setup : list (nat * answer) := replicate 4 (0%nat, AUnit) ++ [(0%nat, AUnit)].
Definition consumer_setup : list (nat * answer) := replicate 4 (1%nat, AUnit).
Definition barrier_passed : list (nat * answer) :=
  producer_setup ++ consumer_setup ++ [(0%nat, AUnit); (1%nat, AUnit)].
Definition produce : list (nat * answer) :=
  [(0%nat, AFloat (of_int 2)); (0%nat, AFloat (of_int 3)); (0%nat, AUnit);
   (0%nat, ARow [VInt 3])] ++ replicate 4 (0%nat, AUnit).
Definition consume : list (nat * answer) :=
  [(1%nat, AFloat (of_int 3)); (1%nat, AUnit); (1%nat, ARow [VInt 2])] ++
  replicate 4 (1%nat, AUnit).
Definition watch : list (nat * answer) :=
  [(2%nat, AFloat (of_int 3)); (2%nat, AUnit)] ++ replicate 6 (2%nat, AUnit) ++
  [(2%nat, AFloat (of_int 4)); (2%nat, AUnit); (2%nat, AFloat (of_int 11))].
Definition finish (i : nat) : list (nat * answer) :=
  [(i, AFloat (of_int 11)); (i, AUnit); (i, AUnit)].

Definition good : list (nat * answer) :=
  barrier_passed ++ produce ++ consume ++ watch ++ finish 0 ++ finish 1.

(** The producer's second publish fails. *)
Definition bad : list (nat * answer) :=
  barrier_passed ++ produce ++ consume ++ watch ++ finish 1 ++
  [(0%nat, AFloat (of_int 4)); (0%nat, AErr (DbError "gone")); (0%nat, AUnit)].

(** One producer's replies on their own: it publishes once. *)
Definition alone : list answer :=
  [AUnit; AUnit; AUnit; AUnit; AUnit; AUnit; AFloat (of_int 2); AFloat (of_int 3);
   AUnit; ARow [VInt 3]; AUnit; AInt 0; AUnit; AUnit; AFloat (of_int 11); AUnit].

(** The producer cannot connect. *)
Definition no_connection : list (nat * answer) := [(0%nat, AErr (OSError "refused"))].
End Example.

Lemma totals_match_counters_witness :
  ∃ p c, totals Example.a (final Example.begin Example.good).1 = Some (p, c) ∧
    value (final Example.begin Example.good).1 published_counter = wrap64 p ∧
    value (final Example.begin Example.good).1 consumed_counter = wrap64 c.
Proof.
  apply (totals_match_counters Example.quote 3 Example.a Example.tl _
    (final Example.begin Example.good).2); [done|done| |].
  - apply final_steps. vm_compute. reflexivity.
  - apply all_ok_parties, all_ok_check. vm_compute. reflexivity.
Defined.

Lemma failed_worker_hangs_main_witness :
  report Example.a Example.tl (final Example.begin Example.bad).1 = None.
Proof.
  apply (failed_worker_hangs_main Example.quote 3 Example.a Example.tl _
    (final Example.begin Example.bad).2 0 (DbError "gone")); [done|done| | | |].
  - apply final_steps. vm_compute. reflexivity.
  - apply all_ended_check. vm_compute. reflexivity.
  - vm_compute. reflexivity.
  - vm_compute. lia.
Defined.

Lemma death_before_barrier_blocks_all_witness :
  (final Example.begin (Example.no_connection ++ Example.consumer_setup)).2 !! 1%nat
    ≠ Some (Ret (Ok ())).
Proof.
  apply (death_before_barrier_blocks_all Example.quote 3 Example.a Example.tl
    (final Example.begin Example.no_connection).1 (final Example.begin Example.no_connection).2
    (final (final Example.begin Example.no_connection) Example.consumer_setup).1
    (final (final Example.begin Example.no_connection) Example.consumer_setup).2
    0 (OSError "refused")); [done|done| | | | | |].
  - apply final_steps. vm_compute. reflexivity.
  - vm_compute. reflexivity.
  - vm_compute. lia.
  - vm_compute. intros H. inversion H.
  - apply (final_steps (final Example.begin Example.no_connection)). vm_compute. reflexivity.
  - vm_compute. lia.
Defined.

Lemma timed_only_after_barrier_witness :
  let before := history Example.begin (Example.barrier_passed ++ take 2 Example.produce) in
  ∃ t1 t2, calls_of 1 before = t1 ++ Ev BarrierArrive () :: t2 ∧
    primed timed_sql prime_consume_sql [VStr (queue_uri Example.a)] t1.
Proof.
  cbv zeta.
  apply (timed_only_after_barrier Example.quote 3 Example.a Example.tl
    (history Example.begin (Example.barrier_passed ++ take 3 Example.produce))
    (reached Example.begin (Example.barrier_passed ++ take 3 Example.produce))
    _ 0 publish_sql [VStr (queue_uri Example.a)] (Ok ()) []); [done|done| | |by left|].
  - apply history_logged. vm_compute. reflexivity.
  - vm_compute. reflexivity.
  - vm_compute. lia.
Defined.

Lemma producer_counts_witness :
  3 = Zsum (fetched (replayed (producer Example.quote 3 Example.a Example.tl 0) Example.alone)) ∧
  times publish_sql (succeeded (replayed (producer Example.quote 3 Example.a Example.tl 0) Example.alone))
    = length (fetched (replayed (producer Example.quote 3 Example.a Example.tl 0) Example.alone)) ∧
  times prime_publish_sql (succeeded (replayed (producer Example.quote 3 Example.a Example.tl 0) Example.alone))
    = 1%nat.
Proof.
  apply (producer_counts Example.quote 3 Example.a Example.tl 0 _ 3).
  apply replayed_exec. vm_compute. reflexivity.
Defined.

Lemma producer_terminates_witness :
  ∃ res, Some (Ok 3 : result Z) = Some res.
Proof.
  apply (producer_terminates Example.quote 3 Example.a Example.tl 0
    (replayed (producer Example.quote 3 Example.a Example.tl 0) Example.alone)).
  - apply replayed_exec. vm_compute. reflexivity.
  - vm_compute. lia.
Defined.
