(* ===== verification/FilteredBench.v ===== *)
(** * bench/filtered_bench.py

    Like sustained_bench.py, with one server-side subscription expression per
    consumer and an optional check of every delivered row's content. *)
From Stdlib Require Import Ascii.
From S2P Require Import Prelude PyFloat PyStr PyRepr Json PyM OpenRetry Pool Workers System Observe Timed Steady.

(** The parsed command line; [filter_values] is [None] when omitted. *)
Record args := Args {
  dsn : string;
  sql : string;
  filter_column : string;
  filter_values : option string;
  producers : Z;
  consumers : Z;
  batch_rows : Z;
  consume_batch : Z;
  consume_timeout_ms : Z;
  duration_secs : float;
  ramp_up_secs : float;
  drain_tail_secs : float;
  sample_interval_secs : float;
  producer_rate_limit : float;
  queue_uri : string;
  broker_uri : string;
  verify_content : bool;
}.

(** [v.strip] of both kinds of quote (39 and 34). *)
Definition is_quote (c : ascii) : bool :=
  Ascii.eqb c (Ascii.ascii_of_nat 39) || Ascii.eqb c (Ascii.ascii_of_nat 34).

Definition strip_quotes (v : string) : string := rstrip_if is_quote (lstrip_if is_quote v).

(** The non-empty [--filter-values], if any. *)
Definition given_values (a : args) : option string :=
  match filter_values a with
  | Some EmptyString | None => None
  | Some s => Some s
  end.

(** [filter_exprs] and [args.expected_value_by_worker]. *)
Definition make_filters (a : args) : result (list (option string) * list string) :=
  match given_values a with
  | Some s =>
      let values := split_on "," s in
      if Z.of_nat (length values) =? consumers a then
        Ok ((fun v => Some (filter_column a +:+ " == " +:+ v)) <$> values, strip_quotes <$> values)
      else Err AssertionError
  | None => Ok (replicate (Z.to_nat (consumers a)) None, [])
  end.

Section filtered.
Context (sql_literal : string → string).
Context (fuel : nat) (a : args) (tl : timeline).
Context (filter_exprs : list (option string)) (expected_values : list string).

Definition attr_array_sql : string :=
  "ARRAY['Sequence Number','Trade Id','" +:+ filter_column a +:+ "']".

Definition source_sql : string :=
  "CREATE TEMP TABLE prod_src AS " +:+ sql a +:+ " LIMIT " +:+ py_str (batch_rows a).

Definition publish_sql : string :=
  "SELECT count(*) FROM (SELECT bmq_publish_row(%s, t, "
    +:+ attr_array_sql +:+ ") FROM prod_src t) s".

Definition prime_publish_sql : string :=
  "SELECT bmq_publish_row(%s, t, " +:+ attr_array_sql +:+ ") FROM prod_src t LIMIT 1".

Definition prime_consume_sql : string :=
  "SELECT count(*) FROM bmq_consume(%s, %s, 1, 50, true)".

Definition consume_sql : string :=
  "SELECT count(*) FROM bmq_consume(%s, %s, %s, %s, true)".

Definition verify_sql : string :=
  "SELECT msgpack_to_jsonb(bmq_consume)->>%s FROM bmq_consume(%s, %s, %s, %s, true)".

Definition throttle (local_published : Z) (worker_start : float) : Py unit :=
  if fgt (producer_rate_limit a) fzero then
    pace (share <- fdiv (producer_rate_limit a) (of_int (producers a));;
          fdiv (of_int local_published) share) worker_start
  else ret ().

Definition producer (counter : nat) : Py Z :=
  timed_producer fuel (dsn a)
    [set_broker_sql sql_literal (broker_uri a); source_sql]
    prime_publish_sql publish_sql (queue_uri a) throttle (stop_time tl) counter.

Definition param (filter_expr : option string) : pval :=
  match filter_expr with Some s => VStr s | None => VNone end.

(** [str(v)] *)
Definition str_of (v : pval) : string :=
  match v with
  | VNone => "None"
  | VInt z => py_str z
  | VStr s => s
  | VFloat x => float_repr x
  | VJson j => json_str j
  end.

(** [for (v,) in rows: if str(v) != str(expected): local_mismatch += 1] *)
Fixpoint count_mismatches (expected : string) (rows : list (list pval)) (local_mismatch : Z)
  : result Z :=
  match rows with
  | [] => Ok local_mismatch
  | [v] :: rows' =>
      count_mismatches expected rows'
        (if bool_decide (str_of v = expected) then local_mismatch else local_mismatch + 1)
  | _ :: _ => Err ValueError
  end.

(** One round of the consumer: the rows delivered and the new mismatch
    count. *)
Definition consume_round (worker_id : Z) (filter_expr : option string) (local_mismatch : Z)
  : Py (Z * Z) :=
  match filter_expr with
  | Some expr =>
      if verify_content a then
        execute verify_sql
          [VStr (filter_column a); VStr (queue_uri a); VStr expr; VInt (consume_batch a);
           VInt (consume_timeout_ms a)];;
        rows <- fetchall;;
        expected <- lift (match expected_values !! Z.to_nat worker_id with
                          | Some v => Ok v
                          | None => Err KeyError end);;
        m <- lift (count_mismatches expected rows local_mismatch);;
        ret (Z.of_nat (length rows), m)
      else
        execute consume_sql
          [VStr (queue_uri a); VStr expr; VInt (consume_batch a); VInt (consume_timeout_ms a)];;
        n <- fetch_int;;
        ret (n, local_mismatch)
  | None =>
      execute consume_sql
        [VStr (queue_uri a); VNone; VInt (consume_batch a); VInt (consume_timeout_ms a)];;
      n <- fetch_int;;
      ret (n, local_mismatch)
  end.

(** The timed loop: [local_consumed] and [local_mismatch]. *)
Definition consume_loop (worker_id : Z) (filter_expr : option string) (counter : nat)
  : Py (Z * Z) :=
  while_ fuel (fun _ => before (hard_stop_time tl))
    (fun s => let '(local_consumed, local_mismatch) := s in
      r <- consume_round worker_id filter_expr local_mismatch;;
      counter_add counter r.1;;
      ret (local_consumed + r.1, r.2)) (0, 0).

Definition consumer (worker_id : Z) (counter : nat) (filter_expr : option string)
    (verify_counter : nat) : Py Z :=
  with_connection (dsn a) (
    execute (set_broker_sql sql_literal (broker_uri a)) [];;
    execute_with_open_retry prime_consume_sql [VStr (queue_uri a); param filter_expr]
      default_max_attempts;;
    barrier_wait;;
    s <- consume_loop worker_id filter_expr counter;;
    (if s.2 =? 0 then ret () else counter_add verify_counter s.2);;
    ret s.1).

Definition monitor (published consumed : nat) : Py unit :=
  timed_monitor fuel (backlog_sample published consumed)
    (hard_stop_time tl) (sample_interval_secs a).

(** ** [main] *)

Definition published_counter : nat := 0.
Definition consumed_counter : nat := 1.
Definition verify_mismatch_counter : nat := 2.
Definition pub_result_q : nat := 0.
Definition con_result_q : nat := 1.

Definition run_producer (i : Z) : process :=
  n <- producer published_counter;; call (QueuePut pub_result_q (QInt n)).

Definition run_consumer (i : Z) : process :=
  filter_expr <- lift (match filter_exprs !! Z.to_nat i with
                       | Some e => Ok e
                       | None => Err IndexError end);;
  n <- consumer i consumed_counter filter_expr verify_mismatch_counter;;
  call (QueuePut con_result_q (QInt n)).

Definition workers : list process :=
  (run_producer <$> range 0 (producers a)) ++
  (run_consumer <$> range 0 (consumers a)) ++
  [monitor published_counter consumed_counter].

Definition n_workers : nat := Z.to_nat (producers a + consumers a).

Definition totals (σ : shared) : option (Z * Z) :=
  total_published ← sum_get (producers a) int_of (queue σ pub_result_q);
  total_consumed ← sum_get (consumers a) int_of (queue σ con_result_q);
  Some (total_published, total_consumed).

Definition steady_lines (samples : list sample) : list (list frag) :=
  match steady_state tl samples with
  | Some s =>
      [[FS newline; FS "steady-state window: t="; FF ".1f" (from_secs s); FS "s.."; FF ".1f" (to_secs s);
        FS "s (span="; FF ".1f" (span_secs s); FS "s)"];
       [FS "steady-state publish rate: "; FF ",.0f" (pub_rate s); FS "/s"];
       [FS "steady-state consume (sustained) rate: "; FF ",.0f" (con_rate s); FS "/s"];
       [FS "backlog in steady-state window: min="; FZ (min_backlog s);
        FS " max="; FZ (max_backlog s)]]
  | None => [[FS newline; FS "not enough samples in steady-state window"]]
  end.

Definition curve_line (s : sample) : list frag :=
  match s with
  | SBacklog t p c b =>
      [FS "  t="; FF "6.1f" (fsub t (start_time tl)); FS "s  published="; FI ">9" p;
       FS " consumed="; FI ">9" c; FS " backlog="; FI ">7" b]
  | SRow _ _ => []
  end.

Definition head_lines (total_published total_consumed : Z) : list (list frag) :=
  [[FS "producers="; FZ (producers a); FS " consumers="; FZ (consumers a);
    FS " filters="; FL filter_exprs];
   [FS "total_published="; FZ total_published; FS " total_consumed="; FZ total_consumed;
    FS " final_backlog="; FZ (total_published - total_consumed)]].

(** [args.verify_content and args.filter_values] *)
Definition content_checked : bool := verify_content a && bool_decide (is_Some (given_values a)).

Definition mismatch_line (mismatches : Z) : list frag :=
  [FS "content_verify_mismatches="; FZ mismatches].

Definition curve_head : list frag :=
  [FS "backlog curve (t_since_start, published_so_far, consumed_so_far, backlog):"].

Definition report (σ : shared) : option (list (list frag)) :=
  '(total_published, total_consumed) ← totals σ;
  Some (head_lines total_published total_consumed
        ++ (if content_checked then [mismatch_line (value σ verify_mismatch_counter)] else [])
        ++ [curve_head]
        ++ (curve_line <$> samples σ) ++ steady_lines (samples σ)).
End filtered.

Definition main (sql_literal : string → string) (fuel : nat) (a : args) : Main unit :=
  filters <~ mlift (make_filters a);;
  let '(filter_exprs, expected_values) := filters in
  t_now <~ mcall PerfCounter;;
  let tl := make_timeline (duration_secs a) (drain_tail_secs a) (ramp_up_secs a) t_now in
  _ <~ run_fleet (run_producer sql_literal fuel a tl)
         (run_consumer sql_literal fuel a tl filter_exprs expected_values)
         (producers a) (consumers a) (monitor fuel a tl published_counter consumed_counter);;
  total_published <~ sum_gets pub_result_q (producers a);;
  total_consumed <~ sum_gets con_result_q (consumers a);;
  _ <~ mfor (head_lines a filter_exprs total_published total_consumed) mprint;;
  _ <~ (if content_checked a
        then v <~ mvalue verify_mismatch_counter;; mprint (mismatch_line v)
        else mret ());;
  _ <~ mprint curve_head;;
  samples <~ msamples;;
  _ <~ mfor samples (fun s => mprint (curve_line tl s));;
  samples <~ msamples;;
  _ <~ mfor (steady_lines tl samples) mprint;;
  mret ().

(** ** Checking the workers *)

Section checks.
Context (sql_literal : string → string).
Context (fuel : nat) (a : args) (tl : timeline).
Context (filter_exprs : list (option string)) (expected_values : list string).

Definition timed_sql (s : string) : bool :=
  bool_decide (s = publish_sql a) || bool_decide (s = consume_sql) || bool_decide (s = verify_sql).

Definition accounts : list account :=
  [Account published_counter pub_result_q int_of;
   Account consumed_counter con_result_q int_of].

Lemma not_timed_setup :
  timed_sql (set_broker_sql sql_literal (broker_uri a)) = false ∧
  timed_sql (source_sql a) = false ∧ timed_sql (prime_publish_sql a) = false ∧
  timed_sql prime_consume_sql = false.
Proof.
  unfold timed_sql. rewrite !bool_decide_false by done. done.
Qed.

Section safety.
Context (n i : nat) (Hi : (i < n)%nat).

Lemma filtered_throttle_safe k ws g (Ψ : result unit → ledger → Prop) :
  (∀ r, Ψ r g) → safe (client n timed_sql i) Ψ (throttle a k ws) g.
Proof using.
  intros H. unfold throttle. destruct (fgt _ _); [|apply H].
  apply safe_pace; [|done]. intros Ψ' HΨ'.
  apply safe_bind, safe_fdiv. intros [s|e]; [by apply safe_fdiv|apply HΨ'].
Qed.

Lemma filtered_run_producer_safe k :
  safe (client n timed_sql i) (finished n accounts [(0%nat, KInt)] i)
    (run_producer sql_literal fuel a tl k) ledger0.
Proof using Hi.
  destruct not_timed_setup as (H1 & H2 & H3 & _).
  apply safe_bind, timed_producer_safe; [done|by repeat constructor|done| |done|].
  - intros. by apply filtered_throttle_safe.
  - intros m g Ht. apply (safe_report n timed_sql i accounts published_counter m);
      [by apply tally_reportable|]. by repeat constructor.
Qed.

Lemma consume_round_safe w fe mis g (Ψ : result (Z * Z) → ledger → Prop) :
  at_phase g = Running → (∀ r, Ψ r g) →
  safe (client n timed_sql i) Ψ
    (consume_round a expected_values w fe mis) g.
Proof using.
  intros Hrun HΨ.
  assert (∀ params, safe (client n timed_sql i) Ψ
    (execute consume_sql params;; n <- fetch_int;; ret (n, mis)) g) as Hcount.
  { intros params. apply safe_bind, safe_execute; [done|]. intros [_|e]; [|apply HΨ].
    apply safe_bind, safe_fetch_int. intros [k|e]; apply HΨ. }
  unfold consume_round. destruct fe as [expr|]; [|apply Hcount].
  destruct (verify_content a); [|apply Hcount].
  apply safe_bind, safe_execute; [done|]. intros [_|e]; [|apply HΨ].
  apply safe_bind. split; [done|]. split; [done|]. intros [rows|e]; [|apply HΨ].
  apply safe_bind. simpl. destruct (expected_values !! _); [|apply HΨ].
  apply safe_bind. simpl. by destruct (count_mismatches _ _ _).
Qed.

Lemma filtered_run_consumer_safe k :
  safe (client n timed_sql i) (finished n accounts [(1%nat, KInt)] i)
    (run_consumer sql_literal fuel a tl filter_exprs expected_values k) ledger0.
Proof using Hi.
  destruct not_timed_setup as (H1 & _ & _ & H4).
  apply safe_bind. destruct (filter_exprs !! _) as [fe|]; cbn [lift safe]; [|done].
  apply safe_bind, safe_with_connection; [done|done|].
  apply safe_bind, safe_execute; [by rewrite H1|]. intros [_|e]; [|done].
  apply safe_bind, safe_retry; [by rewrite H4|]. intros [_|e]; [|done].
  apply safe_bind, safe_barrier_wait; [done..|].
  apply safe_bind. unfold consume_loop.
  apply (safe_timed_loop _ _ _ fst consumed_counter); [apply tally_start| |done|].
  - intros [m mis] g Ψ Ht HE HO. pose proof Ht as (_ & Hrun & _ & _ & Hputs).
    apply safe_bind, consume_round_safe; [done|]. intros [[d mis']|e]; [|by apply HE].
    apply safe_bind, (tally_add _ _ _ _ m); [done|]. intros g' Ht'. by apply HO.
  - intros [m mis] g Ht. simpl.
    assert (∀ g', reportable accounts consumed_counter m g' →
      safe (client n timed_sql i) (finished n accounts [(1%nat, KInt)] i)
        (call (QueuePut con_result_q (QInt m))) g') as Hrep.
    { intros g' Hg'. apply (safe_report n timed_sql i accounts consumed_counter m); [done|].
      by repeat constructor. }
    apply safe_bind. destruct (mis =? 0).
    + split; [done|]. apply Hrep. by apply tally_reportable.
    + destruct Ht as (Hh & Hrun & Hw & Ho & Hp).
      apply safe_counter_add; [done|]. intros g' Hw' Ho' Hh' Hp' Hputs'.
      split; [done|]. apply Hrep.
      split; [congruence|]. split; [rewrite Ho' by done; apply Hw|].
      split; [|congruence]. repeat constructor; intros Hne; simpl in *; [|done].
      rewrite Ho' by done. by apply Ho.
Qed.
End safety.
End checks.

(** ** Content verification *)

Section verification.
Context (fuel : nat) (a : args) (tl : timeline).
Context (expected_values : list string) (expected : string).

(** A delivered row whose text is not the expected value. *)
Definition mismatched (row : list pval) : bool :=
  match row with
  | [v] => negb (bool_decide (str_of v = expected))
  | _ => true
  end.

Definition n_mismatched (rows : list (list pval)) : Z :=
  Z.of_nat (length (filter (fun r => mismatched r = true) rows)).

Lemma n_mismatched_app r1 r2 : n_mismatched (r1 ++ r2) = n_mismatched r1 + n_mismatched r2.
Proof. unfold n_mismatched. rewrite filter_app, length_app. lia. Qed.

Lemma n_mismatched_one r : n_mismatched [r] = if mismatched r then 1 else 0.
Proof.
  unfold n_mismatched. destruct (mismatched r) eqn:E.
  - by rewrite filter_cons_True.
  - rewrite filter_cons_False; [done|]. by rewrite E.
Qed.

Lemma count_mismatches_spec rows m m' :
  count_mismatches expected rows m = Ok m' → m' = m + n_mismatched rows.
Proof.
  revert m. induction rows as [|row rows IH]; intros m; simpl.
  - intros [= <-]. unfold n_mismatched. simpl. lia.
  - destruct row as [|v [|]]; [done| |done]. intros H%IH.
    change ([v] :: rows) with ([[v]] ++ rows).
    rewrite n_mismatched_app, n_mismatched_one, H. simpl.
    destruct (bool_decide _); simpl; lia.
Qed.

(** The loop invariant. *)
Definition checked (t : trace) (s : Z * Z) : Prop :=
  s.1 = Z.of_nat (length (delivered t)) ∧ s.2 = n_mismatched (delivered t).

Lemma delivered_snoc t c x :
  rows_of (Ev c x) = [] → delivered (t ++ [Ev c x]) = delivered t.
Proof.
  intros H. rewrite delivered_app.
  assert (delivered [Ev c x] = rows_of (Ev c x)) as -> by apply app_nil_r.
  by rewrite H, app_nil_r.
Qed.

Lemma consume_loop_checked w expr counter :
  verify_content a = true → expected_values !! Z.to_nat w = Some expected →
  wp (consume_loop fuel a tl expected_values w (Some expr) counter)
    (fun t r => match r with Some (Ok s) => checked t s | _ => True end).
Proof.
  intros Hv Hexp. apply after_start. unfold consume_loop.
  apply (after_while (fun _ => checked)) with (k := 0%nat); [done| |done].
  intros _ t [n m] [Hn Hm]. simpl in Hn, Hm.
  apply after_bind, after_do. intros now. apply after_ret, after_ret.
  assert (∀ x, delivered (t ++ [Ev PerfCounter x]) = delivered t) as Ht
    by (intros; by apply delivered_snoc).
  destruct (flt now _); [|by unfold checked; rewrite Ht].
  apply after_bind. unfold consume_round. rewrite Hv.
  apply after_bind, after_do. intros [u|e]; apply after_ret; [|done].
  apply after_bind, after_do. intros [rows|e]; apply after_ret; [|done].
  apply after_bind. rewrite Hexp. apply after_ret, after_bind.
  destruct (count_mismatches _ _ _) as [m'|e] eqn:Hc; apply after_ret; [|done].
  apply count_mismatches_spec in Hc. apply after_ret, after_bind. simpl.
  unfold counter_add. do 3 (apply after_bind, after_do; intros ?; apply after_ret).
  apply after_do; intros ?. apply after_ret, after_ret.
  unfold checked. rewrite !delivered_snoc by done.
  rewrite delivered_app, !delivered_snoc by done. simpl.
  rewrite app_nil_r, length_app, n_mismatched_app. lia.
Qed.
End verification.

(** ** Properties *)

Section properties.
Context (sql_literal : string → string).
Context (fuel : nat) (a : args) (tl : timeline).

Section fleet.
Context (filter_exprs : list (option string)) (expected_values : list string).

Abbreviation start := (init_shared (n_workers a),
  workers sql_literal fuel a tl filter_exprs expected_values).

Lemma filtered_start_fleet :
  0 ≤ producers a → 0 ≤ consumers a →
  n_workers a = fleet_parties (range 0 (producers a)) (range 0 (consumers a)).
Proof.
  intros Hp Hc. unfold n_workers, fleet_parties. rewrite !length_range. lia.
Qed.

Lemma filtered_results σ ps :
  0 ≤ producers a → 0 ≤ consumers a → steps start (σ, ps) → all_ended ps →
  parties_ok (n_workers a) ps ↔
  (Z.to_nat (producers a) ≤ length (queue σ pub_result_q))%nat ∧
  (Z.to_nat (consumers a) ≤ length (queue σ con_result_q))%nat.
Proof.
  intros Hp Hc Hs Hend. rewrite filtered_start_fleet in Hs |- * by done.
  rewrite <-!(length_range (producers a)), <-!(length_range (consumers a)).
  pose proof (fleet_results (timed_sql a) accounts (range 0 (producers a)) (range 0 (consumers a))
    (run_producer sql_literal fuel a tl)
    (run_consumer sql_literal fuel a tl filter_exprs expected_values)
    (monitor fuel a tl published_counter consumed_counter) (fun _ => KInt) (fun _ => KInt)) as H.
  apply H; try done.
  - intros; by apply filtered_run_producer_safe.
  - intros; by apply filtered_run_consumer_safe.
  - intros; apply timed_monitor_safe; [done|apply backlog_sample_safe].
Qed.

Lemma filtered_complete σ ps :
  0 ≤ producers a → 0 ≤ consumers a → steps start (σ, ps) → parties_ok (n_workers a) ps →
  length (queue σ pub_result_q) = Z.to_nat (producers a) ∧
  length (queue σ con_result_q) = Z.to_nat (consumers a) ∧
  ∀ acc, acc ∈ accounts → value σ (acc_counter acc) = wrap64 (reported acc (queue σ (acc_queue acc))).
Proof.
  intros Hp Hc Hs Hok. rewrite filtered_start_fleet in Hs, Hok by done.
  destruct (fleet_complete (timed_sql a) accounts (range 0 (producers a)) (range 0 (consumers a))
    (run_producer sql_literal fuel a tl)
    (run_consumer sql_literal fuel a tl filter_exprs expected_values)
    (monitor fuel a tl published_counter consumed_counter) (fun _ => KInt) (fun _ => KInt))
    with (σ := σ) (ps := ps) as (Hq0 & Hq1 & Hacc);
    [intros; by apply filtered_run_producer_safe|intros; by apply filtered_run_consumer_safe
    |intros; apply timed_monitor_safe; [done|apply backlog_sample_safe]|done..|].
  apply Permutation_length in Hq0, Hq1. rewrite !length_fmap, !length_range in Hq0, Hq1. auto.
Qed.

(** When every producer and consumer has completed, whatever the
    interleaving, the filter expressions and the content check, [main] gets
    all its results and both counters hold exactly the printed totals
    (modulo the width of the counters). *)
Theorem filtered_totals_match_counters σ ps :
  0 ≤ producers a → 0 ≤ consumers a →
  steps start (σ, ps) → parties_ok (n_workers a) ps →
  ∃ total_published total_consumed,
    totals a σ = Some (total_published, total_consumed) ∧
    value σ published_counter = wrap64 total_published ∧
    value σ consumed_counter = wrap64 total_consumed.
Proof.
  intros Hp Hc Hs Hok. destruct (filtered_complete σ ps) as (Hq0 & Hq1 & Hacc); [done..|].
  unfold totals. rewrite !sum_get_all by done. simpl. do 2 eexists. split; [done|].
  split; [apply (Hacc (Account published_counter pub_result_q int_of))
         |apply (Hacc (Account consumed_counter con_result_q int_of))]; set_solver.
Qed.
End fleet.

(** Once the command line is accepted, every consumer has its filter
    expression, and a filtered consumer the expected value made from the
    same entry of [--filter-values]: no worker can fail to look them up. *)
Theorem filters_cover_consumers es vs i :
  make_filters a = Ok (es, vs) → 0 ≤ i < consumers a →
  ∃ fe, es !! Z.to_nat i = Some fe ∧
    ∀ expr, fe = Some expr →
      ∃ v, expr = filter_column a +:+ " == " +:+ v ∧ vs !! Z.to_nat i = Some (strip_quotes v).
Proof.
  unfold make_filters. destruct (given_values a) as [s|].
  - destruct (Z.eqb_spec (Z.of_nat (length (split_on "," s))) (consumers a)) as [Hl|]; [|done].
    intros [= <- <-] Hi.
    destruct (lookup_lt_is_Some_2 (split_on "," s) (Z.to_nat i)) as [v Hv]; [lia|].
    exists (Some (filter_column a +:+ " == " +:+ v)). rewrite !list_lookup_fmap, Hv.
    split; [done|]. intros expr [= <-]. by exists v.
  - intros [= <- <-] Hi. exists None. split; [|done]. apply lookup_replicate_2. lia.
Qed.

(** C36. The content check is exact: a verifying consumer's loop that ends
    with [(n, m)] was delivered [n] rows in all, of which exactly [m] had a
    text other than the expected value. *)
Theorem content_check_exact expected_values expected w expr counter t n m :
  verify_content a = true → expected_values !! Z.to_nat w = Some expected →
  exec (consume_loop fuel a tl expected_values w (Some expr) counter)
    t (Some (Ok (n, m))) →
  n = Z.of_nat (length (delivered t)) ∧
  m = n_mismatched expected (delivered t).
Proof.
  intros Hv He Hx.
  apply (exec_wp _ _ _ _ (consume_loop_checked fuel a tl _ _ w expr counter Hv He) Hx).
Qed.
End properties.

(** ** The properties at work *)

Module FilteredExample.
Definition quote (s : string) : string := "'" +:+ s +:+ "'".

Definition a : args :=
  Args "db" "SELECT 1" "texi" (Some "0, 1") 1 2 2000 2000 200 (of_int 9) (of_int 1) (of_int 0)
    (of_int 2) fzero "bmq://bmq.test.mem.priority/q" "tcp://localhost:30114" true.

Definition tl : timeline := make_timeline (duration_secs a) (drain_tail_secs a) (ramp_up_secs a) fzero.

Definition exprs : list (option string) := [Some "texi == 0"; Some "texi ==  1"].
Definition values : list string := ["0"; " 1"].

Definition begin : config :=
  (init_shared (n_workers a), workers quote 3 a tl exprs values).

Definition setup (i k : nat) : list (nat * answer) := replicate k (i, AUnit).

(** Consumer 1 is delivered one row, with the text its filter selects. *)
Definition good : list (nat * answer) :=
  setup 0 5 ++ setup 1 4 ++ setup 2 4 ++ setup 0 1 ++ setup 1 1 ++ setup 2 1 ++
  [(0%nat, AFloat (of_int 2)); (0%nat, AFloat (of_int 3)); (0%nat, AUnit);
   (0%nat, ARow [VInt 3])] ++ setup 0 4 ++
  [(2%nat, AFloat (of_int 3)); (2%nat, AUnit); (2%nat, ARows [[VStr "1"]])] ++ setup 2 4 ++
  [(0%nat, AFloat (of_int 11)); (0%nat, AUnit); (0%nat, AUnit);
   (1%nat, AFloat (of_int 11)); (1%nat, AUnit); (1%nat, AUnit);
   (2%nat, AFloat (of_int 11))] ++ setup 2 6 ++ [(3%nat, AFloat (of_int 11))].

Definition delivery : list answer :=
  [AFloat (of_int 3); AUnit; ARows [[VStr "1"]; [VStr " 1"]]; AUnit; AInt 0; AUnit; AUnit;
   AFloat (of_int 11)].
End FilteredExample.

Lemma filtered_totals_match_counters_witness :
  ∃ p c, totals FilteredExample.a (final FilteredExample.begin FilteredExample.good).1 = Some (p, c) ∧
    value (final FilteredExample.begin FilteredExample.good).1 published_counter = wrap64 p ∧
    value (final FilteredExample.begin FilteredExample.good).1 consumed_counter = wrap64 c.
Proof.
  apply (filtered_totals_match_counters FilteredExample.quote 3
    FilteredExample.a FilteredExample.tl FilteredExample.exprs FilteredExample.values _
    (final FilteredExample.begin FilteredExample.good).2); [done|done| |].
  - apply final_steps. vm_compute. reflexivity.
  - apply all_ok_parties, all_ok_check. vm_compute. reflexivity.
Defined.

Lemma filters_cover_consumers_witness :
  ∃ fe, FilteredExample.exprs !! 1%nat = Some fe ∧
    ∀ expr, fe = Some expr →
      ∃ v, expr = "texi == " +:+ v ∧ FilteredExample.values !! 1%nat = Some (strip_quotes v).
Proof.
  apply (filters_cover_consumers FilteredExample.a FilteredExample.exprs FilteredExample.values 1).
  - vm_compute. reflexivity.
  - vm_compute. by split.
Defined.

Lemma content_check_exact_witness :
  2 = Z.of_nat (length (delivered (replayed (consume_loop 3
        FilteredExample.a FilteredExample.tl FilteredExample.values 1 (Some "texi ==  1") 1)
        FilteredExample.delivery))) ∧
  1 = n_mismatched " 1" (delivered (replayed (consume_loop
        3 FilteredExample.a FilteredExample.tl FilteredExample.values 1
        (Some "texi ==  1") 1) FilteredExample.delivery)).
Proof.
  apply (content_check_exact 3 FilteredExample.a FilteredExample.tl
    FilteredExample.values " 1" 1 "texi ==  1" 1); [reflexivity|reflexivity|].
  apply replayed_exec. vm_compute. reflexivity.
Defined.

(** A blank after the comma of [--filter-values] stays in the expected value,
    so the rows its own filter selects are counted as mismatches. *)
Lemma blank_filter_value_mismatches :
  make_filters FilteredExample.a = Ok (FilteredExample.exprs, FilteredExample.values) ∧
  count_mismatches " 1" [[VStr "1"]] 0 = Ok 1 ∧
  value (final FilteredExample.begin FilteredExample.good).1 verify_mismatch_counter = 1.
Proof. vm_compute. auto. Qed.
