(* ===== verification/MultiQueueBench.v ===== *)
(** * bench/multi_queue_bench.py

    K queues, each with its own producer, consumer and pair of counters, the
    per-queue totals collected in dicts, and a per-queue growth verdict. *)
From S2P Require Import Prelude PyFloat PyStr PyM OpenRetry Pool Workers System Observe Timed Steady.

(** The parsed command line. *)
Record args := Args {
  dsn : string;
  sql : string;
  k_queues : Z;
  per_queue_rate : number;   (* the default is the int 42000 *)
  batch_rows : Z;
  consume_batch : Z;
  consume_timeout_ms : Z;
  duration_secs : float;
  ramp_up_secs : float;
  drain_tail_secs : float;
  sample_interval_secs : float;
  queue_uri_base : string;
  broker_uri : string;
}.

Section multi_queue.
Context (sql_literal : string → string).
Context (fuel : nat) (a : args) (tl : timeline).

Definition source_sql : string :=
  "CREATE TEMP TABLE prod_src AS " +:+ sql a +:+ " LIMIT " +:+ py_str (batch_rows a).

Definition publish_sql : string :=
  "SELECT count(*) FROM (SELECT bmq_publish_row(%s, t, "
    +:+ attr_array_sql +:+ ") FROM prod_src t) s".

Definition prime_publish_sql : string :=
  "SELECT bmq_publish_row(%s, t, " +:+ attr_array_sql +:+ ") FROM prod_src t LIMIT 1".

Definition prime_consume_sql : string :=
  "SELECT count(*) FROM bmq_consume(%s, NULL, 1, 50, true)".

Definition consume_sql : string :=
  "SELECT count(*) FROM bmq_consume(%s, NULL, %s, %s, true)".

Definition throttle (per_producer_rate : number) (local_published : Z) (worker_start : float)
  : Py unit :=
  if num_positive per_producer_rate
  then pace (div_number local_published per_producer_rate) worker_start
  else ret ().

(** [pub_counters[qidx]] and [con_counters[qidx]]. *)
Definition pub_counter (qidx : Z) : nat := 2 * Z.to_nat qidx.
Definition con_counter (qidx : Z) : nat := 2 * Z.to_nat qidx + 1.

Definition producer (qidx : Z) (queue_uri : string) (per_producer_rate : number) : Py Z :=
  timed_producer fuel (dsn a)
    [set_broker_sql sql_literal (broker_uri a); source_sql]
    prime_publish_sql publish_sql queue_uri (throttle per_producer_rate)
    (stop_time tl) (pub_counter qidx).

Definition consumer (qidx : Z) (queue_uri : string) : Py Z :=
  timed_consumer fuel (dsn a) (set_broker_sql sql_literal (broker_uri a))
    prime_consume_sql [VStr queue_uri]
    consume_sql [VStr queue_uri; VInt (consume_batch a); VInt (consume_timeout_ms a)]
    (hard_stop_time tl) (con_counter qidx).

(** [[(pub_counters[i].value, con_counters[i].value) for i in range(k)]] *)
Fixpoint read_counters (ids : list Z) : Py (list (Z * Z)) :=
  match ids with
  | [] => ret []
  | i :: ids' =>
      p <- counter_value (pub_counter i);;
      c <- counter_value (con_counter i);;
      row <- read_counters ids';;
      ret ((p, c) :: row)
  end.

Definition row_sample (k : Z) : Py sample :=
  t <- perf_counter;;
  row <- read_counters (range 0 k);;
  ret (SRow t row).

Definition monitor (k : Z) : Py unit :=
  timed_monitor fuel (row_sample k) (hard_stop_time tl) (sample_interval_secs a).

(** ** [main] *)

Definition pub_result_q : nat := 0.
Definition con_result_q : nat := 1.

Definition queue_uris (i : Z) : string := queue_uri_base a +:+ "_" +:+ py_str i.

Definition run_producer (i : Z) : process :=
  n <- producer i (queue_uris i) (per_queue_rate a);;
  call (QueuePut pub_result_q (QIdx i n)).

Definition run_consumer (i : Z) : process :=
  n <- consumer i (queue_uris i);; call (QueuePut con_result_q (QIdx i n)).

Definition workers : list process :=
  (run_producer <$> range 0 (k_queues a)) ++
  (run_consumer <$> range 0 (k_queues a)) ++
  [monitor (k_queues a)].

Definition n_workers : nat := Z.to_nat (2 * k_queues a).

(** [for _ in range(k): i, n = q.get(); totals[i] = n] *)
Definition put_total (totals : gmap Z Z) (m : qmsg) : gmap Z Z :=
  match m with QIdx i n => <[i := n]> totals | _ => totals end.

Definition collect (msgs : list qmsg) : option (gmap Z Z) :=
  if (Z.to_nat (k_queues a) <=? length msgs)%nat
  then Some (foldl put_total ∅ (take (Z.to_nat (k_queues a)) msgs))
  else None.

(** [totals_pub] and [totals_con]. *)
Definition totals (σ : shared) : option (gmap Z Z * gmap Z Z) :=
  totals_pub ← collect (queue σ pub_result_q);
  totals_con ← collect (queue σ con_result_q);
  Some (totals_pub, totals_con).

(** [sum(totals.values())] *)
Definition sum_values (totals : gmap Z Z) : Z := Zsum (map_to_list totals).*2.

(** [[(t, row) for (t, row) in samples if steady_start <= t <= stop_time]] *)
Definition rows_in_window (samples : list sample) : list (float * list (Z * Z)) :=
  omap (fun s =>
    match s with
    | SRow t row => if steady_at tl t then Some (t, row) else None
    | SBacklog _ _ _ _ => None
    end) samples.

(** [last_b > first_b * 1.2 + 50] *)
Definition growing (first_b last_b : Z) : bool :=
  int_gt last_b (fadd (fmul (of_int first_b) (lit 12 10)) (of_int 50)).

Record queue_stats := QueueStats {
  qs_pub_rate : float;
  qs_con_rate : float;
  qs_min : Z;
  qs_max : Z;
  qs_first : Z;
  qs_last : Z;
  qs_growing : bool;
}.

(** Queue [i] over the window [w]; [None]: [row[i]] is out of range. *)
Definition stats_of (w : list (float * list (Z * Z))) (i : Z) : option queue_stats :=
  '(t0, row0) ← head w;
  '(t1, row1) ← last w;
  '(p0, c0) ← row0 !! Z.to_nat i;
  '(p1, c1) ← row1 !! Z.to_nat i;
  let span := fsub t1 t0 in
  backlogs ← mapM (fun '(_, row) => '(p, c) ← row !! Z.to_nat i; Some (p - c)) w;
  first_b ← head backlogs;
  last_b ← last backlogs;
  Some (QueueStats (rate (p1 - p0) span) (rate (c1 - c0) span)
          (min_list first_b backlogs) (max_list first_b backlogs) first_b last_b
          (growing first_b last_b)).

Definition stats_line (i : Z) (s : queue_stats) : list frag :=
  [FS "  q"; FZ i; FS ": publish="; FF ">9,.0f" (qs_pub_rate s); FS "/s consume=";
   FF ">9,.0f" (qs_con_rate s); FS "/s backlog[min="; FI ">6" (qs_min s); FS " max=";
   FI ">6" (qs_max s); FS " first="; FI ">6" (qs_first s); FS " last="; FI ">6" (qs_last s);
   FS "] "; FS (if qs_growing s then "GROWING" else "bounded")].

Definition too_few_line : list frag :=
  [FS newline; FS "not enough samples in steady-state window - increase --duration-secs"].

Definition window_head (t0 t1 : float) : list (list frag) :=
  [[FS newline; FS "steady-state window: t="; FF ".1f" (fsub t0 (start_time tl)); FS "s..";
    FF ".1f" (fsub t1 (start_time tl)); FS "s (span="; FF ".1f" (fsub t1 t0); FS "s)"];
   [FS "per-queue steady-state rates and backlog bounds:"]].

Definition aggregate_lines (agg_pub_rate agg_con_rate : float) (any_growing : bool) : list (list frag) :=
  [[FS newline; FS "aggregate steady-state publish rate:  "; FF ">10,.0f" agg_pub_rate; FS "/s"];
   [FS "aggregate steady-state consume rate:  "; FF ">10,.0f" agg_con_rate; FS "/s"];
   [FS "any queue's backlog growing: "; FS (if any_growing then "True" else "False")]].

(** [agg_pub_rate], [agg_con_rate] and [any_growing] after one more queue. *)
Definition aggregate (acc : float * float * bool) (s : queue_stats) : float * float * bool :=
  let '(p, c, g) := acc in (fadd p (qs_pub_rate s), fadd c (qs_con_rate s), g || qs_growing s).

Definition window_lines (w : list (float * list (Z * Z))) : result (list (list frag)) :=
  match head w, last w with
  | Some (t0, _), Some (t1, _) =>
      if (length w <? 2)%nat then Ok [too_few_line]
      else
        match mapM (stats_of w) (range 0 (k_queues a)) with
        | Some stats =>
            let '(p, c, g) := foldl aggregate (fzero, fzero, false) stats in
            Ok (window_head t0 t1 ++ zip_with stats_line (range 0 (k_queues a)) stats
                ++ aggregate_lines p c g)
        | None => Err IndexError
        end
  | _, _ => Ok [too_few_line]
  end.

(** [main]'s loop over the queues. *)
Fixpoint print_queues (w : list (float * list (Z * Z))) (ids : list Z) (acc : float * float * bool)
  : Main (float * float * bool) :=
  match ids with
  | [] => mret acc
  | i :: ids' =>
      s <~ mlift (match stats_of w i with Some s => Ok s | None => Err IndexError end);;
      _ <~ mprint (stats_line i s);;
      print_queues w ids' (aggregate acc s)
  end.

(** From [in_window] on. *)
Definition print_window (w : list (float * list (Z * Z))) : Main unit :=
  match head w, last w with
  | Some (t0, _), Some (t1, _) =>
      if (length w <? 2)%nat then mprint too_few_line
      else
        _ <~ mfor (window_head t0 t1) mprint;;
        acc <~ print_queues w (range 0 (k_queues a)) (fzero, fzero, false);;
        let '(p, c, g) := acc in
        _ <~ mfor (aggregate_lines p c g) mprint;;
        mret ()
  | _, _ => mprint too_few_line
  end.

Definition head_lines (totals_pub totals_con : gmap Z Z) : list (list frag) :=
  let total_published := sum_values totals_pub in
  let total_consumed := sum_values totals_con in
  [[FS "k_queues="; FZ (k_queues a); FS " per_queue_rate="; number_frag (per_queue_rate a);
    FS " duration="; FF EmptyString (duration_secs a); FS "s ramp_up=";
    FF EmptyString (ramp_up_secs a); FS "s drain_tail="; FF EmptyString (drain_tail_secs a);
    FS "s"];
   [FS "total_published="; FZ total_published; FS " total_consumed="; FZ total_consumed;
    FS " final_backlog="; FZ (total_published - total_consumed)]].

(** What [main] prints; [None] when it waits for ever on a queue. *)
Definition report (σ : shared) : option (result (list (list frag))) :=
  '(totals_pub, totals_con) ← totals σ;
  Some (match window_lines (rows_in_window (samples σ)) with
        | Ok lines => Ok (head_lines totals_pub totals_con ++ lines)
        | Err e => Err e
        end).
End multi_queue.

(** [totals = {}; for _ in range(k): i, n = q.get(); totals[i] = n] *)
Definition get_totals (q : nat) (k : Z) : Main (gmap Z Z) := get_each q put_total (Z.to_nat k) ∅.

Definition main (sql_literal : string → string) (fuel : nat) (a : args) : Main unit :=
  t_now <~ mcall PerfCounter;;
  let tl := make_timeline (duration_secs a) (drain_tail_secs a) (ramp_up_secs a) t_now in
  _ <~ run_fleet (run_producer sql_literal fuel a tl) (run_consumer sql_literal fuel a tl)
         (k_queues a) (k_queues a) (monitor fuel a tl (k_queues a));;
  totals_pub <~ get_totals pub_result_q (k_queues a);;
  totals_con <~ get_totals con_result_q (k_queues a);;
  _ <~ mfor (head_lines a totals_pub totals_con) mprint;;
  samples <~ msamples;;
  print_window a tl (rows_in_window tl samples).

(** ** Checking the workers *)

Definition amount_of (i : Z) (m : qmsg) : Z :=
  match m with QIdx j n => if j =? i then n else 0 | _ => 0 end.

Section checks.
Context (sql_literal : string → string) (fuel : nat) (a : args) (tl : timeline).

Definition timed_sql (s : string) : bool :=
  bool_decide (s = publish_sql) || bool_decide (s = consume_sql).

Definition pub_account (i : Z) : account := Account (pub_counter i) pub_result_q (amount_of i).
Definition con_account (i : Z) : account := Account (con_counter i) con_result_q (amount_of i).

Definition accounts : list account :=
  (pub_account <$> range 0 (k_queues a)) ++ (con_account <$> range 0 (k_queues a)).

Lemma range_nonneg i n : i ∈ range 0 n → 0 ≤ i < n.
Proof.
  unfold range. intros (j & -> & Hj)%list_elem_of_fmap. apply elem_of_seq in Hj. lia.
Qed.

(** Only the reporter's own account sees its message. *)
Lemma accounts_match i n q counter :
  0 ≤ i →
  (q = pub_result_q ∧ counter = pub_counter i ∨ q = con_result_q ∧ counter = con_counter i) →
  Forall (fun acc => if (acc_counter acc =? counter)%nat
                   then acc_queue acc = q ∧ acc_amount acc (QIdx i n) = n
                   else acc_queue acc = q → acc_amount acc (QIdx i n) = 0) accounts.
Proof.
  intros Hi Hq. unfold accounts, pub_counter, con_counter in *. apply Forall_app.
  split; apply Forall_fmap, Forall_forall; intros j Hj%range_nonneg; simpl.
  - unfold pub_counter. destruct (Nat.eqb_spec (2 * Z.to_nat j) counter) as [Heq|Hne].
    + destruct Hq as [[-> ->]|[-> ->]]; [|lia]. split; [done|].
      by rewrite (proj2 (Z.eqb_eq i j)) by lia.
    + intros <-. destruct Hq as [[_ ->]|[? _]]; [|done].
      by rewrite (proj2 (Z.eqb_neq i j)) by (intros ->; lia).
  - unfold con_counter. destruct (Nat.eqb_spec (2 * Z.to_nat j + 1) counter) as [Heq|Hne].
    + destruct Hq as [[-> ->]|[-> ->]]; [lia|]. split; [done|].
      by rewrite (proj2 (Z.eqb_eq i j)) by lia.
    + intros <-. destruct Hq as [[? _]|[_ ->]]; [done|].
      by rewrite (proj2 (Z.eqb_neq i j)) by (intros ->; lia).
Qed.

Section safety.
Context (n i : nat) (Hi : (i < n)%nat) (k : Z) (Hk : 0 ≤ k).

Lemma multi_run_producer_safe :
  safe (client n timed_sql i) (finished n accounts [(0%nat, KIdx k)] i)
    (run_producer sql_literal fuel a tl k) ledger0.
Proof using Hi Hk.
  apply safe_bind, timed_producer_safe; [done|by repeat constructor|done| |done|].
  - intros m ws g Ψ H. unfold throttle. destruct (num_positive _); [|apply H].
    apply safe_pace; [|done]. intros Ψ' HΨ'. by apply safe_div_number.
  - intros m g Ht. apply (safe_report n timed_sql i accounts (pub_counter k) m);
      [by apply tally_reportable|]. apply accounts_match; auto.
Qed.

Lemma multi_run_consumer_safe :
  safe (client n timed_sql i) (finished n accounts [(1%nat, KIdx k)] i)
    (run_consumer sql_literal fuel a tl k) ledger0.
Proof using Hi Hk.
  apply safe_bind, timed_consumer_safe; [done..|].
  intros m g Ht. apply (safe_report n timed_sql i accounts (con_counter k) m);
    [by apply tally_reportable|]. apply accounts_match; auto.
Qed.
End safety.

Lemma read_counters_safe n i ids (Ψ : result (list (Z * Z)) → ledger → Prop) :
  (∀ row, Ψ (Ok row) ledger0) →
  safe (client n timed_sql i) Ψ (read_counters ids) ledger0.
Proof.
  revert Ψ. induction ids as [|j ids IH]; intros Ψ H; [apply H|].
  cbn [read_counters].
  apply safe_bind, safe_counter_value; [done|]. intros p.
  apply safe_bind, safe_counter_value; [done|]. intros c.
  apply safe_bind. apply IH. intros row. apply H.
Qed.

Lemma multi_monitor_safe n i :
  (n ≤ i)%nat →
  safe (client n timed_sql i) (finished n accounts [] i)
    (monitor fuel a tl (k_queues a)) ledger0.
Proof.
  intros Hi. apply timed_monitor_safe; [done|]. intros Ψ H.
  apply safe_bind, safe_call; [done..|]. intros t.
  apply safe_bind, read_counters_safe. intros row. apply H.
Qed.

(** ** The dicts *)

(** A message for every queue, whatever their order: the dict holds each
    one's amount, and so does the queue's account. *)
Lemma foldl_put_total_ne msgs m i :
  KIdx i ∉ key_of <$> msgs → foldl put_total m msgs !! i = m !! i.
Proof.
  revert m. induction msgs as [|x msgs IH]; intros m Hni; simpl; [done|].
  rewrite fmap_cons, not_elem_of_cons in Hni. destruct Hni as [Hne Hni].
  rewrite IH by done. destruct x as [|j n|]; simpl; try done.
  rewrite lookup_insert_ne; [done|]. intros ->. by apply Hne.
Qed.

Lemma amount_zero msgs i : KIdx i ∉ key_of <$> msgs → Zsum (amount_of i <$> msgs) = 0.
Proof.
  induction msgs as [|x msgs IH]; intros Hni; [done|].
  rewrite fmap_cons, not_elem_of_cons in Hni. destruct Hni as [Hne Hni].
  csimpl. rewrite IH by done. destruct x as [|j n|]; simpl; try done.
  destruct (Z.eqb_spec j i) as [->|]; [by destruct Hne|lia].
Qed.

Lemma dict_holds_amount msgs m i :
  NoDup (key_of <$> msgs) → KIdx i ∈ key_of <$> msgs →
  foldl put_total m msgs !! i = Some (Zsum (amount_of i <$> msgs)).
Proof.
  revert m. induction msgs as [|x msgs IH]; intros m Hnd Hin;
    [by apply elem_of_nil in Hin|].
  rewrite fmap_cons in Hnd, Hin. apply NoDup_cons in Hnd as [Hni Hnd].
  csimpl. apply elem_of_cons in Hin as [Hx|Hin].
  - destruct x as [|j n|]; try done. simpl in *. injection Hx as <-.
    rewrite foldl_put_total_ne, amount_zero by done.
    by rewrite lookup_insert_eq, Z.eqb_refl, Z.add_0_r.
  - rewrite IH by done. f_equal. destruct x as [|j n|]; simpl; try lia.
    destruct (Z.eqb_spec j i) as [->|]; [done|lia].
Qed.
End checks.

(** ** The samples' shape *)

Lemma read_counters_length ids t row :
  exec (read_counters ids) t (Some (Ok row)) → length row = length ids.
Proof.
  revert t row. induction ids as [|i ids IH]; intros t row; [by intros [_ [= ->]]|].
  simpl. intros (? & ? & _ & ? & ? & _ & ? & ? & _ & He).
  destruct He as (? & ? & _ & ? & ? & _ & ? & ? & _ & He).
  apply exec_bindp in He as [(r & t1 & t2 & _ & H1 & H2)|[_ ?]]; [|done].
  destruct r as [row'|e]; simpl in H2; destruct H2 as [_ Heq]; [|done].
  injection Heq as ->. simpl. f_equal. by eapply IH.
Qed.

(** A sample taken by the monitor of [k] queues. *)
Definition k_row (k : Z) (s : sample) : Prop :=
  match s with SRow _ row => length row = Z.to_nat k | SBacklog _ _ _ _ => False end.

Lemma row_sample_shape k t s : exec (row_sample k) t (Some (Ok s)) → k_row k s.
Proof.
  simpl. intros (now & t' & _ & He).
  apply exec_bindp in He as [(r & t1 & t2 & _ & H1 & H2)|[_ ?]]; [|done].
  destruct r as [row|e]; simpl in H2; destruct H2 as [_ Heq]; [|done].
  injection Heq as ->. simpl. rewrite (read_counters_length _ _ _ H1). apply length_range.
Qed.

Lemma rows_in_window_shape k tl samples :
  Forall (k_row k) samples →
  Forall (fun w => length w.2 = Z.to_nat k) (rows_in_window tl samples).
Proof.
  induction 1 as [|s samples Hs _ IH]; [constructor|]. unfold rows_in_window. csimpl.
  destruct s as [|t row]; [done|]. destruct (steady_at tl t); [|done]. by constructor.
Qed.

Lemma mapM_Some_forall {A B} (f : A → option B) l :
  Forall (fun x => is_Some (f x)) l → ∃ k, mapM f l = Some k ∧ length k = length l.
Proof.
  induction 1 as [|x l [y Hy] _ (k & Hk & Hl)]; [by exists []|].
  exists (y :: k). simpl. rewrite Hy, Hk. simpl. by rewrite Hl.
Qed.

Lemma stats_of_defined w i k :
  w ≠ [] → 0 ≤ i < k → Forall (fun r => length r.2 = Z.to_nat k) w →
  is_Some (stats_of w i).
Proof.
  intros Hne Hi Hw.
  assert (∀ r : list (Z * Z), length r = Z.to_nat k → ∃ p c, r !! Z.to_nat i = Some (p, c)) as Hrow.
  { intros r Hr. destruct (lookup_lt_is_Some_2 r (Z.to_nat i)) as [[p c] ?]; [lia|eauto]. }
  destruct (mapM_Some_forall (fun '(_, row) => '(p, c) ← row !! Z.to_nat i; Some (p - c)) w)
    as (bs & Hbs & Hlen).
  { eapply Forall_impl; [apply Hw|]. intros [t row] Hr. destruct (Hrow row Hr) as (p & c & ->).
    by eexists. }
  destruct (last w) as [[t1 row1]|] eqn:Hlast; [|by apply last_None in Hlast].
  destruct (head w) as [[t0 row0]|] eqn:Hhead; [|by apply head_None in Hhead].
  destruct (Hrow row0) as (p0 & c0 & H0).
  { apply (proj1 (Forall_forall _ _) Hw (t0, row0)). by apply head_Some_elem_of. }
  destruct (Hrow row1) as (p1 & c1 & H1).
  { apply (proj1 (Forall_forall _ _) Hw (t1, row1)). by apply last_Some_elem_of. }
  unfold stats_of. rewrite Hhead, Hlast. simpl. rewrite H0, H1. simpl.
  rewrite Hbs. simpl. assert (bs ≠ []) as Hb by (intros ->; by destruct w).
  destruct (head bs) eqn:E1; [|by apply head_None in E1].
  destruct (last bs) eqn:E2; [|by apply last_None in E2]. by eexists.
Qed.

(** ** Properties *)

Section properties.
Context (sql_literal : string → string) (fuel : nat) (a : args) (tl : timeline).

Abbreviation start := (init_shared (n_workers a), workers sql_literal fuel a tl).

Lemma multi_start_fleet :
  0 ≤ k_queues a → n_workers a = fleet_parties (range 0 (k_queues a)) (range 0 (k_queues a)).
Proof. intros Hk. unfold n_workers, fleet_parties. rewrite !length_range. lia. Qed.

Lemma key_idx_in (l : list Z) i : KIdx i ∈ KIdx <$> l ↔ i ∈ l.
Proof. rewrite list_elem_of_fmap. naive_solver. Qed.

Lemma range_elem i n : 0 ≤ i < n ↔ i ∈ range 0 n.
Proof.
  split; [|apply range_nonneg]. intros Hi. unfold range. apply list_elem_of_fmap.
  exists (Z.to_nat i). split; [lia|]. apply elem_of_seq. lia.
Qed.

Lemma collect_complete msgs :
  key_of <$> msgs ≡ₚ KIdx <$> range 0 (k_queues a) →
  ∃ totals, collect a msgs = Some totals ∧
    (∀ i, is_Some (totals !! i) ↔ 0 ≤ i < k_queues a) ∧
    ∀ i, 0 ≤ i < k_queues a → totals !! i = Some (Zsum (amount_of i <$> msgs)).
Proof.
  intros Hk.
  assert (length msgs = Z.to_nat (k_queues a)) as Hlen.
  { apply Permutation_length in Hk. by rewrite !length_fmap, length_range in Hk. }
  assert (NoDup (key_of <$> msgs)) as Hnd.
  { rewrite Hk. apply (NoDup_fmap_2 _), NoDup_range. }
  assert (∀ i, KIdx i ∈ key_of <$> msgs ↔ 0 ≤ i < k_queues a) as Hin.
  { intros i. by rewrite Hk, key_idx_in, <-range_elem. }
  exists (foldl put_total ∅ msgs). unfold collect. rewrite <-Hlen, Nat.leb_refl, take_ge by done.
  split; [done|]. assert (∀ i, 0 ≤ i < k_queues a →
    foldl put_total ∅ msgs !! i = Some (Zsum (amount_of i <$> msgs))) as Hval.
  { intros i Hi%Hin. by apply dict_holds_amount. }
  split; [|done]. intros i. split; [|intros Hi; rewrite (Hval i Hi); by eexists].
  intros [n Hn]. apply Hin. destruct (decide (KIdx i ∈ key_of <$> msgs)) as [|Hni]; [done|].
  by rewrite foldl_put_total_ne in Hn.
Qed.

Lemma multi_complete σ ps :
  0 ≤ k_queues a → steps start (σ, ps) → parties_ok (n_workers a) ps →
  key_of <$> queue σ pub_result_q ≡ₚ KIdx <$> range 0 (k_queues a) ∧
  key_of <$> queue σ con_result_q ≡ₚ KIdx <$> range 0 (k_queues a) ∧
  ∀ acc, acc ∈ accounts a → value σ (acc_counter acc) = wrap64 (reported acc (queue σ (acc_queue acc))).
Proof.
  intros Hk Hs Hok.
  rewrite multi_start_fleet in Hs, Hok by done.
  destruct (fleet_complete timed_sql (accounts a) (range 0 (k_queues a)) (range 0 (k_queues a))
    (run_producer sql_literal fuel a tl) (run_consumer sql_literal fuel a tl)
    (monitor fuel a tl (k_queues a)) KIdx KIdx) with (σ := σ) (ps := ps) as (Hq0 & Hq1 & Hacc);
    [intros i k Hi%range_nonneg ?; apply multi_run_producer_safe; [done|lia]
    |intros i k Hi%range_nonneg ?; apply multi_run_consumer_safe; [done|lia]
    |intros; by apply multi_monitor_safe|done..|].
  auto.
Qed.

Lemma multi_results σ ps :
  0 ≤ k_queues a → steps start (σ, ps) → all_ended ps →
  parties_ok (n_workers a) ps ↔
  (Z.to_nat (k_queues a) ≤ length (queue σ pub_result_q))%nat ∧
  (Z.to_nat (k_queues a) ≤ length (queue σ con_result_q))%nat.
Proof.
  intros Hk Hs Hend. rewrite multi_start_fleet in Hs |- * by done.
  rewrite <-!(length_range (k_queues a)).
  pose proof (fleet_results timed_sql (accounts a) (range 0 (k_queues a)) (range 0 (k_queues a))
    (run_producer sql_literal fuel a tl) (run_consumer sql_literal fuel a tl)
    (monitor fuel a tl (k_queues a)) KIdx KIdx) as H.
  apply H; try done.
  - intros i k Hi%range_nonneg ?. apply multi_run_producer_safe; [done|lia].
  - intros i k Hi%range_nonneg ?. apply multi_run_consumer_safe; [done|lia].
  - intros. by apply multi_monitor_safe.
Qed.

(** When every producer and consumer has completed, [main]'s
    two dicts have exactly the queues 0..k-1 as keys, and for each queue the
    entry is what that queue's own shared counter holds (modulo its width):
    no queue's count is lost, overwritten or credited to another, whatever
    the order in which the results arrive. *)
Theorem per_queue_totals σ ps :
  0 ≤ k_queues a →
  steps start (σ, ps) → parties_ok (n_workers a) ps →
  ∃ totals_pub totals_con,
    totals a σ = Some (totals_pub, totals_con) ∧
    (∀ i, is_Some (totals_pub !! i) ↔ 0 ≤ i < k_queues a) ∧
    (∀ i, is_Some (totals_con !! i) ↔ 0 ≤ i < k_queues a) ∧
    ∀ i, 0 ≤ i < k_queues a →
      value σ (pub_counter i) = wrap64 (totals_pub !!! i) ∧
      value σ (con_counter i) = wrap64 (totals_con !!! i).
Proof.
  intros Hk Hs Hok.
  destruct (multi_complete σ ps) as (Hq0 & Hq1 & Hacc); [done..|].
  destruct (collect_complete _ Hq0) as (tp & Hp & Hdp & Hvp).
  destruct (collect_complete _ Hq1) as (tc & Hc & Hdc & Hvc).
  exists tp, tc. unfold totals.
  rewrite Hp. simpl. rewrite Hc. split; [done|]. split; [done|]. split; [done|]. intros i Hi. split.
  - rewrite lookup_total_alt, Hvp by done. apply (Hacc (pub_account i)).
    unfold accounts. apply elem_of_app. left. apply list_elem_of_fmap_2. by apply range_elem.
  - rewrite lookup_total_alt, Hvc by done. apply (Hacc (con_account i)).
    unfold accounts. apply elem_of_app. right. apply list_elem_of_fmap_2. by apply range_elem.
Qed.

Lemma window_in_range l :
  Forall (k_row (k_queues a)) l →
  ∃ lines, window_lines a tl (rows_in_window tl l) = Ok lines.
Proof.
  intros Hsh. pose proof (rows_in_window_shape _ tl _ Hsh) as Hw.
  unfold window_lines. set (w := rows_in_window tl l) in *.
  destruct (head w) as [[t0 r0]|] eqn:E0; [|by eexists].
  destruct (last w) as [[t1 r1]|] eqn:E1; [|by eexists].
  destruct (length w <? 2)%nat; [by eexists|].
  destruct (mapM_Some_forall (stats_of w) (range 0 (k_queues a))) as (st & -> & _);
    [|destruct (foldl _ _ st) as [[p c] g]; by eexists].
  apply Forall_forall. intros i Hi%range_elem. apply (stats_of_defined w i (k_queues a)); [|done..].
  intros ->. done.
Qed.

(** The per-queue report never indexes out of range on the rows the
    monitor takes (one pair per queue): it prints either the statistics of
    every queue or that there were not enough samples. *)
Theorem report_in_range σ :
  Forall (k_row (k_queues a)) (samples σ) →
  ∀ e, report a tl σ ≠ Some (Err e).
Proof.
  intros Hsh e. unfold report. destruct (totals a σ) as [[tp tc]|]; [|done]. simpl.
  by destruct (window_in_range _ Hsh) as [lines ->].
Qed.
End properties.

(** ** The properties at work: two queues *)

Module MultiQueueExample.
Definition quote (s : string) : string := "'" +:+ s +:+ "'".

Definition a : args :=
  Args "db" "SELECT 1" 2 (NInt 0) 2000 2000 200 (of_int 9) (of_int 1) (of_int 0) (of_int 2)
    "bmq://bmq.test.mem.priority/mqbench" "tcp://localhost:30114".

Definition tl : timeline := make_timeline (duration_secs a) (drain_tail_secs a) (ramp_up_secs a) fzero.

Definition begin : config := (init_shared (n_workers a), workers quote 3 a tl).

Definition idle (i k : nat) : list (nat * answer) := replicate k (i, AUnit).

Definition produce (i : nat) (n : Z) : list (nat * answer) :=
  [(i, AFloat (of_int 2)); (i, AFloat (of_int 3)); (i, AUnit); (i, ARow [VInt n])] ++ idle i 4 ++
  [(i, AFloat (of_int 11)); (i, AUnit); (i, AUnit)].

Definition consume (i : nat) (n : Z) : list (nat * answer) :=
  [(i, AFloat (of_int 3)); (i, AUnit); (i, ARow [VInt n])] ++ idle i 4 ++
  [(i, AFloat (of_int 11)); (i, AUnit); (i, AUnit)].

(** Queue 1's producer reports before queue 0's. *)
Definition good : list (nat * answer) :=
  idle 0 5 ++ idle 1 5 ++ idle 2 4 ++ idle 3 4 ++ idle 0 1 ++ idle 1 1 ++ idle 2 1 ++ idle 3 1 ++
  produce 1 7 ++ produce 0 3 ++ consume 2 3 ++ consume 3 5 ++
  [(4%nat, AFloat (of_int 3)); (4%nat, AUnit); (4%nat, AFloat (of_int 4))] ++ idle 4 13 ++
  [(4%nat, AFloat (of_int 11))].
End MultiQueueExample.

Lemma per_queue_totals_witness :
  ∃ tp tc,
    totals MultiQueueExample.a (final MultiQueueExample.begin MultiQueueExample.good).1 = Some (tp, tc) ∧
    (∀ i, is_Some (tp !! i) ↔ 0 ≤ i < 2) ∧ (∀ i, is_Some (tc !! i) ↔ 0 ≤ i < 2) ∧
    ∀ i, 0 ≤ i < 2 →
      value (final MultiQueueExample.begin MultiQueueExample.good).1 (pub_counter i) = wrap64 (tp !!! i) ∧
      value (final MultiQueueExample.begin MultiQueueExample.good).1 (con_counter i) = wrap64 (tc !!! i).
Proof.
  apply (per_queue_totals MultiQueueExample.quote 3 MultiQueueExample.a MultiQueueExample.tl _
    (final MultiQueueExample.begin MultiQueueExample.good).2); [done| |].
  - apply final_steps. vm_compute. reflexivity.
  - apply all_ok_parties, all_ok_check. vm_compute. reflexivity.
Defined.

Lemma report_in_range_witness :
  report MultiQueueExample.a MultiQueueExample.tl
    (final MultiQueueExample.begin MultiQueueExample.good).1 ≠ Some (Err KeyError).
Proof.
  apply report_in_range. vm_compute. repeat constructor.
Defined.

(** The growth verdict's slack scales with the first backlog, so a negative
    backlog that falls further (consumers ahead of the counted rows) is called
    growing. *)
Lemma shrinking_negative_backlog_called_growing : growing (-1000) (-1100) = true.
Proof. vm_compute. reflexivity. Qed.
