(* ===== verification/Fleets.v ===== *)
(** * The fleets against the atomic specification

    Every worker of bench/sustained_bench.py, filtered_bench.py and
    multi_queue_bench.py is disciplined (Atomic.v), so what a fleet of them
    does with its locks is what a fleet with atomic counters does. *)
From S2P Require Import Prelude PyFloat PyStr PyM OpenRetry Pool Workers Timed Atomic.
From S2P Require SustainedBench FilteredBench MultiQueueBench.

(** What a pool of [n] parties to the barrier, started as [ps], does with
    locks it does without: in between the critical sections the shared
    objects are the same (no lock being held there), and so are the
    processes. *)
Definition refines_atomic (n : nat) (ps : list process) : Prop :=
  ∀ σ ps', steps (init_shared n, ps) (σ, ps') →
  ∃ qs, rtc astep (init_shared n, ps) (unlocked σ, qs) ∧
    ∀ i p, ps' !! i = Some p → outside p = true → qs !! i = Some p.

Lemma disciplined_refines n ps : Forall disciplined ps → refines_atomic n ps.
Proof. intros Hd σ ps' Hs. by apply reduction_outside. Qed.

(** A fleet is disciplined if its three kinds of worker are. *)
Lemma disciplined_fleet (prod con : Z → process) mon l1 l2 :
  (∀ i, disciplined (prod i)) → (∀ i, disciplined (con i)) → disciplined mon →
  Forall disciplined ((prod <$> l1) ++ (con <$> l2) ++ [mon]).
Proof.
  intros Hp Hc Hm. rewrite !Forall_app, !Forall_fmap.
  split; [|split]; [by apply Forall_true..|by repeat constructor].
Qed.

Section fleets.
Context (sql_literal : string → string) (fuel : nat) (tl : Steady.timeline).

Lemma sustained_disciplined a :
  Forall disciplined (SustainedBench.workers sql_literal fuel a tl).
Proof.
  apply disciplined_fleet; [intros i..|]; unfold SustainedBench.run_producer,
    SustainedBench.producer, SustainedBench.run_consumer, SustainedBench.consumer,
    SustainedBench.monitor; auto with atomic.
  apply disciplined_bind; [|auto with atomic]. apply disciplined_timed_producer.
  intros n ws. unfold SustainedBench.throttle. destruct (fgt _ _); auto with atomic.
Qed.

Lemma multi_disciplined a :
  Forall disciplined (MultiQueueBench.workers sql_literal fuel a tl).
Proof.
  apply disciplined_fleet; [intros i..|]; unfold MultiQueueBench.run_producer,
    MultiQueueBench.producer, MultiQueueBench.run_consumer, MultiQueueBench.consumer,
    MultiQueueBench.monitor; auto with atomic.
  - apply disciplined_bind; [|auto with atomic]. apply disciplined_timed_producer.
    intros n ws. unfold MultiQueueBench.throttle. destruct (num_positive _); auto with atomic.
  - apply disciplined_timed_monitor. unfold MultiQueueBench.row_sample.
    apply disciplined_bind; [auto with atomic|]. intros now.
    apply disciplined_bind; [|auto with atomic].
    induction (PyM.range 0 _) as [|j l IH]; simpl; auto 10 with atomic.
Qed.

Lemma disciplined_lift {A} (r : result A) : disciplined (lift r).
Proof. constructor. Qed.

#[local] Hint Resolve disciplined_lift : atomic.

Lemma consume_round_disciplined a values k fe m :
  disciplined (FilteredBench.consume_round a values k fe m).
Proof.
  unfold FilteredBench.consume_round, fetchall.
  destruct fe as [expr|]; [destruct (FilteredBench.verify_content a)|]; auto 10 with atomic.
Qed.

Lemma filtered_consumer_disciplined a values k counter fe verify_counter :
  disciplined (FilteredBench.consumer sql_literal fuel a tl values k counter fe verify_counter).
Proof.
  unfold FilteredBench.consumer, FilteredBench.consume_loop.
  apply disciplined_with_connection.
  do 3 (apply disciplined_bind; [auto with atomic|intros _]).
  apply disciplined_bind.
  - apply disciplined_while; [auto with atomic|]. intros [c m].
    apply disciplined_bind; [apply consume_round_disciplined|auto with atomic].
  - intros [c m]. apply disciplined_bind; [|auto with atomic].
    destruct (_ =? _); auto with atomic.
Qed.

Lemma filtered_disciplined a exprs values :
  Forall disciplined (FilteredBench.workers sql_literal fuel a tl exprs values).
Proof.
  apply disciplined_fleet; [intros i..|]; unfold FilteredBench.run_producer,
    FilteredBench.producer, FilteredBench.run_consumer, FilteredBench.monitor; auto with atomic.
  - apply disciplined_bind; [|auto with atomic]. apply disciplined_timed_producer.
    intros n ws. unfold FilteredBench.throttle. destruct (fgt _ _); auto with atomic.
  - apply disciplined_bind; [auto with atomic|]. intros e.
    apply disciplined_bind; [apply filtered_consumer_disciplined|auto with atomic].
Qed.

(** C9. The locked counters refine atomic ones: whatever a fleet of
    sustained, filtered or multi-queue workers reaches by interleaving its
    single calls (connects, queries, lock acquisitions, counter reads and
    writes, releases), a fleet that has no locks and adds to or reads a
    counter in one step reaches too, with the same counters, barrier
    arrivals, result queues and samples, and with every process that is not
    inside a critical section at the same point. *)
Theorem fleets_refine_atomic :
  (∀ a, refines_atomic (SustainedBench.n_workers a) (SustainedBench.workers sql_literal fuel a tl)) ∧
  (∀ a exprs values,
     refines_atomic (FilteredBench.n_workers a)
       (FilteredBench.workers sql_literal fuel a tl exprs values)) ∧
  (∀ a, refines_atomic (MultiQueueBench.n_workers a)
     (MultiQueueBench.workers sql_literal fuel a tl)).
Proof.
  split; [|split]; intros; apply disciplined_refines.
  - apply sustained_disciplined.
  - apply filtered_disciplined.
  - apply multi_disciplined.
Qed.
End fleets.

(** The completed run of SustainedBench.v, atomically. *)
Lemma fleets_refine_atomic_witness :
  ∃ qs, rtc astep (init_shared (SustainedBench.n_workers SustainedBench.Example.a),
                   SustainedBench.workers SustainedBench.Example.quote 3
                     SustainedBench.Example.a SustainedBench.Example.tl)
          (unlocked (final SustainedBench.Example.begin SustainedBench.Example.good).1, qs) ∧
    ∀ i p, (final SustainedBench.Example.begin SustainedBench.Example.good).2 !! i = Some p →
      outside p = true → qs !! i = Some p.
Proof.
  apply (proj1 (fleets_refine_atomic SustainedBench.Example.quote 3 SustainedBench.Example.tl)).
  apply final_steps. vm_compute. reflexivity.
Defined.
