(* ===== verification/Progress.v ===== *)
(** * Progress: no interleaving gets stuck, none goes on for ever

    A pool of disciplined processes (Atomic.v) cannot deadlock over its locks:
    whoever holds one is inside a block, and every call left to it there can
    be made.  The only call that waits for others otherwise is the barrier's,
    and there the only thing to wait for in vain is a worker that ended with
    an exception before it arrived.  And since every call brings a process
    closer to its end, every interleaving stops. *)
From S2P Require Import Prelude PyFloat PyStr PyM OpenRetry Pool Workers Timed Atomic Fleets.
From S2P Require SustainedBench FilteredBench MultiQueueBench.

(** ** Inside a block *)

(** What is left of a block on lock [l] once it has been acquired. *)
Inductive inside (l : nat) : process → Prop :=
| inside_read k : (∀ v, inside l (k v)) → inside l (Do (ReadValue l) k)
| inside_write z k : (∀ u, inside l (k u)) → inside l (Do (WriteValue l z) k)
| inside_release k : (∀ u, disciplined (k u)) → inside l (Do (Release l) k).

(** A process holds no lock and is at large, or is inside a block on the one
    lock it holds. *)
Definition stance (σ : shared) (i : nat) (p : process) : Prop :=
  (disciplined p ∧ ∀ l, holder σ l ≠ Some i) ∨
  ∃ l, inside l p ∧ ∀ l', holder σ l' = Some i ↔ l' = l.

Definition orderly (s : config) : Prop :=
  (∀ i p, s.2 !! i = Some p → stance s.1 i p) ∧
  ∀ l i, holder s.1 l = Some i → is_Some (s.2 !! i).

Lemma stance_holder σ σ' i p :
  (∀ l, holder σ' l = Some i ↔ holder σ l = Some i) → stance σ i p → stance σ' i p.
Proof.
  intros H [[Hd Hn]|(l & Hin & Hl)]; [left|right; exists l].
  - split; [done|]. intros l. by rewrite H.
  - split; [done|]. intros l'. by rewrite H, Hl.
Qed.

(** The first call of a disciplined process: outside the locks, or the
    acquisition that enters a block. *)
Definition first_call (p : process) : Prop :=
  match p with
  | Do (Acquire l) k => ∀ u, inside l (k u)
  | Do c k => on_lock c = false ∧ ∀ x, disciplined (k x)
  | _ => True
  end.

Lemma disciplined_first (p : process) : disciplined p → first_call p.
Proof.
  intros [a| |c k Hc Hk|l n k Hk|l k Hk]; [done|done|by destruct c| |].
  - intros u. by repeat (constructor; intros ?).
  - intros u. constructor. intros v. by constructor.
Qed.

Lemma first_acquire l k u : disciplined (Do (Acquire l) k : process) → inside l (k u).
Proof. intros H%disciplined_first. exact (H u). Qed.

Lemma first_other c k :
  disciplined (Do c k : process) → (∀ l, c ≠ Acquire l) →
  on_lock c = false ∧ ∀ x, disciplined (k x).
Proof. intros H%disciplined_first Hc. destruct c; try done. exfalso. by eapply Hc. Qed.

Lemma is_acquire c : (∃ l, c = Acquire l) ∨ ∀ l, c ≠ Acquire l.
Proof. destruct c; (by left; eexists) || by right. Qed.

Definition inside_first (l : nat) (p : process) : Prop :=
  match p with
  | Do (ReadValue l') k => l' = l ∧ ∀ v, inside l (k v)
  | Do (WriteValue l' _) k => l' = l ∧ ∀ u, inside l (k u)
  | Do (Release l') k => l' = l ∧ ∀ u, disciplined (k u)
  | _ => False
  end.

Lemma inside_next l p : inside l p → inside_first l p.
Proof. by intros []. Qed.

(** What a call does to the locks. *)
Lemma act_holder i σ c x σ' :
  act i σ c x σ' →
  match c with
  | Acquire l => holder σ l = None ∧ holder σ' = upd (holder σ) l (Some i)
  | Release l => holder σ l = Some i ∧ holder σ' = upd (holder σ) l None
  | _ => holder σ' = holder σ
  end.
Proof. destruct c; simpl; intros; destruct_and?; subst; done. Qed.

(** The process that makes a call keeps its stance. *)
Lemma stance_self i σ c k x σ' :
  stance σ i (Do c k) → act i σ c x σ' → stance σ' i (k x).
Proof.
  intros [[Hd Hn]|(l & Hin & Hl)] Ha%act_holder.
  - destruct (is_acquire c) as [[l ->]|Hc].
    + destruct Ha as [_ Ha]. right. exists l. split; [by apply first_acquire|].
      intros l'. rewrite Ha. destruct (decide (l' = l)) as [->|Hne]; [by rewrite upd_eq|].
      rewrite upd_ne by done. by split; [intros H%Hn|].
    + destruct (first_other c k Hd Hc) as [Hl Hk]. left. split; [done|].
      assert (holder σ' = holder σ) as -> by by destruct c.
      done.
  - apply inside_next in Hin. destruct c; try done; destruct Hin as [-> Hk].
    + left. split; [done|]. destruct Ha as [_ ->]. intros l'.
      destruct (decide (l' = l)) as [->|Hne]; [by rewrite upd_eq|].
      rewrite upd_ne by done. by intros H%Hl.
    + right. exists l. rewrite Ha. by split.
    + right. exists l. rewrite Ha. by split.
Qed.

Lemma act_holder_other i j σ c x σ' :
  i ≠ j → act i σ c x σ' → ∀ l, holder σ' l = Some j ↔ holder σ l = Some j.
Proof.
  intros Hij Ha%act_holder l. destruct c; try (by rewrite Ha); destruct Ha as [Hh ->];
    match goal with |- upd _ ?l' _ _ = _ ↔ _ =>
      destruct (decide (l = l')) as [->|Hne]; [rewrite upd_eq, Hh|by rewrite upd_ne] end;
    split; congruence.
Qed.

Lemma orderly_step s s' : orderly s → step s s' → orderly s'.
Proof.
  intros Ho Hs. destruct Hs as [i c k x σ σ' ps Hi Ha]. destruct Ho as [Hst Hh].
  simpl in *. split; simpl.
  - intros j p Hj. apply (lookup_moved_inv _ _ _ _ _ _ Hi) in Hj as [[-> ->]|[Hne Hj]].
    + apply (stance_self _ σ c); [by apply Hst|done].
    + eapply stance_holder; [|by apply Hst]. by eapply act_holder_other.
  - intros l j Hj. rewrite list_lookup_insert_is_Some.
    destruct (decide (i = j)) as [->|Hne]; [by eexists|].
    apply (Hh l). by apply (act_holder_other i j _ _ _ _ Hne Ha).
Qed.

Lemma orderly_reachable n ps s :
  Forall disciplined ps → steps (init_shared n, ps) s → orderly s.
Proof.
  intros Hd Hs. remember (init_shared n, ps) as s0 eqn:E.
  induction Hs as [s|s1 s2 s3 _ IH Hst]; [|by eapply orderly_step; [apply IH|]].
  subst. split; [|done]. intros i p Hp. left. split; [|done].
  by apply (proj1 (Forall_lookup _ _) Hd i).
Qed.

(** ** Who can move *)

Definition can_step (s : config) : Prop := ∃ s', step s s'.

Lemma reply_inhabited c : inhabited (reply c).
Proof. destruct c; repeat constructor; exact inhabitant. Qed.

(** Inside a block every call can be made. *)
Lemma inside_steps σ ps i l p :
  ps !! i = Some p → inside l p → holder σ l = Some i → can_step (σ, ps).
Proof.
  intros Hi Hin%inside_next Hh. destruct p as [a| |c k]; try done.
  destruct c; try done; destruct Hin as [-> _].
  - eexists. by apply (step_do i (Release l) k () σ (set_holder σ (upd (holder σ) l None))).
  - eexists. by apply (step_do i (ReadValue l) k (value σ l) σ σ).
  - eexists. by apply (step_do i (WriteValue l z) k () σ (set_value σ (upd (value σ) l z))).
Qed.

(** A call outside the locks can be made, but for the barrier's. *)
Lemma unlocked_steps σ ps i c k :
  ps !! i = Some (Do c k) → on_lock c = false →
  can_step (σ, ps) ∨ c = BarrierPass ∧ (length (arrived σ) < parties σ)%nat.
Proof.
  intros Hi Hc. destruct (reply_inhabited c) as [x].
  destruct (decide (parties σ ≤ length (arrived σ))%nat) as [Hle|Hlt].
  - left. destruct c; try done; eexists; by eapply (step_do i _ k x).
  - destruct c; try done; try (left; eexists; by eapply (step_do i _ k x)).
    right. split; [done|]. lia.
Qed.

(** Where a process of an orderly pool stands that nothing can move. *)
Definition at_barrier (p : process) : Prop := ∃ k, p = Do BarrierPass k.

Lemma stuck_where σ ps i p :
  orderly (σ, ps) → ¬ can_step (σ, ps) → ps !! i = Some p →
  (∃ r, p = Ret r) ∨ p = OutOfFuel ∨ at_barrier p ∧ (length (arrived σ) < parties σ)%nat.
Proof.
  intros [Hst Hh] Hstuck Hi. destruct (Hst i p Hi) as [[Hd _]|(l & Hin & Hl)].
  2:{ exfalso. apply Hstuck. eapply inside_steps; [done..|]. by apply Hl. }
  destruct p as [r| |c k]; [eauto..|]. right; right.
  destruct (is_acquire c) as [[l ->]|Hc].
  - exfalso. apply Hstuck. destruct (holder σ l) as [j|] eqn:E.
    + destruct (Hh l j E) as [q Hq]. simpl in Hq.
      destruct (Hst j q Hq) as [[_ Hn]|(l' & Hin & Hl')]; [by destruct (Hn l)|].
      apply Hl' in E as ->. eapply inside_steps; [done..|]. by apply Hl'.
    + eexists. by apply (step_do i (Acquire l) k () σ (set_holder σ (upd (holder σ) l (Some i)))).
  - destruct (first_other c k Hd Hc) as [Hl _].
    destruct (unlocked_steps σ ps i c k Hi Hl) as [|[-> Hlt]]; [done|].
    split; [by exists k|done].
Qed.

(** ** Every interleaving stops *)

Definition goes_on (p p' : process) : Prop :=
  match p with Do c k => ∃ x, p' = k x | _ => False end.

Definition pool_moves (ps' ps : list process) : Prop :=
  ∃ i p p', ps !! i = Some p ∧ goes_on p p' ∧ ps' = <[i := p']> ps.

Lemma pool_moves_cons (p : process) ps : Acc pool_moves ps → Acc pool_moves (p :: ps).
Proof.
  revert ps. induction p as [r| |c k IH]; intros ps Hps; induction Hps as [ps Hacc IHps];
    constructor; intros ps' ([|i] & q & q' & Hi & Hq & ->); simpl in Hi |- *;
    match type of Hi with
    | Some _ = Some _ => injection Hi as <-
    | _ => apply IHps; by exists i, q, q'
    end.
  - destruct Hq.
  - destruct Hq.
  - destruct Hq as [x ->]. apply IH. by constructor.
Qed.

Lemma pool_moves_wf ps : Acc pool_moves ps.
Proof.
  induction ps as [|p ps IH]; [|by apply pool_moves_cons].
  constructor. by intros ps' (i & q & q' & Hi & _).
Qed.

(** Going on from [s] ends, whichever calls are made and whatever they reply. *)
Abbreviation ends := (Acc (fun s' s => step s s')).

Lemma pool_ends s : ends s.
Proof.
  destruct s as [σ ps]. revert σ. induction (pool_moves_wf ps) as [ps _ IH]; intros σ.
  constructor. intros s' Hs. destruct (step_moves _ _ Hs) as (i & p & p' & Hi & Hm & Hps).
  destruct s' as [σ' ps']. simpl in *. apply IH. exists i, p, p'. split; [done|]. split; [|done].
  destruct p as [r| |c k]; try done. destruct Hm as (x & _ & ->). by exists x.
Qed.

(** ** The fleets *)

(** From any state a pool of [n] parties gets to, it ends.  Where nothing can
    move any more and no loop has run out of fuel, every worker has ended, or
    one of the parties has ended with an exception before the barrier. *)
Definition completes (n : nat) (ps0 : list process) : Prop :=
  ∀ σ ps, steps (init_shared n, ps0) (σ, ps) →
  ends (σ, ps) ∧
  (¬ can_step (σ, ps) → Forall (.≠ OutOfFuel) ps →
   all_ended ps ∨
   ∃ j e, (j < n)%nat ∧ ps !! j = Some (Ret (Err e)) ∧ j ∉ arrived σ).

Lemma absent_party (l : list nat) n :
  NoDup l → (length l < n)%nat → ∃ j, (j < n)%nat ∧ j ∉ l.
Proof.
  intros Hnd Hlt. destruct (decide (Forall (.∈ l) (seq 0 n))) as [Hall|Hne].
  - exfalso. assert (length (seq 0 n) ≤ length l)%nat; [|rewrite length_seq in *; lia].
    apply submseteq_length, NoDup_submseteq; [apply NoDup_seq|]. by apply Forall_forall.
  - apply not_Forall_Exists in Hne; [|apply _]. apply Exists_exists in Hne as (j & Hj & Hn).
    exists j. split; [apply elem_of_seq in Hj; lia|done].
Qed.

Section bench.
Context `{HB : Bench}.

(** A worker that waits at the barrier or is past it has arrived. *)
Lemma waiting_arrived σ ps i p :
  reachable (σ, ps) → ps !! i = Some p → (i < bench_parties)%nat →
  at_barrier p ∨ p = Ret (Ok ()) → i ∈ arrived σ.
Proof.
  intros Hr Hi Hlt Hp. destruct (reachable_inv _ _ Hr) as [gs Hinv].
  destruct (lookup_ledger _ _ _ _ (inv_length _ _ _ _ _ _ Hinv) Hi) as [g Hg].
  pose proof (inv_safe _ _ _ _ _ _ Hinv _ _ _ Hi Hg) as Hs.
  apply (inv_barrier _ _ _ _ _ _ Hinv). exists g. split; [done|].
  destruct Hp as [[k ->]| ->]; simpl in Hs.
  - destruct Hs as (-> & _). done.
  - destruct Hs as (Hs & _). by rewrite (Hs Hlt).
Qed.

Lemma disciplined_completes :
  Forall disciplined bench_workers → (bench_parties ≤ length bench_workers)%nat →
  completes bench_parties bench_workers.
Proof.
  intros Hd Hlen σ ps Hr. split; [apply pool_ends|]. intros Hstuck Hfuel.
  pose proof (orderly_reachable _ _ _ Hd Hr) as Ho.
  destruct (decide (length (arrived σ) < bench_parties)%nat) as [Hlt|Hge].
  - right. destruct (arrived_bounded _ _ Hr) as [Hnd _].
    destruct (absent_party _ _ Hnd Hlt) as (j & Hj & Hna).
    assert (is_Some (ps !! j)) as [p Hp].
    { apply lookup_lt_is_Some_2. pose proof (steps_length _ _ Hr) as Hl. simpl in Hl. lia. }
    destruct (stuck_where _ _ _ _ Ho Hstuck Hp) as [([[]|e] & ->)|[ -> |[Hb _]]].
    + destruct Hna. eapply waiting_arrived; eauto.
    + by exists j, e.
    + by apply (proj1 (Forall_lookup _ _) Hfuel) in Hp.
    + destruct Hna. eapply waiting_arrived; eauto.
  - left. apply Forall_lookup. intros i p Hp.
    destruct (stuck_where _ _ _ _ Ho Hstuck Hp) as [Hret|[ -> |[_ Hlt]]]; [done| |].
    + by apply (proj1 (Forall_lookup _ _) Hfuel) in Hp.
    + destruct (reachable_inv _ _ Hr) as [gs Hinv].
      rewrite (inv_parties _ _ _ _ _ _ Hinv) in Hlt. lia.
Qed.
End bench.

Section fleets.
Context (sql_literal : string → string) (fuel : nat) (tl : Steady.timeline).

Lemma sustained_completes a :
  0 ≤ SustainedBench.producers a → 0 ≤ SustainedBench.consumers a →
  completes (SustainedBench.n_workers a) (SustainedBench.workers sql_literal fuel a tl).
Proof.
  intros Hp Hc. rewrite SustainedBench.sustained_start_fleet by done.
  apply (disciplined_completes (HB := SustainedBench.sustained sql_literal fuel a tl)).
  - apply sustained_disciplined.
  - apply fleet_parties_workers.
Qed.

Lemma filtered_completes a exprs values :
  0 ≤ FilteredBench.producers a → 0 ≤ FilteredBench.consumers a →
  completes (FilteredBench.n_workers a) (FilteredBench.workers sql_literal fuel a tl exprs values).
Proof.
  intros Hp Hc. rewrite FilteredBench.filtered_start_fleet by done.
  unshelve refine (disciplined_completes (HB := fleet (FilteredBench.timed_sql a)
    FilteredBench.accounts (range 0 (FilteredBench.producers a)) (range 0 (FilteredBench.consumers a))
    (FilteredBench.run_producer sql_literal fuel a tl)
    (FilteredBench.run_consumer sql_literal fuel a tl exprs values)
    (FilteredBench.monitor fuel a tl FilteredBench.published_counter FilteredBench.consumed_counter)
    (fun _ => KInt) (fun _ => KInt) _ _ _) _ _).
  - intros. by apply FilteredBench.filtered_run_producer_safe.
  - intros. by apply FilteredBench.filtered_run_consumer_safe.
  - intros. apply timed_monitor_safe; [done|apply backlog_sample_safe].
  - apply filtered_disciplined.
  - apply fleet_parties_workers.
Qed.

Lemma multi_completes a :
  0 ≤ MultiQueueBench.k_queues a →
  completes (MultiQueueBench.n_workers a) (MultiQueueBench.workers sql_literal fuel a tl).
Proof.
  intros Hk. rewrite MultiQueueBench.multi_start_fleet by done.
  unshelve refine (disciplined_completes (HB := fleet MultiQueueBench.timed_sql
    (MultiQueueBench.accounts a) (range 0 (MultiQueueBench.k_queues a))
    (range 0 (MultiQueueBench.k_queues a)) (MultiQueueBench.run_producer sql_literal fuel a tl)
    (MultiQueueBench.run_consumer sql_literal fuel a tl)
    (MultiQueueBench.monitor fuel a tl (MultiQueueBench.k_queues a)) KIdx KIdx _ _ _) _ _).
  - intros i k Hi%MultiQueueBench.range_nonneg ?. by apply MultiQueueBench.multi_run_producer_safe; [|lia].
  - intros i k Hi%MultiQueueBench.range_nonneg ?. by apply MultiQueueBench.multi_run_consumer_safe; [|lia].
  - intros. by apply MultiQueueBench.multi_monitor_safe.
  - apply multi_disciplined.
  - apply fleet_parties_workers.
Qed.

(** The fleets do not deadlock and do not go on for ever.  From any state
    that sustained_bench, filtered_bench or multi_queue_bench gets to after
    main has started its processes, every further interleaving stops; and
    where it stops, unless a loop is still running (out of fuel, C10), every
    worker has ended, so that main's joins return, or one of the barrier's
    parties has ended with an exception before it arrived there.  No other
    behaviour of the database, the clock or the scheduler keeps main
    waiting: in particular no worker waits for a counter's lock for ever. *)
Theorem fleets_complete :
  (∀ a, 0 ≤ SustainedBench.producers a → 0 ≤ SustainedBench.consumers a →
     completes (SustainedBench.n_workers a) (SustainedBench.workers sql_literal fuel a tl)) ∧
  (∀ a exprs values, 0 ≤ FilteredBench.producers a → 0 ≤ FilteredBench.consumers a →
     completes (FilteredBench.n_workers a)
       (FilteredBench.workers sql_literal fuel a tl exprs values)) ∧
  (∀ a, 0 ≤ MultiQueueBench.k_queues a →
     completes (MultiQueueBench.n_workers a) (MultiQueueBench.workers sql_literal fuel a tl)).
Proof.
  split; [|split]; intros; [apply sustained_completes|apply filtered_completes|apply multi_completes]; done.
Qed.
End fleets.

(** The completed run of SustainedBench.v. *)
Lemma fleets_complete_witness :
  completes (SustainedBench.n_workers SustainedBench.Example.a)
    (SustainedBench.workers SustainedBench.Example.quote 3 SustainedBench.Example.a
       SustainedBench.Example.tl).
Proof.
  apply (proj1 (fleets_complete SustainedBench.Example.quote 3 SustainedBench.Example.tl));
    vm_compute; discriminate.
Defined.
