(* ===== verification/Samples.v ===== *)
(** * The shape of the monitors' samples

    The sample list is shared by all processes and untyped in the code; what
    [main] computes from it relies on who appends what.  [emits] checks a
    program's appends on every branch, [samples_shaped] carries the check to
    every interleaving, and the theorem gives the type of the list in each
    benchmark. *)
From S2P Require Import Prelude PyFloat PyStr PyM OpenRetry Pool Workers Timed.
From S2P Require SustainedBench FilteredBench MultiQueueBench.

(** Every sample [p] appends is in [Q], and a result of [p] is in [Φ]. *)
Fixpoint emits {A} (Q : sample → Prop) (Φ : A → Prop) (p : prog A) : Prop :=
  match p with
  | Ret a => Φ a
  | OutOfFuel => True
  | Do c k => match c with AppendSample s => Q s | _ => True end ∧ ∀ x, emits Q Φ (k x)
  end.

(** A value computed: nothing is required of an exception. *)
Definition when_ok {A} (Φ : A → Prop) (r : result A) : Prop :=
  match r with Ok a => Φ a | Err _ => True end.

Definition anything {A} (_ : A) : Prop := True.

Section rules.
Context (Q : sample → Prop).

Lemma emits_mono {A} (Φ Ψ : A → Prop) p :
  (∀ a, Φ a → Ψ a) → emits Q Φ p → emits Q Ψ p.
Proof.
  intros H. induction p as [a| |c k IH]; simpl; [auto..|]. intros [Hc Hk]. auto.
Qed.

Lemma emits_bindp {A B} (Φ : A → Prop) (Ψ : B → Prop) m f :
  emits Q Φ m → (∀ a, Φ a → emits Q Ψ (f a)) → emits Q Ψ (bindp m f).
Proof.
  intros Hm Hf. induction m as [a| |c k IH]; simpl in *; [auto..|]. destruct Hm as [Hc Hk]. auto.
Qed.

Lemma emits_bind {A B} (Φ : A → Prop) (Ψ : B → Prop) (m : Py A) (f : A → Py B) :
  emits Q (when_ok Φ) m → (∀ a, Φ a → emits Q (when_ok Ψ) (f a)) → emits Q (when_ok Ψ) (bind m f).
Proof.
  intros Hm Hf. apply (emits_bindp (when_ok Φ)); [done|]. intros [a|e] Ha; [by apply Hf|done].
Qed.

Lemma emits_while {S} (I : S → Prop) fuel cond (body : S → Py S) s :
  I s → (∀ s, I s → emits Q (when_ok anything) (cond s)) →
  (∀ s, I s → emits Q (when_ok I) (body s)) →
  emits Q (when_ok I) (while_ fuel cond body s).
Proof.
  intros HI Hc Hb. revert s HI. induction fuel as [|fuel IH]; intros s HI; [done|].
  cbn [while_]. apply (emits_bind anything); [by apply Hc|]. intros [] _; [|done].
  apply (emits_bind I); [by apply Hb|]. auto.
Qed.
End rules.

(** ** In a pool *)

Lemma samples_shaped Q s s' :
  Forall (emits Q anything) s.2 → Forall Q (samples s.1) → steps s s' → Forall Q (samples s'.1).
Proof.
  intros Hp Hs Hst. assert (Forall (emits Q anything) s'.2 ∧ Forall Q (samples s'.1)) as [_ H]; [|done].
  induction Hst as [|s1 s2 s3 _ IH Hst]; [done|]. destruct (IH Hp Hs) as [Hp2 Hs2].
  destruct Hst as [i c k x σ σ' ps Hi Ha]. simpl in *.
  pose proof (proj1 (Forall_lookup _ _) Hp2 i _ Hi) as [Hc Hk].
  split; [apply Forall_insert; auto|].
  destruct c; simpl in Ha; destruct_and?; subst; try done.
  apply Forall_app. by repeat constructor.
Qed.

Lemma pool_samples Q n ps σ ps' :
  Forall (emits Q anything) ps → steps (init_shared n, ps) (σ, ps') → Forall Q (samples σ).
Proof. intros Hp Hs. exact (samples_shaped Q (init_shared n, ps) (σ, ps') Hp (Forall_nil_2 _) Hs). Qed.

(** ** The workers' constructs *)

Create HintDb shape.

Section constructs.
Context (Q : sample → Prop).
Abbreviation fine := (emits Q (when_ok anything)).

Lemma fine_bind {A B} (m : Py A) (f : A → Py B) : fine m → (∀ a, fine (f a)) → fine (bind m f).
Proof. intros Hm Hf. by apply (emits_bind _ anything). Qed.

Lemma fine_while {S} fuel cond (body : S → Py S) s :
  (∀ s, fine (cond s)) → (∀ s, fine (body s)) → fine (while_ fuel cond body s).
Proof. intros Hc Hb. by apply emits_while. Qed.

Lemma fine_for {A} (l : list A) (body : A → Py unit) : (∀ x, fine (body x)) → fine (for_ l body).
Proof. intros Hb. induction l as [|x l IH]; [done|]. by apply fine_bind. Qed.

Lemma fine_lift {A} (r : result A) : fine (lift r).
Proof. by destruct r. Qed.

Lemma fine_execute sql params : fine (execute sql params).
Proof. split; [done|]. by intros []. Qed.

Lemma fine_sleep x : fine (sleep x).
Proof. unfold sleep. by destruct (nonneg x). Qed.

Lemma fine_fdiv x y : fine (fdiv x y).
Proof. unfold fdiv. by destruct (is_zero y). Qed.

Lemma fine_div_number n r : fine (div_number n r).
Proof. destruct r as [d|x]; [|apply fine_fdiv]. simpl. by destruct (_ =? _). Qed.

Lemma fine_fetch_int : fine fetch_int.
Proof. split; [done|]. by intros [[[|[] ?]|]|]. Qed.

Lemma fine_with_connection {A} dsn (body : Py A) : fine body → fine (with_connection dsn body).
Proof.
  intros Hb. split; [done|]. intros [u|e]; [|done].
  apply (emits_bindp _ (when_ok anything)); [done|]. by intros [].
Qed.

Lemma fine_retry sql params m : fine (execute_with_open_retry sql params m).
Proof.
  unfold execute_with_open_retry. generalize 0 (Z.to_nat m). intros attempt todo. revert attempt.
  induction todo as [|todo IH]; intros attempt; [done|].
  cbn [open_retry_loop]. apply (emits_bindp _ (when_ok anything)); [apply fine_execute|].
  intros [u|e] _; [done|]. destruct (_ && _); [|done].
  split; [done|]. intros bits. by apply fine_bind; [apply fine_sleep|].
Qed.

Lemma fine_pace target ws : fine target → fine (pace target ws).
Proof.
  intros H. apply fine_bind; [done|]. intros t. apply fine_bind; [done|]. intros now. cbv zeta.
  destruct (flt _ _); [apply fine_sleep|done].
Qed.
End constructs.

#[export] Hint Resolve fine_bind fine_while fine_for fine_lift fine_execute fine_sleep fine_fdiv fine_div_number
  fine_fetch_int fine_with_connection fine_retry fine_pace : shape.
#[export] Hint Extern 2 (emits _ _ (ret _)) => exact I : shape.
#[export] Hint Extern 2 (emits _ _ (barrier_wait)) => done : shape.
#[export] Hint Extern 2 (emits _ _ (counter_add _ _)) => done : shape.
#[export] Hint Extern 2 (emits _ _ (counter_value _)) => done : shape.
#[export] Hint Extern 2 (emits _ _ (before _)) => done : shape.
#[export] Hint Extern 2 (emits _ _ perf_counter) => done : shape.
#[export] Hint Extern 2 (emits _ _ (call (QueuePut _ _))) => done : shape.

Section timed.
Context (Q : sample → Prop).
Abbreviation fine := (emits Q (when_ok anything)).

Lemma fine_timed_producer fuel dsn setup psql sql uri throttle stop counter :
  (∀ n ws, fine (throttle n ws)) →
  fine (timed_producer fuel dsn setup psql sql uri throttle stop counter).
Proof. intros H. unfold timed_producer. auto 20 with shape. Qed.

Lemma fine_timed_consumer fuel dsn broker_sql psql pp sql cp stop counter :
  fine (timed_consumer fuel dsn broker_sql psql pp sql cp stop counter).
Proof. unfold timed_consumer. auto 20 with shape. Qed.

(** The monitor appends what [take_sample] returns. *)
Lemma fine_timed_monitor fuel take_sample stop interval :
  emits Q (when_ok Q) take_sample → fine (timed_monitor fuel take_sample stop interval).
Proof.
  intros H. unfold timed_monitor. apply fine_while; [auto with shape|]. intros [].
  apply fine_bind; [auto with shape|]. intros _.
  apply (emits_bind _ Q); [done|]. by intros s Hs.
Qed.

Lemma emits_anything (p : process) : fine p → emits Q anything p.
Proof. by apply emits_mono. Qed.

Lemma fleet_shaped (prod con : Z → process) mon l1 l2 :
  (∀ i, fine (prod i)) → (∀ i, fine (con i)) → fine mon →
  Forall (emits Q anything) ((prod <$> l1) ++ (con <$> l2) ++ [mon]).
Proof.
  intros Hp Hc Hm. rewrite !Forall_app, !Forall_fmap.
  split; [|split]; [by apply Forall_true; intros i; apply emits_anything..|].
  by repeat constructor; apply emits_anything.
Qed.
End timed.

#[export] Hint Resolve fine_timed_producer fine_timed_consumer fine_timed_monitor : shape.

(** ** The three fleets *)

(** sustained and filtered append the two counts and their difference. *)
Definition backlog_shape (s : sample) : Prop := ∃ t p c, s = SBacklog t p c (p - c).

Lemma backlog_sample_shape p c :
  emits backlog_shape (when_ok backlog_shape) (backlog_sample p c).
Proof.
  unfold backlog_sample. do 3 (apply (emits_bind _ anything); [done|intros ? _]).
  simpl. by do 3 eexists.
Qed.

Lemma row_sample_emits k :
  emits (MultiQueueBench.k_row k) (when_ok (MultiQueueBench.k_row k)) (MultiQueueBench.row_sample k).
Proof.
  unfold MultiQueueBench.row_sample. apply (emits_bind _ anything); [done|intros now _].
  apply (emits_bind _ (fun row : list (Z * Z) => length row = Z.to_nat k));
    [|intros row H; exact H].
  rewrite <-(length_range k).
  induction (range 0 k) as [|i l IH]; [done|]. cbn [MultiQueueBench.read_counters].
  do 2 (apply (emits_bind _ anything); [done|intros ? _]).
  apply (emits_bind _ (fun row : list (Z * Z) => length row = length l)); [done|].
  intros row H. simpl. by rewrite H.
Qed.

Section fleets.
Context (sql_literal : string → string) (fuel : nat) (tl : Steady.timeline).

Lemma sustained_shaped a :
  Forall (emits backlog_shape anything) (SustainedBench.workers sql_literal fuel a tl).
Proof.
  apply fleet_shaped; [intros i..|].
  - apply fine_bind; [|auto with shape]. apply fine_timed_producer. intros n ws.
    unfold SustainedBench.throttle. destruct (fgt _ _); auto with shape.
  - apply fine_bind; [|auto with shape]. apply fine_timed_consumer.
  - apply fine_timed_monitor, backlog_sample_shape.
Qed.

Lemma filtered_consumer_shaped a values k counter fe verify_counter :
  emits backlog_shape (when_ok anything)
    (FilteredBench.consumer sql_literal fuel a tl values k counter fe verify_counter).
Proof.
  unfold FilteredBench.consumer, FilteredBench.consume_loop. apply fine_with_connection.
  do 3 (apply fine_bind; [auto with shape|intros _]). apply fine_bind.
  - apply fine_while; [auto with shape|]. intros [c m]. apply fine_bind; [|auto with shape].
    unfold FilteredBench.consume_round.
    destruct fe; [destruct (FilteredBench.verify_content a)|]; auto 10 with shape.
    apply fine_bind; [auto with shape|]. intros _.
    apply fine_bind; [split; [done|]; by intros []|]. auto 10 with shape.
  - intros [c m]. apply fine_bind; [|auto with shape]. destruct (_ =? _); auto with shape.
Qed.

Lemma filtered_shaped a exprs values :
  Forall (emits backlog_shape anything)
    (FilteredBench.workers sql_literal fuel a tl exprs values).
Proof.
  apply fleet_shaped; [intros i..|].
  - apply fine_bind; [|auto with shape]. apply fine_timed_producer. intros n ws.
    unfold FilteredBench.throttle. destruct (fgt _ _); auto with shape.
  - apply fine_bind; [auto with shape|]. intros e.
    apply fine_bind; [apply filtered_consumer_shaped|auto with shape].
  - apply fine_timed_monitor, backlog_sample_shape.
Qed.

Lemma multi_shaped a :
  Forall (emits (MultiQueueBench.k_row (MultiQueueBench.k_queues a)) anything)
    (MultiQueueBench.workers sql_literal fuel a tl).
Proof.
  apply fleet_shaped; [intros i..|].
  - apply fine_bind; [|auto with shape]. apply fine_timed_producer. intros n ws.
    unfold MultiQueueBench.throttle. destruct (num_positive _); auto with shape.
  - apply fine_bind; [|auto with shape]. apply fine_timed_consumer.
  - apply fine_timed_monitor, row_sample_emits.
Qed.

(** C37. The shared sample list is well typed in every state any interleaving
    reaches: in sustained_bench and filtered_bench each entry is a time, the
    two counts and exactly their difference, and in multi_queue_bench each
    entry is a time and one pair of counts per queue, which is what the
    indexing in the report relies on. *)
Theorem samples_well_typed :
  (∀ a σ ps, steps (init_shared (SustainedBench.n_workers a),
                    SustainedBench.workers sql_literal fuel a tl) (σ, ps) →
     Forall backlog_shape (samples σ)) ∧
  (∀ a exprs values σ ps,
     steps (init_shared (FilteredBench.n_workers a),
            FilteredBench.workers sql_literal fuel a tl exprs values) (σ, ps) →
     Forall backlog_shape (samples σ)) ∧
  (∀ a σ ps, steps (init_shared (MultiQueueBench.n_workers a),
                    MultiQueueBench.workers sql_literal fuel a tl) (σ, ps) →
     Forall (MultiQueueBench.k_row (MultiQueueBench.k_queues a)) (samples σ)).
Proof.
  split; [|split]; intros; eapply pool_samples; try eassumption.
  - apply sustained_shaped.
  - apply filtered_shaped.
  - apply multi_shaped.
Qed.
End fleets.

Lemma samples_well_typed_witness :
  Forall backlog_shape
    (samples (final SustainedBench.Example.begin SustainedBench.Example.good).1).
Proof.
  apply (proj1 (samples_well_typed SustainedBench.Example.quote 3 SustainedBench.Example.tl)
    SustainedBench.Example.a _ (final SustainedBench.Example.begin SustainedBench.Example.good).2).
  apply final_steps. vm_compute. reflexivity.
Defined.
