(* ===== verification/ParallelBench.v ===== *)
(** * bench/parallel_bench.py

    N connections publish disjoint slices of one source concurrently; the
    slices are LIMIT/OFFSET windows of [total_rows // n] rows. *)
From S2P Require Import Prelude PyFloat PyStr PyM OpenRetry Pool Workers System Observe Histories Timed.

Record args := Args {
  dsn : string;
  sql : string;
  total_rows : Z;
  connections : Z;
  queue_uri : string;
  broker_uri : string;
}.

Section parallel.
Context (sql_literal : string → string) (a : args).

Definition result_queue : nat := 0.

Definition part_sql (offset count : Z) : string :=
  "CREATE TEMP TABLE bmq_bench_part AS SELECT * FROM " +:+ sql a
    +:+ " LIMIT " +:+ py_str count +:+ " OFFSET " +:+ py_str offset.

Definition publish_sql : string :=
  "SELECT count(*) FROM (SELECT bmq_publish_row(%s, t, " +:+ attr_array_sql
    +:+ ") FROM bmq_bench_part t) s".

Definition worker (worker_id offset count : Z) : process :=
  with_connection (dsn a) (
    execute (set_broker_sql sql_literal (broker_uri a)) [];;
    execute (part_sql offset count) [];;
    barrier_wait;;
    t0 <- perf_counter;;
    execute publish_sql [VStr (queue_uri a)];;
    published <- fetch_int;;
    t1 <- perf_counter;;
    call (QueuePut result_queue (QRes worker_id published (fsub t1 t0) t0))).

(** [args.total_rows // n] *)
Definition per_worker : result Z :=
  if connections a =? 0 then Err ZeroDivisionError
  else Ok (total_rows a / connections a).

(** The processes [main] starts, [count] being [per_worker]. *)
Definition workers (count : Z) : list process :=
  (fun i => worker i (i * count) count) <$> range 0 (connections a).

(** [[result_queue.get() for _ in range(n)]] *)
Definition results (σ : shared) : option (list qmsg) :=
  if (Z.to_nat (connections a) <=? length (queue σ result_queue))%nat
  then Some (take (Z.to_nat (connections a)) (queue σ result_queue))
  else None.

Definition published_of (m : qmsg) : Z := match m with QRes _ n _ _ => n | _ => 0 end.
Definition start_of (m : qmsg) : float := match m with QRes _ _ _ t0 => t0 | _ => fzero end.
Definition finish_of (m : qmsg) : float :=
  match m with QRes _ _ elapsed t0 => fadd t0 elapsed | _ => fzero end.

(** [max] and [min] of a list of floats keep the first of equals. *)
Definition fmax_list (x : float) (l : list float) : float :=
  foldl (fun m y => if fgt y m then y else m) x l.
Definition fmin_list (x : float) (l : list float) : float :=
  foldl (fun m y => if flt y m then y else m) x l.

(** [max(finishes) - min(starts)]; no results, no span. *)
Definition span (rs : list qmsg) : result float :=
  match rs with
  | [] => Err ValueError
  | r :: rs' => Ok (fsub (fmax_list (finish_of r) (finish_of <$> rs'))
                         (fmin_list (start_of r) (start_of <$> rs')))
  end.

Definition result_line (count total_published : Z) (span : float) : list frag :=
  [FS "connections="; FZ (connections a); FS " per_worker="; FZ count;
   FS " total_published="; FZ total_published; FS " span="; FF ".3f" span;
   FS "s rate="; FF ",.0f" (fquot (of_int total_published) span); FS "/s"].

(** The printed line: [total_published/span] may be a division by zero. *)
Definition summary (count : Z) (rs : list qmsg) : result (list frag) :=
  match span rs with
  | Err e => Err e
  | Ok s =>
      if is_zero s then Err ZeroDivisionError
      else Ok (result_line count (Zsum (published_of <$> rs)) s)
  end.

(** What [main] prints; [None] when it waits for ever on the queue. *)
Definition report (count : Z) (σ : shared) : option (result (list frag)) :=
  rs ← results σ; Some (summary count rs).

Definition main : Main unit :=
  per_worker <~ mlift per_worker;;
  _ <~ mcall PerfCounter;;
  procs <~ start_each (fun i => worker i (i * per_worker) per_worker) (range 0 (connections a)) [];;
  _ <~ mfor procs mjoin;;
  results <~ get_each result_queue (fun l m => l ++ [m]) (Z.to_nat (connections a)) [];;
  line <~ mlift (summary per_worker results);;
  mprint line.

(** ** Checking the workers *)

Definition timed_sql (s : string) : bool := bool_decide (s = publish_sql).

Lemma worker_safe n i id offset count :
  (i < n)%nat →
  safe (client n timed_sql i) (finished n [] [(0%nat, KRes id)] i)
    (worker id offset count) ledger0.
Proof.
  intros Hi. unfold worker.
  apply safe_with_connection; [done|done|].
  apply safe_bind, safe_execute; [done|]. intros [_|e]; [|done].
  apply safe_bind, safe_execute; [done|]. intros [_|e]; [|done].
  apply safe_bind, safe_barrier_wait; [done..|].
  apply safe_bind, safe_call; [done..|]. intros t0.
  apply safe_bind, safe_execute; [done|]. intros [_|e]; [|done].
  apply safe_bind, safe_fetch_int. intros [k|e]; [|done].
  apply safe_bind, safe_call; [done..|]. intros t1.
  apply safe_put. split; [done|]. by split; [|split; [constructor|]].
Qed.

Definition reports : list (list (nat * key)) :=
  (fun i => [(result_queue, KRes i)]) <$> range 0 (connections a).

#[refine] Instance parallel (count : Z) : Bench := {|
  bench_parties := Z.to_nat (connections a);
  bench_workers := workers count;
  bench_timed := timed_sql;
  bench_accounts := [];
  bench_reports := reports;
|}.
Proof.
  - unfold reports, workers. by rewrite !length_fmap.
  - intros i r Hr%lookup_lt_Some Hge. unfold reports in Hr. rewrite length_fmap, length_range in Hr.
    lia.
  - intros i p Hp. pose proof (lookup_lt_Some _ _ _ Hp) as Hlt.
    unfold workers in *. rewrite length_fmap, length_range in Hlt.
    rewrite list_lookup_fmap in Hp. apply fmap_Some in Hp as (k & Hk & ->).
    unfold reports. rewrite list_lookup_fmap, Hk. by apply worker_safe.
Defined.
End parallel.

(** ** Properties *)



(** When every worker has completed, [main] gets exactly one result from
    each of them, in some order, whatever the interleaving. *)
Theorem one_result_per_worker sql_literal a count σ ps :
  steps (init_shared (Z.to_nat (connections a)), workers sql_literal a count) (σ, ps) →
  parties_ok (Z.to_nat (connections a)) ps →
  ∃ rs, results a σ = Some rs ∧ key_of <$> rs ≡ₚ KRes <$> range 0 (connections a).
Proof.
  intros Hs Hok.
  pose proof (reports_complete (HB := parallel sql_literal a count) σ ps result_queue Hs Hok) as Hq.
  simpl in Hq. unfold reports in Hq. rewrite due_fmap in Hq. simpl in Hq.
  pose proof (Permutation_length Hq) as Hlen. rewrite !length_fmap, length_range in Hlen.
  exists (queue σ result_queue). unfold results. by rewrite Hlen, Nat.leb_refl, take_ge by lia.
Qed.

(** ** What a worker that completes has done *)

(** The calls of a worker whose statement published [published] rows between
    the clock readings [t0] and [t1]. *)
Definition worker_calls sql_literal a (worker_id offset count published : Z) (row : list pval)
    (t0 t1 : float) : trace :=
  [Ev (Connect (dsn a)) (Ok ());
   Ev (Execute (set_broker_sql sql_literal (broker_uri a)) []) (Ok ());
   Ev (Execute (part_sql a offset count) []) (Ok ());
   Ev BarrierArrive (); Ev BarrierPass (); Ev PerfCounter t0;
   Ev (Execute publish_sql [VStr (queue_uri a)]) (Ok ());
   Ev Fetchone (Ok (Some (VInt published :: row))); Ev PerfCounter t1;
   Ev (QueuePut result_queue (QRes worker_id published (fsub t1 t0) t0)) (); Ev CloseConn ()].

Lemma worker_completed sql_literal a id offset count t :
  exec (worker sql_literal a id offset count) t (Some (Ok ())) →
  ∃ published row t0 t1, t = worker_calls sql_literal a id offset count published row t0 t1.
Proof.
  unfold worker, with_connection. intros ([[]|e] & t' & -> & He); [|by destruct He].
  apply exec_bindp in He as [(r & t1 & t2 & -> & Hb & He)|[_ ?]]; [|done].
  destruct He as ([] & t3 & -> & -> & [= <-]).
  first_call Hb t H1. apply exec_do_ret in H1 as ->. destruct x.
  first_call Hb t H1. apply exec_do_ret in H1 as ->. destruct x.
  first_call Hb t H1. destruct H1 as ([] & ? & -> & [] & ? & -> & -> & _).
  first_call Hb t H1. apply exec_call_ok in H1 as ->.
  first_call Hb t H1. apply exec_do_ret in H1 as ->. destruct x1.
  first_call Hb t H1. apply fetch_int_row in H1 as (row & ->).
  first_call Hb t H1. apply exec_call_ok in H1 as ->. apply exec_call_ok in Hb as ->.
  by exists x1, row, x0, x2.
Qed.

Lemma workers_lookup sql_literal a count i :
  0 ≤ i < connections a →
  workers sql_literal a count !! Z.to_nat i = Some (worker sql_literal a i (i * count) count).
Proof.
  intros Hi. unfold workers. rewrite list_lookup_fmap.
  assert (range 0 (connections a) !! Z.to_nat i = Some i) as ->; [|done].
  unfold range. rewrite list_lookup_fmap, lookup_seq_lt by lia. simpl. f_equal. lia.
Qed.

Lemma completed_calls sql_literal a count σ ps l i :
  logged (init_shared (Z.to_nat (connections a)), workers sql_literal a count) l (σ, ps) →
  parties_ok (Z.to_nat (connections a)) ps → 0 ≤ i < connections a →
  ∃ published row t0 t1,
    calls_of (Z.to_nat i) l = worker_calls sql_literal a i (i * count) count published row t0 t1.
Proof.
  intros Hl [_ Hok] Hi. pose proof (workers_lookup sql_literal a count i Hi) as Hw.
  destruct (lookup_lt_is_Some_2 ps (Z.to_nat i)) as [p Hp].
  { pose proof (logged_length _ _ _ Hl) as Hlen. simpl in Hlen. rewrite Hlen. by eapply lookup_lt_Some. }
  assert (p = Ret (Ok ())) as -> by (apply (Hok (Z.to_nat i)); [lia|done]).
  by apply (worker_completed _ _ _ _ _ _ (logged_exec _ _ _ _ _ _ Hl Hw Hp)).
Qed.

(** What [main] takes off the queue is what the workers have put there, each
    its own measurement. *)
Lemma results_are_measurements sql_literal a count σ ps l rs :
  logged (init_shared (Z.to_nat (connections a)), workers sql_literal a count) l (σ, ps) →
  parties_ok (Z.to_nat (connections a)) ps → results a σ = Some rs →
  rs = puts_to result_queue l.*2 ∧
  ∀ i, 0 ≤ i < connections a → ∃ published row t0 t1,
    calls_of (Z.to_nat i) l = worker_calls sql_literal a i (i * count) count published row t0 t1 ∧
    QRes i published (fsub t1 t0) t0 ∈ rs.
Proof.
  intros Hl Hok Hrs. pose proof (logged_steps _ _ _ Hl) as Hs.
  destruct (one_result_per_worker _ _ _ _ _ Hs Hok) as (rs' & Hrs' & Hk).
  assert (rs' = rs) as -> by congruence. clear Hrs'.
  pose proof (reports_complete (HB := parallel sql_literal a count) σ ps result_queue Hs Hok) as Hq.
  simpl in Hq. unfold reports in Hq. rewrite due_fmap in Hq. simpl in Hq.
  apply Permutation_length in Hq. rewrite !length_fmap, length_range in Hq.
  assert (rs = puts_to result_queue l.*2) as Heq.
  { rewrite <-(logged_queue _ _ _ _ _ _ Hl). unfold results in Hrs.
    rewrite Hq, Nat.leb_refl, take_ge in Hrs by lia. by injection Hrs. }
  split; [done|]. intros i Hi.
  destruct (completed_calls _ _ _ _ _ _ i Hl Hok Hi) as (n & row & t0 & t1 & Hc).
  exists n, row, t0, t1. split; [done|]. rewrite Heq. apply (puts_to_logged _ _ (Z.to_nat i)).
  rewrite Hc. unfold worker_calls. set_solver.
Qed.


Lemma parallel_results sql_literal a count σ ps :
  steps (init_shared (Z.to_nat (connections a)), workers sql_literal a count) (σ, ps) →
  all_ended ps →
  parties_ok (Z.to_nat (connections a)) ps ↔
  (Z.to_nat (connections a) ≤ length (queue σ result_queue))%nat.
Proof.
  intros Hs Hend.
  assert (due result_queue (reports a) = KRes <$> range 0 (connections a)) as Hdue
    by (unfold reports; by rewrite due_fmap).
  split.
  - intros Hok. pose proof (reports_complete (HB := parallel sql_literal a count) σ ps result_queue Hs Hok) as Hq.
    apply Permutation_length in Hq. simpl in Hq.
    rewrite Hdue, !length_fmap, length_range in Hq. lia.
  - intros Hlen. split; [done|]. intros i p Hi Hp.
    destruct (proj1 (Forall_lookup _ _) Hend i p Hp) as [[[]|e] ->]; [done|]. exfalso.
    destruct (lookup_lt_is_Some_2 (range 0 (connections a)) i) as [k Hk]; [by rewrite length_range|].
    pose proof (reports_missing (HB := parallel sql_literal a count) σ ps result_queue i e
      [(result_queue, KRes k)] Hs Hend Hp) as H.
    simpl in H. rewrite Hdue, length_fmap, length_range in H.
    unfold reports in H. rewrite list_lookup_fmap, Hk in H. specialize (H eq_refl). cbn in H. lia.
Qed.

Module ParallelExample.
Definition quote (s : string) : string := "'" +:+ s +:+ "'".

Definition a : args :=
  Args "db" "trades" 7 2 "bmq://bmq.test.mem.broadcast/parallel_bench" "tcp://localhost:30114".

Definition begin : config := (init_shared 2, workers quote a 3).

Definition go (i : nat) : list (nat * answer) :=
  [(i, AUnit); (i, AFloat (of_int 1)); (i, AUnit); (i, ARow [VInt 3]);
   (i, AFloat (of_int 2)); (i, AUnit); (i, AUnit)].

Definition good : list (nat * answer) :=
  replicate 4 (0%nat, AUnit) ++ replicate 4 (1%nat, AUnit) ++ go 1 ++ go 0.
End ParallelExample.


Lemma one_result_per_worker_witness :
  ∃ rs, results ParallelExample.a (final ParallelExample.begin ParallelExample.good).1 = Some rs ∧
    key_of <$> rs ≡ₚ KRes <$> range 0 2.
Proof.
  apply (one_result_per_worker ParallelExample.quote ParallelExample.a 3 _
    (final ParallelExample.begin ParallelExample.good).2).
  - apply final_steps. vm_compute. reflexivity.
  - apply all_ok_parties, all_ok_check. vm_compute. reflexivity.
Defined.
