(* ===== verification/Mains.v ===== *)
(** * The whole programs

    [main] of bench/sustained_bench.py, filtered_bench.py, multi_queue_bench.py
    and parallel_bench.py run together with the processes it starts, from the
    first clock reading to the last line printed. *)
From S2P Require Import Prelude PyFloat PyStr PyM OpenRetry Pool Workers System Histories Timed Steady Atomic Fleets Samples Progress.
From S2P Require SustainedBench FilteredBench MultiQueueBench ParallelBench.

(** ** A pool that has stopped in good order *)

(** Nothing can move, no loop has run out of fuel and no party has failed. *)
Definition quiet (n : nat) (c : config) : Prop :=
  ¬ can_step c ∧ Forall (.≠ OutOfFuel) c.2 ∧ ∀ j e, (j < n)%nat → c.2 !! j ≠ Some (Ret (Err e)).

Lemma quiet_ended n ps0 c :
  completes n ps0 → steps (init_shared n, ps0) c → quiet n c → parties_ok n c.2.
Proof.
  intros Hc Hs (Hstop & Hfuel & Hgood). destruct c as [σ ps].
  destruct (proj2 (Hc _ _ Hs) Hstop Hfuel) as [Hend|(j & e & Hj & Hp & _)]; [|by destruct (Hgood j e)].
  split; [done|]. intros i p Hi Hp.
  destruct (proj1 (Forall_lookup _ _) Hend i p Hp) as [[[]|e] ->]; [done|]. by destruct (Hgood i e).
Qed.

(** ** Every run of a main program stops *)

Abbreviation stops := (Acc (fun c' c => sstep c c')).

(** What is left of [m] after its next call. *)
Definition next {A} (m m' : mainp A) : Prop :=
  match m with
  | MRet _ => False
  | MDo _ k => ∃ x, m' = k x
  | MStart _ k => ∃ i, m' = k i
  | MJoin _ k => m' = k
  | MGet _ k => ∃ x, m' = k x
  | MSamples k => ∃ x, m' = k x
  | MValue _ k => ∃ x, m' = k x
  end.

Lemma sstep_cases {A} (m m' : mainp A) s s' :
  sstep (m, s) (m', s') → next m m' ∨ m' = m ∧ pool_moves (pool s') (pool s).
Proof.
  inversion 1 as [? ? σ' ps' Hst| | | | | |]; subst; [|left; simpl; eauto..].
  right. split; [done|]. destruct (step_moves _ _ Hst) as (j & p & p' & Hj & Hm & Hps).
  exists j, p, p'. split; [done|]. split; [|done].
  destruct p; try done. destruct Hm as (x & _ & ->). by exists x.
Qed.

Lemma stops_if_next {A} (m : mainp A) : (∀ m' s, next m m' → stops (m', s)) → ∀ s, stops (m, s).
Proof.
  intros Hn s. remember (pool s) as ps eqn:E. revert s E.
  induction (pool_moves_wf ps) as [ps _ IH]; intros s ->. constructor. intros [m' s'] Hs.
  destruct (sstep_cases _ _ _ _ Hs) as [?|[-> Hmv]]; [by apply Hn|by apply (IH (pool s'))].
Qed.

Lemma main_stops {A} (m : mainp A) s : stops (m, s).
Proof.
  revert s. induction m as [a|c k IH|p k IH|i k IH|q k IH|k IH|l k IH];
    apply stops_if_next; simpl; [done|..]; try (by intros m' s [x ->]). by intros m' s ->.
Qed.

(** ** The common part of the three fleets *)

Section fleet_main.
Context (n : nat) (producers consumers : Z) (run_producer run_consumer : Z → process) (monitor : process).

Abbreviation workers := ((run_producer <$> range 0 producers) ++ (run_consumer <$> range 0 consumers) ++ [monitor]).

Context (Hcompletes : completes n workers).
Context (Hresults : ∀ σ ps, steps (init_shared n, workers) (σ, ps) → all_ended ps →
  parties_ok n ps ↔
  (Z.to_nat producers ≤ length (queue σ 0))%nat ∧ (Z.to_nat consumers ≤ length (queue σ 1))%nat).

Lemma quiet_launched js tr s :
  launched n workers js tr s → quiet n (shm s, pool s) → parties_ok n (pool s).
Proof using Hcompletes.
  intros [Hp Hst _ _ _] Hq. apply (quiet_ended n workers (shm s, pool s)); [done| |done].
  rewrite <-Hst. exact Hp.
Qed.

Lemma mwp_run_fleet {B} (m : Main B) Φ tr s :
  launched n [] [] tr s →
  (∀ s', pooled n s' → started s' = workers → (∀ q, taken s' q = 0%nat) →
     over tr (shm s') (pool s') s' → mwp (quiet n) m Φ s') →
  mwp (quiet n) (_ <~ run_fleet run_producer run_consumer producers consumers monitor;; m) Φ s.
Proof using Hcompletes.
  intros Hl H. unfold run_fleet.
  assert (∀ js s, launched n workers js tr s → quiet n (shm s, pool s) → all_ended (pool s)) as Hq.
  { intros js s' Hl' Hqs. apply (quiet_launched _ _ _ Hl' Hqs). }
  apply mwp_seq. eapply mwp_start_each; [exact Hl|]. intros s1 H1.
  apply mwp_seq. eapply mwp_start_each; [exact H1|]. intros s2 H2.
  apply mwp_seq. eapply mwp_start; [exact H2|]. intros s3 H3.
  rewrite <-!app_assoc in H3. simpl in H3.
  assert (length workers = Datatypes.S (length (run_producer <$> range 0 producers) +
    length (run_consumer <$> range 0 consumers))) as Hlen.
  { rewrite !length_app. simpl. lia. }
  apply mwp_seq. eapply (mwp_join_each _ n workers tr Hq); [|exact H3|].
  { intros i Hi. rewrite Hlen. simpl in Hi. rewrite elem_of_app, !elem_of_seq, !length_fmap in *. lia. }
  intros s4 js Hl4 Hjs. eapply (mwp_join _ n workers tr Hq); [|exact Hl4|].
  { rewrite Hlen. simpl. rewrite length_app. lia. }
  intros s5 Hl5. apply H; [by apply Hl5..|].
  eapply launched_over; [exact Hl5|]. intros i Hi. rewrite Hlen in Hi. rewrite elem_of_cons. simpl.
  rewrite length_app in *. rewrite !length_fmap in *.
  destruct (decide (i = length (range 0 producers) + length (range 0 consumers))%nat) as [->|Hne];
    [by left|right]. apply Hjs. left. simpl. rewrite elem_of_app, !elem_of_seq. lia.
Qed.
(** [main] up to its last [get]: it comes past it only when every party has
    completed, and then it has the results. *)
Lemma mwp_fleet {S0 S1 B} (f0 : S0 → qmsg → S0) acc0 (f1 : S1 → qmsg → S1) acc1
    (g : S0 → S1 → Main B) Φ tr s :
  launched n [] [] tr s →
  (∀ σ qs s', steps (init_shared n, workers) (σ, qs) → parties_ok n qs → over tr σ qs s' →
     mwp (quiet n) (g (foldl f0 acc0 (take (Z.to_nat producers) (queue σ 0)))
                      (foldl f1 acc1 (take (Z.to_nat consumers) (queue σ 1)))) Φ s') →
  mwp (quiet n)
    (_ <~ run_fleet run_producer run_consumer producers consumers monitor;;
     x <~ get_each 0 f0 (Z.to_nat producers) acc0;;
     y <~ get_each 1 f1 (Z.to_nat consumers) acc1;; g x y) Φ s.
Proof using Hcompletes Hresults.
  intros Hl H. apply (mwp_run_fleet _ _ tr _ Hl). intros s1 Hp Hst Htk Ho.
  assert (steps (init_shared n, workers) (shm s1, pool s1)) as Hs by (rewrite <-Hst; exact Hp).
  pose proof (Hresults _ _ Hs (ov_ended _ _ _ _ Ho)) as Hres.
  assert (quiet n (shm s1, pool s1) → parties_ok n (pool s1)) as Hq.
  { apply (quiet_ended n workers (shm s1, pool s1)); [done|exact Hs]. }
  eapply mwp_get_each; [exact Ho|rewrite Htk; intros ?%Hq; tauto| |rewrite Htk; lia].
  intros s2 Ho2 Htk2 Hl0. rewrite Htk in Hl0 |- *.
  eapply mwp_get_each; [exact Ho2|rewrite Htk2, Htk by done; intros ?%Hq; tauto
    | |rewrite Htk2, Htk by done; lia].
  intros s3 Ho3 _ Hl1. rewrite Htk2, Htk in Hl1 |- * by done.
  apply (H _ _ _ Hs); [apply Hres; split; [exact Hl0|exact Hl1]|exact Ho3].
Qed.
End fleet_main.

(** The samples printed, and what is made of them. *)
Lemma mwp_curve Q (curve : sample → list frag) (steady : list sample → list (list frag)) Φ tr σ qs s :
  over tr σ qs s →
  (∀ s', over (tr ++ prints ((curve <$> samples σ) ++ steady (samples σ))) σ qs s' → Φ (Ok ()) s') →
  mwp Q (l <~ msamples;; _ <~ mfor l (fun x => mprint (curve x));;
         l <~ msamples;; _ <~ mfor (steady l) mprint;; mret ()) Φ s.
Proof.
  intros Ho H. eapply mwp_over_samples; [exact Ho|].
  eapply mwp_over_prints; [exact Ho|]. intros s1 Ho1.
  eapply mwp_over_samples; [exact Ho1|].
  eapply (mwp_over_prints _ _ (fun l => l)); [exact Ho1|]. intros s2 Ho2.
  intros s3 Hs3. rewrite (over_worked _ _ _ _ _ Ho2 Hs3). apply H.
  by rewrite list_fmap_id, <-app_assoc, <-prints_app in Ho2.
Qed.

Lemma mwp_last_print Q line Φ tr σ qs s :
  over tr σ qs s → (∀ s', over (tr ++ prints [line]) σ qs s' → Φ (Ok ()) s') →
  mwp Q (mprint line) Φ s.
Proof.
  intros Ho H. assert (mwp Q (x <~ mprint line;; mret x) Φ s) as Hp; [|exact Hp].
  eapply mwp_over_call; [done|exact Ho|]. intros [] s1 Ho1 s2 Hs2.
  rewrite (over_worked _ _ _ _ _ Ho1 Hs2). by apply H.
Qed.

(** A counter printed under a condition. *)
Lemma mwp_content {B} Q (b : bool) l (line : Z → list frag) (m : Main B) Φ tr σ qs s :
  over tr σ qs s → holder σ l = None →
  (∀ s', over (tr ++ prints (if b then [line (value σ l)] else [])) σ qs s' → mwp Q m Φ s') →
  mwp Q (_ <~ (if b then v <~ mvalue l;; mprint (line v) else mret ());; m) Φ s.
Proof.
  intros Ho Hl H. destruct b.
  - apply mwp_seq. eapply mwp_over_value; [exact Ho|done|].
    eapply mwp_over_call; [done|exact Ho|]. intros []. apply H.
  - apply mwp_mret, H. by rewrite app_nil_r.
Qed.

(** A counter is free once everyone has ended. *)
Lemma ended_unlocked n ps0 σ ps l :
  Forall disciplined ps0 → steps (init_shared n, ps0) (σ, ps) → all_ended ps → holder σ l = None.
Proof.
  intros Hd Hs Hend. destruct (orderly_reachable _ _ _ Hd Hs) as [Hst Hh].
  destruct (holder σ l) as [i|] eqn:E; [|done]. destruct (Hh l i E) as [p Hp]. simpl in Hp.
  destruct (Hst i p Hp) as [[_ Hn]|(l' & Hin & _)]; [by destruct (Hn l)|].
  destruct (proj1 (Forall_lookup _ _) Hend i p Hp) as [r ->]. by apply inside_next in Hin.
Qed.

(** The end of a run: everyone but perhaps the monitor has completed, and
    after its one look at the clock main has printed what [report] says. *)
Definition reported_run (n : nat) (workers_at : float → list process)
    (report_at : float → shared → option (list (list frag))) (r : result unit) (s : sys) : Prop :=
  r = Ok () ∧ parties_ok n (pool s) ∧
  ∃ now lines,
    steps (init_shared n, workers_at now) (shm s, pool s) ∧
    calls s = Ev PerfCounter now :: prints lines ∧
    report_at now (shm s) = Some lines.

Lemma over_reported n workers_at report_at now lines σ qs s :
  over (Ev PerfCounter now :: prints lines) σ qs s →
  steps (init_shared n, workers_at now) (σ, qs) → parties_ok n qs →
  report_at now σ = Some lines → reported_run n workers_at report_at (Ok ()) s.
Proof.
  intros [_ <- <- Hcl] Hs Hok Hr. split; [done|]. split; [done|]. by exists now, lines.
Qed.

(** ** sustained_bench.py *)

Section sustained.
Import SustainedBench.
Context (sql_literal : string → string) (fuel : nat) (a : args).
Context (Hp : 0 ≤ producers a) (Hc : 0 ≤ consumers a).

Definition sustained_timeline := make_timeline (duration_secs a) (drain_tail_secs a) (ramp_up_secs a).

(** How [main] ends. *)
Definition sustained_done : result unit → sys → Prop :=
  reported_run (n_workers a) (fun now => workers sql_literal fuel a (sustained_timeline now))
    (fun now => report a (sustained_timeline now)).

Lemma sustained_main : mwp (quiet (n_workers a)) (main sql_literal fuel a) sustained_done (sys0 (n_workers a)).
Proof using Hp Hc.
  unfold main. eapply mwp_call; [done|apply launched_sys0|]. intros now s1 H1.
  eapply mwp_fleet; [by apply sustained_completes|by intros; eapply sustained_results|exact H1|].
  intros σ qs s2 Hs Hok Ho.
  eapply (mwp_over_prints _ _ (fun l => l)); [exact Ho|]. intros s3 Ho3.
  eapply mwp_curve; [exact Ho3|]. intros s4 Ho4. rewrite list_fmap_id, <-app_assoc, <-prints_app in Ho4.
  apply (over_reported _ _ _ _ _ _ _ _ Ho4 Hs Hok).
  destruct (complete_queues sql_literal fuel a _ σ qs Hp Hc Hs Hok) as (H0 & H2 & _).
  unfold report, totals. rewrite !sum_get_all by done. rewrite !foldl_sum, !take_ge by (by apply Nat.eq_le_incl).
  reflexivity.
Qed.
End sustained.

(** ** filtered_bench.py *)

Section filtered.
Import FilteredBench.
Context (sql_literal : string → string) (fuel : nat) (a : args).
Context (Hp : 0 ≤ producers a) (Hc : 0 ≤ consumers a).

Definition filtered_timeline := make_timeline (duration_secs a) (drain_tail_secs a) (ramp_up_secs a).

(** A rejected command line stops [main] before it has done anything. *)
Definition filtered_done (r : result unit) (s : sys) : Prop :=
  match make_filters a with
  | Err e => r = Err e ∧ started s = [] ∧ calls s = []
  | Ok (exprs, values) =>
      reported_run (n_workers a)
        (fun now => workers sql_literal fuel a (filtered_timeline now) exprs values)
        (fun now => report a (filtered_timeline now) exprs) r s
  end.

Lemma filtered_main : mwp (quiet (n_workers a)) (main sql_literal fuel a) filtered_done (sys0 (n_workers a)).
Proof using Hp Hc.
  unfold main, filtered_done. destruct (make_filters a) as [[exprs values]|e].
  2:{ intros s Hs. by destruct (launched_worked _ _ _ _ _ _ (launched_sys0 _) Hs). }
  apply mwp_mret. eapply mwp_call; [done|apply launched_sys0|]. intros now s1 H1.
  eapply mwp_fleet; [by apply filtered_completes|by intros; eapply filtered_results|exact H1|].
  intros σ qs s2 Hs Hok Ho.
  eapply (mwp_over_prints _ _ (fun l => l)); [exact Ho|]. intros s3 Ho3. rewrite list_fmap_id in Ho3.
  eapply mwp_content; [exact Ho3| |].
  { eapply ended_unlocked; [apply filtered_disciplined|exact Hs|apply Hok]. }
  intros s4 Ho4. eapply mwp_over_call; [done|exact Ho4|]. intros [] s5 Ho5.
  eapply mwp_curve; [exact Ho5|]. intros s6 Ho6.
  change [Ev (Print false curve_head) ()] with (prints [curve_head]) in Ho6.
  rewrite <-!app_assoc, <-!prints_app in Ho6.
  apply (over_reported _ _ _ _ _ _ _ _ Ho6 Hs Hok).
  destruct (filtered_complete sql_literal fuel a _ exprs values σ qs Hp Hc Hs Hok) as (H0 & H2 & _).
  unfold report, totals. rewrite !sum_get_all by done. rewrite !foldl_sum, !take_ge by (by apply Nat.eq_le_incl).
  reflexivity.
Qed.
End filtered.

(** ** multi_queue_bench.py *)

Section multi_queue.
Import MultiQueueBench.
Context (sql_literal : string → string) (fuel : nat) (a : args).

(** The loop over the queues prints their lines and folds their statistics. *)
Lemma mwp_print_queues {B} Q w ids stats acc (g : float * float * bool → Main B) Φ tr σ qs s :
  mapM (stats_of w) ids = Some stats → over tr σ qs s →
  (∀ s', over (tr ++ prints (zip_with stats_line ids stats)) σ qs s' →
     mwp Q (g (foldl aggregate acc stats)) Φ s') →
  mwp Q (x <~ print_queues w ids acc;; g x) Φ s.
Proof using.
  revert stats acc tr s. induction ids as [|i ids IH]; intros stats acc tr s Hm Ho H.
  - injection Hm as <-. apply mwp_mret, H. by rewrite app_nil_r.
  - simpl in Hm. destruct (stats_of w i) as [st|] eqn:Hi; [|done]. simpl in Hm.
    destruct (mapM (stats_of w) ids) as [sts|] eqn:Hids; [|done]. injection Hm as <-.
    cbn [print_queues]. rewrite Hi. apply mwp_seq, mwp_mret, mwp_seq.
    eapply mwp_over_call; [done|exact Ho|]. intros [] s' Ho'.
    apply (IH sts _ (tr ++ [Ev (Print false (stats_line i st)) ()])); [done|exact Ho'|].
    intros s2. rewrite <-app_assoc. apply H.
Qed.

Lemma mwp_print_window Q tl w lines Φ tr σ qs s :
  window_lines a tl w = Ok lines → over tr σ qs s →
  (∀ s', over (tr ++ prints lines) σ qs s' → Φ (Ok ()) s') →
  mwp Q (print_window a tl w) Φ s.
Proof using.
  intros Hw Ho H. unfold window_lines in Hw. unfold print_window.
  assert (Hw' : lines = [too_few_line] → mwp Q (mprint too_few_line) Φ s).
  { intros ->. by apply (mwp_last_print Q _ _ tr σ qs). }
  destruct (head w) as [[t0 r0]|]; [|injection Hw as <-; by apply Hw'].
  destruct (last w) as [[t1 r1]|]; [|injection Hw as <-; by apply Hw'].
  destruct (length w <? 2)%nat; [injection Hw as <-; by apply Hw'|].
  destruct (mapM (stats_of w) (range 0 (k_queues a))) as [stats|] eqn:Hm; [|done].
  eapply (mwp_over_prints _ _ (fun l => l)); [exact Ho|]. intros s1 Ho1. rewrite list_fmap_id in Ho1.
  eapply (mwp_print_queues _ _ _ _ _ _ _ _ _ _ _ Hm Ho1). intros s2 Ho2.
  destruct (foldl aggregate _ _) as [[p c] g]. injection Hw as <-.
  eapply (mwp_over_prints _ _ (fun l => l)); [exact Ho2|]. intros s3 Ho3. rewrite list_fmap_id in Ho3.
  intros s4 Hs4. rewrite (over_worked _ _ _ _ _ Ho3 Hs4). apply H.
  by rewrite <-!app_assoc, <-!prints_app in Ho3.
Qed.

Context (Hk : 0 ≤ k_queues a).

Definition multi_timeline := make_timeline (duration_secs a) (drain_tail_secs a) (ramp_up_secs a).

Definition multi_done : result unit → sys → Prop :=
  reported_run (n_workers a) (fun now => workers sql_literal fuel a (multi_timeline now))
    (fun now σ => match report a (multi_timeline now) σ with Some (Ok lines) => Some lines | _ => None end).

Lemma multi_main : mwp (quiet (n_workers a)) (main sql_literal fuel a) multi_done (sys0 (n_workers a)).
Proof using Hk.
  unfold main. eapply mwp_call; [done|apply launched_sys0|]. intros now s1 H1.
  eapply mwp_fleet; [by apply multi_completes|by intros; eapply multi_results|exact H1|].
  intros σ qs s2 Hs Hok Ho.
  eapply (mwp_over_prints _ _ (fun l => l)); [exact Ho|]. intros s3 Ho3. rewrite list_fmap_id in Ho3.
  eapply mwp_over_samples; [exact Ho3|].
  assert (∃ lines, window_lines a (multi_timeline now) (rows_in_window (multi_timeline now) (samples σ)) = Ok lines)
    as [lines Hl].
  { apply window_in_range. eapply pool_samples; [apply multi_shaped|exact Hs]. }
  eapply mwp_print_window; [exact Hl|exact Ho3|]. intros s4 Ho4.
  rewrite <-!app_assoc, <-!prints_app in Ho4.
  apply (over_reported _ _ _ _ _ _ _ _ Ho4 Hs Hok).
  destruct (multi_complete sql_literal fuel a _ σ qs Hk Hs Hok) as (H0 & H2 & _).
  apply Permutation_length in H0, H2. rewrite !length_fmap, length_range in H0, H2.
  unfold report, totals, collect. rewrite H0, H2, Nat.leb_refl. simpl. by rewrite Hl.
Qed.
End multi_queue.

(** ** parallel_bench.py *)

Section parallel.
Import ParallelBench.
Context (sql_literal : string → string) (a : args).

Lemma parallel_disciplined count : Forall disciplined (workers sql_literal a count).
Proof.
  unfold workers. apply Forall_fmap, Forall_true. intros i. unfold worker. auto 20 with atomic.
Qed.

Lemma parallel_completes count :
  completes (Z.to_nat (connections a)) (workers sql_literal a count).
Proof.
  apply (disciplined_completes (HB := parallel sql_literal a count)).
  - apply parallel_disciplined.
  - simpl. unfold workers. by rewrite length_fmap, length_range.
Qed.

(** [args.total_rows // n] may be a division by zero, and so may the rate. *)
Definition parallel_done (r : result unit) (s : sys) : Prop :=
  match per_worker a with
  | Err e => r = Err e ∧ started s = [] ∧ calls s = []
  | Ok count =>
      parties_ok (Z.to_nat (connections a)) (pool s) ∧
      ∃ now rs,
        steps (init_shared (Z.to_nat (connections a)), workers sql_literal a count) (shm s, pool s) ∧
        results a (shm s) = Some rs ∧
        match summary a count rs with
        | Ok line => r = Ok () ∧ calls s = Ev PerfCounter now :: prints [line]
        | Err e => r = Err e ∧ calls s = [Ev PerfCounter now]
        end
  end.

Lemma parallel_main :
  mwp (quiet (Z.to_nat (connections a))) (main sql_literal a) parallel_done
    (sys0 (Z.to_nat (connections a))).
Proof.
  unfold main, parallel_done. destruct (per_worker a) as [count|e].
  2:{ intros s Hs. by destruct (launched_worked _ _ _ _ _ _ (launched_sys0 _) Hs). }
  apply mwp_mret. eapply mwp_call; [done|apply launched_sys0|]. intros now s1 H1.
  eapply mwp_start_each; [exact H1|]. intros s2 H2.
  set (n := Z.to_nat (connections a)) in *.
  change ([] ++ (_ <$> range 0 (connections a))) with (workers sql_literal a count) in H2.
  assert (∀ js s, launched n (workers sql_literal a count) js ([] ++ [Ev PerfCounter now]) s →
    quiet n (shm s, pool s) → parties_ok n (pool s)) as Hq.
  { intros js s [Hp Hst _ _ _] Hqs.
    apply (quiet_ended n (workers sql_literal a count) (shm s, pool s)); [apply parallel_completes| |done].
    rewrite <-Hst. exact Hp. }
  assert (length (workers sql_literal a count) = length (range 0 (connections a))) as Hlen
    by (unfold workers; by rewrite length_fmap).
  eapply mwp_join_each; [|simpl; rewrite Hlen; intros i ?%elem_of_seq; lia|exact H2|].
  { intros js s Hl Hqs. by apply (Hq js s Hl). }
  intros s3 js H3 Hjs.
  assert (steps (init_shared n, workers sql_literal a count) (shm s3, pool s3)) as Hs.
  { rewrite <-(la_started _ _ _ _ _ H3). apply H3. }
  pose proof (la_taken _ _ _ _ _ H3) as Htk.
  pose proof (Hq js s3 H3) as Hq3. apply launched_over in H3 as Ho.
  2:{ intros i Hi. apply Hjs. left. simpl. apply elem_of_seq. lia. }
  pose proof (parallel_results sql_literal a count _ _ Hs (ov_ended _ _ _ _ Ho)) as Hres.
  eapply mwp_get_each; [exact Ho|rewrite Htk; intros ?%Hq3; by apply Hres| |rewrite Htk; lia].
  intros s4 Ho4 _ Hlen4. rewrite Htk in Hlen4 |- *. rewrite foldl_snoc. simpl.
  assert (parties_ok n (pool s3)) as Hok by by apply Hres.
  assert (results a (shm s3) = Some (take n (queue (shm s3) result_queue))) as Hrs.
  { unfold results. destruct (Nat.leb_spec (Z.to_nat (connections a)) (length (queue (shm s3) result_queue))); [done|unfold n in *; lia]. }
  destruct (summary a count _) as [line|e] eqn:Hsum.
  - eapply (mwp_last_print _ line); [exact Ho4|]. intros s5 [_ Hσ Hqs Hcl].
    rewrite Hσ, Hqs. split; [done|]. exists now. eexists. rewrite Hsum. done.
  - intros s5 Hs5. rewrite (over_worked _ _ _ _ _ Ho4 Hs5). destruct Ho4 as [_ Hσ Hqs Hcl].
    rewrite Hσ, Hqs. split; [done|]. exists now. eexists. rewrite Hsum. done.
Qed.
End parallel.

(** ** Properties *)

(** From any state the program gets to, it stops; and where it has stopped,
    if no loop is out of fuel and no party to the barrier has failed, [main]
    has returned. *)
Definition returns (n : nat) (m0 : Main unit) : Prop :=
  ∀ m s, srun (m0, sys0 n) (m, s) →
  stops (m, s) ∧
  ((¬ ∃ c, sstep (m, s) c) → Forall (.≠ OutOfFuel) (pool s) →
   (∀ j e, (j < n)%nat → pool s !! j ≠ Some (Ret (Err e))) → ∃ r, m = MRet r).

(** Once a party to the barrier has failed, [main] never returns. *)
Definition hangs_on_failure (n : nat) (m0 : Main unit) : Prop :=
  ∀ m s j e, srun (m0, sys0 n) (m, s) → (j < n)%nat → pool s !! j = Some (Ret (Err e)) →
  ¬ ∃ r s', srun (m, s) (MRet r, s').

Lemma mwp_returns n m0 Φ : mwp (quiet n) m0 Φ (sys0 n) → returns n m0.
Proof.
  intros H m s Hr. split; [apply main_stops|]. intros Hstop Hfuel Hgood.
  eapply (mwp_stopped (quiet n)); [exact H|exact Hr| |exact Hstop]. split; [|done].
  intros [[σ ps] Hst]. apply Hstop. eexists. by apply s_worker.
Qed.

Lemma mwp_hangs n m0 (Φ : result unit → sys → Prop) :
  mwp (quiet n) m0 Φ (sys0 n) →
  (∀ r s, Φ r s → started s = [] ∨ parties_ok n (pool s)) →
  hangs_on_failure n m0.
Proof.
  intros H HΦ m s j e Hr Hj Hp (r & s' & Hr').
  pose proof (run_ended _ _ _ _ _ _ Hr' Hp) as Hp'.
  assert (srun (m0, sys0 n) (MRet r, s')) as Hr0 by by etrans.
  pose proof (mwp_returned _ _ _ _ _ _ H Hr0) as Hend.
  destruct (HΦ _ _ Hend) as [Hst|[_ Hok]]; [|by specialize (Hok _ _ Hj Hp')].
  assert (pooled n s') as Hpool by (eapply (pooled_run n); [|exact Hr0]; apply steps_refl).
  apply pooled_length in Hpool. rewrite Hst in Hpool. apply nil_length_inv in Hpool.
  by rewrite Hpool in Hp'.
Qed.

Section properties.
Context (sql_literal : string → string) (fuel : nat).

(** C1. sustained_bench.py as a whole, from [main]'s first call to its last:
    whatever the database, the clocks and the scheduler do, if [main] returns
    then every producer and consumer it started has completed without an
    exception, and what it has printed is its heading with the totals, the
    backlog curve of all samples and the steady-state summary, the totals
    being exactly what the two shared counters hold (modulo the width of the C
    long behind them): no locked update is lost and none is counted twice. *)
Theorem sustained_main_reports a r s :
  0 ≤ SustainedBench.producers a → 0 ≤ SustainedBench.consumers a →
  srun (SustainedBench.main sql_literal fuel a, sys0 (SustainedBench.n_workers a)) (MRet r, s) →
  r = Ok () ∧ parties_ok (SustainedBench.n_workers a) (pool s) ∧
  ∃ now total_published total_consumed,
    let tl := sustained_timeline a now in
    let σ := shm s in
    steps (init_shared (SustainedBench.n_workers a), SustainedBench.workers sql_literal fuel a tl) (σ, pool s) ∧
    calls s = Ev PerfCounter now ::
      prints (SustainedBench.head_lines a total_published total_consumed
              ++ (SustainedBench.curve_line tl <$> samples σ) ++ SustainedBench.steady_lines tl (samples σ)) ∧
    value σ SustainedBench.published_counter = wrap64 total_published ∧
    value σ SustainedBench.consumed_counter = wrap64 total_consumed.
Proof.
  intros Hp Hc Hr.
  destruct (mwp_returned _ _ _ _ _ _ (sustained_main sql_literal fuel a Hp Hc) Hr)
    as (-> & Hok & now & lines & Hs & Hcl & Hrep).
  split; [done|]. split; [done|].
  destruct (SustainedBench.totals_match_counters _ _ _ _ _ _ Hp Hc Hs Hok) as (tp & tc & Ht & Hvp & Hvc).
  exists now, tp, tc. cbv zeta. split; [done|].
  unfold SustainedBench.report in Hrep. rewrite Ht in Hrep. injection Hrep as <-. done.
Qed.

(** C6. filtered_bench.py as a whole: if [main] returns, either the command
    line named a wrong number of filter values, and it raised before starting
    anything, or every producer and consumer has completed and it has printed
    the totals, equal to the two shared counters (modulo their width), when
    the content is checked the third counter's number of mismatches, the
    backlog curve and the steady-state summary. *)
Theorem filtered_main_reports a r s :
  0 ≤ FilteredBench.producers a → 0 ≤ FilteredBench.consumers a →
  srun (FilteredBench.main sql_literal fuel a, sys0 (FilteredBench.n_workers a)) (MRet r, s) →
  match FilteredBench.make_filters a with
  | Err e => r = Err e ∧ started s = [] ∧ calls s = []
  | Ok (exprs, values) =>
      r = Ok () ∧ parties_ok (FilteredBench.n_workers a) (pool s) ∧
      ∃ now total_published total_consumed,
        let tl := filtered_timeline a now in
        let σ := shm s in
        steps (init_shared (FilteredBench.n_workers a),
               FilteredBench.workers sql_literal fuel a tl exprs values) (σ, pool s) ∧
        calls s = Ev PerfCounter now ::
          prints (FilteredBench.head_lines a exprs total_published total_consumed
                  ++ (if FilteredBench.content_checked a
                      then [FilteredBench.mismatch_line (value σ FilteredBench.verify_mismatch_counter)]
                      else [])
                  ++ [FilteredBench.curve_head] ++ (FilteredBench.curve_line tl <$> samples σ)
                  ++ FilteredBench.steady_lines tl (samples σ)) ∧
        value σ FilteredBench.published_counter = wrap64 total_published ∧
        value σ FilteredBench.consumed_counter = wrap64 total_consumed
  end.
Proof.
  intros Hp Hc Hr.
  pose proof (mwp_returned _ _ _ _ _ _ (filtered_main sql_literal fuel a Hp Hc) Hr) as H.
  unfold filtered_done in H. destruct (FilteredBench.make_filters a) as [[exprs values]|e]; [|done].
  destruct H as (-> & Hok & now & lines & Hs & Hcl & Hrep).
  split; [done|]. split; [done|].
  destruct (FilteredBench.filtered_totals_match_counters _ _ _ _ _ _ _ _ Hp Hc Hs Hok)
    as (tp & tc & Ht & Hvp & Hvc).
  exists now, tp, tc. cbv zeta. split; [done|].
  unfold FilteredBench.report in Hrep. rewrite Ht in Hrep. injection Hrep as <-. done.
Qed.

(** C7. multi_queue_bench.py as a whole: if [main] returns, every producer and
    consumer has completed, the two dicts it has collected have exactly the
    queues 0..k-1 as keys with each queue's own shared counters as entries
    (modulo their width), whatever the order in which the results arrived, and
    it has printed their sums and the per-queue window report: the indexing
    behind that report never raises on the monitor's rows. *)
Theorem multi_main_reports a r s :
  0 ≤ MultiQueueBench.k_queues a →
  srun (MultiQueueBench.main sql_literal fuel a, sys0 (MultiQueueBench.n_workers a)) (MRet r, s) →
  r = Ok () ∧ parties_ok (MultiQueueBench.n_workers a) (pool s) ∧
  ∃ now totals_pub totals_con lines,
    let tl := multi_timeline a now in
    let σ := shm s in
    steps (init_shared (MultiQueueBench.n_workers a), MultiQueueBench.workers sql_literal fuel a tl) (σ, pool s) ∧
    MultiQueueBench.window_lines a tl (MultiQueueBench.rows_in_window tl (samples σ)) = Ok lines ∧
    calls s = Ev PerfCounter now :: prints (MultiQueueBench.head_lines a totals_pub totals_con ++ lines) ∧
    (∀ i, is_Some (totals_pub !! i) ↔ 0 ≤ i < MultiQueueBench.k_queues a) ∧
    (∀ i, is_Some (totals_con !! i) ↔ 0 ≤ i < MultiQueueBench.k_queues a) ∧
    ∀ i, 0 ≤ i < MultiQueueBench.k_queues a →
      value σ (MultiQueueBench.pub_counter i) = wrap64 (totals_pub !!! i) ∧
      value σ (MultiQueueBench.con_counter i) = wrap64 (totals_con !!! i).
Proof.
  intros Hk Hr.
  destruct (mwp_returned _ _ _ _ _ _ (multi_main sql_literal fuel a Hk) Hr)
    as (-> & Hok & now & lines & Hs & Hcl & Hrep).
  split; [done|]. split; [done|].
  destruct (MultiQueueBench.per_queue_totals _ _ _ _ _ _ Hk Hs Hok) as (tp & tc & Ht & Hdp & Hdc & Hv).
  unfold MultiQueueBench.report in Hrep. rewrite Ht in Hrep. simpl in Hrep.
  destruct (MultiQueueBench.window_lines _ _ _) as [wl|] eqn:Hw; [|done]. injection Hrep as <-.
  exists now, tp, tc, wl. done.
Qed.

(** C19. parallel_bench.py as a whole: if [main] returns, either [--connections]
    is 0 and it raised before starting anything, or every worker has completed
    and it has taken exactly one result from each, in some order.  In every
    log of such a run the results taken are the messages the workers put on
    the queue, and worker i's is what that worker measured: it has set up the
    i-th slice, waited at the barrier, read the clock, run the one publish
    statement, fetched its count, read the clock again, and put the count, the
    difference of the readings and the first reading.  [main] has then printed
    the one line computed from those results, or raised what that computation
    raises (a rate over a span of zero). *)
Theorem parallel_main_reports a r s :
  srun (ParallelBench.main sql_literal a, sys0 (Z.to_nat (ParallelBench.connections a))) (MRet r, s) →
  match ParallelBench.per_worker a with
  | Err e => r = Err e ∧ started s = [] ∧ calls s = []
  | Ok count =>
      parties_ok (Z.to_nat (ParallelBench.connections a)) (pool s) ∧
      ∃ now rs,
        let start := (init_shared (Z.to_nat (ParallelBench.connections a)),
                      ParallelBench.workers sql_literal a count) in
        steps start (shm s, pool s) ∧
        key_of <$> rs ≡ₚ KRes <$> range 0 (ParallelBench.connections a) ∧
        (∀ l, logged start l (shm s, pool s) →
           rs = puts_to ParallelBench.result_queue l.*2 ∧
           ∀ i, 0 ≤ i < ParallelBench.connections a → ∃ published row t0 t1,
             calls_of (Z.to_nat i) l =
               ParallelBench.worker_calls sql_literal a i (i * count) count published row t0 t1 ∧
             QRes i published (fsub t1 t0) t0 ∈ rs) ∧
        match ParallelBench.summary a count rs with
        | Ok line => r = Ok () ∧ calls s = Ev PerfCounter now :: prints [line]
        | Err e => r = Err e ∧ calls s = [Ev PerfCounter now]
        end
  end.
Proof.
  intros Hr. pose proof (mwp_returned _ _ _ _ _ _ (parallel_main sql_literal a) Hr) as H.
  unfold parallel_done in H. destruct (ParallelBench.per_worker a) as [count|e]; [|done].
  destruct H as (Hok & now & rs & Hs & Hrs & Hend). split; [done|].
  destruct (ParallelBench.one_result_per_worker _ _ _ _ _ Hs Hok) as (rs' & Hrs' & Hk).
  rewrite Hrs in Hrs'. injection Hrs' as <-.
  exists now, rs. split; [done|]. split; [done|]. split; [|done].
  intros l Hl. by eapply ParallelBench.results_are_measurements.
Qed.

(** C8. The four programs do not deadlock and do not go on for ever. From any
    state that main and the processes it has started so far get to, every
    further interleaving of their calls stops; and where it stops, unless a
    timed loop is still running (out of fuel) or a party to the barrier has
    failed, main has returned.  No other behaviour of the database, the clock
    or the scheduler keeps main waiting in a join, for a result or for a
    counter's lock. *)
Theorem mains_return :
  (∀ a, 0 ≤ SustainedBench.producers a → 0 ≤ SustainedBench.consumers a →
     returns (SustainedBench.n_workers a) (SustainedBench.main sql_literal fuel a)) ∧
  (∀ a, 0 ≤ FilteredBench.producers a → 0 ≤ FilteredBench.consumers a →
     returns (FilteredBench.n_workers a) (FilteredBench.main sql_literal fuel a)) ∧
  (∀ a, 0 ≤ MultiQueueBench.k_queues a →
     returns (MultiQueueBench.n_workers a) (MultiQueueBench.main sql_literal fuel a)) ∧
  (∀ a, returns (Z.to_nat (ParallelBench.connections a)) (ParallelBench.main sql_literal a)).
Proof.
  split; [|split; [|split]]; intros; eapply mwp_returns.
  - by apply sustained_main.
  - by apply filtered_main.
  - by apply multi_main.
  - apply parallel_main.
Qed.

(** C18. If any producer, consumer or parallel worker dies of an exception,
    main never returns, whatever happens afterwards: it is left waiting in a
    join for survivors stuck at the barrier, or in the [get] of a result that
    nobody puts, and its report is never printed. *)
Theorem failed_worker_hangs_mains :
  (∀ a, 0 ≤ SustainedBench.producers a → 0 ≤ SustainedBench.consumers a →
     hangs_on_failure (SustainedBench.n_workers a) (SustainedBench.main sql_literal fuel a)) ∧
  (∀ a, 0 ≤ FilteredBench.producers a → 0 ≤ FilteredBench.consumers a →
     hangs_on_failure (FilteredBench.n_workers a) (FilteredBench.main sql_literal fuel a)) ∧
  (∀ a, 0 ≤ MultiQueueBench.k_queues a →
     hangs_on_failure (MultiQueueBench.n_workers a) (MultiQueueBench.main sql_literal fuel a)) ∧
  (∀ a, hangs_on_failure (Z.to_nat (ParallelBench.connections a)) (ParallelBench.main sql_literal a)).
Proof.
  split; [|split; [|split]]; intros.
  - eapply mwp_hangs; [by apply sustained_main|]. intros r s (_ & Hok & _). by right.
  - eapply mwp_hangs; [by apply filtered_main|]. intros r s Hd. unfold filtered_done in Hd.
    destruct (FilteredBench.make_filters a) as [[es vs]|e]; [right|left]; apply Hd.
  - eapply mwp_hangs; [by apply multi_main|]. intros r s (_ & Hok & _). by right.
  - eapply mwp_hangs; [apply parallel_main|]. intros r s Hd. unfold parallel_done in Hd.
    destruct (ParallelBench.per_worker a) as [count|e]; [right|left]; apply Hd.
Qed.
End properties.

(** ** The properties at work: the runs of the benchmarks' own examples *)

Module MainsExample.
Definition mains (k : nat) : list move := replicate k (MainMoves AUnit).
Definition workers_do (l : list (nat * answer)) : list move := (fun '(i, a) => WorkerMoves i a) <$> l.

(** Main looks at the clock and starts [n] processes; they run; main goes on. *)
Definition script (n : nat) (l : list (nat * answer)) (k : nat) : list move :=
  [MainMoves (AFloat fzero)] ++ mains n ++ workers_do l ++ mains k.

Definition sustained : Main unit * sys :=
  (SustainedBench.main SustainedBench.Example.quote 3 SustainedBench.Example.a, sys0 2).
Definition sustained_good : list move := script 3 SustainedBench.Example.good 12.

(** The producer's second publish fails: main gets past its joins. *)
Definition sustained_bad : list move := script 3 SustainedBench.Example.bad 3.

Definition filtered : Main unit * sys :=
  (FilteredBench.main FilteredBench.FilteredExample.quote 3 FilteredBench.FilteredExample.a, sys0 3).
Definition filtered_good : list move := script 4 FilteredBench.FilteredExample.good 15.

Definition multi : Main unit * sys :=
  (MultiQueueBench.main MultiQueueBench.MultiQueueExample.quote 3 MultiQueueBench.MultiQueueExample.a, sys0 4).
Definition multi_good : list move := script 5 MultiQueueBench.MultiQueueExample.good 13.

Definition parallel : Main unit * sys :=
  (ParallelBench.main ParallelBench.ParallelExample.quote ParallelBench.ParallelExample.a, sys0 2).
Definition parallel_good : list move := script 2 ParallelBench.ParallelExample.good 5.
End MainsExample.

Lemma sustained_main_reports_witness :
  parties_ok 2 (pool (outcome MainsExample.sustained MainsExample.sustained_good).2) ∧
  ∃ total_published total_consumed,
    value (shm (outcome MainsExample.sustained MainsExample.sustained_good).2)
      SustainedBench.published_counter = wrap64 total_published ∧
    value (shm (outcome MainsExample.sustained MainsExample.sustained_good).2)
      SustainedBench.consumed_counter = wrap64 total_consumed.
Proof.
  destruct (sustained_main_reports SustainedBench.Example.quote 3 SustainedBench.Example.a (Ok ())
    (outcome MainsExample.sustained MainsExample.sustained_good).2)
    as (_ & Hok & now & tp & tc & _ & _ & H); [vm_compute; discriminate|vm_compute; discriminate| |].
  - apply outcome_returned; vm_compute; reflexivity.
  - split; [exact Hok|]. exists tp, tc. exact H.
Defined.

Lemma filtered_main_reports_witness :
  parties_ok 3 (pool (outcome MainsExample.filtered MainsExample.filtered_good).2).
Proof.
  apply (filtered_main_reports FilteredBench.FilteredExample.quote 3 FilteredBench.FilteredExample.a (Ok ())
    (outcome MainsExample.filtered MainsExample.filtered_good).2);
    [vm_compute; discriminate|vm_compute; discriminate|].
  apply outcome_returned; vm_compute; reflexivity.
Defined.

Lemma multi_main_reports_witness :
  parties_ok 4 (pool (outcome MainsExample.multi MainsExample.multi_good).2) ∧
  ∃ totals_pub : gmap Z Z, ∀ i, is_Some (totals_pub !! i) ↔ 0 ≤ i < 2.
Proof.
  destruct (multi_main_reports MultiQueueBench.MultiQueueExample.quote 3 MultiQueueBench.MultiQueueExample.a (Ok ())
    (outcome MainsExample.multi MainsExample.multi_good).2)
    as (_ & Hok & now & tp & tc & lines & _ & _ & _ & Hd & _); [vm_compute; discriminate| |].
  - apply outcome_returned; vm_compute; reflexivity.
  - split; [exact Hok|]. exists tp. exact Hd.
Defined.

Lemma parallel_main_reports_witness :
  let s := (outcome MainsExample.parallel MainsExample.parallel_good).2 in
  parties_ok 2 (pool s) ∧
  ∃ rs, key_of <$> rs ≡ₚ KRes <$> range 0 2 ∧
    ∀ l, logged (init_shared 2, ParallelBench.workers ParallelBench.ParallelExample.quote
                   ParallelBench.ParallelExample.a 3) l (shm s, pool s) →
      rs = puts_to ParallelBench.result_queue l.*2.
Proof.
  destruct (parallel_main_reports ParallelBench.ParallelExample.quote ParallelBench.ParallelExample.a (Ok ())
    (outcome MainsExample.parallel MainsExample.parallel_good).2) as (Hok & now & rs & _ & Hk & Hl & _).
  - apply outcome_returned; vm_compute; reflexivity.
  - split; [exact Hok|]. exists rs. split; [exact Hk|]. intros l H. by apply Hl.
Defined.

Lemma mains_return_witness :
  returns 2 (SustainedBench.main SustainedBench.Example.quote 3 SustainedBench.Example.a).
Proof.
  apply (proj1 (mains_return SustainedBench.Example.quote 3) SustainedBench.Example.a);
    vm_compute; discriminate.
Defined.

Lemma failed_worker_hangs_mains_witness :
  ¬ ∃ r s', srun ((outcome MainsExample.sustained MainsExample.sustained_bad).1,
                  (outcome MainsExample.sustained MainsExample.sustained_bad).2) (MRet r, s').
Proof.
  apply (proj1 (failed_worker_hangs_mains SustainedBench.Example.quote 3) SustainedBench.Example.a
    ltac:(vm_compute; discriminate) ltac:(vm_compute; discriminate)
    _ _ 0%nat (DbError "gone")); [|vm_compute; lia|vm_compute; reflexivity].
  rewrite <-surjective_pairing. apply outcome_run. vm_compute. reflexivity.
Defined.
