(* ===== verification/Report.v ===== *)
(** * Reading the driver's and the sidecar's output

    The text the harness scripts rely on: the last line of the subscriber's
    output, the [key=value] tokens in it, the verdict made from them, and the
    counters in a sidecar's log. *)
From Stdlib Require Import Ascii.
From S2P Require Import Prelude PyFloat PyStr PyM.

(** [EXPECTED] *)
Definition EXPECTED : Z := 21683.

(** [out.strip().splitlines()[-1] if out.strip() else "NONE"] *)
Definition last_line (out : string) : string :=
  match strip out with
  | EmptyString => "NONE"
  | s => List.last (splitlines s) EmptyString
  end.

(** [tok.split("=", 1)] of a token that has an equals sign. *)
Definition key_value (tok : string) : option (string * string) := cut "=" tok.

(** [parse(line, key)]: a dict of the tokens, the last of a key wins. *)
Definition parse (line key : string) : option string :=
  foldl (fun (parts : gmap string string) tok =>
    match key_value tok with Some (k, v) => <[k := v]> parts | None => parts end)
    ∅ (split_ws line) !! key.

(** The loop that only looks for "total" and "wrong". *)
Definition tot_wrong_step (tw : option string * option string) (tok : string)
    : option string * option string :=
  match key_value tok with
  | Some (k, v) =>
      if bool_decide (k = "total") then (Some v, tw.2)
      else if bool_decide (k = "wrong") then (tw.1, Some v)
      else tw
  | None => tw
  end.

Definition tot_wrong (line : string) : option string * option string :=
  foldl tot_wrong_step (None, None) (split_ws line).

(** [(tot == str(EXPECTED)) and (wrong == "0")] *)
Definition verdict (tot wrong : option string) : bool :=
  bool_decide (tot = Some (py_str EXPECTED)) && bool_decide (wrong = Some "0").

(** [(tot is None) or (int(tot) != EXPECTED)]; [int] may raise. *)
Definition stalled (tot : option string) : result bool :=
  match tot with
  | None => Ok true
  | Some s => match py_int s with Some n => Ok (negb (n =? EXPECTED)) | None => Err ValueError end
  end.

(** ** The driver's line *)

(** What mq_bench_driver's subscriber prints last. *)
Definition sub_done_line (total wrong : Z) (secs rate : string) : string :=
  "SUB_DONE total=" +:+ py_str total +:+ " wrong=" +:+ py_str wrong
    +:+ " secs=" +:+ secs +:+ " rate=" +:+ rate.


(** ** A sidecar's log *)

(** [f.readlines()]: the lines with their newline. *)
Fixpoint readlines_go (s : string) : string * list string :=
  match s with
  | EmptyString => (EmptyString, [])
  | String c s' =>
      let '(w, ws) := readlines_go s' in
      if Ascii.eqb c (ascii_of_nat 10) then
        (String c EmptyString, if bool_decide (w = EmptyString) then ws else w :: ws)
      else (String c w, ws)
  end.

Definition readlines (s : string) : list string :=
  let '(w, ws) := readlines_go s in
  if bool_decide (w = EmptyString) then ws else w :: ws.

(** ["stats:" in line and "processed=" in line] *)
Definition is_stats (line : string) : bool :=
  contains "stats:" line && contains "processed=" line.

(** The first token that starts with "processed=", as a number. *)
Fixpoint processed_token (toks : list string) : option (option Z) :=
  match toks with
  | [] => None
  | tok :: toks' =>
      if startswith "processed=" tok then
        Some (match key_value tok with Some (_, v) => py_int v | None => None end)
      else processed_token toks'
  end.

(** [for line in reversed(lines)]: a stats line without such a token does not
    end the search. *)
Fixpoint last_processed (rev_lines : list string) : option Z :=
  match rev_lines with
  | [] => None
  | line :: ls =>
      if is_stats line then
        match processed_token (split_ws line) with
        | Some r => r
        | None => last_processed ls
        end
      else last_processed ls
  end.

Definition is_os_error (e : exn) : bool :=
  match e with OSError _ | FileNotFoundError => true | _ => false end.

Definition instance_processed_count (log_path : string) : Py (option Z) :=
  try_except
    (text <- Do (ReadFile log_path) Ret;; ret (last_processed (reverse (readlines text))))
    (fun e => if is_os_error e then ret None else raise e).

(** ** Printing a result *)

(** The repr of a string or None, and of a bool. *)
Definition repr_opt (o : option string) : frag :=
  match o with Some s => FR s | None => FS "None" end.

Definition repr_bool (b : bool) : frag := FS (if b then "True" else "False").

(** ** Lemmas *)

(** The reply of a file read. *)
Definition read_reply (e : event) : option (result string) :=
  match e with
  | Ev c x =>
      match c return reply c → option (result string) with
      | ReadFile _ => fun r => Some r
      | _ => fun _ => None
      end x
  end.

Lemma tot_wrong_fold (m : gmap string string) (tw : option string * option string) toks :
  tw = (m !! "total", m !! "wrong") →
  foldl tot_wrong_step tw toks =
    (foldl (fun (parts : gmap string string) tok =>
       match key_value tok with Some (k, v) => <[k := v]> parts | None => parts end) m toks !! "total",
     foldl (fun (parts : gmap string string) tok =>
       match key_value tok with Some (k, v) => <[k := v]> parts | None => parts end) m toks !! "wrong").
Proof.
  revert m tw. induction toks as [|tok toks IH]; intros m tw Htw; [done|]. cbn [foldl].
  apply IH. unfold tot_wrong_step. rewrite Htw. destruct (key_value tok) as [[k v]|]; [|done].
  case_bool_decide as Ht; [subst k|].
  { by rewrite lookup_insert_eq, lookup_insert_ne by done. }
  case_bool_decide as Hw; [subst k|].
  { by rewrite lookup_insert_eq, lookup_insert_ne by done. }
  by rewrite !lookup_insert_ne by congruence.
Qed.

Lemma key_value_app k v :
  none (char_eq "=") k = true → key_value (k +:+ String "=" v) = Some (k, v).
Proof. apply cut_app. Qed.

Definition blank_free (s : string) : Prop := none is_space s = true.

Lemma blank_free_app s1 s2 : blank_free s1 → blank_free s2 → blank_free (s1 +:+ s2).
Proof. unfold blank_free. intros H1 H2. by rewrite none_app, H1, H2. Qed.

Lemma sub_done_tokens total wrong secs rate :
  0 ≤ total → 0 ≤ wrong → blank_free secs → blank_free rate →
  split_ws (sub_done_line total wrong secs rate) =
    ["SUB_DONE"; "total=" +:+ py_str total; "wrong=" +:+ py_str wrong;
     "secs=" +:+ secs; "rate=" +:+ rate].
Proof.
  intros Ht Hw Hs Hr. unfold sub_done_line.
  change ("SUB_DONE total=" +:+ ?s) with ("SUB_DONE" +:+ String " " ("total=" +:+ s)).
  rewrite split_ws_word by done.
  change (" wrong=" +:+ ?s) with (String " " ("wrong=" +:+ s)).
  rewrite <-append_assoc, split_ws_word; [|apply blank_free_app; [done|by apply py_str_blank_free]|done|done].
  change (" secs=" +:+ ?s) with (String " " ("secs=" +:+ s)).
  rewrite <-append_assoc, split_ws_word; [|apply blank_free_app; [done|by apply py_str_blank_free]|done|done].
  change (" rate=" +:+ ?s) with (String " " ("rate=" +:+ s)).
  rewrite <-append_assoc, split_ws_word; [|by apply blank_free_app|done|done].
  by rewrite split_ws_last; [|apply blank_free_app|].
Qed.

Lemma sub_done_shape total wrong secs rate :
  ∃ s, sub_done_line total wrong secs rate = String "S" s +:+ ("rate=" +:+ rate).
Proof.
  exists ("UB_DONE total=" +:+ py_str total +:+ " wrong=" +:+ py_str wrong
    +:+ " secs=" +:+ secs +:+ " ").
  transitivity (("SUB_DONE total=" +:+ py_str total +:+ " wrong=" +:+ py_str wrong
    +:+ " secs=" +:+ secs +:+ " ") +:+ ("rate=" +:+ rate)); [|reflexivity].
  rewrite !append_assoc. reflexivity.
Qed.

Lemma linebreak_space c : is_linebreak c = true → is_space c = true.
Proof.
  unfold is_linebreak, is_space. cbv zeta. generalize (code c). intros n H.
  repeat (apply orb_prop in H as [H|H] || apply andb_prop in H as [H ?]);
    rewrite ?N.leb_le, ?N.eqb_eq in *;
    rewrite ?orb_true_iff, ?andb_true_iff, ?N.leb_le, ?N.eqb_eq; lia.
Qed.

Lemma sub_done_one_line total wrong secs rate :
  0 ≤ total → 0 ≤ wrong → blank_free secs → blank_free rate →
  none is_linebreak (sub_done_line total wrong secs rate) = true.
Proof.
  intros Ht Hw Hs Hr.
  assert (∀ s, blank_free s → none is_linebreak s = true) as Hb.
  { intros s. by apply none_weaken, linebreak_space. }
  unfold sub_done_line. rewrite !none_app.
  rewrite (Hb (py_str total)), (Hb (py_str wrong)), (Hb secs), (Hb rate)
    by (done || by apply py_str_blank_free). done.
Qed.

(** Whatever was printed before, on lines of its own. *)
Lemma last_line_sub_done pre total wrong secs rate :
  0 ≤ total → 0 ≤ wrong → blank_free secs → blank_free rate →
  pre = EmptyString ∨ (∃ pre', pre = pre' +:+ newline) →
  last_line (pre +:+ sub_done_line total wrong secs rate +:+ newline) =
    sub_done_line total wrong secs rate.
Proof.
  intros Ht Hw Hs Hr Hpre. set (line := sub_done_line total wrong secs rate).
  destruct (sub_done_shape total wrong secs rate) as [s Hshape]. fold line in Hshape.
  assert (none is_linebreak line = true) as Hline by by apply sub_done_one_line.
  assert (∀ x, rstrip_if is_space (x +:+ line) = x +:+ line) as Hkeep.
  { intros x. rewrite Hshape, <-append_assoc. apply rstrip_app_kept; [|done].
    by apply blank_free_app. }
  assert (line ≠ EmptyString) as Hne by by rewrite Hshape.
  assert (∀ x, x +:+ line ≠ EmptyString) as Hne' by by intros [].
  assert (lstrip_if is_space (line +:+ newline) = line +:+ newline) as Hl by by rewrite Hshape.
  assert (∃ x, strip (pre +:+ line +:+ newline) = x +:+ line ∧
    (x = EmptyString ∨ ∃ y, x = y +:+ newline)) as (x & Hstrip & Hx).
  { unfold strip. destruct Hpre as [-> | [pre' ->]].
    - exists EmptyString. rewrite !append_nil_l. split; [|by left].
      rewrite Hl. change newline with (String (ascii_of_nat 10) EmptyString).
      rewrite rstrip_app_dropped by done. apply (Hkeep EmptyString).
    - rewrite append_assoc. change (newline +:+ line +:+ newline)
        with (String (ascii_of_nat 10) (line +:+ newline)).
      destruct (lstrip_before_newline pre' (line +:+ newline)) as [-> | [y ->]].
      + by rewrite Hshape.
      + by rewrite Hshape.
      + exists EmptyString. split; [|by left]. change newline with (String (ascii_of_nat 10) EmptyString).
        rewrite rstrip_app_dropped by done. apply (Hkeep EmptyString).
      + exists (y +:+ newline). split; [|by right; exists y].
        change (String (ascii_of_nat 10) (line +:+ newline)) with (newline +:+ line +:+ newline).
        rewrite <-!append_assoc.
        change newline with (String (ascii_of_nat 10) EmptyString) at 2.
        rewrite rstrip_app_dropped by done. apply Hkeep. }
  unfold last_line. rewrite Hstrip.
  assert (List.last (splitlines (x +:+ line)) EmptyString = line) as Hlast.
  { unfold splitlines. destruct Hx as [-> | [y ->]].
    - rewrite append_nil_l, lines_go_single by done. done.
    - rewrite append_assoc. change (newline +:+ line) with (String (ascii_of_nat 10) line).
      destruct (lines_go_after_newline y line) as (o & ls & -> & Hls & Hlast); [done..|].
      destruct o as [l|]; [|done]. simpl. by destruct ls. }
  specialize (Hne' x). by destruct (x +:+ line).
Qed.

Lemma tot_wrong_sub_done total wrong secs rate :
  0 ≤ total → 0 ≤ wrong → blank_free secs → blank_free rate →
  tot_wrong (sub_done_line total wrong secs rate) = (Some (py_str total), Some (py_str wrong)).
Proof.
  intros Ht Hw Hs Hr. unfold tot_wrong. rewrite sub_done_tokens by done.
  cbn [foldl]. unfold tot_wrong_step at 5. 
  assert (∀ k v, none (char_eq "=") k = true → key_value (k +:+ "=" +:+ v) = Some (k, v)) as Hkv
    by (intros k v; apply key_value_app).
  unfold tot_wrong_step.
  change ("total=" +:+ ?s) with ("total" +:+ "=" +:+ s).
  change ("wrong=" +:+ ?s) with ("wrong" +:+ "=" +:+ s).
  change ("secs=" +:+ ?s) with ("secs" +:+ "=" +:+ s).
  change ("rate=" +:+ ?s) with ("rate" +:+ "=" +:+ s).
  rewrite !Hkv by done. done.
Qed.

(** The counted line of a sidecar's log, among other tokens. *)
Lemma processed_token_found before n after :
  0 ≤ n →
  Forall (fun tok => startswith "processed=" tok = false) before →
  processed_token (before ++ ("processed=" +:+ py_str n) :: after) = Some (Some n).
Proof.
  intros Hn. induction 1 as [|tok before Htok _ IH]; cbn [processed_token app].
  - assert (startswith "processed=" ("processed=" +:+ py_str n) = true) as ->
      by by destruct (py_str n).
    change ("processed=" +:+ py_str n) with ("processed" +:+ String "=" (py_str n)).
    rewrite key_value_app by done. by rewrite py_int_str.
  - by rewrite Htok.
Qed.

Lemma last_processed_skip ls rest :
  Forall (fun l => is_stats l = false) ls → last_processed (ls ++ rest) = last_processed rest.
Proof. induction 1 as [|l ls Hl _ IH]; [done|]. simpl. by rewrite Hl. Qed.

(** ** Properties *)

(** The two ways the scripts read the totals agree: the loop that looks for
    "total" and "wrong" finds what the dict of [parse] holds under those keys,
    on every line. *)
Lemma tot_wrong_is_parse line : tot_wrong line = (parse line "total", parse line "wrong").
Proof. unfold tot_wrong, parse. by apply (tot_wrong_fold ∅). Qed.

(** The verdict is exact on what the driver prints: after any other output
    (on lines of its own), a final line "SUB_DONE total=T wrong=W secs=..
    rate=.." is accepted if and only if T is the expected count and W is 0. *)
Theorem verdict_exact pre total wrong secs rate :
  0 ≤ total → 0 ≤ wrong → blank_free secs → blank_free rate →
  pre = EmptyString ∨ (∃ pre', pre = pre' +:+ newline) →
  let '(tot, wr) :=
    tot_wrong (last_line (pre +:+ sub_done_line total wrong secs rate +:+ newline)) in
  verdict tot wr = true ↔ total = EXPECTED ∧ wrong = 0.
Proof.
  intros Ht Hw Hs Hr Hpre. rewrite last_line_sub_done, tot_wrong_sub_done by done.
  unfold verdict. rewrite andb_true_iff, !bool_decide_eq_true. split.
  - intros [H1 H2]. change "0" with (py_str 0) in H2.
    apply (inj Some), py_str_inj in H1, H2. done.
  - by intros [-> ->].
Qed.

(** [instance_processed_count] reads the last count a sidecar logged: if a
    log's lines are [before], then a stats line whose first "processed=" token
    carries the natural number [n], then lines that are no stats lines, the
    result is [n]; and a file that cannot be opened gives [None], without an
    exception. *)
Theorem processed_count_last before line after toks toks' n :
  0 ≤ n →
  is_stats line = true →
  split_ws line = toks ++ ("processed=" +:+ py_str n) :: toks' →
  Forall (fun tok => startswith "processed=" tok = false) toks →
  Forall (fun l => is_stats l = false) after →
  ∀ log_path t r, exec (instance_processed_count log_path) t r →
    (∀ text, t = [Ev (ReadFile log_path) (Ok text)] →
       readlines text = before ++ line :: after → r = Some (Ok (Some n))) ∧
    (∀ e, t = [Ev (ReadFile log_path) (Err e)] → is_os_error e = true → r = Some (Ok None)).
Proof.
  intros Hn Hst Htoks Hpre Haft log_path t r (x & t' & -> & He). split.
  - intros text Ht Hlines. pose proof (f_equal (fun l => head l) Ht) as Hx. apply (f_equal tail) in Ht. simpl in Hx, Ht.
    apply (inj Some) in Hx. subst t'.
    apply (f_equal read_reply) in Hx. injection Hx as ->.
    simpl in He. destruct He as [_ ->].
    rewrite Hlines, reverse_app, reverse_cons, <-app_assoc.
    rewrite last_processed_skip by by apply Forall_reverse.
    simpl. by rewrite Hst, Htoks, processed_token_found.
  - intros e Ht Hos. pose proof (f_equal (fun l => head l) Ht) as Hx. apply (f_equal tail) in Ht. simpl in Hx, Ht.
    apply (inj Some) in Hx. subst t'.
    apply (f_equal read_reply) in Hx. injection Hx as ->.
    simpl in He. rewrite Hos in He. by destruct He as [_ ->].
Qed.

Lemma verdict_exact_witness :
  let '(tot, wr) :=
    tot_wrong (last_line (("warning: slow" +:+ newline) +:+
      sub_done_line 21683 0 "0.91" "23827.5" +:+ newline)) in
  verdict tot wr = true ↔ 21683 = EXPECTED ∧ 0 = 0.
Proof.
  apply (verdict_exact ("warning: slow" +:+ newline) 21683 0 "0.91" "23827.5");
    [lia|lia|reflexivity|reflexivity|right; by exists "warning: slow"].
Defined.

Module ReportExample.
Definition log : string :=
  "stats: in=9 processed=4 out=1" +:+ newline +:+ "stats: in=12 processed=7 out=2" +:+ newline
    +:+ "bye" +:+ newline.
End ReportExample.

Lemma processed_count_last_witness :
  ∃ r, exec (instance_processed_count "log") [Ev (ReadFile "log") (Ok ReportExample.log)] r ∧
    r = Some (Ok (Some 7)).
Proof.
  eexists. split.
  - exists (Ok ReportExample.log), []. split; [reflexivity|]. vm_compute. split; reflexivity.
  - eapply (proj1 (processed_count_last
      ["stats: in=9 processed=4 out=1" +:+ newline] ("stats: in=12 processed=7 out=2" +:+ newline)
      ["bye" +:+ newline] ["stats:"; "in=12"] ["out=2"] 7
      ltac:(lia) ltac:(vm_compute; reflexivity) ltac:(vm_compute; reflexivity)
      ltac:(repeat constructor) ltac:(repeat constructor) "log" _ _
      ltac:(exists (Ok ReportExample.log), []; split; [reflexivity|]; vm_compute; split; reflexivity))
      ReportExample.log);
      [reflexivity|vm_compute; reflexivity].
Defined.
