(* ===== verification/Output.v ===== *)
(** * What the timed benchmarks write

    The text on standard output of a returned run of the four
    multiprocessing programs: every piece of every line can be formatted, and
    the line with the totals reads back. *)
From Stdlib Require Import Ascii.
From S2P Require Import Prelude PyFloat PyStr PyRepr FloatText PyFormat Json PyM Render Pool Workers System Timed Steady Mains Report.
From S2P Require SustainedBench FilteredBench MultiQueueBench ParallelBench.

Lemma prints_format lines : Forall formats lines → is_Some (stdout_text (prints lines)).
Proof. intros H. apply formats_stdout, Forall_fmap. exact H. Qed.

Lemma sustained_lines_format a tl p c l :
  Forall formats (SustainedBench.head_lines a p c ++ (SustainedBench.curve_line tl <$> l)
                  ++ SustainedBench.steady_lines tl l).
Proof.
  rewrite !Forall_app, Forall_fmap. split; [|split].
  - repeat constructor; by eexists.
  - apply Forall_true. intros [t p' c' b|t row]; [|constructor]. repeat constructor; by eexists.
  - unfold SustainedBench.steady_lines. destruct (steady_state tl l); repeat constructor; by eexists.
Qed.

Lemma filtered_lines_format a exprs tl p c (b : bool) v l :
  Forall formats (FilteredBench.head_lines a exprs p c
                  ++ (if b then [FilteredBench.mismatch_line v] else [])
                  ++ [FilteredBench.curve_head] ++ (FilteredBench.curve_line tl <$> l)
                  ++ FilteredBench.steady_lines tl l).
Proof.
  rewrite !Forall_app, Forall_fmap. split; [|split; [|split; [|split]]].
  - repeat constructor; by eexists.
  - destruct b; repeat constructor; by eexists.
  - repeat constructor; by eexists.
  - apply Forall_true. intros [t p' c' b'|t row]; [|constructor]. repeat constructor; by eexists.
  - unfold FilteredBench.steady_lines. destruct (steady_state tl l); repeat constructor; by eexists.
Qed.

Lemma multi_window_formats a tl w lines :
  MultiQueueBench.window_lines a tl w = Ok lines → Forall formats lines.
Proof.
  unfold MultiQueueBench.window_lines.
  assert (Forall formats [MultiQueueBench.too_few_line]) as Hfew by (repeat constructor; by eexists).
  destruct (head w) as [[t0 r0]|], (last w) as [[t1 r1]|]; try (by intros [= <-]).
  destruct (length w <? 2)%nat; [by intros [= <-]|].
  destruct (mapM _ _) as [stats|]; [|done]. destruct (foldl _ _ stats) as [[p c] g].
  match goal with |- Ok ?l = Ok lines → _ => intros H; replace lines with l by congruence end.
  rewrite !Forall_app. split; [|split]; [repeat constructor; by eexists| |repeat constructor; by eexists].
  generalize (range 0 (MultiQueueBench.k_queues a)). clear. induction stats as [|s stats IH]; intros [|i l];
    constructor; [|apply IH]. repeat constructor; by eexists.
Qed.

Lemma multi_lines_format a tl tp tc w lines :
  MultiQueueBench.window_lines a tl w = Ok lines →
  Forall formats (MultiQueueBench.head_lines a tp tc ++ lines).
Proof.
  intros H. apply Forall_app. split; [|by eapply multi_window_formats].
  unfold MultiQueueBench.head_lines. destruct (MultiQueueBench.per_queue_rate a); repeat constructor; by eexists.
Qed.

Lemma parallel_line_formats a count rs line :
  ParallelBench.summary a count rs = Ok line → formats line.
Proof.
  unfold ParallelBench.summary. destruct (ParallelBench.span rs) as [s|]; [|done].
  destruct (is_zero s); [done|]. intros [= <-]. repeat constructor; by eexists.
Qed.

(** A printed integer is one word, and reads back. *)
(** The line with the totals, which three of the programs print. *)
Definition totals_text (p c : Z) : string :=
  "total_published=" +:+ py_str p +:+ " total_consumed=" +:+ py_str c
  +:+ " final_backlog=" +:+ py_str (p - c).

Lemma totals_text_reads p c :
  split_ws (totals_text p c) =
    ["total_published=" +:+ py_str p; "total_consumed=" +:+ py_str c;
     "final_backlog=" +:+ py_str (p - c)].
Proof.
  unfold totals_text.
  change (" total_consumed=" +:+ py_str c +:+ " final_backlog=" +:+ py_str (p - c))
    with (String " "%char ("total_consumed=" +:+ py_str c +:+ String " "%char ("final_backlog=" +:+ py_str (p - c)))).
  rewrite <-!append_assoc.
  assert (∀ k z, none is_space k = true → none is_space (k +:+ py_str z) = true) as Hw.
  { intros k z Hk. by rewrite none_app, Hk, py_str_word. }
  rewrite split_ws_word by (done || by apply Hw).
  rewrite split_ws_word by (done || by apply Hw). by rewrite split_ws_last by (done || by apply Hw).
Qed.

Lemma totals_text_parses p c :
  parse (totals_text p c) "total_published" ≫= py_int = Some p ∧
  parse (totals_text p c) "total_consumed" ≫= py_int = Some c ∧
  parse (totals_text p c) "final_backlog" ≫= py_int = Some (p - c).
Proof.
  unfold parse. rewrite totals_text_reads. cbn [foldl].
  rewrite (key_value_app "total_published" (py_str p) eq_refl
    : key_value ("total_published=" +:+ py_str p) = _).
  rewrite (key_value_app "total_consumed" (py_str c) eq_refl
    : key_value ("total_consumed=" +:+ py_str c) = _).
  rewrite (key_value_app "final_backlog" (py_str (p - c)) eq_refl
    : key_value ("final_backlog=" +:+ py_str (p - c)) = _).
  split; [|split]; rewrite ?lookup_insert_ne by done; rewrite lookup_insert_eq; apply py_int_any.
Qed.

(** [text] has a line that reads, with the scripts' own parser of key=value
    lines, as these totals. *)
Definition tells_totals (text : string) (p c : Z) : Prop :=
  ∃ first line rest, text = first +:+ newline +:+ line +:+ newline +:+ rest ∧
    parse line "total_published" ≫= py_int = Some p ∧
    parse line "total_consumed" ≫= py_int = Some c ∧
    parse line "final_backlog" ≫= py_int = Some (p - c).

Definition totals_line (p c : Z) : list frag :=
  [FS "total_published="; FZ p; FS " total_consumed="; FZ c; FS " final_backlog="; FZ (p - c)].

Lemma totals_line_text p c : render_line (totals_line p c) = Some (totals_text p c).
Proof. unfold totals_text. simpl. by rewrite append_nil_r. Qed.

(** After a look at the clock, a first line, the totals, further lines. *)
Lemma written_totals now first p c rest :
  formats first → Forall formats rest →
  ∃ text, stdout_text (Ev PerfCounter now :: prints (first :: totals_line p c :: rest)) = Some text ∧
    tells_totals text p c.
Proof.
  intros [s1 H1]%formats_line [s2 H2]%prints_format.
  eexists. split.
  { cbn [prints fmap list_fmap stdout_text printed_by ev_cmd]. unfold prints in H2.
    rewrite H1, totals_line_text, H2. reflexivity. }
  exists s1, (totals_text p c), s2. split; [|apply totals_text_parses].
  cbn [mbind option_bind]. rewrite append_nil_l, !append_assoc. reflexivity.
Qed.

Section properties.
Context (sql_literal : string → string) (fuel : nat).

(** C33. What the programs write: every line of a run that returns can be
    formatted (no specification raises), so the output is a text; in
    sustained_bench and filtered_bench, and in multi_queue_bench for the sums
    over the queues, it holds a line from which the scripts' parser of
    key=value output reads exactly the totals main collected and their
    difference as the final backlog. *)
Theorem mains_write_totals :
  (∀ a r s, 0 ≤ SustainedBench.producers a → 0 ≤ SustainedBench.consumers a →
     srun (SustainedBench.main sql_literal fuel a, sys0 (SustainedBench.n_workers a)) (MRet r, s) →
     ∃ text p c, stdout_text (calls s) = Some text ∧ tells_totals text p c ∧
       SustainedBench.totals a (shm s) = Some (p, c)) ∧
  (∀ a s, 0 ≤ FilteredBench.producers a → 0 ≤ FilteredBench.consumers a →
     srun (FilteredBench.main sql_literal fuel a, sys0 (FilteredBench.n_workers a)) (MRet (Ok ()), s) →
     ∃ text p c, stdout_text (calls s) = Some text ∧ tells_totals text p c ∧
       FilteredBench.totals a (shm s) = Some (p, c)) ∧
  (∀ a r s, 0 ≤ MultiQueueBench.k_queues a →
     srun (MultiQueueBench.main sql_literal fuel a, sys0 (MultiQueueBench.n_workers a)) (MRet r, s) →
     ∃ text tp tc, stdout_text (calls s) = Some text ∧
       tells_totals text (MultiQueueBench.sum_values tp) (MultiQueueBench.sum_values tc) ∧
       MultiQueueBench.totals a (shm s) = Some (tp, tc)) ∧
  (∀ a r s,
     srun (ParallelBench.main sql_literal a, sys0 (Z.to_nat (ParallelBench.connections a))) (MRet r, s) →
     is_Some (stdout_text (calls s))).
Proof.
  split; [|split; [|split]].
  - intros a r s Hp Hc Hr.
    destruct (mwp_returned _ _ _ _ _ _ (sustained_main sql_literal fuel a Hp Hc) Hr)
      as (_ & _ & now & lines & _ & -> & Hrep).
    unfold SustainedBench.report in Hrep. destruct (SustainedBench.totals a (shm s)) as [[p c]|]; [|done].
    injection Hrep as <-. pose proof (sustained_lines_format a (sustained_timeline a now) p c (samples (shm s))) as Hf.
    edestruct (written_totals now) as (text & Ht & Hl); [| |exists text, p, c; split; [exact Ht|done]].
    + apply Forall_inv in Hf. exact Hf.
    + do 2 apply Forall_inv_tail in Hf. exact Hf.
  - intros a s Hp Hc Hr.
    pose proof (mwp_returned _ _ _ _ _ _ (filtered_main sql_literal fuel a Hp Hc) Hr) as H.
    unfold filtered_done in H. destruct (FilteredBench.make_filters a) as [[exprs values]|e]; [|by destruct H].
    destruct H as (_ & _ & now & lines & _ & -> & Hrep).
    unfold FilteredBench.report in Hrep. destruct (FilteredBench.totals a (shm s)) as [[p c]|]; [|done].
    injection Hrep as <-.
    pose proof (filtered_lines_format a exprs (filtered_timeline a now) p c (FilteredBench.content_checked a)
      (value (shm s) FilteredBench.verify_mismatch_counter) (samples (shm s))) as Hf.
    edestruct (written_totals now) as (text & Ht & Hl); [| |exists text, p, c; split; [exact Ht|done]].
    + apply Forall_inv in Hf. exact Hf.
    + do 2 apply Forall_inv_tail in Hf. exact Hf.
  - intros a r s Hk Hr.
    destruct (mwp_returned _ _ _ _ _ _ (multi_main sql_literal fuel a Hk) Hr)
      as (_ & _ & now & lines & _ & -> & Hrep).
    unfold MultiQueueBench.report in Hrep. destruct (MultiQueueBench.totals a (shm s)) as [[tp tc]|]; [|done].
    simpl in Hrep. destruct (MultiQueueBench.window_lines _ _ _) as [wl|] eqn:Hw; [|done].
    injection Hrep as <-. pose proof (multi_lines_format _ _ tp tc _ _ Hw) as Hf.
    edestruct (written_totals now) as (text & Ht & Hl); [| |exists text, tp, tc; split; [exact Ht|done]].
    + apply Forall_inv in Hf. exact Hf.
    + do 2 apply Forall_inv_tail in Hf. exact Hf.
  - intros a r s Hr.
    pose proof (mwp_returned _ _ _ _ _ _ (parallel_main sql_literal a) Hr) as H.
    unfold parallel_done in H. destruct (ParallelBench.per_worker a) as [count|e].
    2:{ destruct H as (_ & _ & ->). by eexists. }
    destruct H as (_ & now & rs & _ & _ & Hend).
    destruct (ParallelBench.summary a count rs) as [line|e] eqn:Hsum; destruct Hend as [_ ->]; [|by eexists].
    apply formats_stdout. constructor; [done|]. apply Forall_fmap. constructor; [|constructor].
    by eapply parallel_line_formats.
Qed.
End properties.

Lemma mains_write_totals_witness :
  ∃ text p c,
    stdout_text (calls (outcome MainsExample.sustained MainsExample.sustained_good).2) = Some text ∧
    tells_totals text p c ∧
    SustainedBench.totals SustainedBench.Example.a
      (shm (outcome MainsExample.sustained MainsExample.sustained_good).2) = Some (p, c).
Proof.
  apply (proj1 (mains_write_totals SustainedBench.Example.quote 3) SustainedBench.Example.a (Ok ()));
    [vm_compute; discriminate|vm_compute; discriminate|].
  apply outcome_returned; vm_compute; reflexivity.
Defined.

(** The whole output of the example's run. *)
Example sustained_output :
  stdout_text (calls (outcome MainsExample.sustained MainsExample.sustained_good).2)
  = Some ("producers=1 consumers=1 duration=9.0s ramp_up=1.0s drain_tail=0.0s" +:+ newline
          +:+ "total_published=3 total_consumed=2 final_backlog=1" +:+ newline
          +:+ "backlog curve (t_since_start, published_so_far, consumed_so_far, backlog):" +:+ newline
          +:+ "  t=   3.0s  published=        3 consumed=        2 backlog=      1" +:+ newline
          +:+ newline
          +:+ "not enough samples in steady-state window - increase --duration-secs or decrease --sample-interval-secs"
          +:+ newline).
Proof. vm_compute. reflexivity. Qed.
