(* ===== verification/JsBench.v ===== *)
(** * bench/js_bench.py

    Publishes rows to a JetStream stream with no consumer attached, checks
    that they were persisted, then times a pull consumer draining them, and
    compares what it dumped with the reference rows (JsVerify.v). *)
From Stdlib Require Import Ascii.
From S2P Require Import Prelude PyFloat PyStr PyNum PyRepr Json JsonRead PyM Pool Observe JsVerify Report.

(** The parsed command line. *)
Record args := Args {
  dsn : string;
  sql : string;
  limit : Z;
  subject_arg : option string;
  stream_arg : option string;
  nats_tool : string;
  drain_timeout_secs : Z;
}.

(** ** Requests to nats_tool *)

(** [re.match(r"^\[\d{4}-\d{2}-\d{2}", line)]: a log line's date. *)
Definition is_log_line (line : string) : bool :=
  match line with
  | String "["%char (String a (String b (String c (String d (String "-"%char
      (String e (String f (String "-"%char (String g (String h _)))))))))) =>
      forallb is_digit [a; b; c; d; e; f; g; h]
  | _ => false
  end.

(** [s.partition(sep)]: [None] when there is no separator. *)
Fixpoint partition (sep s : string) : option (string * string) :=
  match strip_prefix sep s with
  | Some r => Some (EmptyString, r)
  | None =>
      match s with
      | EmptyString => None
      | String c s' => '(a, b) ← partition sep s'; Some (String c a, b)
      end
  end.

(** The first line that is no log line and ends in JSON after a bracket. *)
Fixpoint find_reply (lines : list string) : option json :=
  match lines with
  | [] => None
  | line :: lines' =>
      if is_log_line line then find_reply lines'
      else match partition "] " line with
           | None => find_reply lines'
           | Some (_, body) =>
               match loads body with Some v => Some v | None => find_reply lines' end
           end
  end.

Definition js_req (nats_tool subject : string) (payload_obj : json) : Py json :=
  proc <- Do (RunProc [nats_tool; "req"; "--topic"; subject; "--data"; dumps payload_obj] 15) Ret;;
  match find_reply (splitlines (proc_stdout proc)) with
  | Some v => ret v
  | None =>
      raise (RuntimeError ("no parseable reply for " +:+ str_repr subject +:+ ": "
                             +:+ str_repr (str_take 300 (proc_stdout proc))))
  end.

(** ** Replies *)

(** ["error" in resp] *)
Definition has_error (resp : json) : result bool :=
  match resp with
  | JsDict items => Ok (match dict_get "error" items with Some _ => true | None => false end)
  | JsList l => Ok (existsb (fun v => json_same v (JsStr "error")) l)
  | JsStr s => Ok (contains "error" s)
  | _ => Err TypeError
  end.

(** [resp["error"]] *)
Definition error_of (resp : json) : result json :=
  match resp with
  | JsDict items => match dict_get "error" items with Some v => Ok v | None => Err KeyError end
  | _ => Err TypeError
  end.

(** [d.get(k, default)] *)
Definition get_or (d : json) (k : string) (default : json) : result json :=
  match d with
  | JsDict items => Ok (match dict_get k items with Some v => v | None => default end)
  | _ => Err AttributeError
  end.

(** [v == n] for an int [n]. *)
Definition equals_int (v : json) (n : Z) : bool :=
  match v with
  | JsInt z => z =? n
  | JsFloat x => match whole x with Some z => z =? n | None => false end
  | JsBool b => (if b then 1 else 0) =? n
  | _ => false
  end.

(** ** Publishing *)

(** A column of a row, as the value psycopg returns. *)
Definition column_json (v : pval) : json :=
  match v with
  | VNone => JsNull
  | VInt z => JsInt z
  | VStr s => JsStr s
  | VFloat x => JsFloat x
  | VJson j => j
  end.

(** [for _ignored, nbytes, ref in cur], on the totals so far; [octet_length]
    is an integer column. *)
Fixpoint collect_rows (rows : list (list pval)) (total_bytes : Z) (reference : list json)
    (row_count : Z) : result (Z * list json * Z) :=
  match rows with
  | [] => Ok (total_bytes, reference, row_count)
  | [_; nbytes; ref] :: rows' =>
      match nbytes with
      | VInt n => collect_rows rows' (total_bytes + n) (reference ++ [column_json ref]) (row_count + 1)
      | _ => Err TypeError
      end
  | _ :: _ => Err ValueError
  end.

(** What the publishing pass leaves. *)
Record published := Published {
  row_count : Z;
  avg_bytes : float;
  publish_secs : float;
  reference : list json;
}.

Section js_bench.
(** [psycopg.sql.Literal(v)], composed into a statement. *)
Context (literal : pval → string).

Definition publish_sql (a : args) (subject : string) : string :=
  "SELECT nats_publish_binary_stream_async(" +:+ literal (VStr subject) +:+ ", row_to_msgpack(t.*)), "
    +:+ "octet_length(row_to_msgpack(t.*)), to_jsonb(t.*) "
    +:+ "FROM (" +:+ sql a +:+ " LIMIT " +:+ literal (VInt (limit a)) +:+ ") t".

(** The connection's block: publish, flush, report. *)
Definition publish_rows (a : args) (subject : string) : Py published :=
  with_connection (dsn a) (
    print [FS "== publishing up to "; FZ (limit a); FS " rows =="];;
    t0 <- monotonic;;
    execute (publish_sql a subject) [];;
    rows <- fetchall;;
    totals <- lift (collect_rows rows 0 [] 0);;
    let '(total_bytes, reference, row_count) := totals in
    execute "SELECT nats_publish_stream_flush()" [];;
    flushed <- fetch_int;;
    t1 <- monotonic;;
    let publish_secs := fsub t1 t0 in
    avg_bytes <- (if row_count =? 0 then ret fzero
                  else fdiv (of_int total_bytes) (of_int row_count));;
    rate <- fdiv (of_int row_count) publish_secs;;
    print [FS "  published "; FZ row_count; FS " row(s), flushed "; FZ flushed;
           FS " ack(s) (remainder past the 3000-message auto-drain window) in ";
           FF ".3f" publish_secs; FS "s ("; FF ",.0f" rate; FS "/s, avg "; FF ".0f" avg_bytes; FS "B)"];;
    ret (Published row_count avg_bytes publish_secs reference)).

(** ** Draining *)

(** [f.read().count(newline)], 0 while there is no dump file. *)
Fixpoint count_newlines (s : string) : Z :=
  match s with
  | EmptyString => 0
  | String c s' => (if (code c =? 10)%N then 1 else 0) + count_newlines s'
  end.

Definition dumped_lines (dump_path : string) : Py Z :=
  try_except (text <- Do (ReadFile dump_path) Ret;; ret (count_newlines text))
    (fun e => match e with FileNotFoundError => ret 0 | _ => raise e end).

(** Polls until the lines are there or the deadline has passed; [fuel] bounds
    the tests of the clock. *)
Fixpoint drain_loop (fuel : nat) (dump_path : string) (row_count : Z) (deadline : float)
    (last_count : Z) : Py Z :=
  match fuel with
  | O => OutOfFuel
  | S fuel' =>
      now <- monotonic;;
      if flt now deadline then
        n <- dumped_lines dump_path;;
        if row_count <=? n then ret n
        else sleep (lit 1 100);; drain_loop fuel' dump_path row_count deadline n
      else ret last_count
  end.

(** [proc.terminate()], then up to five seconds before the kill. *)
Definition stop_consumer (proc : Z) : Py unit :=
  Do (Terminate proc) Ret;;
  try_except (Do (Wait proc 5) Ret;; ret ())
    (fun e => match e with
              | TimeoutExpired => Do (Kill proc) Ret;; Do (Wait proc 5) Ret;; ret ()
              | _ => raise e
              end).

(** The consumer, logging to a file that is closed once it is started. *)
Definition start_consumer (argv : list string) (log_path : string) : Py Z :=
  log <- Do (OpenFile log_path "w") Ret;;
  r <- try_except (p <- Do (Popen argv (Some log)) Ret;; ret (Ok p)) (fun e => ret (Err e));;
  call (CloseFile log);;
  lift r.

Definition consumer_argv (a : args) (stream consumer subject dump_path : string) (row_count : Z)
  : list string :=
  [nats_tool a; "--mode"; "js_grub"; "--stream"; stream; "--consumer"; consumer;
   "--topic"; subject; "--auto_ack"; "--max_msgs"; py_str row_count;
   "--dump"; dump_path; "--format"; "msgpack"; "--json"].

(** The lines counted and the seconds it took. *)
Definition drain (fuel : nat) (a : args) (argv : list string) (log_path dump_path : string)
    (row_count : Z) : Py (Z * float) :=
  proc <- start_consumer argv log_path;;
  t0 <- monotonic;;
  last_count <- drain_loop fuel dump_path row_count (fadd t0 (of_int (drain_timeout_secs a))) 0;;
  t1 <- monotonic;;
  stop_consumer proc;;
  ret (last_count, fsub t1 t0).

(** [x/secs] if [secs > 0], between the pieces of a line; else the whole line
    is [otherwise]. *)
Definition print_rate (before : list frag) (x : Z) (secs : float) (after otherwise : list frag)
  : Py unit :=
  if fgt secs fzero then
    rate <- fdiv (of_int x) secs;; print (before ++ [FF ",.0f" rate] ++ after)
  else print otherwise.

(** ** Verification *)

(** [[json.loads(line) for line in f if line.strip()]]; a JSONDecodeError is a
    ValueError. *)
Definition parse_dump (text : string) : result (list json) :=
  each (fun line => match loads line with Some v => Ok v | None => Err ValueError end)
    (filter (fun line => strip line ≠ EmptyString) (readlines text)).

Definition print_differences (ds rs : list string) : Py unit :=
  for_ (shown_pairs ds rs) (fun '(x, y) =>
    print [FS "  DUMPED-ONLY: "; FS x];; print [FS "  REF-ONLY:    "; FS y]).

(** Reads the dump, compares, prints; the verdict. *)
Definition check_content (dump_path : string) (reference : list json) : Py string :=
  text <- Do (ReadFile dump_path) Ret;;
  dumped <- lift (parse_dump text);;
  ds <- lift (dumped_set dumped);;
  rs <- lift (ref_set reference);;
  let v := verify ds rs in
  print [FS "  content verify: "; FS v];;
  (if bool_decide (v = "PASS") then ret () else print_differences ds rs);;
  ret v.

(** [os.remove(p)], if it is there. *)
Definition remove_file (p : string) : Py unit :=
  try_except (Do (Remove p) Ret)
    (fun e => match e with FileNotFoundError => ret () | _ => raise e end).

(** ** [main] *)

(** [arg or default]: an empty argument counts as none. *)
Definition or_default (arg : option string) (default : string) : string :=
  match arg with Some (String c s) => String c s | _ => default end.

Definition upper (c : ascii) : ascii :=
  let n := nat_of_ascii c in
  if ((97 <=? n) && (n <=? 122))%nat then ascii_of_nat (n - 32) else c.

Fixpoint upper_string (s : string) : string :=
  match s with EmptyString => EmptyString | String c s' => String (upper c) (upper_string s') end.

Definition stream_config (stream subject : string) : json :=
  JsDict [("name", JsStr stream); ("subjects", JsList [JsStr subject]);
          ("retention", JsStr "limits"); ("storage", JsStr "memory");
          ("max_msgs", JsInt (-1)); ("max_bytes", JsInt (-1)); ("max_age", JsInt 0);
          ("max_msg_size", JsInt (-1)); ("discard", JsStr "old"); ("num_replicas", JsInt 1)].

Definition create_stream (a : args) (stream subject : string) : Py unit :=
  print [FS "== creating stream "; FR stream; FS " (memory storage) for subject "; FR subject; FS " =="];;
  resp <- js_req (nats_tool a) ("$JS.API.STREAM.CREATE." +:+ stream) (stream_config stream subject);;
  failed <- lift (has_error resp);;
  (if failed : bool then
     err <- lift (error_of resp);;
     raise (RuntimeError ("stream create failed: " +:+ json_str err))
   else ret ());;
  print [FS "  stream ready"].

(** The number of messages the stream reports must be the number published. *)
Definition check_persisted (a : args) (stream : string) (row_count : Z) : Py unit :=
  info <- js_req (nats_tool a) ("$JS.API.STREAM.INFO." +:+ stream) (JsDict []);;
  state <- lift (get_or info "state" (JsDict []));;
  persisted <- lift (get_or state "messages" (JsInt (-1)));;
  print [FS "== stream state after publish: "; FS (json_str persisted); FS " message(s) persisted =="];;
  if equals_int persisted row_count then ret ()
  else raise (RuntimeError ("persisted count " +:+ json_str persisted +:+ " != published count "
         +:+ py_str row_count +:+ " - not a valid backlog to drain, aborting")).

Definition main (fuel : nat) (a : args) : Py unit :=
  hex <- call Uuid4Hex;;
  let tag := str_take 8 hex in
  let subject := or_default (subject_arg a) ("jsbench." +:+ tag) in
  let stream := or_default (stream_arg a) ("JSBENCH_" +:+ upper_string tag) in
  create_stream a stream subject;;
  pub <- publish_rows a subject;;
  check_persisted a stream (row_count pub);;
  let dump_path := "/tmp/js_bench_dump_" +:+ tag +:+ ".jsonl" in
  let log_path := "/tmp/js_bench_grub_" +:+ tag +:+ ".log" in
  print [FS "== draining "; FZ (row_count pub); FS " messages via js_grub pull consumer =="];;
  drained <- drain fuel a (consumer_argv a stream ("drain_" +:+ tag) subject dump_path (row_count pub))
               log_path dump_path (row_count pub);;
  let '(last_count, drain_secs) := drained in
  print_rate [FS "  drained "; FZ last_count; FS "/"; FZ (row_count pub); FS " in ";
              FF ".4f" drain_secs; FS "s ("]
    last_count drain_secs [FS "/s)"] [FS "  instant"];;
  v <- check_content dump_path (reference pub);;
  js_req (nats_tool a) ("$JS.API.STREAM.DELETE." +:+ stream) (JsDict []);;
  for_ [dump_path; log_path] remove_file;;
  print [];;
  print [FS "=== SUMMARY ==="];;
  print [FS "rows: "; FZ (row_count pub); FS "  avg_bytes: "; FF ".0f" (avg_bytes pub)];;
  rate <- fdiv (of_int (row_count pub)) (publish_secs pub);;
  print [FS "publish_rate: "; FF ",.0f" rate; FS "/s"];;
  print_rate [FS "drain_rate: "] last_count drain_secs [FS "/s"] [FS "drain_rate: instant"];;
  print [FS "verify: "; FS v].
End js_bench.

(** ** What a completed run has done *)

(** The commands a trace has started with Popen. *)
Definition launch_of (e : event) : list (list string) :=
  match ev_cmd e with Popen argv _ => [argv] | _ => [] end.

Definition launches (t : trace) : list (list string) := t ≫= launch_of.

Lemma launches_app t1 t2 : launches (t1 ++ t2) = launches t1 ++ launches t2.
Proof. unfold launches. by rewrite bind_app. Qed.

Definition req_argv (nats_tool subject : string) (payload_obj : json) : list string :=
  [nats_tool; "req"; "--topic"; subject; "--data"; dumps payload_obj].

Lemma js_req_ok nt s p t v :
  exec (js_req nt s p) t (Some (Ok v)) →
  ∃ proc, t = [Ev (RunProc (req_argv nt s p) 15) (Ok proc)] ∧
    find_reply (splitlines (proc_stdout proc)) = Some v.
Proof.
  unfold js_req. intros He. first_call He t H1. apply exec_do_ret in H1 as ->.
  exists x. destruct (find_reply _) as [w|]; [|by destruct He].
  destruct He as [-> [= ->]]. done.
Qed.

Lemma create_stream_ok a stream subject t :
  exec (create_stream a stream subject) t (Some (Ok ())) → launches t = [].
Proof.
  unfold create_stream. intros He.
  first_call He t H1. apply exec_call_ok in H1 as ->.
  first_call He t H1. apply js_req_ok in H1 as (proc & -> & _).
  first_call He t H1. apply exec_lift_ok in H1 as [-> _].
  first_call He t H1. apply exec_call_ok in He as ->.
  destruct x1 as [|]; [|by destruct H1 as [-> _]].
  first_call H1 t H2. by destruct H1.
Qed.

Lemma average_silent (b : bool) x y t r :
  exec (if b then ret fzero else fdiv x y) t r → t = [].
Proof. destruct b; [by intros [-> _]|apply fdiv_silent]. Qed.

(** The rows fetched, and what they were counted to. *)
Lemma publish_rows_ok literal a subject t pub :
  exec (publish_rows literal a subject) t (Some (Ok pub)) →
  launches t = [] ∧ ∃ rows total_bytes,
    Ev Fetchall (Ok rows) ∈ t ∧
    collect_rows rows 0 [] 0 = Ok (total_bytes, reference pub, row_count pub).
Proof.
  unfold publish_rows, with_connection. intros (x & t0 & -> & He).
  destruct x as [[]|e]; [|by destruct He].
  apply exec_bindp in He as [(r & t1 & t2 & -> & Hb & He)|[_ ?]]; [|done].
  destruct He as (y & t3 & -> & -> & [= <-]). destruct y.
  first_call Hb t H1. apply exec_call_ok in H1 as ->.
  first_call Hb t H1. apply exec_call_ok in H1 as ->.
  first_call Hb t H1. apply exec_do_ret in H1 as ->.
  first_call Hb t H1. apply exec_do_ret in H1 as ->. rename x2 into rows.
  first_call Hb t H1. apply exec_lift_ok in H1 as [-> Hrows]. destruct x2 as [[total refs] n].
  first_call Hb t H1. apply exec_do_ret in H1 as ->.
  first_call Hb t H1. apply fetch_int_ok in H1 as [row ->].
  first_call Hb t H1. apply exec_call_ok in H1 as ->.
  first_call Hb t H1. apply average_silent in H1 as ->.
  first_call Hb t H1. apply fdiv_silent in H1 as ->.
  first_call Hb t H4. apply exec_call_ok in H4 as ->. destruct Hb as [-> [= ->]].
  split; [done|]. exists rows, total. split; [|done]. set_solver.
Qed.

(** What a stream's description says of its messages. *)
Definition persisted_in (info : json) (n : Z) : Prop :=
  ∃ state persisted, get_or info "state" (JsDict []) = Ok state ∧
    get_or state "messages" (JsInt (-1)) = Ok persisted ∧ equals_int persisted n = true.

Definition info_argv (a : args) (stream : string) : list string :=
  req_argv (nats_tool a) ("$JS.API.STREAM.INFO." +:+ stream) (JsDict []).

Definition delete_argv (a : args) (stream : string) : list string :=
  req_argv (nats_tool a) ("$JS.API.STREAM.DELETE." +:+ stream) (JsDict []).

Lemma check_persisted_ok a stream n t :
  exec (check_persisted a stream n) t (Some (Ok ())) →
  ∃ proc line info, t = [Ev (RunProc (info_argv a stream) 15) (Ok proc); Ev (Print false line) ()] ∧
    find_reply (splitlines (proc_stdout proc)) = Some info ∧ persisted_in info n.
Proof.
  unfold check_persisted. intros He.
  first_call He t H1. apply js_req_ok in H1 as (proc & -> & Hinfo).
  first_call He t H1. apply exec_lift_ok in H1 as [-> Hs].
  first_call He t H1. apply exec_lift_ok in H1 as [-> Hp].
  first_call He t H1. apply exec_call_ok in H1 as ->.
  destruct (equals_int x1 n) eqn:En; [|by destruct He].
  destruct He as [-> _], x2. exists proc. eexists. exists x. split; [reflexivity|]. split; [exact Hinfo|]. by exists x0, x1.
Qed.

Lemma check_content_ok dump_path refs t v :
  exec (check_content dump_path refs) t (Some (Ok v)) →
  ∃ text after dumped ds rs, t = Ev (ReadFile dump_path) (Ok text) :: after ∧
    parse_dump text = Ok dumped ∧ dumped_set dumped = Ok ds ∧ ref_set refs = Ok rs ∧
    v = verify ds rs.
Proof.
  unfold check_content. intros He.
  first_call He t H1. apply exec_do_ret in H1 as ->.
  first_call He t H1. apply exec_lift_ok in H1 as [-> Hd].
  first_call He t H1. apply exec_lift_ok in H1 as [-> Hds].
  first_call He t H1. apply exec_lift_ok in H1 as [-> Hrs].
  first_call He t H1. first_call He t H2. destruct He as [_ [= ->]].
  exists x. eexists. exists x0, x1, x2. by rewrite app_nil_l.
Qed.

(** The lines a look at the dump file counts; no file, no lines. *)
Definition lines_in (r : result string) : Z :=
  match r with Ok text => count_newlines text | Err _ => 0 end.

(** The calls of a drain loop that has ended: its last is a look at the dump
    that found enough lines, or a reading of the clock past the deadline. *)
Definition drain_over (dump_path : string) (row_count : Z) (deadline : float) (t : trace) : Prop :=
  (∃ t' r, t = t' ++ [Ev (ReadFile dump_path) r] ∧ row_count ≤ lines_in r) ∨
  (∃ t' now, t = t' ++ [Ev Monotonic now] ∧ flt now deadline = false).

Lemma drain_over_app p n d t1 t2 : drain_over p n d t2 → drain_over p n d (t1 ++ t2).
Proof.
  intros [(t' & r & -> & H)|(t' & now & -> & H)]; [left|right];
    exists (t1 ++ t'); eexists; by rewrite <-app_assoc.
Qed.

Lemma dumped_lines_ok p t n :
  exec (dumped_lines p) t (Some (Ok n)) → ∃ r, t = [Ev (ReadFile p) r] ∧ n = lines_in r.
Proof.
  intros (r & t' & -> & He). exists r. destruct r as [s|e]; simpl in He.
  - by destruct He as [-> [= ->]].
  - destruct e; by destruct He as [-> [= ->]].
Qed.

Lemma drain_loop_ok fuel p n deadline last t m :
  exec (drain_loop fuel p n deadline last) t (Some (Ok m)) → drain_over p n deadline t.
Proof.
  revert last t. induction fuel as [|fuel IH]; intros last t He; [by destruct He|]. cbn [drain_loop] in He.
  first_call He t H1. apply exec_call_ok in H1 as ->. destruct (flt x deadline) eqn:Hlt.
  - apply drain_over_app. first_call He t H1. apply dumped_lines_ok in H1 as (r & -> & ->).
    destruct (Z.leb_spec n (lines_in r)).
    + destruct He as [-> _]. left. by exists [], r.
    + apply drain_over_app. first_call He t H2. by eapply drain_over_app, IH.
  - destruct He as [-> _]. right. by exists [], x.
Qed.

(** The consumer has been sent SIGTERM and has exited, if need be after a
    SIGKILL. *)
Definition consumer_stopped (proc : Z) (t : trace) : Prop :=
  ∃ code, t = [Ev (Terminate proc) (Ok ()); Ev (Wait proc 5) (Ok code)] ∨
          t = [Ev (Terminate proc) (Ok ()); Ev (Wait proc 5) (Err TimeoutExpired);
               Ev (Kill proc) (Ok ()); Ev (Wait proc 5) (Ok code)].

Lemma stop_consumer_ok proc t :
  exec (stop_consumer proc) t (Some (Ok ())) → consumer_stopped proc t.
Proof.
  unfold stop_consumer. intros He. first_call He t H1. apply exec_do_ret in H1 as ->. destruct x.
  destruct He as ([code|e] & t' & -> & He); simpl in He.
  - destruct He as [-> _]. exists code. by left.
  - destruct e; try by destruct He. destruct He as ([[]|e] & t1 & -> & He); simpl in He; [|by destruct He].
    destruct He as ([code|e] & t2 & -> & He); [|by destruct He]. destruct He as [-> _].
    exists code. by right.
Qed.

Lemma start_consumer_ok argv path t proc :
  exec (start_consumer argv path) t (Some (Ok proc)) →
  ∃ log, t = [Ev (OpenFile path "w") (Ok log); Ev (Popen argv (Some log)) (Ok proc); Ev (CloseFile log) ()].
Proof.
  unfold start_consumer. intros He. first_call He t H1. apply exec_do_ret in H1 as ->.
  exists x. first_call He t H1. destruct H1 as ([p|e] & t' & -> & H1); simpl in H1.
  - destruct H1 as [-> [= ->]]. first_call He t H2. apply exec_call_ok in H2 as ->.
    destruct x0. by destruct He as [-> [= ->]].
  - destruct H1 as [-> [= ->]]. first_call He t H2. by destruct He.
Qed.

(** A drain: the consumer is started, the loop runs to its end, the consumer
    is stopped. *)
Lemma drain_ok fuel a argv log_path dump_path n t r :
  exec (drain fuel a argv log_path dump_path n) t (Some (Ok r)) →
  ∃ log proc t0 polling stopping,
    in_order [[Ev (Popen argv (Some log)) (Ok proc)]; Ev Monotonic t0 :: polling; stopping] t ∧
    drain_over dump_path n (fadd t0 (of_int (drain_timeout_secs a))) polling ∧
    consumer_stopped proc stopping.
Proof.
  unfold drain. intros He. first_call He t H1. apply start_consumer_ok in H1 as (log & ->).
  first_call He t H1. apply exec_call_ok in H1 as ->.
  first_call He t H1. apply drain_loop_ok in H1.
  first_call He t H2. apply exec_call_ok in H2 as ->.
  first_call He t H2. destruct x3. apply stop_consumer_ok in H2. destruct He as [-> _].
exists log, x, x0, t, t0. split; [|done]. rewrite app_nil_r.
  exists [Ev (OpenFile log_path "w") (Ok log)],
    (Ev (CloseFile log) () :: Ev Monotonic x0 :: t ++ Ev Monotonic x2 :: t0). split; [done|].
  exists [Ev (CloseFile log) ()], (Ev Monotonic x2 :: t0). split; [done|].
  exists [Ev Monotonic x2], []. by rewrite app_nil_r.
Qed.

(** ** When the drain ends *)

Lemma completes_sleep x : completes (sleep x).
Proof. unfold sleep. by destruct (nonneg x). Qed.

Lemma completes_dumped_lines p : completes (dumped_lines p).
Proof. by intros [s|[]]. Qed.

Lemma drain_loop_out fuel p n deadline last t :
  exec (drain_loop fuel p n deadline last) t None → (fuel ≤ early deadline t)%nat.
Proof.
  revert last t. induction fuel as [|fuel IH]; intros last t He; [lia|]. cbn [drain_loop] in He.
  apply exec_bind_out in He as [He|(now & t1 & t2 & -> & H1 & He)]; [by destruct He as (? & ? & _ & _ & ?)|].
  apply exec_call_ok in H1 as ->. destruct (flt now deadline) eqn:Hlt; [|by destruct He].
  apply exec_bind_out in He as [He|(m & t1 & t3 & -> & H1 & He)];
    [by apply completes_exec in He; [|apply completes_dumped_lines]|].
  destruct (n <=? m); [by destruct He|].
  apply exec_bind_out in He as [He|([] & t4 & t5 & -> & H2 & He)];
    [by apply completes_exec in He; [|apply completes_sleep]|].
  apply IH in He. rewrite !early_app.
  assert (early deadline [Ev Monotonic now] = 1%nat) as ->; [|lia].
  unfold early. simpl. by rewrite filter_cons_True.
Qed.

#[local] Hint Resolve completes_sleep completes_dumped_lines : completes.
#[local] Hint Extern 1 (completes (print _)) => exact (fun _ => I) : completes.
#[local] Hint Extern 1 (completes monotonic) => exact (fun _ => I) : completes.
#[local] Hint Extern 1 (completes (execute _ _)) => exact (fun _ => I) : completes.
#[local] Hint Extern 1 (completes fetchall) => exact (fun _ => I) : completes.

Lemma completes_js_req nt s p : completes (js_req nt s p).
Proof. intros [proc|e]; simpl; [|done]. by destruct (find_reply _). Qed.

Lemma completes_create_stream a stream subject : completes (create_stream a stream subject).
Proof.
  unfold create_stream. apply completes_bind; [auto with completes|intros _].
  apply completes_bind; [apply completes_js_req|intros resp].
  apply completes_bind; [auto with completes|intros failed].
  apply completes_bind; [destruct failed|]; auto with completes.
Qed.

Lemma completes_publish_rows literal a subject : completes (publish_rows literal a subject).
Proof.
  unfold publish_rows. apply completes_with_connection.
  do 4 (apply completes_bind; [auto with completes|intros ?]).
  apply completes_bind; [auto with completes|intros [[total refs] n]].
  do 3 (apply completes_bind; [auto with completes|intros ?]).
  apply completes_bind; [destruct (n =? 0); auto with completes|auto with completes].
Qed.

Lemma completes_check_persisted a stream n : completes (check_persisted a stream n).
Proof.
  unfold check_persisted. apply completes_bind; [apply completes_js_req|intros info].
  do 3 (apply completes_bind; [auto with completes|intros ?]).
  destruct (equals_int _ _); auto with completes.
Qed.

Lemma completes_start_consumer argv log : completes (start_consumer argv log).
Proof. unfold start_consumer. auto 10 with completes. Qed.

Lemma completes_stop_consumer proc : completes (stop_consumer proc).
Proof.
  unfold stop_consumer. apply completes_bind; [by intros ?|intros _].
  apply completes_try; [auto with completes|]. intros []; auto 10 with completes.
Qed.

Lemma completes_print_rate before x secs after otherwise :
  completes (print_rate before x secs after otherwise).
Proof. unfold print_rate. destruct (fgt _ _); auto with completes. Qed.

Lemma completes_check_content p refs : completes (check_content p refs).
Proof.
  unfold check_content, print_differences. apply completes_bind; [by intros ?|intros text].
  do 4 (apply completes_bind; [auto with completes|intros ?]).
  apply completes_bind; [|auto with completes].
  destruct (bool_decide _); [auto with completes|]. apply completes_for. intros []. auto with completes.
Qed.

Lemma completes_remove_file p : completes (remove_file p).
Proof. unfold remove_file. apply completes_try; [by intros ?|]. by intros []. Qed.

#[local] Hint Resolve completes_js_req completes_create_stream completes_publish_rows
  completes_check_persisted completes_print_rate completes_check_content completes_remove_file
  completes_start_consumer completes_stop_consumer : completes.

(** Leaves a part that completes behind. *)
Ltac past_completed He :=
  let H := fresh "H" in let x := fresh "x" in
  apply exec_bind_out in He as [H|(x & ? & ? & -> & ? & He)];
  [exfalso; revert H; apply completes_exec; auto with completes|].

Lemma drain_out fuel a argv log dump n t :
  exec (drain fuel a argv log dump n) t None →
  ∃ t0, Ev Monotonic t0 ∈ t ∧ (fuel ≤ early (fadd t0 (of_int (drain_timeout_secs a))) t)%nat.
Proof.
  unfold drain. intros He. past_completed He.
  apply exec_bind_out in He as [He|(t0 & t1 & t2 & -> & H1 & He)];
    [by destruct He as (? & ? & _ & _ & ?)|].
  apply exec_call_ok in H1 as ->. exists t0.
  apply exec_bind_out in He as [He|(last & t3 & t4 & -> & H1 & He)].
  - apply drain_loop_out in He. rewrite !early_app. split; [set_solver|lia].
  - past_completed He. past_completed He. by destruct He.
Qed.

Lemma main_out literal fuel a t :
  exec (main literal fuel a) t None →
  ∃ t0, Ev Monotonic t0 ∈ t ∧ (fuel ≤ early (fadd t0 (of_int (drain_timeout_secs a))) t)%nat.
Proof.
  unfold main. intros He. past_completed He. cbv zeta in He.
  do 4 past_completed He.
  apply exec_bind_out in He as [He|([last secs] & ? & ? & -> & _ & He)].
  - apply drain_out in He as (t0 & Hin & Hle). exists t0. rewrite !early_app.
    split; [set_solver|lia].
  - exfalso. revert He. apply completes_exec. auto 30 with completes.
Qed.

Lemma parse_dump_well_formed text dumped :
  parse_dump text = Ok dumped → Forall (fun v => well_formed v = true) dumped.
Proof.
  unfold parse_dump. intros H%each_spec. induction H as [|line v lines dumped Hv _ IH]; constructor; [|done].
  destruct (loads line) as [v'|] eqn:E; [|done]. injection Hv as <-. by apply loads_well_formed in E.
Qed.

Section runs.
Context (literal : pval → string) (fuel : nat) (a : args).

(** The names of a run, from its tag. *)
Definition run_subject (tag : string) : string := or_default (subject_arg a) ("jsbench." +:+ tag).
Definition run_stream (tag : string) : string :=
  or_default (stream_arg a) ("JSBENCH_" +:+ upper_string tag).
Definition run_dump (tag : string) : string := "/tmp/js_bench_dump_" +:+ tag +:+ ".jsonl".

Definition run_consumer_argv (tag : string) (row_count : Z) : list string :=
  consumer_argv a (run_stream tag) ("drain_" +:+ tag) (run_subject tag) (run_dump tag) row_count.

(** C27. A completed run of js_bench has measured what it says.  The backlog
    is there before anything drains it: the consumer is started only after
    the stream has reported, while no consumer process had been launched yet,
    exactly as many messages as rows were fetched from the publishing query.
    The drain loop then runs until a look at the dump has found as many lines
    as rows or the clock is past the deadline; then the consumer is stopped,
    and has exited; and only then is the dump file read for the content check,
    whose verdict on that text and on the reference column of those same rows
    is on the last line: PASS exactly when the rows delivered are the rows
    published, as JSON (the reference column holds json values: distinct keys,
    floats that are doubles; the dumped ones are read by json.loads).  After
    that the stream's deletion has been requested, and answered; what the
    answer says is not looked at.  And a run ends, one way or the other: only
    the drain can go on, for as long as the clock stays before its
    deadline. *)
Theorem completed_run_is_sound :
  (∀ t, exec (main literal fuel a) t (Some (Ok ())) →
   ∃ tag before proc rest rows total_bytes pub info log consumer t0 polling stopping
     text answer reply dumped ds rs,
    t = before ++ [Ev (RunProc (info_argv a (run_stream tag)) 15) (Ok proc)] ++ rest
          ++ [Ev (Print false [FS "verify: "; FS (verify ds rs)]) ()] ∧
    launches before = [] ∧
    Ev Fetchall (Ok rows) ∈ before ∧
    collect_rows rows 0 [] 0 = Ok (total_bytes, reference pub, row_count pub) ∧
    find_reply (splitlines (proc_stdout proc)) = Some info ∧ persisted_in info (row_count pub) ∧
    in_order
      [[Ev (Popen (run_consumer_argv tag (row_count pub)) (Some log)) (Ok consumer)];
       Ev Monotonic t0 :: polling;
       stopping;
       [Ev (ReadFile (run_dump tag)) (Ok text)];
       [Ev (RunProc (delete_argv a (run_stream tag)) 15) (Ok answer)]] rest ∧
    drain_over (run_dump tag) (row_count pub) (fadd t0 (of_int (drain_timeout_secs a))) polling ∧
    consumer_stopped consumer stopping ∧
    find_reply (splitlines (proc_stdout answer)) = Some reply ∧
    parse_dump text = Ok dumped ∧ dumped_set dumped = Ok ds ∧ ref_set (reference pub) = Ok rs ∧
    (Forall (fun v => well_formed v = true) (reference pub) →
     verify ds rs = "PASS" ↔ same_rows dumped (reference pub))) ∧
  (∀ t, exec (main literal fuel a) t None →
   ∃ t0, Ev Monotonic t0 ∈ t ∧ (fuel ≤ early (fadd t0 (of_int (drain_timeout_secs a))) t)%nat).
Proof.
  split; [|intros t; apply main_out]. intros t. unfold main. intros He.
  first_call He t H1. apply exec_call_ok in H1 as ->. set (tag := str_take 8 x) in *.
  cbv zeta in He. fold (run_subject tag) (run_stream tag) in He.
  first_call He t H1. destruct x0. pose proof (create_stream_ok _ _ _ _ H1) as Hl1.
  first_call He t H2. rename x0 into pub. apply publish_rows_ok in H2 as (Hl2 & rows & total & Hin & Hrows).
  first_call He t H3. destruct x0. apply check_persisted_ok in H3 as (proc & line & info & -> & Hinfo & Hp).
  fold (run_dump tag) in He. fold (run_consumer_argv tag (row_count pub)) in He.
  first_call He t H4. apply exec_call_ok in H4 as ->.
  first_call He t H5. destruct x1 as [last_count drain_secs].
  apply drain_ok in H5 as (log & consumer & start & polling & stopping & Ho & Hover & Hstop).
  first_call He t H6.
  first_call He t H7. apply check_content_ok in H7 as (text & after & dumped & ds & rs & -> & Hd & Hds & Hrs & ->).
  first_call He t H8. apply js_req_ok in H8 as (answer & -> & Hreply).
  match type of He with exec _ ?tail _ =>
    assert (∃ ts, tail = ts ++ [Ev (Print false [FS "verify: "; FS (verify ds rs)]) ()]) as [ts ->]
  end.
  { do 7 (let H := fresh "H" in first_call He t H). apply exec_call_ok in He as ->.
    destruct x9. eexists. rewrite !app_assoc. reflexivity. }
  clear He. exists tag, ([Ev Uuid4Hex x] ++ t ++ t1), proc.
  exists ([Ev (Print false line) ()] ++ [Ev (Print false
    [FS "== draining "; FZ (row_count pub); FS " messages via js_grub pull consumer =="]) x0] ++ t0 ++ t2
    ++ Ev (ReadFile (run_dump tag)) (Ok text) :: after
    ++ Ev (RunProc (delete_argv a (run_stream tag)) 15) (Ok answer) :: ts).
  exists rows, total, pub, info, log, consumer, start, polling, stopping, text, answer, x2, dumped, ds, rs.
  split; [by list_simplifier|]. split; [by rewrite !launches_app, Hl1, Hl2|].
  split; [set_solver|]. do 3 (split; [done|]).
  split; [|do 6 (split; [done|]); intros Hw; apply pass_same_rows; [by eapply parse_dump_well_formed|done..]].
  do 2 apply in_order_app_l. apply (in_order_both [_; _; _] [_; _]); [done|].
  apply in_order_app_l. exists [], (after ++ Ev (RunProc (delete_argv a (run_stream tag)) 15) (Ok answer) :: ts).
  split; [done|]. by exists after, ts.
Qed.
End runs.

(** ** The properties at work: two rows, published, drained and compared *)

Module JsExample.
Definition quote (v : pval) : string :=
  match v with VStr s => "'" +:+ s +:+ "'" | VInt z => py_str z | _ => "NULL" end.

Definition a : args := Args "db" "SELECT * FROM t" 2 None None "nats_tool" 60.

(** A reply of nats_tool: log lines first, then the subject in brackets. *)
Definition replies (body : string) : answer :=
  ARun (Completed 0 ("[2026-01-05 10:00:00] [info] connected" +:+ newline
    +:+ "[_INBOX.1] " +:+ body +:+ newline) EmptyString).

Definition row (n : Z) (price : float) : json := JsDict [("id", JsInt n); ("price", JsFloat price)].

(** Dumped out of order, keys swapped, whole prices as floats. *)
Definition dump : string :=
  dumps (JsDict [("payload", JsDict [("price", JsFloat (of_int 11)); ("id", JsInt 2)])]) +:+ newline
  +:+ dumps (JsDict [("payload", row 1 (lit 5 2))]) +:+ newline.

Definition references : list json :=
  [row 1 (lit 5 2); JsDict [("id", JsInt 2); ("price", JsInt 11)]].

Definition answers : list answer :=
  [AStr "0123456789abcdef"; AUnit; replies (dumps (JsDict [("type", JsStr "ok")])); AUnit;
   AUnit; AUnit; AFloat (of_int 1); AUnit;
   ARows ((fun r => [VInt 0; VInt 40; VJson r]) <$> references);
   AUnit; ARow [VInt 2]; AFloat (of_int 2); AUnit; AUnit;
   replies (dumps (JsDict [("state", JsDict [("messages", JsInt 2)])])); AUnit; AUnit;
   AInt 5; AInt 77; AUnit; AFloat (of_int 10);
   AFloat (of_int 10); AErr FileNotFoundError; AUnit; AFloat (of_int 11); AStr dump; AFloat (of_int 12);
   AUnit; AInt 0; AUnit;
   AStr dump; AUnit; replies (dumps (JsDict [("success", JsBool true)]));
   AUnit; AUnit; AUnit; AUnit; AUnit; AUnit; AUnit; AUnit].
End JsExample.

Lemma completed_run_is_sound_witness :
  let t := replayed (main JsExample.quote 5 JsExample.a) JsExample.answers in
   ∃ tag before proc rest rows total_bytes pub info log consumer t0 polling stopping
     text answer reply dumped ds rs,
    t = before ++ [Ev (RunProc (info_argv JsExample.a (run_stream JsExample.a tag)) 15) (Ok proc)] ++ rest
          ++ [Ev (Print false [FS "verify: "; FS (verify ds rs)]) ()] ∧
    launches before = [] ∧
    Ev Fetchall (Ok rows) ∈ before ∧
    collect_rows rows 0 [] 0 = Ok (total_bytes, reference pub, row_count pub) ∧
    find_reply (splitlines (proc_stdout proc)) = Some info ∧ persisted_in info (row_count pub) ∧
    in_order
      [[Ev (Popen (run_consumer_argv JsExample.a tag (row_count pub)) (Some log)) (Ok consumer)];
       Ev Monotonic t0 :: polling;
       stopping;
       [Ev (ReadFile (run_dump tag)) (Ok text)];
       [Ev (RunProc (delete_argv JsExample.a (run_stream JsExample.a tag)) 15) (Ok answer)]] rest ∧
    drain_over (run_dump tag) (row_count pub) (fadd t0 (of_int (drain_timeout_secs JsExample.a))) polling ∧
    consumer_stopped consumer stopping ∧
    find_reply (splitlines (proc_stdout answer)) = Some reply ∧
    parse_dump text = Ok dumped ∧ dumped_set dumped = Ok ds ∧ ref_set (reference pub) = Ok rs ∧
    (Forall (fun v => well_formed v = true) (reference pub) →
     verify ds rs = "PASS" ↔ same_rows dumped (reference pub)).
Proof.
  apply (proj1 (completed_run_is_sound JsExample.quote 5 JsExample.a)).
  apply replayed_exec. vm_compute. reflexivity.
Defined.

(** That run passes. *)
Example js_example_passes :
  last (replayed (main JsExample.quote 5 JsExample.a) JsExample.answers)
  = Some (Ev (Print false [FS "verify: "; FS "PASS"]) ()).
Proof. vm_compute. reflexivity. Qed.

(** Python reads the line about the drain as [(... ) if drain_secs > 0 else
    "  instant"]: with a zero duration the counts are not printed at all. *)
Example instant_hides_the_counts last_count row_count :
  exec (print_rate [FS "  drained "; FZ last_count; FS "/"; FZ row_count; FS " in ";
                    FF ".4f" fzero; FS "s ("] last_count fzero [FS "/s)"] [FS "  instant"])
    [Ev (Print false [FS "  instant"]) ()] (Some (Ok ())).
Proof. exists (), []. done. Qed.
