(* ===== verification/BmqBench.v ===== *)
(** * bench/bmq_bench.py

    Publishes a table once, consumes it once, both timed in the database, and
    verifies a second pass by comparing groups of normalised rows in SQL. *)
From Stdlib Require Import Ascii.
From S2P Require Import Prelude PyFloat PyStr PyRepr Json PyM JsVerify Pool Workers Observe.

(** The parsed command line. *)
Record args := Args {
  dsn : string;
  sql : string;
  limit : Z;
  attr_columns : string;
  queue_uri : string;
  broker_uri : string;
  consume_timeout_ms : Z;
  batch_confirm : bool;
}.

(** An empty [--attr-columns] is an empty array, not an omitted argument. *)
Definition attr_array_sql (a : args) : string :=
  if bool_decide (strip (attr_columns a) = EmptyString) then "ARRAY[]::text[]"
  else
    let attr_cols := strip <$> split_on ","%char (attr_columns a) in
    "ARRAY[" +:+ join "," ((fun c => "'" +:+ c +:+ "'") <$> attr_cols) +:+ "]".

Definition batch_confirm_sql (a : args) : string := if batch_confirm a then "true" else "false".

Definition base_sql : string := "bmq_bench_source".

Definition source_sql (a : args) : string :=
  "CREATE TEMP TABLE bmq_bench_source AS " +:+ sql a +:+ " LIMIT " +:+ py_str (limit a).

Definition publish_sql (a : args) : string :=
  "SELECT count(*) FROM " +:+ "(SELECT bmq_publish_row(%s, t, " +:+ attr_array_sql a +:+ ") "
    +:+ "FROM " +:+ base_sql +:+ " t) s".

Definition size_sql : string :=
  "SELECT avg(octet_length(row_to_msgpack(t)))::float8, "
    +:+ "sum(octet_length(row_to_msgpack(t)))::float8 FROM " +:+ base_sql +:+ " t".

Definition consume_sql (a : args) : string :=
  "SELECT count(*) FROM bmq_consume(%s, NULL, %s, %s, " +:+ batch_confirm_sql a +:+ ")".

Definition verify_uri (a : args) : string := queue_uri a +:+ "_verify".

Definition verify_publish_sql (a : args) : string :=
  "SELECT bmq_publish_row(%s, t, " +:+ attr_array_sql a +:+ ") FROM " +:+ base_sql +:+ " t".

(** A row, its columns through the casts both sides agree on. *)
Definition norm_sql : string :=
  "jsonb_build_object("
  +:+ "'Time', j->>'Time', 'Exchange', j->>'Exchange', 'Symbol', j->>'Symbol', "
  +:+ "'Sale Condition', j->>'Sale Condition', "
  +:+ "'Trade Volume', (j->>'Trade Volume')::bigint, "
  +:+ "'Trade Price', (j->>'Trade Price')::float8, "
  +:+ "'Trade Stop Stock Indicator', j->>'Trade Stop Stock Indicator', "
  +:+ "'Trade Correction Indicator', j->>'Trade Correction Indicator', "
  +:+ "'Sequence Number', (j->>'Sequence Number')::bigint, "
  +:+ "'Trade Id', (j->>'Trade Id')::bigint, "
  +:+ "'Source of Trade', j->>'Source of Trade', "
  +:+ "'Trade Reporting Facility', j->>'Trade Reporting Facility', "
  +:+ "'Participant Timestamp', j->>'Participant Timestamp', "
  +:+ "'Trade Reporting Facility TRF Timestamp', j->>'Trade Reporting Facility TRF Timestamp', "
  +:+ "'Trade Through Exempt Indicator', (j->>'Trade Through Exempt Indicator')::bigint)".

Definition verify_sql (a : args) : string :=
  "WITH consumed AS ("
  +:+ "  SELECT msgpack_to_jsonb(bmq_consume) AS j"
  +:+ "  FROM bmq_consume(%s, NULL, %s, %s, " +:+ batch_confirm_sql a +:+ ")"
  +:+ "), reference AS ("
  +:+ "  SELECT to_jsonb(t) AS j FROM " +:+ base_sql +:+ " t"
  +:+ "), c_grp AS (SELECT " +:+ norm_sql +:+ " AS j, count(*) c FROM consumed GROUP BY 1),"
  +:+ "     r_grp AS (SELECT " +:+ norm_sql +:+ " AS j, count(*) c FROM reference GROUP BY 1)"
  +:+ "SELECT (SELECT count(*) FROM consumed), (SELECT count(*) FROM reference),"
  +:+ "       (SELECT count(*) FROM (SELECT * FROM c_grp EXCEPT SELECT * FROM r_grp) d1),"
  +:+ "       (SELECT count(*) FROM (SELECT * FROM r_grp EXCEPT SELECT * FROM c_grp) d2)".

(** [avg_bytes, total_bytes = cur.fetchone()]: the aggregates of an empty
    table are NULL. *)
Definition fetch_sizes : Py (option float * option float) :=
  row <- fetchone;;
  match row with
  | None => raise TypeError
  | Some [VFloat avg; VFloat total] => ret (Some avg, Some total)
  | Some [VNone; VNone] => ret (None, None)
  | Some [_; _] => raise TypeError
  | Some _ => raise ValueError
  end.

(** [c_count, r_count, d1, d2 = cur.fetchone()], four counts. *)
Definition fetch_counts : Py (Z * Z * Z * Z) :=
  row <- fetchone;;
  match row with
  | None => raise TypeError
  | Some [VInt c; VInt r; VInt d1; VInt d2] => ret (c, r, d1, d2)
  | Some [_; _; _; _] => raise TypeError
  | Some _ => raise ValueError
  end.

(** [f"{avg_bytes:.1f} ... {total_bytes/1e6:.1f}"] raises on None. *)
Definition size_line (sizes : option float * option float) : result (list frag) :=
  match sizes with
  | (Some avg, Some total) =>
      Ok [FS "avg payload bytes: "; FF ".1f" avg; FS "  total: ";
          FF ".1f" (fquot total (of_int 1000000)); FS "MB"]
  | _ => Err TypeError
  end.

(** [(c_count == r_count == args.limit) and d1 == 0 and d2 == 0] *)
Definition verify_ok (a : args) (c_count r_count d1 d2 : Z) : bool :=
  (c_count =? r_count) && (r_count =? limit a) && (d1 =? 0) && (d2 =? 0).

Definition verdict_line (a : args) (c_count r_count d1 d2 : Z) : list frag :=
  [FS "verify: consumed="; FZ c_count; FS " reference="; FZ r_count;
   FS " mismatched_groups="; FZ (d1 + d2); FS " -> ";
   FS (if verify_ok a c_count r_count d1 d2 then "PASS" else "FAIL")].

Section bmq_bench.
(** [psycopg.sql.Literal(s).as_string(cur)] *)
Context (sql_literal : string → string).

(** [t0 = perf_counter(); cur.execute(...); n = cur.fetchone()[0]] and the
    seconds between. *)
Definition timed_count (sql : string) (params : list pval) : Py (Z * float) :=
  t0 <- perf_counter;;
  execute sql params;;
  n <- fetch_int;;
  t1 <- perf_counter;;
  ret (n, fsub t1 t0).

Definition main (a : args) : Py unit :=
  with_connection (dsn a) (
    execute (set_broker_sql sql_literal (broker_uri a)) [];;
    execute (source_sql a) [];;
    pub <- timed_count (publish_sql a) [VStr (queue_uri a)];;
    let '(published, publish_secs) := pub in
    rate <- fdiv (of_int published) publish_secs;;
    print [FS "published "; FZ published; FS " row(s) in "; FF ".3f" publish_secs; FS "s (";
           FF ",.0f" rate; FS "/s)"];;
    execute size_sql [];;
    sizes <- fetch_sizes;;
    rcv <- timed_count (consume_sql a)
             [VStr (queue_uri a); VInt (limit a); VInt (consume_timeout_ms a)];;
    let '(received, receive_secs) := rcv in
    (if fgt receive_secs fzero then
       rate <- fdiv (of_int received) receive_secs;;
       print [FS "received "; FZ received; FS " row(s) in "; FF ".3f" receive_secs; FS "s (";
              FF ",.0f" rate; FS "/s)"]
     else print [FS "received "; FZ received; FS " row(s) instantly"]);;
    line <- lift (size_line sizes);;
    print line;;
    execute (verify_publish_sql a) [VStr (verify_uri a)];;
    execute (verify_sql a) [VStr (verify_uri a); VInt (limit a); VInt (consume_timeout_ms a)];;
    counts <- fetch_counts;;
    let '(c_count, r_count, d1, d2) := counts in
    print (verdict_line a c_count r_count d1 d2)).
End bmq_bench.

(** ** What the verifying query computes *)

(** [SELECT norm AS j, count( * ) c FROM rows GROUP BY 1] *)
Definition grouped (rows : list string) : list (string * Z) :=
  (fun j => (j, occurrences j rows)) <$> remove_dups rows.

(** [SELECT * FROM g EXCEPT SELECT * FROM h], of groups. *)
Definition except (g h : list (string * Z)) : list (string * Z) := filter (fun p => p ∉ h) g.

(** The four counts, for the normalised rows consumed and those of the
    reference. *)
Definition verify_counts (consumed reference : list string) : Z * Z * Z * Z :=
  (Z.of_nat (length consumed), Z.of_nat (length reference),
   Z.of_nat (length (except (grouped consumed) (grouped reference))),
   Z.of_nat (length (except (grouped reference) (grouped consumed)))).

Lemma elem_of_grouped j n rows : (j, n) ∈ grouped rows ↔ j ∈ rows ∧ n = occurrences j rows.
Proof.
  unfold grouped. rewrite list_elem_of_fmap. setoid_rewrite elem_of_remove_dups. naive_solver.
Qed.

Lemma except_nil g h : except g h = [] ↔ ∀ p, p ∈ g → p ∈ h.
Proof.
  unfold except. split.
  - intros E p Hp. destruct (decide (p ∈ h)) as [|Hn]; [done|].
    assert (p ∈ filter (fun p => p ∉ h) g) as Hin by by apply list_elem_of_filter.
    rewrite E in Hin. by apply elem_of_nil in Hin.
  - intros H. induction g as [|p g IH]; [done|].
    rewrite filter_cons_False; [|intros Hn; apply Hn, H; by left].
    apply IH. intros q Hq. apply H. by right.
Qed.

(** Equal groups, equal multisets. *)
Lemma groups_agree consumed reference :
  length consumed = length reference → except (grouped consumed) (grouped reference) = [] →
  consumed ≡ₚ reference.
Proof.
  intros Hlen H. rewrite except_nil in H. apply occurrences_perm; [lia|].
  intros s. destruct (decide (s ∈ consumed)) as [Hs|Hs].
  - assert ((s, occurrences s consumed) ∈ grouped reference) as [_ ->]%elem_of_grouped; [|lia].
    apply H. by apply elem_of_grouped.
  - rewrite occurrences_absent by done. unfold occurrences. lia.
Qed.

Lemma groups_of_perm l1 l2 : l1 ≡ₚ l2 → except (grouped l1) (grouped l2) = [].
Proof.
  intros H. apply except_nil. intros [j n] [Hj ->]%elem_of_grouped. apply elem_of_grouped.
  split; by rewrite <-H.
Qed.

Lemma verify_ok_iff a consumed reference c r d1 d2 :
  verify_counts consumed reference = (c, r, d1, d2) →
  verify_ok a c r d1 d2 = true ↔
    consumed ≡ₚ reference ∧ Z.of_nat (length reference) = limit a.
Proof.
  intros [= <- <- <- <-]. unfold verify_ok. rewrite !andb_true_iff, !Z.eqb_eq. split.
  - intros [[[Hlen Hlim] Hd1] _]. split; [|done].
    apply groups_agree; [lia|]. destruct (except _ _); [done|simpl in Hd1; lia].
  - intros [Hp Hlim]. rewrite (groups_of_perm _ _ Hp), (groups_of_perm _ _ (symmetry Hp)), Hp.
    done.
Qed.

(** ** What a completed run shows *)

Lemma fetch_sizes_ok t s : exec fetch_sizes t (Some (Ok s)) → ∃ row, t = [Ev Fetchone row].
Proof.
  unfold fetch_sizes. intros He. first_call He t H1. apply exec_do_ret in H1 as ->.
  exists (Ok x). destruct x as [[|[] [|[] [|]]]|]; by destruct He as [-> _].
Qed.

Lemma fetch_counts_ok t c r d1 d2 :
  exec fetch_counts t (Some (Ok (c, r, d1, d2))) →
  t = [Ev Fetchone (Ok (Some [VInt c; VInt r; VInt d1; VInt d2]))].
Proof.
  unfold fetch_counts. intros (x & t1 & t2 & -> & ->%exec_do_ret & He)%exec_bind_ok.
  destruct x as [row|]; [|by destruct He].
  assert (row = [VInt c; VInt r; VInt d1; VInt d2] ∧ t2 = []) as [-> ->]; [|done].
  destruct row as [|[] [|[] [|[] [|[] [|]]]]]; destruct He as [-> E]; try done.
  by injection E as -> -> -> ->.
Qed.

(** A timed count asks the database once, between two readings of the
    clock. *)
Lemma timed_count_ok sql params t n secs :
  exec (timed_count sql params) t (Some (Ok (n, secs))) →
  ∃ t0 row t1, t = [Ev PerfCounter t0; Ev (Execute sql params) (Ok ()); Ev Fetchone row; Ev PerfCounter t1] ∧
    secs = fsub t1 t0.
Proof.
  unfold timed_count. intros He.
  first_call He t H1. apply exec_call_ok in H1 as ->.
  first_call He t H1. apply exec_do_ret in H1 as ->. destruct x0.
  first_call He t H1. apply fetch_int_ok in H1 as [row ->].
  first_call He t H1. apply exec_call_ok in H1 as ->.
  destruct He as [-> [= _ ->]]. by exists x, row, x1.
Qed.

(** A statement that printed something only. *)
Definition prints (t : trace) : Prop := ∃ line, t = [Ev (Print false line) ()].

Lemma print_ok line t : exec (print line) t (Some (Ok ())) → prints t.
Proof. intros ->%exec_call_ok. by eexists. Qed.

Lemma rate_line_ok (b : bool) n secs line other t :
  exec (if b then rate <- fdiv n secs;; print (line rate) else print other) t (Some (Ok ())) → prints t.
Proof.
  destruct b; [|apply print_ok]. intros He. first_call He t H1. apply fdiv_silent in H1 as ->.
  by apply print_ok in He.
Qed.

Lemma succeeded_prints t : prints t → succeeded t = [].
Proof. by intros [line ->]. Qed.

Lemma completes_timed_count sql params : completes (timed_count sql params).
Proof. unfold timed_count. intros t0 [u|e]; [|done]. by intros [[[|[]]|]|]. Qed.

Lemma completes_main sql_literal a : completes (main sql_literal a).
Proof.
  unfold main. apply completes_with_connection.
  do 2 (apply completes_bind; [by intros ?|intros _]).
  apply completes_bind; [apply completes_timed_count|intros [n secs]].
  apply completes_bind; [apply completes_fdiv|intros rate].
  do 2 (apply completes_bind; [by intros ?|intros _]).
  apply completes_bind; [by intros [[[|[] [|[] [|]]]|]|]|intros sizes].
  apply completes_bind; [apply completes_timed_count|intros [n' secs']].
  apply completes_bind; [destruct (fgt _ _); [apply completes_bind; [apply completes_fdiv|]|]; by intros ?|intros _].
  apply completes_bind; [done|intros line].
  do 3 (apply completes_bind; [by intros ?|intros _]).
  apply completes_bind; [by intros [[[|[] [|[] [|[] [|[] [|]]]]]|]|]|intros [[[c r] d1] d2]].
  by intros ?.
Qed.

Section runs.
Context (sql_literal : string → string) (a : args).

(** C29. bmq_bench verifies what it says.  Main always ends; a run that
    returns has issued exactly the seven statements of the benchmark, in
    order, and its last line is the verdict on the four counts of the
    verifying query.  When those are the counts that query stands for, on the
    normalised rows consumed and of the reference, the verdict is PASS
    exactly when the two are equal as multisets and there are --limit of
    them. *)
Theorem bmq_verdict_exact :
  (∀ t, ¬ exec (main sql_literal a) t None) ∧
  ∀ t, exec (main sql_literal a) t (Some (Ok ())) →
  succeeded t =
    [set_broker_sql sql_literal (broker_uri a); source_sql a; publish_sql a; size_sql; consume_sql a;
     verify_publish_sql a; verify_sql a] ∧
  ∃ before c r d1 d2,
    t = before ++ [Ev (Execute (verify_sql a)
                        [VStr (verify_uri a); VInt (limit a); VInt (consume_timeout_ms a)]) (Ok ());
                   Ev Fetchone (Ok (Some [VInt c; VInt r; VInt d1; VInt d2]));
                   Ev (Print false (verdict_line a c r d1 d2)) (); Ev CloseConn ()] ∧
    ∀ consumed reference, verify_counts consumed reference = (c, r, d1, d2) →
      (verify_ok a c r d1 d2 = true ↔
        consumed ≡ₚ reference ∧ Z.of_nat (length reference) = limit a).
Proof.
  split; [intros t; apply completes_exec, completes_main|].
  intros t (x & t0 & -> & He). destruct x as [[]|e]; [|by destruct He].
  apply exec_bindp in He as [(res & t1 & t2 & -> & He & Hc)|[_ ?]]; [|done].
  destruct Hc as ([] & t3 & -> & -> & [= <-]).
  first_call He t H. apply exec_do_ret in H as ->. destruct x.
  first_call He t H. apply exec_do_ret in H as ->. destruct x.
  first_call He t H. destruct x as [n secs]. apply timed_count_ok in H as (? & ? & ? & -> & _).
  first_call He t H. apply fdiv_silent in H as ->.
  first_call He t H. destruct x3. apply print_ok, succeeded_prints in H as Hp1.
  first_call He t H1. apply exec_do_ret in H1 as ->. destruct x3.
  first_call He t H1. apply fetch_sizes_ok in H1 as [? ->].
  first_call He t H1. destruct x5 as [n' secs']. apply timed_count_ok in H1 as (? & ? & ? & -> & _).
  first_call He t H1. destruct x8. apply rate_line_ok, succeeded_prints in H1 as Hp2.
  first_call He t H2. apply exec_lift_ok in H2 as [-> _].
  first_call He t H2. destruct x9. apply print_ok, succeeded_prints in H2 as Hp3.
  first_call He t H3. apply exec_do_ret in H3 as ->. destruct x9.
  first_call He t H3. apply exec_do_ret in H3 as ->. destruct x9.
  first_call He t H3. destruct x9 as [[[c r] d1] d2]. apply fetch_counts_ok in H3 as ->.
  apply exec_call_ok in He as ->.
  split.
  - match goal with |- succeeded (?e :: ?l) = _ => change (e :: l) with ([e] ++ l) end.
    by rewrite !succeeded_app, Hp1, Hp2, Hp3.
  - eexists _, c, r, d1, d2. split; [|intros consumed reference; apply verify_ok_iff].
    match goal with |- _ = _ ++ [?e1; ?e2; ?e3; ?e4] =>
      change [e1; e2; e3; e4] with ([e1] ++ [e2] ++ [e3] ++ [e4]) end.
    rewrite !app_comm_cons, !app_assoc. reflexivity.
Qed.
End runs.

(** ** The property at work: two rows, both verified *)

Module BmqExample.
Definition quote (s : string) : string := "'" +:+ s +:+ "'".

Definition a (limit : Z) : args :=
  Args "db" "SELECT * FROM t" limit "Sequence Number, Trade Id" "bmq://bmq.test.mem.priority/q"
    "tcp://localhost:30114" 60000 false.

Definition answers (c r d1 d2 : Z) : list answer :=
  [AUnit; AUnit; AUnit; AFloat (of_int 1); AUnit; ARow [VInt 2]; AFloat (of_int 2); AUnit;
   AUnit; ARow [VFloat (of_int 40); VFloat (of_int 80)];
   AFloat (of_int 3); AUnit; ARow [VInt 2]; AFloat (of_int 5); AUnit; AUnit;
   AUnit; AUnit; ARow [VInt c; VInt r; VInt d1; VInt d2]; AUnit; AUnit].
End BmqExample.

Lemma bmq_verdict_exact_witness :
  let a := BmqExample.a 2 in
  let t := replayed (main BmqExample.quote a) (BmqExample.answers 2 2 0 0) in
  succeeded t =
    [set_broker_sql BmqExample.quote (broker_uri a); source_sql a; publish_sql a; size_sql; consume_sql a;
     verify_publish_sql a; verify_sql a] ∧
  ∃ before c r d1 d2,
    t = before ++ [Ev (Execute (verify_sql a)
                        [VStr (verify_uri a); VInt (limit a); VInt (consume_timeout_ms a)]) (Ok ());
                   Ev Fetchone (Ok (Some [VInt c; VInt r; VInt d1; VInt d2]));
                   Ev (Print false (verdict_line a c r d1 d2)) (); Ev CloseConn ()] ∧
    ∀ consumed reference, verify_counts consumed reference = (c, r, d1, d2) →
      (verify_ok a c r d1 d2 = true ↔
        consumed ≡ₚ reference ∧ Z.of_nat (length reference) = limit a).
Proof.
  apply (proj2 (bmq_verdict_exact BmqExample.quote (BmqExample.a 2))).
  apply replayed_exec. vm_compute. reflexivity.
Defined.

Example attr_array_two :
  attr_array_sql (BmqExample.a 2) = "ARRAY['Sequence Number','Trade Id']".
Proof. vm_compute. reflexivity. Qed.

(** Two rows out of two, identical, but --limit is larger than the table:
    FAIL with no mismatched group. *)
Example small_table_fails :
  verify_ok (BmqExample.a 3) 2 2 0 0 = false ∧
  verify_counts ["x"; "y"] ["y"; "x"] = (2, 2, 0, 0).
Proof. vm_compute. by split. Qed.

(** An empty table makes the sizes NULL, and formatting them raises. *)
Example empty_table_raises :
  outcome (main BmqExample.quote (BmqExample.a 2))
    [AUnit; AUnit; AUnit; AFloat (of_int 1); AUnit; ARow [VInt 0]; AFloat (of_int 2); AUnit;
     AUnit; ARow [VNone; VNone];
     AFloat (of_int 3); AUnit; ARow [VInt 0]; AFloat (of_int 5); AUnit; AUnit]
  = Some (Some (Err TypeError)).
Proof. vm_compute. reflexivity. Qed.
