(* ===== verification/Harness.v ===== *)
(** * Supervising the NATS processes

    What the nats_sidecar_*.py scripts (and measure_ctrl_plane_only.py) share:
    starting a server or a sidecar with its log, [stop], the control call, the
    subscriber, and the [try: ... finally: ...] around a run.  Each script
    defines its own functions from these with its own subjects and paths. *)
From Stdlib Require Import Ascii.
From S2P Require Import Prelude PyFloat PyStr PyM Report.

(** [FILTER_FIELD], [FILTER_VALUE], [INPUT_SUBJECT], [OUTPUT_PREFIX], [PSQL] *)
Definition FILTER_FIELD : string := "Exchange".
Definition FILTER_VALUE : string := "N".
Definition INPUT_SUBJECT : string := "sc.real.in".
Definition OUTPUT_PREFIX : string := "sc.real.out".
Definition PSQL : list string := ["psql"; "-h"; "/var/run/postgresql"; "postgres"; "-q"; "-c"].

Definition quote_char : string := String (Ascii.ascii_of_nat 34) EmptyString.

(** [f'{FILTER_FIELD} = "{FILTER_VALUE}"'] *)
Definition filter_expression : string :=
  FILTER_FIELD +:+ " = " +:+ quote_char +:+ FILTER_VALUE +:+ quote_char.

(** ['"error"' in reply] *)
Definition reports_error (reply : string) : bool :=
  contains (quote_char +:+ "error" +:+ quote_char) reply.

Definition publish_plain_sql : string :=
  "SELECT nats_publish_binary('" +:+ INPUT_SUBJECT +:+ "', row_to_msgpack(t)) FROM sc_bench_sample t;".

Definition publish_stream_sql : string :=
  "SELECT nats_publish_binary_stream_async('" +:+ INPUT_SUBJECT
    +:+ "', row_to_msgpack(t)) FROM sc_bench_sample t; SELECT nats_publish_stream_flush();".

(** A started process with its log file, and what else the script keeps with
    it (a control subject, a log path). *)
Record handle := Handle {
  h_pid : Z;
  h_log : Z;
  h_info : string;
}.

Section programs.
(** [os.path.expanduser("~")] *)
Context (home : string).

Definition NATS_SERVER : string := home +:+ "/nats-server".
Definition SIDECAR : string := home +:+ "/nats_sidecar/build-ci/bin/nats_sidecar".
Definition DRIVER : string := home +:+ "/pg_blazingmq/bench/mq_bench_driver".

(** [log = open(path, "w"); p = Popen(argv, stdout=log)] *)
Definition start_logged (log_path : string) (argv : list string) : Py (Z * Z) :=
  log <- Do (OpenFile log_path "w") Ret;;
  p <- Do (Popen argv (Some log)) Ret;;
  ret (p, log).

(** Wipes the store directory, then starts the server on it. *)
Definition start_server_on (store log_path : string) : Py (Z * Z) :=
  there <- call (PathExists store);;
  (if there : bool then Do (Rmtree store) Ret else ret ());;
  Do (Makedirs store) Ret;;
  s <- start_logged log_path [NATS_SERVER; "-js"; "-sd"; store; "-p"; "4222"];;
  sleep (lit 12 10);;
  ret s.

(** [stop(p)] *)
Definition stop (p : Z) : Py unit :=
  try_except (Do (Terminate p) Ret;; Do (Wait p 5) Ret;; ret ())
    (fun _ => try_except (Do (Kill p) Ret;; Do (Wait p 5) Ret;; ret ())
                (fun _ => ret ())).

(** [run_ctrl(subject)]: the reply of one control call. *)
Definition run_ctrl_on (subscribe_subject expression : string) : Py string :=
  r <- Do (RunProc [DRIVER; "ctrl"; subscribe_subject; expression] 10) Ret;;
  ret (strip (proc_stdout r)).

(** The subscriber, on a pipe. *)
Definition start_subfield (topic timeout_ms : string) : Py Z :=
  Do (Popen [DRIVER; "subfield"; topic; py_str EXPECTED; timeout_ms; FILTER_FIELD; FILTER_VALUE]
        None) Ret.

Definition run_psql (sql : string) (timeout : Z) : Py completed :=
  Do (RunProc (PSQL ++ [sql]) timeout) Ret.

Definition communicate (p : Z) (timeout : Z) : Py string := Do (Communicate p timeout) Ret.

(** The [finally] clause of a run. *)
Definition stop_all (server : Z * Z) (hs : list handle) : Py unit :=
  for_ hs (fun h => stop (h_pid h);; call (CloseFile (h_log h)));;
  stop server.1;;
  call (CloseFile server.2).

(** [server, slog = start(); sidecars = []; try: body finally: stop_all];
    falling off the end returns [dflt]. *)
Definition supervise {R} (start : Py (Z * Z)) (body : Z → stmt (list handle) R) (dflt : R) : Py R :=
  server <- start;;
  try_finally [] (body server.1) (stop_all server) dflt.

(** The same with more locals ([f0] at first), which the [finally] clause
    attends to before it stops the processes. *)
Definition supervise_with {F R} (start : Py (Z * Z)) (f0 : F) (hs_of : F → list handle)
    (attend : F → Py unit) (body : Z → stmt F R) (dflt : R) : Py R :=
  server <- start;;
  try_finally f0 (body server.1) (fun f => attend f;; stop_all server (hs_of f)) dflt.
End programs.

(** Statements a run is made of. *)
(** [m], for its effect. *)
Definition s_do {F R} (m : Py unit) : stmt F R := s_let m (fun _ => s_skip).

(** [for i in range(1, n + 1): sidecars.append(start(i))]; [app] appends to the
    script's list. *)
Definition s_launch_with {F R} (app : F → handle → F) (n : Z) (start : Z → Py (Z * Z))
    (info : Z → string) : stmt F R :=
  s_for (range 1 (n + 1)) (fun i =>
    p <-- start i ;;;
    s_assign (fun f => app f (Handle p.1 p.2 (info i)))).

Definition s_launch {R} : Z → (Z → Py (Z * Z)) → (Z → string) → stmt (list handle) R :=
  s_launch_with (fun hs h => hs ++ [h]).

(** [for sp, sl, _ in sidecars: if sp.poll() is not None: print; return fail] *)
Definition s_all_alive {R} (complaint : handle → list frag) (fail : R) : stmt (list handle) R :=
  s_get (fun hs => hs) (fun hs => s_for hs (fun h =>
    code <-- call (Poll (h_pid h)) ;;;
    s_if (bool_decide (is_Some (code : option Z)))
      (s_do (eprint (complaint h)) ;;; s_return fail))).

(** One control call per instance, giving up on the first error reply. *)
Definition s_control {F R A} (instances : list A) (ctrl : A → Py string)
    (complaint : A → string → list frag) (fail : R) : stmt F R :=
  s_for instances (fun i =>
    reply <-- ctrl i ;;;
    s_if (reports_error reply)
      (s_do (eprint (complaint i reply)) ;;; s_return fail)).

(** [200000 / secs] *)
Definition per_second (secs : float) : Py float := fdiv (of_int 200000) secs.

(** [200000 / secs if secs > 0 else float("nan")] *)
Definition per_second_or_nan (secs : float) : float :=
  if fgt secs fzero then fquot (of_int 200000) secs else fnan.

(** ** What a run leaves behind *)

Section cleanup.
Context (home : string).

Definition is_nats (prog : string) : bool :=
  bool_decide (prog = NATS_SERVER home) || bool_decide (prog = SIDECAR home).

(** A NATS process started with a log: its pid and the log. *)
Definition spawned_of (e : event) : list (Z * Z) :=
  match e with
  | Ev c x =>
      match c return reply c → list (Z * Z) with
      | Popen (prog :: _) (Some fd) => fun r =>
          match r with Ok pid => if is_nats prog then [(pid, fd)] else [] | Err _ => [] end
      | _ => fun _ => []
      end x
  end.

Definition spawned (t : trace) : list (Z * Z) := t ≫= spawned_of.

(** What it takes to be done with process [p]: SIGTERM, then up to five
    seconds for it to exit; if it has not exited, or a call has failed,
    SIGKILL, and if that could be sent up to five seconds more. *)
Definition unheeded (p : Z) (t : trace) : Prop :=
  (∃ e, t = [Ev (Terminate p) (Err e)]) ∨
  (∃ e, t = [Ev (Terminate p) (Ok ()); Ev (Wait p 5) (Err e)]).

Definition killed (p : Z) (t : trace) : Prop :=
  (∃ e, t = [Ev (Kill p) (Err e)]) ∨ (∃ r, t = [Ev (Kill p) (Ok ()); Ev (Wait p 5) r]).

Definition stopped (p : Z) (t : trace) : Prop :=
  (∃ code, t = [Ev (Terminate p) (Ok ()); Ev (Wait p 5) (Ok code)]) ∨
  (∃ t1 t2, t = t1 ++ t2 ∧ unheeded p t1 ∧ killed p t2).

(** [p] is stopped, and then its log [l] is closed. *)
Definition handled (p l : Z) (t : trace) : Prop :=
  ∃ x, stopped p x ∧ in_order [x; [Ev (CloseFile l) ()]] t.

(** Nothing is left running and no log is left open: what is started is
    handled afterwards. *)
Definition cleaned_up (t : trace) : Prop :=
  ∀ before e after p l, t = before ++ e :: after → (p, l) ∈ spawned_of e → handled p l after.

Lemma handled_app p l t1 t2 t3 : handled p l t2 → handled p l (t1 ++ t2 ++ t3).
Proof. intros (x & Hx & Ho). exists x. split; [done|]. by apply in_order_app. Qed.

Lemma handled_app_l p l t1 t2 : handled p l t2 → handled p l (t1 ++ t2).
Proof. intros H. rewrite <-(app_nil_r t2). by apply handled_app. Qed.

Lemma handled_app_r p l t1 t2 : handled p l t1 → handled p l (t1 ++ t2).
Proof. apply (handled_app p l []). Qed.

Lemma stopped_then_closed p l x : stopped p x → handled p l (x ++ [Ev (CloseFile l) ()]).
Proof. intros Hx. exists x. split; [done|]. exists [], [Ev (CloseFile l) ()]. split; [done|]. by exists [], []. Qed.

Lemma spawned_app t1 t2 : spawned (t1 ++ t2) = spawned t1 ++ spawned t2.
Proof. apply bind_app. Qed.
Lemma spawned_in t e p l : e ∈ t → (p, l) ∈ spawned_of e → (p, l) ∈ spawned t.
Proof. intros He Hp. apply list_elem_of_bind. eauto. Qed.

Lemma cleaned_up_idle t : spawned t = [] → cleaned_up t.
Proof.
  intros Ht before e after p l -> Hp.
  assert ((p, l) ∈ spawned (before ++ e :: after)) as Hin by (apply (spawned_in _ e); [set_solver|done]).
  by rewrite Ht, elem_of_nil in Hin.
Qed.

(** Handling in the end everything that was started. *)
Lemma cleaned_up_after t0 t1 :
  spawned t1 = [] → (∀ p l, (p, l) ∈ spawned t0 → handled p l t1) → cleaned_up (t0 ++ t1).
Proof.
  intros Hidle Hall before e after p l E Hp.
  apply app_eq_inv in E as [(k & -> & E)|(k & -> & E)].
  - destruct k as [|e' k].
    + assert ((p, l) ∈ spawned t1) as Hin; [|by rewrite Hidle, elem_of_nil in Hin].
      apply (spawned_in _ e); [|done]. simpl in E. rewrite <-E. by left.
    + injection E as <- ->. apply handled_app_l, Hall. apply (spawned_in _ e); [set_solver|done].
  - assert ((p, l) ∈ spawned t1) as Hin by (apply (spawned_in _ e); [set_solver|done]).
    by rewrite Hidle, elem_of_nil in Hin.
Qed.

(** Programs that start no NATS process. *)
Fixpoint idle {A} (p : prog A) : Prop :=
  match p with
  | Ret _ | OutOfFuel => True
  | Do c k => (∀ x, spawned_of (Ev c x) = []) ∧ ∀ x, idle (k x)
  end.

Lemma idle_spawned {A} (p : prog A) : idle p → wp p (fun t _ => spawned t = []).
Proof.
  induction p as [a| |c k IH]; intros H; [done..|]. destruct H as [Hc Hk]. intros x.
  eapply wp_mono; [|by apply IH]. intros t r Ht.
  change (spawned_of (Ev c x) ++ spawned t = []). by rewrite (Hc x).
Qed.

Lemma idle_bindp {A B} (m : prog A) (f : A → prog B) :
  idle m → (∀ a, idle (f a)) → idle (bindp m f).
Proof.
  intros Hm Hf. induction m as [a| |c k IH]; simpl in *; [done..|].
  destruct Hm as [Hc Hk]. auto.
Qed.

Lemma idle_bind {A B} (m : Py A) (f : A → Py B) :
  idle m → (∀ a, idle (f a)) → idle (bind m f).
Proof. intros Hm Hf. apply idle_bindp; [done|]. by intros [a|e]. Qed.

Lemma idle_sleep x : idle (sleep x).
Proof. unfold sleep. by destruct (nonneg x). Qed.

Lemma idle_fdiv x y : idle (fdiv x y).
Proof. unfold fdiv. by destruct (is_zero y). Qed.

Lemma idle_run_ctrl_on subject expr : idle (run_ctrl_on home subject expr).
Proof. unfold run_ctrl_on. apply idle_bind; [by split|done]. Qed.

Lemma idle_start_subfield topic ms : idle (start_subfield home topic ms).
Proof. by split. Qed.

Lemma idle_run_psql sql ms : idle (run_psql sql ms).
Proof. by split. Qed.

Lemma idle_communicate p ms : idle (communicate p ms).
Proof. by split. Qed.

Lemma idle_stop p : idle (stop p).
Proof.
  unfold stop, try_except. apply idle_bindp.
  - apply idle_bind; [by split|]. intros. apply idle_bind; [by split|done].
  - intros [[]|e]; [done|]. apply idle_bindp; [|by intros [[]|e']].
    apply idle_bind; [by split|]. intros. apply idle_bind; [by split|done].
Qed.

Lemma write_file_idle path mode text : idle (write_file path mode text).
Proof. by split; [|intros [fd|e]; [split|]]. Qed.

(** [stop] does not raise, and does all it can. *)
Lemma stop_spec p : wp (stop p) (fun t r => r = Some (Ok ()) ∧ stopped p t).
Proof.
  unfold stop, try_except. simpl. unfold stopped, unheeded, killed. intros [[]|e]; simpl.
  - intros [z|e]; simpl; [split; [done|left; by exists z]|].
    intros [[]|e']; simpl.
    + intros [z|e']; (split; [done|]); right; eexists [_; _], [_; _]; naive_solver.
    + split; [done|]. right. eexists [_; _], [_]. naive_solver.
  - intros [[]|e']; simpl.
    + intros [z|e']; (split; [done|]); right; eexists [_], [_; _]; naive_solver.
    + split; [done|]. right. eexists [_], [_]. naive_solver.
Qed.

Lemma stop_close_spec p l :
  wp (stop p;; call (CloseFile l)) (fun t r => r = Some (Ok ()) ∧ handled p l t).
Proof.
  apply wp_bind. eapply wp_mono; [|apply stop_spec]. intros t r [-> Ht] []. simpl.
  split; [done|]. by apply stopped_then_closed.
Qed.

Lemma stop_all_spec server hs :
  wp (stop_all server hs) (fun t r =>
    r = Some (Ok ()) ∧ handled server.1 server.2 t ∧
    Forall (fun h => handled (h_pid h) (h_log h) t) hs).
Proof.
  unfold stop_all. apply wp_bind.
  assert (wp (for_ hs (fun h => stop (h_pid h);; call (CloseFile (h_log h)))) (fun t r =>
    r = Some (Ok ()) ∧ Forall (fun h => handled (h_pid h) (h_log h) t) hs)) as Hfor.
  { induction hs as [|h hs IH]; [by split|]. cbn [for_]. apply wp_bind.
    eapply wp_mono; [|apply stop_close_spec]. intros t1 r [-> Ht1].
    eapply wp_mono; [|apply IH]. intros t2 r [-> Hall]. split; [done|]. constructor.
    - by apply handled_app_r.
    - eapply Forall_impl; [apply Hall|]. intros h'. by apply handled_app_l. }
  eapply wp_mono; [|apply Hfor]. intros t r [-> Hall].
  eapply wp_mono; [|apply stop_close_spec]. intros t1 r [-> Ht1]. split; [done|].
  split; [by apply handled_app_l|]. eapply Forall_impl; [apply Hall|]. intros h'. by apply handled_app_r.
Qed.
End cleanup.

(** ** Bodies that keep track of what they start *)

Section tracking.
Context (home : string).

(** Starting a NATS process: either its pid and log come back, or nothing
    was started. *)
Definition starts (m : Py (Z * Z)) : Prop :=
  wp m (fun t r =>
    match r with
    | Some (Ok s) => spawned home t = [s]
    | _ => spawned home t = []
    end).

(** Whatever way the statement ends, every NATS process it has started has
    been appended to the script's list; [hs_of] reads the list off the
    locals. *)
Definition tracked {F R} (hs_of : F → list handle) (s : stmt F R) : Prop :=
  ∀ f, wp (s f) (fun t r =>
    match r with
    | Some (f', _) => ∃ new, hs_of f' = hs_of f ++ new ∧
                        ((fun h => (h_pid h, h_log h)) <$> new) = spawned home t
    | None => True
    end).

Lemma start_logged_starts path argv prog rest :
  argv = prog :: rest → is_nats home prog = true → starts (start_logged path argv).
Proof.
  intros -> Hp. unfold starts, start_logged. simpl. intros [fd|e]; simpl; [|done].
  intros [pid|e]; simpl; [|done]. by rewrite Hp.
Qed.

Lemma server_is_nats : is_nats home (NATS_SERVER home) = true.
Proof. apply orb_true_intro. left. by apply bool_decide_eq_true. Qed.

Lemma sidecar_is_nats : is_nats home (SIDECAR home) = true.
Proof. apply orb_true_intro. right. by apply bool_decide_eq_true. Qed.

(** A tool looked up in the path is neither. *)
Lemma path_tool_not_nats prog : none (char_eq "/") prog = true → is_nats home prog = false.
Proof.
  intros Hprog. apply orb_false_intro; apply bool_decide_eq_false; intros ->;
    unfold NATS_SERVER, SIDECAR in Hprog; rewrite none_app in Hprog;
    by apply andb_prop in Hprog as [_ ?].
Qed.

Lemma starts_after {A} (m : Py A) (k : A → Py (Z * Z)) :
  idle home m → (∀ a, starts (k a)) → starts (bind m k).
Proof.
  intros Hm Hk. apply wp_bind. eapply wp_mono; [|by apply idle_spawned].
  intros t [[a|e]|] Ht; [|done..]. eapply wp_mono; [|apply Hk].
  intros t' [[s|e]|] Ht'; by rewrite spawned_app, Ht, Ht'.
Qed.

Lemma start_server_starts store log : starts (start_server_on home store log).
Proof.
  unfold start_server_on. apply starts_after; [by split|]. intros there.
  apply starts_after; [by destruct there; split|]. intros _.
  apply starts_after; [by split|]. intros _.
  apply wp_bind. eapply wp_mono; [|by eapply start_logged_starts; [done|apply server_is_nats]].
  intros t [[s|e]|] Ht; [|done..]. unfold sleep.
  assert (nonneg (lit 12 10) = true) as -> by (vm_compute; reflexivity).
  intros []. simpl. by rewrite spawned_app, Ht.
Qed.

Lemma wp_and {A} (p : prog A) Φ Ψ : wp p Φ → wp p Ψ → wp p (fun t r => Φ t r ∧ Ψ t r).
Proof. rewrite !wp_exec. auto. Qed.

Lemma idle_stop_all server hs : idle home (stop_all server hs).
Proof.
  unfold stop_all. apply idle_bind; [|intros; apply idle_bind; [apply idle_stop|by split]].
  induction hs as [|h hs IH]; [done|]. cbn [for_]. apply idle_bind; [|done].
  apply idle_bind; [apply idle_stop|]. by split.
Qed.

(** The last call was a [bad] one. *)
Definition ends_badly (bad : event → Prop) (t : trace) : Prop := ∃ t' e, t = t' ++ [e] ∧ bad e.

Lemma ends_badly_app bad t1 t2 : ends_badly bad t2 → ends_badly bad (t1 ++ t2).
Proof. intros (t' & e & -> & He). exists (t1 ++ t'), e. by rewrite <-app_assoc. Qed.

(** What a [finally] clause attends to first starts nothing, and raises only
    on a [bad] call. *)
Definition attends {F} (bad : event → Prop) (attend : F → Py unit) : Prop :=
  ∀ f, wp (attend f) (fun t r => spawned home t = [] ∧
    match r with Some (Err _) => ends_badly bad t | _ => True end).

Lemma stop_all_cleans server hs t0 :
  (spawned home t0 = server :: ((fun h => (h_pid h, h_log h)) <$> hs)) →
  wp (stop_all server hs) (fun t r => r = Some (Ok ()) ∧ cleaned_up home (t0 ++ t)).
Proof.
  intros Ht0. eapply wp_mono; [|apply wp_and; [apply stop_all_spec|apply (idle_spawned home), idle_stop_all]].
  intros t r [(-> & Hs & Hall) Hidle]. split; [done|]. apply cleaned_up_after; [done|]. intros p l.
  rewrite Ht0, elem_of_cons. intros [<-|Hp]; [done|].
  apply list_elem_of_fmap in Hp as (h & [= -> ->] & Hh).
  rewrite Forall_forall in Hall. by apply Hall.
Qed.

(** A body that tracks leaves nothing behind. *)
Lemma supervise_with_cleans {F R} bad start (f0 : F) hs_of attend (body : Z → stmt F R) dflt :
  starts start → hs_of f0 = [] → attends bad attend → (∀ p, tracked hs_of (body p)) →
  wp (supervise_with start f0 hs_of attend body dflt)
    (fun t r => is_Some r → cleaned_up home t ∨ ends_badly bad t).
Proof.
  intros Hst Hf0 Hatt Hbody. unfold supervise_with. apply wp_bind. eapply wp_mono; [|apply Hst].
  intros t0 [[server|e]|] Ht0; [| |intros []; done].
  2:{ intros _. left. by apply cleaned_up_idle. }
  unfold try_finally. apply wp_bindp. eapply wp_mono; [|apply (Hbody server.1 f0)].
  intros t1 [[f c]|]; [|intros _ []; done]. intros (new & Hhs & Hnew). rewrite Hf0 in Hhs.
  simpl in Hhs. rewrite Hhs. apply wp_bindp, wp_bind. eapply wp_mono; [|apply Hatt].
  intros t2 [[[]|e]|] [Ht2 Hok]; [| |intros []; done].
  2:{ simpl. intros _. right. rewrite app_nil_r. by do 2 apply ends_badly_app. }
  eapply wp_mono; [|apply (stop_all_cleans server new (t0 ++ t1 ++ t2))].
  - intros t3 r [-> Hclean]. destruct c; simpl; intros _; left; by rewrite app_nil_r, <-!app_assoc in *.
  - by rewrite !spawned_app, Ht0, <-Hnew, Ht2, app_nil_r.
Qed.

Lemma supervise_cleans {R} start (body : Z → stmt (list handle) R) dflt :
  starts start → (∀ p, tracked id (body p)) →
  wp (supervise start body dflt) (fun t r => is_Some r → cleaned_up home t).
Proof.
  intros Hst Hbody. unfold supervise. apply wp_bind. eapply wp_mono; [|apply Hst].
  intros t0 [[server|e]|] Ht0; [| |intros []; done].
  2:{ intros _. by apply cleaned_up_idle. }
  unfold try_finally. apply wp_bindp. eapply wp_mono; [|apply (Hbody server.1 [])].
  intros t1 [[hs c]|]; [|intros _ []; done]. intros (new & Hhs & Hnew). simpl in Hhs.
  unfold id in Hhs. subst hs. apply wp_bindp.
  eapply wp_mono; [|apply (stop_all_cleans server new (t0 ++ t1))].
  - intros t2 r [-> Hclean]. destruct c; simpl; intros _; by rewrite app_nil_r, <-!app_assoc in *.
  - by rewrite spawned_app, Ht0, <-Hnew.
Qed.

(** ** Rules *)

Section rules.
Context {F R : Type} (hs_of : F → list handle).
Abbreviation tr := (tracked (R := R) hs_of).

Lemma tracked_skip : tr s_skip.
Proof. intros f. exists []. by rewrite app_nil_r. Qed.

Lemma tracked_return r : tr (s_return r).
Proof. intros f. exists []. by rewrite app_nil_r. Qed.

(** An assignment to the other locals. *)
Lemma tracked_assign g : (∀ f, hs_of (g f) = hs_of f) → tr (s_assign g).
Proof. intros H f. exists []. by rewrite H, app_nil_r. Qed.

Lemma tracked_seq s1 s2 : tr s1 → tr s2 → tr (s_seq s1 s2).
Proof.
  intros H1 H2 f. apply wp_bindp. eapply wp_mono; [|apply H1].
  intros t [[f' c]|]; [|done]. intros (n1 & Hf' & Hn1).
  destruct c; [|by exists n1; rewrite app_nil_r..].
  eapply wp_mono; [|apply H2]. intros t' [[f'' c']|]; [|done].
  intros (n2 & Hf'' & Hn2). exists (n1 ++ n2).
  by rewrite Hf'', Hf', app_assoc, fmap_app, Hn1, Hn2, spawned_app.
Qed.

Lemma tracked_let {A} (m : Py A) s : idle home m → (∀ a, tr (s a)) → tr (s_let m s).
Proof.
  intros Hm Hs f. apply wp_bindp. eapply wp_mono; [|by apply (idle_spawned home)].
  intros t [[a|e]|] Ht; [| |done].
  - eapply wp_mono; [|apply Hs]. intros t' [[f' c]|]; [|done].
    intros (n & Hf' & Hn). exists n. by rewrite spawned_app, Ht.
  - exists []. simpl. by rewrite !app_nil_r, Ht.
Qed.

Lemma tracked_do (m : Py unit) : idle home m → tr (s_let m (fun _ => s_skip)).
Proof. intros Hm. apply tracked_let; [done|]. intros. apply tracked_skip. Qed.

Lemma tracked_if b s : tr s → tr (s_if b s).
Proof. intros H. destruct b; [done|]. apply tracked_skip. Qed.

Lemma tracked_for {A} (l : list A) body : (∀ a, tr (body a)) → tr (s_for l body).
Proof.
  intros H. induction l as [|a l IH]; [apply tracked_skip|].
  by apply tracked_seq.
Qed.

Lemma tracked_get {A} (g : F → A) s : (∀ a, tr (s a)) → tr (s_get g s).
Proof. intros H f. apply H. Qed.

(** Start one and append it. *)
Lemma tracked_start (m : Py (Z * Z)) (info : string) (app : F → handle → F) :
  starts m → (∀ f h, hs_of (app f h) = hs_of f ++ [h]) →
  tr (s_let m (fun p => s_assign (fun f => app f (Handle p.1 p.2 info)))).
Proof.
  intros Hm Happ f. apply wp_bindp. eapply wp_mono; [|apply Hm].
  intros t [[[p l]|e]|] Ht; [| |done].
  - exists [Handle p l info]. rewrite Happ. split; [done|]. by rewrite app_nil_r, Ht.
  - exists []. by rewrite !app_nil_r, Ht.
Qed.
End rules.

Lemma tracked_launch_with {F R} hs_of (app : F → handle → F) n start info :
  (∀ f h, hs_of (app f h) = hs_of f ++ [h]) →
  (∀ i, starts (start i)) → tracked hs_of (s_launch_with (R := R) app n start info).
Proof. intros Happ H. apply tracked_for. intros i. by apply tracked_start. Qed.

Lemma tracked_launch {R} n start info :
  (∀ i, starts (start i)) → tracked id (s_launch (R := R) n start info).
Proof. by apply tracked_launch_with. Qed.

Lemma tracked_alive {R} complaint fail : tracked id (s_all_alive (R := R) complaint fail).
Proof.
  apply tracked_get. intros hs. apply tracked_for. intros h. apply tracked_let; [by split|].
  intros code. apply tracked_if, tracked_seq; [apply tracked_do; by split|apply tracked_return].
Qed.

Lemma tracked_control {F R A} (hs_of : F → list handle) (instances : list A) ctrl complaint fail :
  (∀ s, idle home (ctrl s)) →
  tracked hs_of (s_control (R := R) instances ctrl complaint fail).
Proof.
  intros H. apply tracked_for. intros s. apply tracked_let; [done|].
  intros r. apply tracked_if, tracked_seq; [apply tracked_do; by split|apply tracked_return].
Qed.
End tracking.

Lemma idle_per_second home x : idle home (per_second x).
Proof. apply idle_fdiv. Qed.

Create HintDb idle.
#[export] Hint Resolve idle_sleep idle_fdiv idle_per_second idle_run_ctrl_on idle_start_subfield
  idle_run_psql idle_communicate idle_stop : idle.

(** A computation that starts no NATS process. *)
Ltac idle_now :=
  first [ solve [auto with idle]
        | exact I
        | split; [intros ?; reflexivity | intros ?; first [exact I | idle_now]]
        | apply idle_bind; [idle_now | intros ?; idle_now]
        | case_match; idle_now ].

(** A statement, construct by construct; the launches are left. *)
Ltac track :=
  lazymatch goal with
  | |- tracked _ _ (let _ := _ in _) => cbv zeta; track
  | |- tracked _ _ (s_seq _ _) => apply tracked_seq; track
  | |- tracked _ _ (s_do _) => apply tracked_do; idle_now
  | |- tracked _ _ (s_launch _ _ _) => apply tracked_launch; intros ?
  | |- tracked _ _ (s_all_alive _ _) => apply tracked_alive
  | |- tracked _ _ (s_control _ _ _ _) => apply tracked_control; intros ?; idle_now
  | |- tracked _ _ (s_let _ _) => apply tracked_let; [idle_now | intros ?; track]
  | |- tracked _ _ (s_if _ _) => apply tracked_if; track
  | |- tracked _ _ (s_for _ _) => apply tracked_for; intros ?; track
  | |- tracked _ _ (s_get _ _) => apply tracked_get; intros ?; track
  | |- tracked _ _ (s_return _) => apply tracked_return
  | |- tracked _ _ s_skip => apply tracked_skip
  | |- tracked _ _ (match _ with _ => _ end) => case_match; track
  | |- _ => idtac
  end.

(** ** Reading a successful run backwards *)

Section inversion.
Context {F R : Type}.
Implicit Types s : stmt F R.

(** [s] ran to its end, or returned [r], with the calls [t]. *)
Definition runs_on (s : stmt F R) (f : F) (t : trace) (f' : F) : Prop :=
  exec (s f) t (Some (f', Next)).
Definition returns (s : stmt F R) (f : F) (t : trace) (r : R) : Prop :=
  ∃ f', exec (s f) t (Some (f', Return r)).

Lemma returns_let {A} (m : Py A) (k : A → stmt F R) f t r :
  returns (s_let m k) f t r →
  ∃ a t1 t2, t = t1 ++ t2 ∧ exec m t1 (Some (Ok a)) ∧ returns (k a) f t2 r.
Proof.
  intros [f' He]. apply exec_bindp in He as [([a|e] & t1 & t2 & -> & H1 & H2)|[_ ?]]; [|by destruct H2 as [_ ?]|done].
  exists a, t1, t2. repeat split; [done|]. by exists f'.
Qed.

Lemma returns_seq s1 s2 f t r :
  returns (s_seq s1 s2) f t r →
  returns s1 f t r ∨
  ∃ f1 t1 t2, t = t1 ++ t2 ∧ runs_on s1 f t1 f1 ∧ returns s2 f1 t2 r.
Proof.
  intros [f' He]. apply exec_bindp in He as [([f1 c] & t1 & t2 & -> & H1 & H2)|[_ ?]]; [|done].
  destruct c; simpl in H2.
  - right. exists f1, t1, t2. repeat split; [done|]. by exists f'.
  - destruct H2 as [-> [= -> ->]]. left. rewrite app_nil_r. by exists f1.
  - by destruct H2 as [_ ?].
Qed.

(** A statement that can only return [fail]. *)
Definition only_fails (fail : R) (s : stmt F R) : Prop :=
  ∀ f t r, returns s f t r → r = fail.

Lemma returns_past s1 s2 f t r fail :
  only_fails fail s1 → r ≠ fail → returns (s_seq s1 s2) f t r →
  ∃ f1 t1 t2, t = t1 ++ t2 ∧ runs_on s1 f t1 f1 ∧ returns s2 f1 t2 r.
Proof. intros Hf Hr [H|H]%returns_seq; [|done]. by apply Hf in H. Qed.

Lemma only_fails_do fail (m : Py unit) : only_fails fail (s_do m).
Proof. intros f t r (a & t1 & t2 & _ & _ & f' & H)%returns_let. by destruct H. Qed.

Lemma only_fails_skip fail : only_fails fail s_skip.
Proof. intros f t r [f' H]. by destruct H. Qed.

Lemma only_fails_assign fail g : only_fails fail (s_assign g).
Proof. intros f t r [f' H]. by destruct H. Qed.

Lemma only_fails_return fail : only_fails fail (s_return fail).
Proof. intros f t r [f' [_ H]]. by injection H. Qed.

Lemma only_fails_seq fail s1 s2 :
  only_fails fail s1 → only_fails fail s2 → only_fails fail (s_seq s1 s2).
Proof. intros H1 H2 f t r [H|(f1 & t1 & t2 & _ & _ & H)]%returns_seq; eauto. Qed.

Lemma only_fails_let {A} fail (m : Py A) k :
  (∀ a, only_fails fail (k a)) → only_fails fail (s_let m k).
Proof. intros H f t r (a & t1 & t2 & _ & _ & Hr)%returns_let. by eapply H. Qed.

Lemma only_fails_if fail b s : only_fails fail s → only_fails fail (s_if b s).
Proof. intros H. destruct b; [done|]. apply only_fails_skip. Qed.

Lemma only_fails_for {A} fail (l : list A) k :
  (∀ a, only_fails fail (k a)) → only_fails fail (s_for l k).
Proof.
  intros H. induction l; [apply only_fails_skip|]. by apply only_fails_seq.
Qed.

Lemma only_fails_get {A} fail (g : F → A) k :
  (∀ a, only_fails fail (k a)) → only_fails fail (s_get g k).
Proof. intros H f. apply H. Qed.

(** A guard that returns [fail] was not taken. *)
Lemma guard_not_taken b s1 s2 f t r fail :
  only_fails fail s1 → (∀ f t f', ¬ runs_on s1 f t f') → r ≠ fail →
  returns (s_seq (s_if b s1) s2) f t r → b = false ∧ returns s2 f t r.
Proof.
  intros Hf Hn Hr H. apply (returns_past _ _ _ _ _ fail) in H as (f1 & t1 & t2 & -> & H1 & H2);
    [|by apply only_fails_if|done].
  destruct b; [by apply Hn in H1|]. destruct H1 as [-> [= ->]]. done.
Qed.

Lemma return_does_not_run (m : Py unit) r f t f' :
  ¬ runs_on (s_seq (s_do m) (s_return r)) f t f'.
Proof.
  unfold runs_on. intros He.
  apply exec_bindp in He as [([f1 c] & t1 & t2 & -> & H1 & H2)|[_ ?]]; [|done].
  destruct c; simpl in H2; by destruct H2 as [_ ?].
Qed.

Lemma runs_let {A} (m : Py A) (k : A → stmt F R) f t f' :
  runs_on (s_let m k) f t f' →
  ∃ a t1 t2, t = t1 ++ t2 ∧ exec m t1 (Some (Ok a)) ∧ runs_on (k a) f t2 f'.
Proof.
  unfold runs_on, s_let. intros He.
  apply exec_bindp in He as [([a|e] & t1 & t2 & -> & H1 & H2)|[_ ?]]; [|by destruct H2 as [_ ?]|done].
  by exists a, t1, t2.
Qed.

Lemma runs_seq s1 s2 f t f' :
  runs_on (s_seq s1 s2) f t f' →
  ∃ f1 t1 t2, t = t1 ++ t2 ∧ runs_on s1 f t1 f1 ∧ runs_on s2 f1 t2 f'.
Proof.
  unfold runs_on, s_seq. intros He.
  apply exec_bindp in He as [([f1 c] & t1 & t2 & -> & H1 & H2)|[_ ?]]; [|done].
  destruct c; [by exists f1, t1, t2|by destruct H2 as [_ ?]..].
Qed.

(** A statement that ends in a [return] does not run to its end. *)
Definition always_returns s : Prop := ∀ f t f', ¬ runs_on s f t f'.

Lemma always_returns_return r : always_returns (s_return r).
Proof. by intros f t f' [_ ?]. Qed.

Lemma always_returns_seq s1 s2 : always_returns s2 → always_returns (s_seq s1 s2).
Proof. intros H f t f' (f1 & t1 & t2 & _ & _ & H2)%runs_seq. by apply H in H2. Qed.

Lemma always_returns_let {A} (m : Py A) k :
  (∀ a, always_returns (k a)) → always_returns (s_let m k).
Proof. intros H f t f' (a & t1 & t2 & _ & _ & H2)%runs_let. by apply H in H2. Qed.

(** The control calls that went through: one per instance, in order, none
    answered with an error. *)
Lemma s_control_runs {A} (instances : list A) ctrl complaint fail f t f' :
  runs_on (s_control instances ctrl complaint fail) f t f' →
  f' = f ∧ ∃ calls : list (trace * string),
    Forall2 (fun i c => exec (ctrl i) c.1 (Some (Ok c.2)) ∧ reports_error c.2 = false)
      instances calls ∧ t = concat calls.*1.
Proof.
  unfold s_control. revert f t. induction instances as [|i l IH]; intros f t H.
  { destruct H as [-> [= ->]]. split; [done|]. by exists []. }
  apply runs_seq in H as (f1 & t1 & t2 & -> & H1 & H2).
  apply runs_let in H1 as (reply & ta & tb & -> & Hr & H1).
  destruct (reports_error reply) eqn:E; [by apply return_does_not_run in H1|].
  destruct H1 as [-> [= <-]]. apply IH in H2 as (-> & calls & Hall & ->). split; [done|].
  exists ((ta, reply) :: calls). split; [by constructor|]. by rewrite app_nil_r.
Qed.

Lemma returns_return r0 f t r : returns (s_return r0) f t r → r = r0 ∧ t = [].
Proof. intros [f' [-> H]]. by injection H as _ ->. Qed.
End inversion.

Ltac only_fails :=
  lazymatch goal with
  | |- only_fails _ (s_seq _ _) => apply only_fails_seq; only_fails
  | |- only_fails _ (s_do _) => apply only_fails_do
  | |- only_fails _ (s_launch_with _ _ _ _) => apply only_fails_for; intros ?; only_fails
  | |- only_fails _ (s_launch _ _ _) => apply only_fails_for; intros ?; only_fails
  | |- only_fails _ (s_all_alive _ _) =>
      apply only_fails_get; intros ?; apply only_fails_for; intros ?; only_fails
  | |- only_fails _ (s_control _ _ _ _) => apply only_fails_for; intros ?; only_fails
  | |- only_fails _ (s_let _ _) => apply only_fails_let; intros ?; only_fails
  | |- only_fails _ (s_if _ _) => apply only_fails_if; only_fails
  | |- only_fails _ (s_for _ _) => apply only_fails_for; intros ?; only_fails
  | |- only_fails _ (s_get _ _) => apply only_fails_get; intros ?; only_fails
  | |- only_fails _ (s_return _) => apply only_fails_return
  | |- only_fails _ (s_assign _) => apply only_fails_assign
  | |- only_fails _ s_skip => apply only_fails_skip
  end.

Lemma supervise_ends {R} start (body : Z → stmt (list handle) R) dflt t r :
  exec (supervise start body dflt) t (Some (Ok r)) →
  ∃ server t0 t1 t2, t = t0 ++ t1 ++ t2 ∧ exec start t0 (Some (Ok server)) ∧
    (returns (body server.1) [] t1 r ∨ r = dflt ∧ ∃ f, runs_on (body server.1) [] t1 f).
Proof.
  intros (server & t0 & t' & -> & H0 & He)%exec_bind_ok.
  apply exec_bindp in He as [([f c] & t1 & t2 & -> & H1 & He)|[_ ?]]; [|done].
  exists server, t0, t1, t2. repeat split; [done|].
  apply exec_bindp in He as [([[]|e] & t3 & t4 & -> & H2 & He)|[_ ?]]; [| |done].
  - destruct c; destruct He as [_ [= ->]]; [right; eauto|left; by exists f].
  - by destruct He as [_ ?].
Qed.

Lemma supervise_returns {R} start (body : Z → stmt (list handle) R) dflt t r :
  exec (supervise start body dflt) t (Some (Ok r)) → r ≠ dflt →
  ∃ server t0 t1 t2, t = t0 ++ t1 ++ t2 ∧ exec start t0 (Some (Ok server)) ∧
    returns (body server.1) [] t1 r.
Proof.
  intros (server & t0 & t1 & t2 & -> & H0 & [H|[-> _]])%supervise_ends Hr; [|done].
  by exists server, t0, t1, t2.
Qed.

(** The single call of a computation that is one command. *)
Lemma exec_do_ok {A} (c : cmd) (k : reply c → Py A) t r :
  exec (Do c k) t r → ∃ x, Ev c x ∈ t.
Proof. intros (x & t' & -> & _). exists x. by left. Qed.

Lemma exec_run_proc argv timeout t p :
  exec (Do (RunProc argv timeout) Ret) t (Some (Ok p)) → Ev (RunProc argv timeout) (Ok p) ∈ t.
Proof. intros (x & t' & -> & _ & [= ->]). by left. Qed.

Lemma exec_communicate p timeout t out :
  exec (communicate p timeout) t (Some (Ok out)) → Ev (Communicate p timeout) (Ok out) ∈ t.
Proof. intros (x & t' & -> & _ & [= ->]). by left. Qed.

Lemma exec_wall_time t x : exec wall_time t (Some (Ok x)) → t = [Ev WallTime x].
Proof. by intros (y & t' & -> & -> & [= ->]). Qed.

Lemma exec_run_proc_only argv timeout t p :
  exec (Do (RunProc argv timeout) Ret) t (Some (Ok p)) → t = [Ev (RunProc argv timeout) (Ok p)].
Proof. by intros (y & t' & -> & -> & [= ->]). Qed.
