(* ===== verification/Throughput.v ===== *)
(** * bench/nats_sidecar_throughput_clean.py and
      bench/nats_sidecar_jetstream_storage_isolation.py

    The same measured run under several designs: the plain queue group, the
    JetStream durable consumer, and the latter on file or memory storage. *)
From S2P Require Import Prelude PyFloat PyStr PyM Pool Observe Report Harness.

(** What a successful run reports. *)
Record outcome := Outcome {
  pub_secs : float;
  pub_rate : float;
  e2e_secs : float;
  e2e_rate : float;
  total : option string;
  wrong : option string;
  ok : bool;
}.

(** [str(res)] of a run's result: the dict, or None. *)
Definition repr_outcome (res : option outcome) : list frag :=
  match res with
  | None => [FS "None"]
  | Some o =>
      [FS "{'pub_secs': "; FF EmptyString (pub_secs o); FS ", 'pub_rate': ";
       FF EmptyString (pub_rate o); FS ", 'e2e_secs': "; FF EmptyString (e2e_secs o);
       FS ", 'e2e_rate': "; FF EmptyString (e2e_rate o); FS ", 'total': "; repr_opt (total o);
       FS ", 'wrong': "; repr_opt (wrong o); FS ", 'ok': "; repr_bool (ok o); FS "}"]
  end.

(** [table[(mode, n)]]: the results kept for a mode and a size. *)
Abbreviation table := (list (string * Z * list outcome)).

Fixpoint cell (t : table) (mode : string) (n : Z) : list outcome :=
  match t with
  | [] => []
  | (mode', n', rs) :: t' =>
      if bool_decide (mode' = mode) && (n' =? n) then rs else cell t' mode n
  end.

(** [sum(sel(r) for r in rs) / len(rs)] *)
Definition average (float_sum : list float → float) (sel : outcome → float) (rs : list outcome) : float :=
  fquot (float_sum (sel <$> rs)) (of_int (Z.of_nat (length rs))).

(** The part of [run_one] the two scripts have in common: everything after the
    instances have been launched. *)
Section measured.
Context (home : string).

Definition poll_complaint (n : Z) (mode : string) : list frag :=
  [FS "  ["; FS mode; FS "] N="; FZ n; FS " instance exited early"].

Definition ctrl_complaint (n : Z) (mode reply : string) : list frag :=
  [FS "  ["; FS mode; FS "] N="; FZ n; FS " ctrl FAILED: "; FS reply].

Definition publish_complaint (n : Z) (mode err : string) : list frag :=
  [FS "  ["; FS mode; FS "] N="; FZ n; FS " publish FAILED: "; FS err].

Definition measured_run (n : Z) (mode : string) : stmt (list handle) (option outcome) :=
  s_do (sleep (fadd (lit 15 10) (fmul (lit 2 10) (of_int n)))) ;;;
  s_all_alive (fun _ => poll_complaint n mode) None ;;;
  s_get (fmap h_info) (fun subjects =>
    s_control subjects (fun subject => run_ctrl_on home subject filter_expression)
      (fun _ reply => ctrl_complaint n mode reply) None) ;;;
  s_do (sleep (lit 3 10)) ;;;
  sub <-- start_subfield home (OUTPUT_PREFIX +:+ ".>") "90000" ;;;
  s_do (sleep (lit 3 10)) ;;;
  t_start <-- wall_time ;;;
  pub <-- run_psql (if bool_decide (mode = "plain") then publish_plain_sql
                    else publish_stream_sql) 120 ;;;
  t_pub_done <-- wall_time ;;;
  s_if (negb (returncode pub =? 0))
    (s_do (eprint (publish_complaint n mode (proc_stderr pub))) ;;; s_return None) ;;;
  let secs := fsub t_pub_done t_start in
  rate <-- per_second secs ;;;
  sub_out <-- communicate sub 100 ;;;
  t_e2e_done <-- wall_time ;;;
  let e2e := fsub t_e2e_done t_start in
  let tw := tot_wrong (last_line sub_out) in
  s_return (Some (Outcome secs rate e2e (per_second_or_nan e2e) tw.1 tw.2
                    (verdict tw.1 tw.2))).

Lemma measured_run_tracked n mode : tracked home id (measured_run n mode).
Proof. unfold measured_run. track. Qed.

(** What a result rests on. *)
Definition backed_by (t : trace) (mode : string) (res : outcome) : Prop :=
  ∃ pub sub_pid out,
    Ev (RunProc (PSQL ++ [if bool_decide (mode = "plain") then publish_plain_sql
                          else publish_stream_sql]) 120) (Ok pub) ∈ t ∧
    returncode pub = 0 ∧
    Ev (Communicate sub_pid 100) (Ok out) ∈ t ∧
    tot_wrong (last_line out) = (total res, wrong res) ∧
    ok res = verdict (total res) (wrong res).

Lemma backed_by_app t1 t t2 mode res : backed_by t mode res → backed_by (t1 ++ t ++ t2) mode res.
Proof.
  intros (pub & sub & out & H1 & H2 & H3 & H4 & H5). exists pub, sub, out.
  rewrite !elem_of_app. tauto.
Qed.

(** What is averaged is what was verified. *)
Definition verified (t : trace) (mode : string) (o : outcome) : Prop :=
  total o = Some (py_str EXPECTED) ∧ wrong o = Some "0" ∧ backed_by t mode o.

Lemma verified_app t1 t t2 mode o : verified t mode o → verified (t1 ++ t ++ t2) mode o.
Proof. intros (H1 & H2 & H3). split; [done|]. split; [done|]. by apply backed_by_app. Qed.

Lemma ok_verified t mode o : backed_by t mode o → ok o = true ↔ verified t mode o.
Proof.
  intros Hb. pose proof Hb as (pub & sub & out & _ & _ & _ & _ & ->).
  unfold verified, verdict. rewrite andb_true_iff, !bool_decide_eq_true. tauto.
Qed.

(** One run of a series: its result is kept if it is [ok], and the rest
    follows. *)
Definition keep (o : option outcome) : list outcome :=
  match o with Some o => if ok o then [o] else [] | None => [] end.

(** The runs of a series: the calls of each and what came of it. *)
Definition series (run_one : Z → Py (option outcome)) (rs : list Z) (mode : string)
    (xs : list (trace * option outcome)) : Prop :=
  Forall2 (fun r x => exec (run_one r) x.1 (Some (Ok x.2))) rs xs ∧
  Forall (fun x => ∀ o, x.2 = Some o → ok o = true ↔ verified x.1 mode o) xs.

Lemma series_nil run_one mode : series run_one [] mode [].
Proof. by split. Qed.

Lemma series_cons run_one r rs mode t o xs :
  exec (run_one r) t (Some (Ok o)) → (∀ o', o = Some o' → backed_by t mode o') →
  series run_one rs mode xs → series run_one (r :: rs) mode ((t, o) :: xs).
Proof.
  intros He Hb [H1 H2]. split; constructor; [done..| |done].
  intros o' Ho. apply ok_verified. by apply Hb.
Qed.

Lemma measured_run_backed n mode f t res :
  returns (measured_run n mode) f t (Some res) → backed_by t mode res.
Proof.
  unfold measured_run. intros H.
  do 4 (eapply (returns_past _ _ _ _ _ None) in H as (? & ? & ? & -> & _ & H); [|only_fails|done]).
  apply returns_let in H as (sub & ? & ? & -> & _ & H).
  eapply (returns_past _ _ _ _ _ None) in H as (? & ? & ? & -> & _ & H); [|only_fails|done].
  apply returns_let in H as (t0 & ? & ? & -> & _ & H).
  apply returns_let in H as (pub & tp & ? & -> & Hpub & H).
  apply returns_let in H as (t1 & ? & ? & -> & _ & H).
  eapply (guard_not_taken _ _ _ _ _ _ None) in H as [Hrc H];
    [|only_fails|by intros; apply return_does_not_run|done].
  apply returns_let in H as (rate & ? & ? & -> & _ & H).
  apply returns_let in H as (out & tc & ? & -> & Hout & H).
  apply returns_let in H as (t2 & ? & ? & -> & _ & H).
  apply returns_return in H as [[= ->] ->].
  apply exec_run_proc in Hpub. apply exec_communicate in Hout.
  exists pub, sub, out. rewrite !elem_of_app. split; [tauto|].
  split; [apply negb_false_iff, Z.eqb_eq in Hrc; done|]. split; [tauto|].
  simpl. by destruct (tot_wrong _).
Qed.
End measured.

(** ** nats_sidecar_throughput_clean.py *)

Module Clean.
Definition INPUT_STREAM : string := "SC_CLEAN_INPUT".
Definition DURABLE_NAME : string := "sc-clean-durable".
Definition DELIVER_SUBJECT : string := "sc.clean.deliver".
Definition DELIVER_GROUP : string := "sc-clean-group".

Section script.
Context (home : string).

Definition start_server (tag : string) : Py (Z * Z) :=
  start_server_on home ("/tmp/nsc_clean_store_" +:+ tag)
    ("/tmp/nsc_clean_server_" +:+ tag +:+ ".log").

Definition start_sidecar_plain (i : Z) (tag : string) : Py (Z * Z) :=
  start_logged ("/tmp/nsc_clean_sidecar_plain_" +:+ tag +:+ "_" +:+ py_str i +:+ ".log")
    [SIDECAR home; "-a"; "127.0.0.1"; "-p"; "4222"; "-i"; INPUT_SUBJECT;
     "--queue-group"; "qg-clean"; "--attr"; FILTER_FIELD +:+ ":string"; "--engine"; "atree";
     "--output-prefix"; OUTPUT_PREFIX;
     "--subscribe-subject"; "sc.clean.plain.ctrl." +:+ py_str i;
     "--workers"; "2"; "--lease-bucket"; "sc-clean-plain-leases-" +:+ tag].

Definition start_sidecar_js (i : Z) (tag : string) (max_ack_pending : Z) : Py (Z * Z) :=
  start_logged ("/tmp/nsc_clean_sidecar_js_" +:+ tag +:+ "_" +:+ py_str i +:+ ".log")
    [SIDECAR home; "-a"; "127.0.0.1"; "-p"; "4222"; "-i"; INPUT_SUBJECT;
     "--input-stream"; INPUT_STREAM; "--consumer-durable-name"; DURABLE_NAME;
     "--consumer-deliver-subject"; DELIVER_SUBJECT;
     "--consumer-deliver-group"; DELIVER_GROUP;
     "--consumer-max-ack-pending"; py_str max_ack_pending; "--consumer-ack-wait"; "30";
     "--attr"; FILTER_FIELD +:+ ":string"; "--engine"; "atree";
     "--output-prefix"; OUTPUT_PREFIX;
     "--subscribe-subject"; "sc.clean.js.ctrl." +:+ tag +:+ "." +:+ py_str i;
     "--workers"; "2"; "--lease-bucket"; "sc-clean-js-leases-" +:+ tag].

Definition run_ctrl (subscribe_subject : string) : Py string :=
  run_ctrl_on home subscribe_subject filter_expression.

(** The instance [run_one] starts, and the control subject it keeps. *)
Definition start_instance (tag mode : string) (i : Z) : Py (Z * Z) :=
  if bool_decide (mode = "plain") then start_sidecar_plain i tag
  else start_sidecar_js i tag 2000.

Definition ctrl_subject (tag mode : string) (i : Z) : string :=
  if bool_decide (mode = "plain") then "sc.clean.plain.ctrl." +:+ py_str i
  else "sc.clean.js.ctrl." +:+ tag +:+ "." +:+ py_str i.

Definition run_one (n : Z) (tag mode : string) : Py (option outcome) :=
  supervise (start_server tag)
    (fun _ => s_launch n (start_instance tag mode) (ctrl_subject tag mode) ;;;
              measured_run home n mode)
    None.

Definition run_tag (n : Z) (mode : string) (r : Z) : string :=
  mode +:+ py_str n +:+ "_" +:+ py_str r.

(** The loop of [run_n_avg] over the remaining run numbers. *)
Fixpoint run_each (n : Z) (mode : string) (rs : list Z) (results : list outcome)
  : Py (list outcome) :=
  match rs with
  | [] => ret results
  | r :: rs' =>
      res <- run_one n (run_tag n mode r) mode;;
      match res with
      | Some o =>
          if ok o then
            print [FS "  ["; FS mode; FS "] N="; FZ n; FS " run "; FZ r; FS ": pub_rate=";
                   FF ".0f" (pub_rate o); FS "/s e2e_rate="; FF ".0f" (e2e_rate o);
                   FS "/s total="; FO (total o); FS " wrong="; FO (wrong o)];;
            run_each n mode rs' (results ++ [o])
          else
            eprint ([FS "  ["; FS mode; FS "] N="; FZ n; FS " run "; FZ r;
                     FS ": FAILED/incorrect ("] ++ repr_outcome res ++ [FS ")"]);;
            run_each n mode rs' results
      | None =>
          eprint ([FS "  ["; FS mode; FS "] N="; FZ n; FS " run "; FZ r;
                   FS ": FAILED/incorrect ("] ++ repr_outcome res ++ [FS ")"]);;
          run_each n mode rs' results
      end
  end.

Definition run_n_avg (n : Z) (mode : string) (runs : Z) : Py (list outcome) :=
  run_each n mode (range 0 runs) [].

Definition ns : list Z := [1; 4; 8; 16; 32].

(** [for mode in ("plain", "js"): for n in ns: ...] *)
Fixpoint sweep_ns (mode : string) (l : list Z) (t : table) : Py table :=
  match l with
  | [] => ret t
  | n :: l' => rs <- run_n_avg n mode 2;; sweep_ns mode l' (t ++ [(mode, n, rs)])
  end.

Fixpoint sweep (modes : list string) (t : table) : Py table :=
  match modes with
  | [] => ret t
  | mode :: modes' =>
      print [FS "=== mode="; FS mode; FS " ==="];;
      t' <- sweep_ns mode ns t;;
      sweep modes' t'
  end.

(** [sum] of floats, whose rounding depends on the interpreter. *)
Context (float_sum : list float → float).

(** [fmt(mode)] *)
Definition fmt (t : table) (mode : string) (n : Z) : frag * frag :=
  match cell t mode n with
  | [] => (FS "FAIL", FS "FAIL")
  | rs => (FF ".0f" (average float_sum pub_rate rs), FF ".0f" (average float_sum e2e_rate rs))
  end.

Definition summary_line (t : table) (n : Z) : list frag :=
  let '(pp, pe) := fmt t "plain" n in
  let '(jp, je) := fmt t "js" n in
  [FI ">3" n; FS "  "; FPad ">12" [pp]; FS "  "; FPad ">12" [pe]; FS "  "; FPad ">12" [jp];
   FS "  "; FPad ">12" [je]].

Definition main : Py unit :=
  t <- sweep ["plain"; "js"] [];;
  print [FS newline; FS "=== SUMMARY ==="];;
  print [FPad ">3" [FS "N"]; FS "  "; FPad ">12" [FS "plain pub/s"]; FS "  ";
         FPad ">12" [FS "plain e2e/s"]; FS "  "; FPad ">12" [FS "js pub/s"]; FS "  ";
         FPad ">12" [FS "js e2e/s"]];;
  for_ ns (fun n => print (summary_line t n)).

(** *** Checks *)

Lemma clean_start_instance_starts tag mode i : starts home (start_instance tag mode i).
Proof.
  unfold start_instance. case_bool_decide;
    (eapply start_logged_starts; [done|apply sidecar_is_nats]).
Qed.

Lemma clean_run_one_cleans n tag mode :
  wp (run_one n tag mode) (fun t r => is_Some r → cleaned_up home t).
Proof.
  apply supervise_cleans; [apply start_server_starts|]. intros _.
  apply tracked_seq; [|apply measured_run_tracked].
  apply tracked_launch. intros i. apply clean_start_instance_starts.
Qed.

Lemma clean_run_one_backed n tag mode t res :
  exec (run_one n tag mode) t (Some (Ok (Some res))) → backed_by t mode res.
Proof.
  intros (server & t0 & t1 & t2 & -> & _ & H)%supervise_returns; [|done].
  eapply (returns_past _ _ _ _ _ None) in H as (f & ta & tb & -> & _ & H); [|only_fails|done].
  apply measured_run_backed in H as (pub & sub & out & H1 & H2 & H3 & H4 & H5).
  exists pub, sub, out. rewrite !elem_of_app. tauto.
Qed.

Lemma clean_run_each_series n mode rs results t results' :
  exec (run_each n mode rs results) t (Some (Ok results')) →
  ∃ xs, series (fun r => run_one n (run_tag n mode r) mode) rs mode xs ∧
    in_order xs.*1 t ∧ results' = results ++ (xs.*2 ≫= keep).
Proof.
  revert results t. induction rs as [|r rs IH]; intros results t He.
  { destruct He as [-> [= ->]]. exists []. rewrite app_nil_r. by split; [apply series_nil|]. }
  apply exec_bind_ok in He as (o & t1 & t2 & -> & H1 & He).
  assert (∃ ta tb, t2 = ta ++ tb ∧
    exec (run_each n mode rs (results ++ keep o)) tb (Some (Ok results'))) as (ta & tb & -> & Hrest).
  { destruct o as [o|]; [simpl in He; simpl; destruct (ok o)|]; simpl in He |- *;
      destruct He as (x & t' & -> & He); rewrite ?app_nil_r in *;
      by eexists [_], t'. }
  apply IH in Hrest as (xs & Hxs & Hord & ->). exists ((t1, o) :: xs). split.
  - apply series_cons; [done| |done]. intros o' ->. by eapply clean_run_one_backed.
  - split; [|by rewrite !fmap_cons, bind_cons, app_assoc].
    exists [], (ta ++ tb). split; [done|]. by apply in_order_app_l.
Qed.
End script.
End Clean.

(** ** nats_sidecar_jetstream_storage_isolation.py *)

Module Isolation.
Definition INPUT_STREAM : string := "SC_ISO_INPUT".
Definition DURABLE_NAME : string := "sc-iso-durable".
Definition DELIVER_SUBJECT : string := "sc.iso.deliver".
Definition DELIVER_GROUP : string := "sc-iso-group".

Section script.
Context (home : string).

Definition start_server (tag : string) : Py (Z * Z) :=
  start_server_on home ("/tmp/nsc_iso_store_" +:+ tag)
    ("/tmp/nsc_iso_server_" +:+ tag +:+ ".log").

Definition start_sidecar_plain (i : Z) (tag : string) : Py (Z * Z) :=
  start_logged ("/tmp/nsc_iso_sidecar_plain_" +:+ tag +:+ "_" +:+ py_str i +:+ ".log")
    [SIDECAR home; "-a"; "127.0.0.1"; "-p"; "4222"; "-i"; INPUT_SUBJECT;
     "--queue-group"; "qg-iso"; "--attr"; FILTER_FIELD +:+ ":string"; "--engine"; "atree";
     "--output-prefix"; OUTPUT_PREFIX;
     "--subscribe-subject"; "sc.iso.plain.ctrl." +:+ py_str i;
     "--workers"; "2"; "--lease-bucket"; "sc-iso-plain-leases-" +:+ tag].

Definition start_sidecar_js (i : Z) (tag storage : string) (max_ack_pending : Z) : Py (Z * Z) :=
  start_logged ("/tmp/nsc_iso_sidecar_js_" +:+ storage +:+ "_" +:+ tag +:+ "_" +:+ py_str i
                  +:+ ".log")
    [SIDECAR home; "-a"; "127.0.0.1"; "-p"; "4222"; "-i"; INPUT_SUBJECT;
     "--input-stream"; INPUT_STREAM; "--input-stream-storage"; storage;
     "--consumer-durable-name"; DURABLE_NAME;
     "--consumer-deliver-subject"; DELIVER_SUBJECT;
     "--consumer-deliver-group"; DELIVER_GROUP;
     "--consumer-max-ack-pending"; py_str max_ack_pending; "--consumer-ack-wait"; "30";
     "--attr"; FILTER_FIELD +:+ ":string"; "--engine"; "atree";
     "--output-prefix"; OUTPUT_PREFIX;
     "--subscribe-subject"; "sc.iso.js.ctrl." +:+ storage +:+ "." +:+ tag +:+ "." +:+ py_str i;
     "--workers"; "2"; "--lease-bucket"; "sc-iso-js-leases-" +:+ storage +:+ "-" +:+ tag].

Definition run_ctrl (subscribe_subject : string) : Py string :=
  run_ctrl_on home subscribe_subject filter_expression.

(** The storage of a JetStream mode. *)
Definition storage_of (mode : string) : string :=
  if bool_decide (mode = "js_file") then "file" else "memory".

Definition start_instance (tag mode : string) (i : Z) : Py (Z * Z) :=
  if bool_decide (mode = "plain") then start_sidecar_plain i tag
  else start_sidecar_js i tag (storage_of mode) 2000.

Definition ctrl_subject (tag mode : string) (i : Z) : string :=
  if bool_decide (mode = "plain") then "sc.iso.plain.ctrl." +:+ py_str i
  else "sc.iso.js.ctrl." +:+ storage_of mode +:+ "." +:+ tag +:+ "." +:+ py_str i.

Definition run_one (n : Z) (tag mode : string) : Py (option outcome) :=
  supervise (start_server tag)
    (fun _ => s_launch n (start_instance tag mode) (ctrl_subject tag mode) ;;;
              measured_run home n mode)
    None.

Definition run_tag (n : Z) (mode : string) (r : Z) : string :=
  mode +:+ py_str n +:+ "_" +:+ py_str r.

Fixpoint run_each (n : Z) (mode : string) (rs : list Z) (results : list outcome)
  : Py (list outcome) :=
  match rs with
  | [] => ret results
  | r :: rs' =>
      res <- run_one n (run_tag n mode r) mode;;
      match res with
      | Some o =>
          if ok o then
            print [FS "  ["; FS mode; FS "] N="; FZ n; FS " run "; FZ r; FS ": pub_rate=";
                   FF ".0f" (pub_rate o); FS "/s e2e_rate="; FF ".0f" (e2e_rate o);
                   FS "/s total="; FO (total o); FS " wrong="; FO (wrong o)];;
            run_each n mode rs' (results ++ [o])
          else
            eprint ([FS "  ["; FS mode; FS "] N="; FZ n; FS " run "; FZ r;
                     FS ": FAILED/incorrect ("] ++ repr_outcome res ++ [FS ")"]);;
            run_each n mode rs' results
      | None =>
          eprint ([FS "  ["; FS mode; FS "] N="; FZ n; FS " run "; FZ r;
                   FS ": FAILED/incorrect ("] ++ repr_outcome res ++ [FS ")"]);;
          run_each n mode rs' results
      end
  end.

Definition run_n_avg (n : Z) (mode : string) (runs : Z) : Py (list outcome) :=
  run_each n mode (range 0 runs) [].

Definition ns : list Z := [8; 12; 16].
Definition modes : list string := ["plain"; "js_file"; "js_memory"].

Fixpoint sweep_ns (mode : string) (l : list Z) (t : table) : Py table :=
  match l with
  | [] => ret t
  | n :: l' => rs <- run_n_avg n mode 2;; sweep_ns mode l' (t ++ [(mode, n, rs)])
  end.

Fixpoint sweep (ms : list string) (t : table) : Py table :=
  match ms with
  | [] => ret t
  | mode :: ms' =>
      print [FS "=== mode="; FS mode; FS " ==="];;
      t' <- sweep_ns mode ns t;;
      sweep ms' t'
  end.

Context (float_sum : list float → float).

Definition avg_e2e (t : table) (mode : string) (n : Z) : option float :=
  match cell t mode n with
  | [] => None
  | rs => Some (average float_sum e2e_rate rs)
  end.

(** [if x]: neither [None] nor zero. *)
Definition truthy (x : option float) : bool :=
  match x with Some v => negb (is_zero v) | None => false end.

Definition rate_frag (x : option float) : frag :=
  match x with
  | Some v => if is_zero v then FS "FAIL" else FF ".0f" v
  | None => FS "FAIL"
  end.

(** [(jm - jf) / gap if gap > 0 else nan]: the share of the gap between
    plain and file storage that memory storage recovers. *)
Definition recovered (p jf jm : float) : float :=
  let gap := fsub p jf in
  if fgt gap fzero then fquot (fsub jm jf) gap else fnan.

Definition summary_line (t : table) (n : Z) : list frag :=
  let p := avg_e2e t "plain" n in
  let jf := avg_e2e t "js_file" n in
  let jm := avg_e2e t "js_memory" n in
  let '(fs, mr) :=
    match p, jf, jm with
    | Some p', Some jf', Some jm' =>
        if truthy p && truthy jf && truthy jm then
          ([FF ".2f" (fquot p' jf'); FS "x"],
           [FF ".0f" (fmul (recovered p' jf' jm') (of_int 100)); FS "%"])
        else ([FS "N/A"], [FS "N/A"])
    | _, _, _ => ([FS "N/A"], [FS "N/A"])
    end in
  [FI ">3" n; FS "  "; FPad ">10" [rate_frag p]; FS "  "; FPad ">10" [rate_frag jf]; FS "  ";
   FPad ">10" [rate_frag jm]; FS "  "; FPad ">14" fs; FS "  "; FPad ">13" mr].

Definition main : Py unit :=
  t <- sweep modes [];;
  print [FS newline; FS "=== SUMMARY (e2e rate, avg of successful runs) ==="];;
  print [FPad ">3" [FS "N"]; FS "  "; FPad ">10" [FS "plain"]; FS "  ";
         FPad ">10" [FS "js_file"]; FS "  "; FPad ">10" [FS "js_memory"]; FS "  ";
         FPad ">14" [FS "file_slowdown"]; FS "  "; FPad ">13" [FS "mem_recovers"]];;
  for_ ns (fun n => print (summary_line t n)).

Lemma isolation_start_instance_starts tag mode i : starts home (start_instance tag mode i).
Proof.
  unfold start_instance. case_bool_decide;
    (eapply start_logged_starts; [done|apply sidecar_is_nats]).
Qed.

Lemma isolation_run_one_cleans n tag mode :
  wp (run_one n tag mode) (fun t r => is_Some r → cleaned_up home t).
Proof.
  apply supervise_cleans; [apply start_server_starts|]. intros _.
  apply tracked_seq; [|apply measured_run_tracked].
  apply tracked_launch. intros i. apply isolation_start_instance_starts.
Qed.

Lemma isolation_run_one_backed n tag mode t res :
  exec (run_one n tag mode) t (Some (Ok (Some res))) → backed_by t mode res.
Proof.
  intros (server & t0 & t1 & t2 & -> & _ & H)%supervise_returns; [|done].
  eapply (returns_past _ _ _ _ _ None) in H as (f & ta & tb & -> & _ & H); [|only_fails|done].
  apply measured_run_backed in H as (pub & sub & out & H1 & H2 & H3 & H4 & H5).
  exists pub, sub, out. rewrite !elem_of_app. tauto.
Qed.

Lemma isolation_run_each_series n mode rs results t results' :
  exec (run_each n mode rs results) t (Some (Ok results')) →
  ∃ xs, series (fun r => run_one n (run_tag n mode r) mode) rs mode xs ∧
    in_order xs.*1 t ∧ results' = results ++ (xs.*2 ≫= keep).
Proof.
  revert results t. induction rs as [|r rs IH]; intros results t He.
  { destruct He as [-> [= ->]]. exists []. rewrite app_nil_r. by split; [apply series_nil|]. }
  apply exec_bind_ok in He as (o & t1 & t2 & -> & H1 & He).
  assert (∃ ta tb, t2 = ta ++ tb ∧
    exec (run_each n mode rs (results ++ keep o)) tb (Some (Ok results'))) as (ta & tb & -> & Hrest).
  { destruct o as [o|]; [simpl in He; simpl; destruct (ok o)|]; simpl in He |- *;
      destruct He as (x & t' & -> & He); rewrite ?app_nil_r in *;
      by eexists [_], t'. }
  apply IH in Hrest as (xs & Hxs & Hord & ->). exists ((t1, o) :: xs). split.
  - apply series_cons; [done| |done]. intros o' ->. by eapply isolation_run_one_backed.
  - split; [|by rewrite !fmap_cons, bind_cons, app_assoc].
    exists [], (ta ++ tb). split; [done|]. by apply in_order_app_l.
Qed.
End script.
End Isolation.

(** ** Properties *)

(** C28. A throughput series (throughput_clean) averages exactly the verified
    runs.  It makes its [runs] runs one after the other; what it returns is, in
    order, the results of the runs that are [ok]; and a run is [ok] if and only
    if its publish statement succeeded and its subscriber's last line reported
    all 21683 expected matches and none wrong. *)
Theorem clean_averages_verified_runs home n mode runs t results :
  exec (Clean.run_n_avg home n mode runs) t (Some (Ok results)) →
  ∃ xs, series (fun r => Clean.run_one home n (Clean.run_tag n mode r) mode) (range 0 runs) mode xs ∧
    in_order xs.*1 t ∧ results = xs.*2 ≫= keep.
Proof.
  unfold Clean.run_n_avg. intros He. apply Clean.clean_run_each_series in He as (xs & H1 & H2 & ->).
  by exists xs.
Qed.

(** A storage_isolation series, in each of its three modes, makes its runs
    one after the other and returns, in order, exactly the results of those
    whose publish statement succeeded and whose subscriber reported all the
    expected matches and none wrong. *)
Theorem isolation_averages_verified_runs home n mode runs t results :
  exec (Isolation.run_n_avg home n mode runs) t (Some (Ok results)) →
  ∃ xs,
    series (fun r => Isolation.run_one home n (Isolation.run_tag n mode r) mode) (range 0 runs) mode xs ∧
    in_order xs.*1 t ∧ results = xs.*2 ≫= keep.
Proof.
  unfold Isolation.run_n_avg. intros He. apply Isolation.isolation_run_each_series in He as (xs & H1 & H2 & ->).
  by exists xs.
Qed.

Module ThroughputExample.
Definition done : answer := ARun (Completed 0 "ok" EmptyString).

(** One instance, one run, all matches received. *)
Definition setup : list answer :=
  [ABool false; AUnit; AInt 3; AInt 100; AUnit; AInt 4; AInt 101; AUnit; AUnit; done; AUnit;
   AInt 102; AUnit; AFloat (of_int 10)].

Definition verdict_line : string := sub_done_line 21683 0 "0.9" "24092.2" +:+ newline.

Definition success : list answer :=
  setup ++ [done; AFloat (of_int 12); AStr verdict_line; AFloat (of_int 13)] ++
  [AUnit; AInt 0; AUnit; AUnit; AInt 0; AUnit].

(** The publish statement fails. *)
Definition failure : list answer :=
  setup ++ [ARun (Completed 1 EmptyString "no such table"); AFloat (of_int 12); AUnit] ++
  [AUnit; AInt 0; AUnit; AUnit; AInt 0; AUnit].

(** A good run, then a failed one. *)
Definition two_runs : list answer := success ++ [AUnit] ++ failure ++ [AUnit].

Definition result (p : Py (list outcome)) : list outcome :=
  match Observe.outcome p two_runs with Some (Some (Ok l)) => l | _ => [] end.
End ThroughputExample.

Lemma clean_averages_verified_runs_witness :
  ∃ xs,
    series (fun r => Clean.run_one "/home/u" 1 (Clean.run_tag 1 "plain" r) "plain") (range 0 2) "plain" xs ∧
    in_order xs.*1 (replayed (Clean.run_n_avg "/home/u" 1 "plain" 2) ThroughputExample.two_runs) ∧
    ThroughputExample.result (Clean.run_n_avg "/home/u" 1 "plain" 2) = xs.*2 ≫= keep.
Proof.
  apply (clean_averages_verified_runs "/home/u" 1 "plain" 2).
  apply replayed_exec. vm_compute. reflexivity.
Defined.

Lemma isolation_averages_verified_runs_witness :
  ∃ xs,
    series (fun r => Isolation.run_one "/home/u" 1 (Isolation.run_tag 1 "js_file" r) "js_file")
      (range 0 2) "js_file" xs ∧
    in_order xs.*1 (replayed (Isolation.run_n_avg "/home/u" 1 "js_file" 2) ThroughputExample.two_runs) ∧
    ThroughputExample.result (Isolation.run_n_avg "/home/u" 1 "js_file" 2) = xs.*2 ≫= keep.
Proof.
  apply (isolation_averages_verified_runs "/home/u" 1 "js_file" 2).
  apply replayed_exec. vm_compute. reflexivity.
Defined.

(** Of the two runs of this example the first is kept. *)
Example two_runs_kept :
  length (ThroughputExample.result (Clean.run_n_avg "/home/u" 1 "plain" 2)) = 1%nat.
Proof. vm_compute. reflexivity. Qed.
