(* ===== verification/Jetstream.v ===== *)
(** * bench/nats_sidecar_jetstream_consumer.py and
      bench/nats_sidecar_n1_jetstream_repro.py

    The JetStream checks: an N=32 plain load whose teardown is the stress, a
    run whose deliveries are counted, and the loops that count stalls. *)
From S2P Require Import Prelude PyFloat PyStr PyM Pool Observe Report Harness.

(** [for i in range(1, n + 1)] control calls whose errors are only printed. *)
Definition s_control_warn {F R} (ids : list Z) (ctrl : Z → Py string)
    (complaint : Z → string → list frag) : stmt F R :=
  s_for ids (fun i =>
    reply <-- ctrl i ;;;
    s_if (reports_error reply) (s_do (eprint (complaint i reply)))).

(** The warm-up run of both scripts, after its server has started: publish
    and drain through 32 plain instances; nothing it sees is fatal. *)
Definition n32_body (home : string) (start : Z → Py (Z * Z)) (ctrl : Z → Py string)
  : stmt (list handle) unit :=
  s_launch 32 start (fun _ => EmptyString) ;;;
  s_do (sleep (fadd (lit 25 10) (fmul (lit 2 10) (of_int 32)))) ;;;
  s_control_warn (range 1 33) ctrl (fun i reply =>
    [FS "  N=32 warmup instance "; FZ i; FS " ctrl FAILED: "; FS reply]) ;;;
  s_do (sleep (lit 3 10)) ;;;
  sub <-- start_subfield home (OUTPUT_PREFIX +:+ ".>") "90000" ;;;
  s_do (sleep (lit 3 10)) ;;;
  pub <-- run_psql publish_plain_sql 120 ;;;
  s_if (negb (returncode pub =? 0))
    (s_do (eprint [FS "  N=32 warmup publish FAILED: "; FS (proc_stderr pub)])) ;;;
  s_do (communicate sub 100;; ret ()).

(** [stalls += ...] over the trials of a repro: [None] and a stalled run count
    alike. *)
Definition counts_as_stall (stalled : option bool) : Z :=
  match stalled with Some false => 0 | _ => 1 end.

(** ** nats_sidecar_jetstream_consumer.py *)

Module Consumer.
Definition STORE_BASE : string := "/tmp/jssc_store".
Definition INPUT_STREAM : string := "SC_JS_INPUT".
Definition DURABLE_NAME : string := "sc-js-durable".
Definition DELIVER_SUBJECT : string := "sc.js.deliver".
Definition DELIVER_GROUP : string := "sc-js-group".

Record js_result := JsResult {
  total : option string;
  wrong : option string;
  stalled : bool;
  pub_secs : float;
  per_instance : option (list (option Z));
}.

Section script.
Context (home : string).

Definition start_server (tag : string) : Py (Z * Z) :=
  start_server_on home (STORE_BASE +:+ "_" +:+ tag) ("/tmp/jssc_server_" +:+ tag +:+ ".log").

Definition start_sidecar_plain (i : Z) (tag : string) : Py (Z * Z) :=
  start_logged ("/tmp/jssc_sidecar_plain_" +:+ tag +:+ "_" +:+ py_str i +:+ ".log")
    [SIDECAR home; "-a"; "127.0.0.1"; "-p"; "4222"; "-i"; INPUT_SUBJECT;
     "--queue-group"; "qg-real"; "--attr"; FILTER_FIELD +:+ ":string"; "--engine"; "atree";
     "--output-prefix"; OUTPUT_PREFIX;
     "--subscribe-subject"; "sc.jssc.plain.ctrl." +:+ py_str i;
     "--workers"; "2"; "--lease-bucket"; "sc-jssc-plain-leases-" +:+ tag].

Definition js_log_path (i : Z) (tag : string) : string :=
  "/tmp/jssc_sidecar_js_" +:+ tag +:+ "_" +:+ py_str i +:+ ".log".

Definition start_sidecar_js (i : Z) (tag : string) (max_ack_pending : Z) : Py (Z * Z) :=
  start_logged (js_log_path i tag)
    [SIDECAR home; "-a"; "127.0.0.1"; "-p"; "4222"; "-i"; INPUT_SUBJECT;
     "--input-stream"; INPUT_STREAM; "--consumer-durable-name"; DURABLE_NAME;
     "--consumer-deliver-subject"; DELIVER_SUBJECT;
     "--consumer-deliver-group"; DELIVER_GROUP;
     "--consumer-max-ack-pending"; py_str max_ack_pending; "--consumer-ack-wait"; "30";
     "--attr"; FILTER_FIELD +:+ ":string"; "--engine"; "atree";
     "--output-prefix"; OUTPUT_PREFIX;
     "--subscribe-subject"; "sc.jssc.js.ctrl." +:+ tag +:+ "." +:+ py_str i;
     "--workers"; "2"; "--lease-bucket"; "sc-jssc-js-leases-" +:+ tag;
     "--stats-interval"; "1"].

Definition run_ctrl (subscribe_subject : string) : Py string :=
  run_ctrl_on home subscribe_subject filter_expression.

Definition run_n32_load : Py unit :=
  supervise (start_server "32")
    (fun _ => n32_body home (fun i => start_sidecar_plain i "32")
                (fun i => run_ctrl ("sc.jssc.plain.ctrl." +:+ py_str i))) ().

(** [[instance_processed_count(log_path) for _, _, log_path in sidecars]] *)
Fixpoint read_counts (hs : list handle) : Py (list (option Z)) :=
  match hs with
  | [] => ret []
  | h :: hs' =>
      c <- instance_processed_count (h_info h);;
      cs <- read_counts hs';;
      ret (c :: cs)
  end.

Definition per_instance_counts (n : Z) (hs : list handle) : Py (option (list (option Z))) :=
  if 1 <? n then sleep (lit 15 10);; cs <- read_counts hs;; ret (Some cs) else ret None.

Definition run_n_jetstream (n : Z) (tag : string) : Py (option js_result) :=
  supervise (start_server tag) (fun _ =>
    s_launch n (fun i => start_sidecar_js i tag 2000) (fun i => js_log_path i tag) ;;;
    s_do (sleep (fadd (lit 15 10) (fmul (lit 2 10) (of_int n)))) ;;;
    s_all_alive (fun h => [FS "  N="; FZ n; FS " instance exited early - see "; FS (h_info h)])
      None ;;;
    s_control (range 1 (n + 1))
      (fun i => run_ctrl ("sc.jssc.js.ctrl." +:+ tag +:+ "." +:+ py_str i))
      (fun i reply => [FS "  N="; FZ n; FS " instance "; FZ i; FS " ctrl FAILED: "; FS reply])
      None ;;;
    s_do (sleep (lit 3 10)) ;;;
    sub <-- start_subfield home (OUTPUT_PREFIX +:+ ".>") "90000" ;;;
    s_do (sleep (lit 3 10)) ;;;
    t0 <-- wall_time ;;;
    pub <-- run_psql publish_stream_sql 120 ;;;
    t1 <-- wall_time ;;;
    s_if (negb (returncode pub =? 0))
      (s_do (eprint [FS "  N="; FZ n; FS " JetStream publish FAILED: "; FS (proc_stderr pub)])
         ;;; s_return None) ;;;
    sub_out <-- communicate sub 100 ;;;
    let tw := tot_wrong (last_line sub_out) in
    st <-- lift (Report.stalled tw.1) ;;;
    s_get id (fun hs =>
      counts <-- per_instance_counts n hs ;;;
      s_return (Some (JsResult tw.1 tw.2 st (fsub t1 t0) counts)))) None.

Definition integration_check (n : Z) : Py bool :=
  print [FS "=== Integration check: N="; FZ n;
         FS " JetStream-consumer instances, real ground truth ==="];;
  result <- run_n_jetstream n ("integ" +:+ py_str n);;
  match result with
  | None => print [FS "  FAILED: run_n_jetstream returned None"];; ret false
  | Some r =>
      print [FS "  total="; FO (total r); FS " wrong="; FO (wrong r); FS " expected=";
             FZ EXPECTED; FS " stalled="; FS (if stalled r then "True" else "False");
             FS " pub_secs="; FF ".2f" (pub_secs r)];;
      print [FS "  per-instance processed counts: ";
             match per_instance r with Some cs => FLZ cs | None => FS "None" end];;
      ret (negb (stalled r) && bool_decide (total r = Some (py_str EXPECTED)))
  end.

(** The trials [ts] of [stress_repro]. *)
Fixpoint stress_trials (ts : list Z) (stalls : Z) : Py Z :=
  match ts with
  | [] => ret stalls
  | t :: ts' =>
      run_n32_load;;
      result <- run_n_jetstream 1 "stress1";;
      match result with
      | None =>
          print [FS "  trial "; FZ t; FS ": FAILED (run returned None)"];;
          stress_trials ts' (stalls + 1)
      | Some r =>
          print [FS "  trial "; FZ t; FS ": total="; FO (total r); FS " wrong="; FO (wrong r);
                 FS " pub_secs="; FF ".2f" (pub_secs r); FS " -> ";
                 FS (if stalled r then "STALLED" else "clean")];;
          stress_trials ts' (if stalled r then stalls + 1 else stalls)
      end
  end.

Definition stress_repro (trials : Z) : Py Z :=
  print [FS "=== Stress repro: N=32 teardown -> immediate N=1 JetStream-consumer burst, ";
         FZ trials; FS " trials ==="];;
  stalls <- stress_trials (range 1 (trials + 1)) 0;;
  print [FS "=== Stress repro result: "; FZ stalls; FS "/"; FZ trials; FS " trials stalled ==="];;
  ret stalls.

(** [str(result)]: the dict, or None. *)
Definition repr_result (res : option js_result) : list frag :=
  match res with
  | None => [FS "None"]
  | Some r =>
      [FS "{'total': "; repr_opt (total r); FS ", 'wrong': "; repr_opt (wrong r);
       FS ", 'stalled': "; repr_bool (stalled r); FS ", 'pub_secs': ";
       FF EmptyString (pub_secs r); FS ", 'per_instance': ";
       match per_instance r with Some cs => FLZ cs | None => FS "None" end; FS "}"]
  end.

(** The loop: [table[n] = rate], [None] for a failed or stalled run. *)
Fixpoint sweep_each (ns : list Z) (table : list (Z * option float))
  : Py (list (Z * option float)) :=
  match ns with
  | [] => ret table
  | n :: ns' =>
      result <- run_n_jetstream n ("tp" +:+ py_str n);;
      match result with
      | Some r =>
          if stalled r then
            print ([FS "  N="; FZ n; FS ": FAILED or stalled ("] ++ repr_result result ++ [FS ")"]);;
            sweep_each ns' (table ++ [(n, None)])
          else
            rate <- per_second (pub_secs r);;
            print [FS "  N="; FZ n; FS ": "; FF ".0f" rate; FS " msgs/sec (";
                   FF ".2f" (pub_secs r); FS "s for 200000 rows)"];;
            sweep_each ns' (table ++ [(n, Some rate)])
      | None =>
          print ([FS "  N="; FZ n; FS ": FAILED or stalled ("] ++ repr_result result ++ [FS ")"]);;
          sweep_each ns' (table ++ [(n, None)])
      end
  end.

(** Called with its default [ns]. *)
Definition throughput_sweep : Py (list (Z * option float)) :=
  print [FS "=== Throughput sweep: N in (1, 4, 8, 16, 32) ==="];;
  sweep_each [1; 4; 8; 16; 32] [].

(** The dispatch under [__main__]; the table is printed by its repr. *)
Definition script_main (mode : string) (trials : Z) : Py unit :=
  (if bool_decide (mode = "integration") || bool_decide (mode = "all") then
     ok <- integration_check 4;;
     print [FS "INTEGRATION: "; FS (if ok : bool then "PASS" else "FAIL")]
   else ret ());;
  (if bool_decide (mode = "stress") || bool_decide (mode = "all") then
     stalls <- stress_repro trials;;
     print [FS "STRESS: "; FZ stalls; FS "/"; FZ trials; FS " stalled"]
   else ret ());;
  (if bool_decide (mode = "throughput") || bool_decide (mode = "all") then
     table <- throughput_sweep;;
     print [FS "THROUGHPUT: "; FT table]
   else ret ()).

(** *** Checks *)

Lemma read_counts_idle hs : idle home (read_counts hs).
Proof.
  induction hs as [|h hs IH]; [done|]. cbn [read_counts]. apply idle_bind.
  - unfold instance_processed_count, try_except. apply idle_bindp.
    + apply idle_bind; [by split|done].
    + intros [o|e]; [done|]. by destruct (is_os_error e).
  - intros c. by apply idle_bind.
Qed.

Lemma per_instance_counts_idle n hs : idle home (per_instance_counts n hs).
Proof.
  unfold per_instance_counts. destruct (1 <? n); [|done].
  apply idle_bind; [apply idle_sleep|]. intros _. apply idle_bind; [apply read_counts_idle|done].
Qed.

Lemma run_n_jetstream_cleans n tag :
  wp (run_n_jetstream n tag) (fun t r => is_Some r → cleaned_up home t).
Proof.
  apply supervise_cleans; [apply start_server_starts|]. intros _.
  assert (∀ hs, idle home (per_instance_counts n hs)) by apply per_instance_counts_idle.
  track. eapply start_logged_starts; [done|apply sidecar_is_nats].
Qed.

Lemma n32_body_tracked start ctrl :
  (∀ i, starts home (start i)) → (∀ i, idle home (ctrl i)) →
  tracked home id (n32_body home start ctrl).
Proof.
  intros Hs Hc. unfold n32_body, s_control_warn. track. apply Hs.
Qed.

Lemma consumer_run_n32_load_cleans : wp run_n32_load (fun t r => is_Some r → cleaned_up home t).
Proof.
  apply supervise_cleans; [apply start_server_starts|]. intros _. apply n32_body_tracked.
  - intros i. eapply start_logged_starts; [done|apply sidecar_is_nats].
  - intros i. apply idle_run_ctrl_on.
Qed.
End script.
End Consumer.

(** ** nats_sidecar_n1_jetstream_repro.py *)

Module N1.
Definition STORE_BASE : string := "/tmp/n1js_store".
Definition STREAM_NAME : string := "SCJS".

(** The tuple [(tot, wrong, stalled, pub_secs, pub.stdout)]. *)
Record n1_result := N1Result {
  tot : option string;
  wrong : option string;
  stalled : bool;
  pub_secs : float;
  flush_out : string;
}.

Section script.
Context (home : string).

Definition VENV_PY : string := home +:+ "/duckdb-nats-jetstream/.venv/bin/python3".

Definition quoted (s : string) : string := quote_char +:+ s +:+ quote_char.

Definition CREATE_STREAM_PY : string :=
  join newline
    [EmptyString; "import asyncio, nats"; "async def main():";
     "    nc = await nats.connect(" +:+ quoted "nats://127.0.0.1:4222" +:+ ")";
     "    js = nc.jetstream()"; "    try:";
     "        await js.add_stream(name=" +:+ quoted STREAM_NAME +:+ ", subjects=["
       +:+ quoted (INPUT_SUBJECT +:+ ".>") +:+ ", " +:+ quoted INPUT_SUBJECT +:+ "])";
     "    except Exception as e:"; "        print(" +:+ quoted "stream create:" +:+ ", e)";
     "    await nc.close()"; "asyncio.run(main())"; EmptyString].

Definition start_server (tag : string) : Py (Z * Z) :=
  start_server_on home (STORE_BASE +:+ "_" +:+ tag) ("/tmp/n1js_server_" +:+ tag +:+ ".log").

Definition start_sidecar (i : Z) (tag subscribe_subject : string) : Py (Z * Z) :=
  start_logged ("/tmp/n1js_sidecar_" +:+ tag +:+ "_" +:+ py_str i +:+ ".log")
    [SIDECAR home; "-a"; "127.0.0.1"; "-p"; "4222"; "-i"; INPUT_SUBJECT;
     "--queue-group"; "qg-real"; "--attr"; FILTER_FIELD +:+ ":string"; "--engine"; "atree";
     "--output-prefix"; OUTPUT_PREFIX; "--subscribe-subject"; subscribe_subject;
     "--workers"; "2"; "--lease-bucket"; "sc-n1js-leases-" +:+ tag].

Definition run_ctrl (subscribe_subject : string) : Py string :=
  run_ctrl_on home subscribe_subject filter_expression.

Definition run_n32_load : Py unit :=
  supervise (start_server "32")
    (fun _ => n32_body home
       (fun i => start_sidecar i "32" ("sc.n1js.ctrl." +:+ py_str i))
       (fun i => run_ctrl ("sc.n1js.ctrl." +:+ py_str i))) ().

Definition run_n1_jetstream : Py (option n1_result) :=
  supervise (start_server "1") (fun _ =>
    s_launch 1 (fun _ => start_sidecar 1 "1" "sc.n1js.ctrl.solo") (fun _ => EmptyString) ;;;
    s_do (sleep (lit 15 10)) ;;;
    r <-- Do (RunProc [VENV_PY; "-c"; CREATE_STREAM_PY] 15) Ret ;;;
    s_if (negb (returncode r =? 0))
      (s_do (eprint [FS "  stream create FAILED: "; FS (proc_stdout r); FS " ";
                     FS (proc_stderr r)]) ;;; s_return None) ;;;
    reply <-- run_ctrl "sc.n1js.ctrl.solo" ;;;
    s_if (reports_error reply)
      (s_do (eprint [FS "  N=1 ctrl FAILED: "; FS reply]) ;;; s_return None) ;;;
    s_do (sleep (lit 3 10)) ;;;
    sub <-- start_subfield home (OUTPUT_PREFIX +:+ ".>") "90000" ;;;
    s_do (sleep (lit 3 10)) ;;;
    t0 <-- wall_time ;;;
    pub <-- run_psql publish_stream_sql 120 ;;;
    t1 <-- wall_time ;;;
    s_if (negb (returncode pub =? 0))
      (s_do (eprint [FS "  N=1 JetStream publish FAILED: "; FS (proc_stderr pub)])
         ;;; s_return None) ;;;
    sub_out <-- communicate sub 100 ;;;
    let tw := tot_wrong (last_line sub_out) in
    st <-- lift (Report.stalled tw.1) ;;;
    s_return (Some (N1Result tw.1 tw.2 st (fsub t1 t0) (proc_stdout pub)))) None.

(** The trials under [__main__]: the stalls, and a line of the summary for
    each trial. *)
Fixpoint trial_loop (ts : list Z) (trials stalls : Z) (results : list (list frag))
  : Py (Z * list (list frag)) :=
  match ts with
  | [] => ret (stalls, results)
  | t :: ts' =>
      print [FS "=== trial "; FZ t; FS "/"; FZ trials; FS ": N=32 warmup+teardown ==="];;
      run_n32_load;;
      print [FS "=== trial "; FZ t; FS "/"; FZ trials;
             FS ": immediate N=1 (JetStream publish) ==="];;
      r <- run_n1_jetstream;;
      match r with
      | None =>
          print [FS "  trial "; FZ t; FS ": HARD FAILURE (setup error)"];;
          trial_loop ts' trials (stalls + 1)
            (results ++ [[FS "  trial "; FZ t;
                          FS ": total=None wrong=None stalled=True pub_secs=None"]])
      | Some r =>
          print [FS "  trial "; FZ t; FS ": total="; FO (tot r); FS "/"; FZ EXPECTED;
                 FS " wrong="; FO (wrong r); FS " pub_secs="; FF ".3f" (pub_secs r);
                 FS " ["; FS (if stalled r then "STALL" else "clean"); FS "]"];;
          trial_loop ts' trials (if stalled r then stalls + 1 else stalls)
            (results ++ [[FS "  trial "; FZ t; FS ": total="; FO (tot r); FS " wrong=";
                          FO (wrong r); FS " stalled=";
                          FS (if stalled r then "True" else "False"); FS " pub_secs=";
                          FF EmptyString (pub_secs r)]])
      end
  end.

Definition script_main (trials : Z) : Py unit :=
  sr <- trial_loop (range 1 (trials + 1)) trials 0 [];;
  print [FS newline; FS "=== SUMMARY: "; FZ sr.1; FS "/"; FZ trials;
         FS " trials stalled (JetStream stream_async+flush publish path) ==="];;
  for_ sr.2 print.

(** [sys.argv] after the script's name. *)
Definition trials_of (argv : list string) : result Z :=
  match argv with
  | s :: _ => match py_int s with Some z => Ok z | None => Err ValueError end
  | [] => Ok 10
  end.

Definition main (argv : list string) : Py unit := trials <- lift (trials_of argv);; script_main trials.

Lemma run_n1_jetstream_cleans :
  wp run_n1_jetstream (fun t r => is_Some r → cleaned_up home t).
Proof.
  apply supervise_cleans; [apply start_server_starts|]. intros _.
  track. eapply start_logged_starts; [done|apply sidecar_is_nats].
Qed.

Lemma n1_run_n32_load_cleans : wp run_n32_load (fun t r => is_Some r → cleaned_up home t).
Proof.
  apply supervise_cleans; [apply start_server_starts|]. intros _.
  apply Consumer.n32_body_tracked.
  - intros i. eapply start_logged_starts; [done|apply sidecar_is_nats].
  - intros i. apply idle_run_ctrl_on.
Qed.
End script.
End N1.

(** ** Properties *)

(** A contiguous part of a trace. *)
Definition stall_count (x : trace * option Consumer.js_result) : Z :=
  counts_as_stall (Consumer.stalled <$> x.2).

(** The trials of [stress_repro]: the calls of each JetStream run and its
    result. *)
Definition js_trials (home : string) (xs : list (trace * option Consumer.js_result)) : Prop :=
  Forall (fun x => exec (Consumer.run_n_jetstream home 1 "stress1") x.1 (Some (Ok x.2))) xs.

Lemma stress_trials_count home ts stalls t k :
  exec (Consumer.stress_trials home ts stalls) t (Some (Ok k)) →
  ∃ xs, length xs = length ts ∧ js_trials home xs ∧ in_order xs.*1 t ∧
    k = stalls + Zsum (stall_count <$> xs).
Proof.
  revert stalls t. induction ts as [|i ts IH]; intros stalls t He.
  { destruct He as [-> [= ->]]. exists []. simpl. repeat split; [constructor|lia]. }
  apply exec_bind_ok in He as (u & t1 & t' & -> & _ & He).
  apply exec_bind_ok in He as (res & t2 & t3 & -> & H2 & He).
  assert (∃ a b, t3 = a ++ b ∧
    exec (Consumer.stress_trials home ts (stalls + stall_count (t2, res))) b (Some (Ok k)))
    as (a & b & -> & Hrest).
  { unfold stall_count, counts_as_stall. destruct res as [r|]; simpl.
    - destruct (Consumer.stalled r); simpl in He; destruct He as (x & t' & -> & He);
        rewrite ?Z.add_0_r; (eexists [_], t'; split; [reflexivity|exact He]).
    - destruct He as (x & t' & -> & He). (eexists [_], t'; split; [reflexivity|exact He]). }
  apply IH in Hrest as (xs & Hlen & Hall & Hord & ->). exists ((t2, res) :: xs).
  split; [simpl; lia|]. split; [by constructor|].
  split; [|rewrite fmap_cons; cbn [Zsum]; lia].
  exists t1, (a ++ b). split; [done|]. by apply in_order_app_l.
Qed.

(** [stress_repro] runs one JetStream trial per requested trial, one after
    the other, and returns exactly how many of them failed to produce a result
    or delivered another count than the expected one. *)
Theorem stress_repro_counts home trials t k :
  exec (Consumer.stress_repro home trials) t (Some (Ok k)) →
  ∃ xs, length xs = Z.to_nat trials ∧ js_trials home xs ∧ in_order xs.*1 t ∧
    k = Zsum (stall_count <$> xs).
Proof.
  unfold Consumer.stress_repro. intros He.
  apply exec_bind_ok in He as (u & t1 & t' & -> & _ & He).
  apply exec_bind_ok in He as (s & t2 & t3 & -> & H2 & He).
  apply exec_bind_ok in He as (u' & t4 & t5 & -> & _ & He).
  destruct He as [-> [= ->]].
  apply stress_trials_count in H2 as (xs & Hlen & Hall & Hord & Hs). exists xs.
  rewrite Hlen. unfold range. rewrite length_fmap, length_seq.
  replace (trials + 1 - 1) with trials by lia.
  split; [done|]. split; [done|]. split; [by apply in_order_app|lia].
Qed.

Lemma n_jetstream_result home n tag t r :
  exec (Consumer.run_n_jetstream home n tag) t (Some (Ok (Some r))) →
  ∃ pub sub_pid out,
    Ev (RunProc (PSQL ++ [publish_stream_sql]) 120) (Ok pub) ∈ t ∧ returncode pub = 0 ∧
    Ev (Communicate sub_pid 100) (Ok out) ∈ t ∧
    tot_wrong (last_line out) = (Consumer.total r, Consumer.wrong r) ∧
    Report.stalled (Consumer.total r) = Ok (Consumer.stalled r).
Proof.
  intros (server & t0 & t1 & t2 & -> & _ & H)%supervise_returns; [|done].
  do 5 (eapply (returns_past _ _ _ _ _ None) in H as (? & ? & ? & -> & _ & H); [|only_fails|done]).
  apply returns_let in H as (sub & ? & ? & -> & _ & H).
  eapply (returns_past _ _ _ _ _ None) in H as (? & ? & ? & -> & _ & H); [|only_fails|done].
  apply returns_let in H as (ts & ? & ? & -> & _ & H).
  apply returns_let in H as (pub & tp & ? & -> & Hpub & H).
  apply returns_let in H as (te & ? & ? & -> & _ & H).
  eapply (guard_not_taken _ _ _ _ _ _ None) in H as [Hrc H];
    [|only_fails|by intros; apply return_does_not_run|done].
  apply returns_let in H as (out & tc & ? & -> & Hout & H).
  apply returns_let in H as (st & ? & ? & -> & [_ Hst] & H).
  injection Hst as Hst. unfold s_get in H.
  apply returns_let in H as (counts & ? & ? & -> & _ & H).
  apply returns_return in H as [[= ->] ->].
  apply exec_run_proc in Hpub. apply exec_communicate in Hout.
  exists pub, sub, out. rewrite !elem_of_app. split; [tauto|].
  split; [apply negb_false_iff, Z.eqb_eq in Hrc; done|]. split; [tauto|].
  simpl. by destruct (tot_wrong _).
Qed.

(** [integration_check] passes only if the subscriber of a successful
    publish reported exactly the expected total. *)
Theorem integration_check_total home n t :
  exec (Consumer.integration_check home n) t (Some (Ok true)) →
  ∃ pub sub_pid out,
    Ev (RunProc (PSQL ++ [publish_stream_sql]) 120) (Ok pub) ∈ t ∧ returncode pub = 0 ∧
    Ev (Communicate sub_pid 100) (Ok out) ∈ t ∧
    (tot_wrong (last_line out)).1 = Some (py_str EXPECTED).
Proof.
  unfold Consumer.integration_check. intros He.
  apply exec_bindp in He as [([u|e] & t1 & t' & -> & _ & He)|[_ ?]]; [|by destruct He as [_ ?]|done].
  apply exec_bindp in He as [([[r|]|e] & t2 & t3 & -> & H2 & He)|[_ ?]];
    [| |by destruct He as [_ ?]|done].
  - apply n_jetstream_result in H2 as (pub & sub & out & H1 & H3 & H4 & H5 & _).
    exists pub, sub, out. rewrite H5, !elem_of_app. simpl.
    split; [tauto|]. split; [done|]. split; [tauto|].
    destruct He as (x1 & ta & -> & x2 & tb & -> & _ & He). injection He as He.
    symmetry in He. apply andb_prop in He as [_ He]. by apply bool_decide_eq_true in He.
  - by destruct He as (x & t4 & -> & _ & ?).
Qed.

Module JetstreamExample.
Definition fine : answer := ARun (Completed 0 "ok" EmptyString).

Definition repeat_answers (n : nat) (l : list answer) : list answer := concat (replicate n l).

Definition server_up : list answer := [ABool true; AUnit; AUnit; AInt 3; AInt 100; AUnit].
Definition stop_one : list answer := [AUnit; AInt 0; AUnit].

Definition warmup : list answer :=
  server_up ++ repeat_answers 32 [AInt 4; AInt 101] ++ [AUnit] ++ repeat_answers 32 [fine] ++
  [AUnit; AInt 102; AUnit; fine; AStr (sub_done_line 21683 0 "1" "1" +:+ newline)] ++
  repeat_answers 33 stop_one.

(** [n] instances; the subscriber reports [total] and [wrong]. *)
Definition js_run (n : nat) (total wrong : Z) (logs : list answer) : list answer :=
  server_up ++ repeat_answers n [AInt 4; AInt 101] ++ [AUnit] ++ repeat_answers n [AUnit] ++
  repeat_answers n [fine] ++
  [AUnit; AInt 102; AUnit; AFloat (of_int 10); fine; AFloat (of_int 12);
   AStr (sub_done_line total wrong "1" "1" +:+ newline)] ++ logs ++
  repeat_answers (n + 1) stop_one.

(** Two trials, the second one losing a message. *)
Definition stress : list answer :=
  [AUnit] ++ warmup ++ js_run 1 21683 0 [] ++ [AUnit] ++
  warmup ++ js_run 1 21682 0 [] ++ [AUnit] ++ [AUnit].

(** Two instances, of which the second never processed a message, and five
    deliveries that do not match the filter. *)
Definition lopsided : list answer :=
  [AUnit] ++ js_run 2 21683 5
    [AUnit; AStr ("stats: processed=21683" +:+ newline); AStr ("stats: processed=0" +:+ newline)]
    ++ [AUnit; AUnit].
End JetstreamExample.

Lemma stress_repro_counts_witness :
  ∃ xs, length xs = 2%nat ∧ js_trials "/home/u" xs ∧
    in_order xs.*1 (replayed (Consumer.stress_repro "/home/u" 2) JetstreamExample.stress) ∧
    1 = Zsum (stall_count <$> xs).
Proof.
  apply (stress_repro_counts "/home/u" 2). apply replayed_exec. vm_compute. reflexivity.
Defined.

Lemma integration_check_total_witness :
  ∃ pub sub_pid out,
    Ev (RunProc (PSQL ++ [publish_stream_sql]) 120) (Ok pub)
      ∈ replayed (Consumer.integration_check "/home/u" 2) JetstreamExample.lopsided ∧
    returncode pub = 0 ∧
    Ev (Communicate sub_pid 100) (Ok out)
      ∈ replayed (Consumer.integration_check "/home/u" 2) JetstreamExample.lopsided ∧
    (tot_wrong (last_line out)).1 = Some (py_str EXPECTED).
Proof.
  apply (integration_check_total "/home/u" 2). apply replayed_exec. vm_compute. reflexivity.
Defined.

(** The check passes although five delivered rows were wrong and one of the
    two instances processed nothing: neither is looked at. *)
Lemma integration_check_ignores_wrong_and_share :
  Observe.outcome (Consumer.integration_check "/home/u" 2) JetstreamExample.lopsided
    = Some (Some (Ok true)).
Proof. vm_compute. reflexivity. Qed.
