(* ===== verification/Scaling.v ===== *)
(** * The scaling scripts

    bench/nats_sidecar_scaling_real_data.py, _bcast.py, _ext.py and
    nats_sidecar_scaling_cpp.py: the same run over growing instance counts,
    with one control call per instance, one broadcast for all of them, a CPU
    sampler alongside, or a synthetic publisher. *)
From Stdlib Require Import Ascii.
From S2P Require Import Prelude PyFloat PyStr PyM PyNum Pool Observe Report Harness.

(** From the wall clock around psql to the subscriber's last line; [publish]
    is the psql timeout, [drain] the subscriber's. *)
Definition publish_timed {R} (complaint : string → list frag) (fail : R) (publish : Z)
    {F} (k : float → stmt F R) : stmt F R :=
  t0 <-- wall_time ;;;
  pub <-- run_psql publish_plain_sql publish ;;;
  t1 <-- wall_time ;;;
  s_if (negb (returncode pub =? 0))
    (s_do (eprint (complaint (proc_stderr pub))) ;;; s_return fail) ;;;
  k (fsub t1 t0).

(** ** nats_sidecar_scaling_real_data.py *)

Module RealData.
Definition STORE_BASE : string := "/tmp/nsc_real_store".

Section script.
Context (home : string).

Definition start_server (n : Z) : Py (Z * Z) :=
  start_server_on home (STORE_BASE +:+ "_" +:+ py_str n)
    ("/tmp/nsc_real_server_" +:+ py_str n +:+ ".log").

Definition start_sidecar (i n : Z) : Py (Z * Z) :=
  start_logged ("/tmp/nsc_real_sidecar_" +:+ py_str n +:+ "_" +:+ py_str i +:+ ".log")
    [SIDECAR home; "-a"; "127.0.0.1"; "-p"; "4222"; "-i"; INPUT_SUBJECT;
     "--queue-group"; "qg-real"; "--attr"; FILTER_FIELD +:+ ":string"; "--engine"; "atree";
     "--output-prefix"; OUTPUT_PREFIX; "--subscribe-subject"; "sc.real.ctrl." +:+ py_str i;
     "--workers"; "2"; "--lease-bucket"; "sc-real-leases-" +:+ py_str n].

Definition run_ctrl (i : Z) : Py string :=
  run_ctrl_on home ("sc.real.ctrl." +:+ py_str i) filter_expression.

(** [(pub_rate, pub_secs, sub_line)] *)
Definition run_n (n : Z) : Py (option (float * float * string)) :=
  supervise (start_server n) (fun _ =>
    s_launch n (fun i => start_sidecar i n) (fun _ => EmptyString) ;;;
    s_do (sleep (lit 25 10)) ;;;
    s_control (range 1 (n + 1)) run_ctrl
      (fun i reply => [FS "  N="; FZ n; FS " instance "; FZ i; FS " ctrl FAILED: "; FS reply])
      None ;;;
    s_do (sleep (lit 3 10)) ;;;
    sub <-- start_subfield home (OUTPUT_PREFIX +:+ ".>") "90000" ;;;
    s_do (sleep (lit 3 10)) ;;;
    publish_timed (fun err => [FS "  N="; FZ n; FS " publish FAILED: "; FS err]) None 120
      (fun pub_secs =>
        pub_rate <-- per_second pub_secs ;;;
        sub_out <-- communicate sub 100 ;;;
        s_return (Some (pub_rate, pub_secs, last_line sub_out)))) None.

(** A line of the summary. *)
Definition summary_line (n : Z) (pr : float) (sub_line : string) : list frag :=
  [FZ n; FS " | "; FF ".0f" pr; FS " | "; FO (parse sub_line "total"); FS "/"; FZ EXPECTED;
   FS " | "; FO (parse sub_line "wrong"); FS " | "; FO (parse sub_line "rate")].

(** [for n in ns: ...] under [__main__], and the lines for the summary. *)
Fixpoint each_n (ns : list Z) (results : list (list frag)) : Py (list (list frag)) :=
  match ns with
  | [] => ret results
  | n :: ns' =>
      print [FS "=== N="; FZ n; FS " ==="];;
      r <- run_n n;;
      match r with
      | None => print [FS "N="; FZ n; FS " FAILED"];; each_n ns' results
      | Some (pub_rate, pub_secs, sub_line) =>
          print [FS "  publish: "; FF ".0f" pub_rate; FS " rows/s ("; FF ".2f" pub_secs; FS "s)"];;
          print [FS "  "; FS sub_line];;
          sleep (of_int 1);;
          each_n ns' (results ++ [summary_line n pub_rate sub_line])
      end
  end.

Definition script_main : Py unit :=
  results <- each_n [1; 2; 4; 8] [];;
  print [FS newline; FS "=== SUMMARY (real NYSE data, Exchange==N, 200000 rows, expected=21683) ==="];;
  print [FS "N | publish_rate(rows/s) | total | wrong | filtered_rate(matches/s)"];;
  for_ results print.

Lemma real_data_run_n_cleans n : wp (run_n n) (fun t r => is_Some r → cleaned_up home t).
Proof.
  apply supervise_cleans; [apply start_server_starts|]. intros _. unfold publish_timed, run_ctrl.
  track. eapply start_logged_starts; [done|apply sidecar_is_nats].
Qed.
End script.
End RealData.

(** ** nats_sidecar_scaling_real_data_bcast.py *)

Module Bcast.
Definition STORE_BASE : string := "/tmp/nsc_bcast_store".
Definition CTRL_SUBJECT : string := "sc.real.ctrl.shared".

(** What the lines of ctrl_bcast have said so far. *)
Record bcast := Bc {
  sub_id : option Z;
  acks : option Z;
  errors : option Z;
  expected : option Z;
  latency_ms : option float;
}.

Definition bcast0 : bcast := Bc None None None None None.

(** [int(s)] and [float(s)], which raise [ValueError]. *)
Definition as_int (s : string) : result Z :=
  match py_int s with Some z => Ok z | None => Err ValueError end.
Definition as_float (s : string) : result float :=
  match py_float s with Some x => Ok x | None => Err ValueError end.

(** [parts[k]] *)
Definition part (parts : list string) (k : nat) : result string :=
  match parts !! k with Some p => Ok p | None => Err IndexError end.

Definition and_then {A B} (r : result A) (f : A → result B) : result B :=
  match r with Ok a => f a | Err e => Err e end.

(** [for p in parts[2:]: k, v = p.split("=", 1); ...] *)
Fixpoint ack_fields (ps : list string) (b : bcast) : result bcast :=
  match ps with
  | [] => Ok b
  | p :: ps' =>
      match key_value p with
      | None => Err ValueError
      | Some (k, v) =>
          if bool_decide (k = "errors") then
            and_then (as_int v) (fun z =>
              ack_fields ps' (Bc (sub_id b) (acks b) (Some z) (expected b) (latency_ms b)))
          else if bool_decide (k = "expected") then
            and_then (as_int v) (fun z =>
              ack_fields ps' (Bc (sub_id b) (acks b) (errors b) (Some z) (latency_ms b)))
          else if bool_decide (k = "latency_ms") then
            and_then (as_float v) (fun x =>
              ack_fields ps' (Bc (sub_id b) (acks b) (errors b) (expected b) (Some x)))
          else ack_fields ps' b
      end
  end.

Definition bcast_line (line : string) (b : bcast) : result bcast :=
  if startswith "CTRL_BCAST_ID " line then
    and_then (part (split_ws line) 1) (fun p => and_then (as_int p) (fun z =>
      Ok (Bc (Some z) (acks b) (errors b) (expected b) (latency_ms b))))
  else if startswith "CTRL_BCAST_ACKS " line then
    let parts := split_ws line in
    and_then (part parts 1) (fun p => and_then (as_int p) (fun z =>
      ack_fields (drop 2 parts) (Bc (sub_id b) (Some z) (errors b) (expected b) (latency_ms b))))
  else Ok b.

Fixpoint bcast_lines (lines : list string) (b : bcast) : result bcast :=
  match lines with
  | [] => Ok b
  | line :: lines' => and_then (bcast_line line b) (bcast_lines lines')
  end.

(** The tuple [(sub_id, output_topic, acks, errors, latency_ms, wall_secs)]. *)
Record ctrl_result := CtrlResult {
  r_sub_id : Z;
  r_output_topic : string;
  r_acks : option Z;
  r_errors : option Z;
  r_latency_ms : option float;
  r_wall_secs : float;
}.

Section script.
Context (home : string).

Definition start_server (n : Z) : Py (Z * Z) :=
  start_server_on home (STORE_BASE +:+ "_" +:+ py_str n)
    ("/tmp/nsc_bcast_server_" +:+ py_str n +:+ ".log").

Definition start_sidecar (i n : Z) : Py (Z * Z) :=
  start_logged ("/tmp/nsc_bcast_sidecar_" +:+ py_str n +:+ "_" +:+ py_str i +:+ ".log")
    [SIDECAR home; "-a"; "127.0.0.1"; "-p"; "4222"; "-i"; INPUT_SUBJECT;
     "--queue-group"; "qg-real"; "--attr"; FILTER_FIELD +:+ ":string"; "--engine"; "atree";
     "--output-prefix"; OUTPUT_PREFIX; "--subscribe-subject"; CTRL_SUBJECT;
     "--workers"; "2"; "--lease-bucket"; "sc-bcast-leases-" +:+ py_str n].

Definition broadcast_argv (n : Z) : list string :=
  [DRIVER home; "ctrl_bcast"; CTRL_SUBJECT; filter_expression; py_str n; "5000"].

Definition run_ctrl_bcast (n : Z) : Py (option ctrl_result) :=
  t0 <- wall_time;;
  r <- Do (RunProc (broadcast_argv n) 15) Ret;;
  t1 <- wall_time;;
  let wall_secs := fsub t1 t0 in
  b <- lift (bcast_lines (splitlines (strip (proc_stdout r))) bcast0);;
  match sub_id b with
  | None =>
      eprint [FS "  ctrl_bcast FAILED, stdout="; FR (proc_stdout r); FS " stderr=";
              FR (proc_stderr r)];;
      ret None
  | Some i =>
      ret (Some (CtrlResult i (OUTPUT_PREFIX +:+ "." +:+ py_str i) (acks b) (errors b)
                   (latency_ms b) wall_secs))
  end.

(** [if errors:] *)
Definition some_errors (e : option Z) : bool :=
  match e with Some z => negb (z =? 0) | None => false end.

(** [str(o)] of an int or None. *)
Definition opt_frag (o : option Z) : frag :=
  match o with Some z => FZ z | None => FS "None" end.

(** [(pub_rate, pub_secs, sub_line)] and the control result. *)
Definition run_n (n : Z) : Py (option (float * float * string * ctrl_result)) :=
  supervise (start_server n) (fun _ =>
    s_launch n (fun i => start_sidecar i n) (fun _ => EmptyString) ;;;
    s_do (sleep (lit 25 10)) ;;;
    result <-- run_ctrl_bcast n ;;;
    match result with
    | None =>
        s_do (eprint [FS "  N="; FZ n; FS " ctrl_bcast FAILED"]) ;;; s_return None
    | Some c =>
        s_if (some_errors (r_errors c))
          (s_do (eprint [FS "  N="; FZ n; FS " ctrl_bcast reported "; opt_frag (r_errors c);
                         FS " error ack(s) (expected 0)"])) ;;;
        s_if (negb (bool_decide (r_acks c = Some n)))
          (s_do (eprint [FS "  N="; FZ n; FS " WARNING: only "; opt_frag (r_acks c); FS "/"; FZ n;
                         FS " instances acked within timeout"])) ;;;
        s_do (sleep (lit 3 10)) ;;;
        sub <-- start_subfield home (r_output_topic c) "90000" ;;;
        s_do (sleep (lit 3 10)) ;;;
        publish_timed (fun err => [FS "  N="; FZ n; FS " publish FAILED: "; FS err]) None 120
          (fun pub_secs =>
            pub_rate <-- per_second pub_secs ;;;
            sub_out <-- communicate sub 100 ;;;
            s_return (Some (pub_rate, pub_secs, last_line sub_out, c)))
    end) None.

Definition summary_line (n : Z) (pr : float) (sub_line : string) (c : ctrl_result) (lat : float)
  : list frag :=
  [FZ n; FS " | "; FF ".0f" pr; FS " | "; FO (parse sub_line "total"); FS "/"; FZ EXPECTED;
   FS " | "; FO (parse sub_line "wrong"); FS " | "; FO (parse sub_line "rate"); FS " | ";
   opt_frag (r_acks c); FS "/"; FZ n; FS " | "; FF ".2f" lat; FS " | ";
   FF ".3f" (r_wall_secs c); FS " | 1 (was "; FZ n; FS ")"].

(** A missing latency cannot be formatted with [.2f]: [TypeError]. *)
Fixpoint each_n (ns : list Z) (results : list (list frag)) : Py (list (list frag)) :=
  match ns with
  | [] => ret results
  | n :: ns' =>
      print [FS "=== N="; FZ n; FS " (shared control subject, 1 ctrl_bcast call) ==="];;
      r <- run_n n;;
      match r with
      | None => print [FS "N="; FZ n; FS " FAILED"];; each_n ns' results
      | Some (pub_rate, pub_secs, sub_line, c) =>
          print [FS "  publish: "; FF ".0f" pub_rate; FS " rows/s ("; FF ".2f" pub_secs; FS "s)"];;
          match r_latency_ms c with
          | None => raise TypeError
          | Some lat =>
              print [FS "  ctrl_bcast: acks="; opt_frag (r_acks c); FS "/"; FZ n;
                     FS " driver_latency_ms="; FF ".2f" lat; FS " wall_secs=";
                     FF ".3f" (r_wall_secs c); FS " (vs "; FZ n;
                     FS " sequential round trips in the original design)"];;
              print [FS "  "; FS sub_line];;
              sleep (of_int 1);;
              each_n ns' (results ++ [summary_line n pub_rate sub_line c lat])
          end
      end
  end.

Definition script_main : Py unit :=
  results <- each_n [1; 2; 4; 8; 16; 32] [];;
  print [FS newline; FS "=== SUMMARY (real NYSE data, Exchange==N, 200000 rows, expected=21683, shared control subject) ==="];;
  print [FS "N | publish_rate(rows/s) | total | wrong | filtered_rate(matches/s) | ctrl_acks | ctrl_latency_ms | ctrl_wall_secs | ctrl_round_trips"];;
  for_ results print.

Lemma run_ctrl_bcast_idle n : idle home (run_ctrl_bcast n).
Proof.
  unfold run_ctrl_bcast. apply idle_bind; [by split|]. intros t0.
  apply idle_bind; [by split|]. intros r. apply idle_bind; [by split|]. intros t1.
  apply idle_bind; [done|]. intros b. destruct (sub_id b); [done|].
  apply idle_bind; [by split|done].
Qed.

Lemma bcast_run_n_cleans n : wp (run_n n) (fun t r => is_Some r → cleaned_up home t).
Proof.
  apply supervise_cleans; [apply start_server_starts|]. intros _. unfold publish_timed.
  pose proof run_ctrl_bcast_idle. track.
  eapply start_logged_starts; [done|apply sidecar_is_nats].
Qed.
End script.
End Bcast.

(** ** nats_sidecar_scaling_cpp.py *)

Module Cpp.
Definition STORE_BASE : string := "/tmp/nsc_cpp_store".
Definition MSG_COUNT : Z := 100000.
Definition EXPECTED : Z := MSG_COUNT / 8.

Section script.
Context (home : string).

Definition start_server (n : Z) : Py (Z * Z) :=
  start_server_on home (STORE_BASE +:+ "_" +:+ py_str n)
    ("/tmp/nsc_cpp_server_" +:+ py_str n +:+ ".log").

Definition start_sidecar (i n : Z) : Py (Z * Z) :=
  start_logged ("/tmp/nsc_cpp_sidecar_" +:+ py_str n +:+ "_" +:+ py_str i +:+ ".log")
    [SIDECAR home; "-a"; "127.0.0.1"; "-p"; "4222"; "-i"; "sc.test.in";
     "--queue-group"; "qg-cpp"; "--attr"; "region:integer"; "--engine"; "atree";
     "--output-prefix"; "sc.test.out"; "--subscribe-subject"; "sc.ctrl." +:+ py_str i;
     "--workers"; "2"; "--lease-bucket"; "sc-cpp-leases-" +:+ py_str n].

Definition run_ctrl (i : Z) : Py string :=
  run_ctrl_on home ("sc.ctrl." +:+ py_str i) "region = 1".

(** [(pub_line, sub_line)]; the publisher's return code is not looked at. *)
Definition run_n (n : Z) : Py (option (string * string)) :=
  supervise (start_server n) (fun _ =>
    s_launch n (fun i => start_sidecar i n) (fun _ => EmptyString) ;;;
    s_do (sleep (lit 25 10)) ;;;
    s_control (range 1 (n + 1)) run_ctrl
      (fun i reply => [FS "  N="; FZ n; FS " instance "; FZ i; FS " ctrl FAILED: "; FS reply])
      None ;;;
    s_do (sleep (lit 3 10)) ;;;
    sub <-- Do (Popen [DRIVER home; "sub"; "sc.test.out.>"; py_str EXPECTED; "60000"] None) Ret ;;;
    s_do (sleep (lit 3 10)) ;;;
    pub <-- Do (RunProc [DRIVER home; "pub"; "sc.test.in"; py_str MSG_COUNT] 60) Ret ;;;
    sub_out <-- communicate sub 70 ;;;
    s_return (Some (strip (proc_stdout pub), last_line sub_out))) None.

(** The prefix argument of this script's [parse] is unused. *)
Definition parse_after (line prefix key : string) : option string := parse line key.

Definition summary_line (n : Z) (pub_line sub_line : string) : list frag :=
  [FZ n; FS " | "; FO (parse_after pub_line "PUB_DONE" "rate"); FS " | ";
   FO (parse_after sub_line "SUB_DONE" "total"); FS "/"; FZ EXPECTED; FS " | ";
   FO (parse_after sub_line "SUB_DONE" "wrong"); FS " | ";
   FO (parse_after sub_line "SUB_DONE" "rate")].

Fixpoint each_n (ns : list Z) (results : list (list frag)) : Py (list (list frag)) :=
  match ns with
  | [] => ret results
  | n :: ns' =>
      print [FS "=== N="; FZ n; FS " ==="];;
      r <- run_n n;;
      match r with
      | None => print [FS "N="; FZ n; FS " FAILED"];; each_n ns' results
      | Some (pub_line, sub_line) =>
          print [FS "  "; FS pub_line];;
          print [FS "  "; FS sub_line];;
          sleep (of_int 1);;
          each_n ns' (results ++ [summary_line n pub_line sub_line])
      end
  end.

Definition script_main : Py unit :=
  results <- each_n [1; 2; 4; 8] [];;
  print [FS newline; FS "=== SUMMARY ==="];;
  print [FS "N | publish_rate | total | wrong | filtered_rate"];;
  for_ results print.

Lemma cpp_run_n_cleans n : wp (run_n n) (fun t r => is_Some r → cleaned_up home t).
Proof.
  apply supervise_cleans; [apply start_server_starts|]. intros _. unfold run_ctrl.
  track. eapply start_logged_starts; [done|apply sidecar_is_nats].
Qed.
End script.
End Cpp.

(** ** nats_sidecar_scaling_real_data_ext.py *)

Module Ext.
Definition STORE_BASE : string := "/tmp/nsc_real_store_ext".

(** [WORKERS_FOR_N.get(n, "2")] *)
Definition workers_for (n : Z) : string := if (n =? 16) || (n =? 32) then "1" else "2".

(** [MpstatCapture]: its file and its process, once there are any. *)
Record mpstat := Mpstat {
  mp_path : string;
  mp_f : option Z;
  mp_proc : option Z;
}.

Record locals := Locals {
  sidecars : list handle;
  mp : mpstat;
}.

Definition add_sidecar (f : locals) (h : handle) : locals := Locals (sidecars f ++ [h]) (mp f).
Definition set_mp (m : mpstat → mpstat) (f : locals) : locals := Locals (sidecars f) (m (mp f)).

(** [start(self)] *)
Definition mp_start {R} : stmt locals R :=
  s_get (fun f => mp_path (mp f)) (fun path =>
    fd <-- Do (OpenFile path "w") Ret ;;;
    s_assign (set_mp (fun m => Mpstat (mp_path m) (Some fd) (mp_proc m))) ;;;
    p <-- Do (Popen ["mpstat"; "-P"; "ALL"; "1"] (Some fd)) Ret ;;;
    s_assign (set_mp (fun m => Mpstat (mp_path m) (mp_f m) (Some p)))).

(** [stop(self)]: without [start], [self._f] is an [AttributeError]. *)
Definition mp_stop (m : mpstat) : Py unit :=
  match mp_proc m with
  | Some p =>
      Do (Terminate p) Ret;;
      try_except (Do (Wait p 3) Ret;; ret ()) (fun _ => Do (Kill p) Ret)
  | None => ret ()
  end;;
  match mp_f m with
  | Some fd => call (CloseFile fd)
  | None => raise AttributeError
  end.

(** The string [summarize] returns. *)
Inductive mp_summary :=
| NoData
| NoSamples
| Idles (min avg max : float) (n : Z).

(** The %idle samples: the last field of the "all" rows, when it is a
    number. *)
Definition idle_of (ln : string) : option float :=
  let parts := split_ws ln in
  match parts with
  | _ :: a :: _ :: _ => if bool_decide (a = "all") then py_float (List.last parts EmptyString) else None
  | _ => None
  end.

Definition fmin_of (x : float) (l : list float) : float :=
  foldl (fun m y => if flt y m then y else m) x l.
Definition fmax_of (x : float) (l : list float) : float :=
  foldl (fun m y => if fgt y m then y else m) x l.

Section script.
Context (home : string).
(** [sum] of floats, whose rounding depends on the interpreter. *)
Context (float_sum : list float → float).

Definition summary_of (lines : list string) : mp_summary :=
  match omap idle_of lines with
  | [] => NoSamples
  | x :: l => Idles (fmin_of x l)
                (fquot (float_sum (x :: l)) (of_int (Z.of_nat (length (x :: l)))))
                (fmax_of x l) (Z.of_nat (length (x :: l)))
  end.

Definition summarize (path : string) : Py mp_summary :=
  try_except (text <- Do (ReadFile path) Ret;; ret (summary_of (readlines text)))
    (fun e => match e with FileNotFoundError => ret NoData | _ => raise e end).

Definition start_server (n : Z) : Py (Z * Z) :=
  start_server_on home (STORE_BASE +:+ "_" +:+ py_str n)
    ("/tmp/nsc_real_server_ext_" +:+ py_str n +:+ ".log").

Definition start_sidecar (i n : Z) (workers : string) : Py (Z * Z) :=
  start_logged ("/tmp/nsc_real_sidecar_ext_" +:+ py_str n +:+ "_" +:+ py_str i +:+ ".log")
    [SIDECAR home; "-a"; "127.0.0.1"; "-p"; "4222"; "-i"; INPUT_SUBJECT;
     "--queue-group"; "qg-real"; "--attr"; FILTER_FIELD +:+ ":string"; "--engine"; "atree";
     "--output-prefix"; OUTPUT_PREFIX; "--subscribe-subject"; "sc.real.ctrl." +:+ py_str i;
     "--workers"; workers; "--lease-bucket"; "sc-real-leases-ext-" +:+ py_str n].

Definition run_ctrl (i : Z) : Py string :=
  run_ctrl_on home ("sc.real.ctrl." +:+ py_str i) filter_expression.

(** [try: mp.stop()  except Exception: pass] *)
Definition mp_stop_quietly (f : locals) : Py unit :=
  try_except (mp_stop (mp f)) (fun _ => ret ()).

Record ext_result := ExtResult {
  pub_rate : float;
  pub_secs : float;
  sub_line : string;
  idle_summary : mp_summary;
  workers : string;
}.

Definition run_n (n : Z) : Py (option ext_result) :=
  let workers := workers_for n in
  supervise_with (start_server n)
    (Locals [] (Mpstat ("/tmp/nsc_mpstat_" +:+ py_str n +:+ ".log") None None))
    sidecars mp_stop_quietly (fun _ =>
    s_launch_with add_sidecar n (fun i => start_sidecar i n workers) (fun _ => EmptyString) ;;;
    s_do (sleep (if 16 <=? n then of_int 3 else lit 25 10)) ;;;
    s_control (range 1 (n + 1)) run_ctrl
      (fun i reply => [FS "  N="; FZ n; FS " instance "; FZ i; FS " ctrl FAILED: "; FS reply])
      None ;;;
    s_do (sleep (lit 3 10)) ;;;
    sub <-- start_subfield home (OUTPUT_PREFIX +:+ ".>") "120000" ;;;
    s_do (sleep (lit 3 10)) ;;;
    mp_start ;;;
    publish_timed (fun err => [FS "  N="; FZ n; FS " publish FAILED: "; FS err]) None 180
      (fun secs =>
        rate <-- per_second secs ;;;
        sub_out <-- communicate sub 130 ;;;
        s_do (sleep (lit 25 10)) ;;;
        s_get mp (fun m =>
          s_do (mp_stop m) ;;;
          s <-- summarize (mp_path m) ;;;
          s_return (Some (ExtResult rate secs (last_line sub_out) s workers))))) None.

Definition summary_frags (s : mp_summary) : list frag :=
  match s with
  | NoData => [FS "no mpstat data"]
  | NoSamples => [FS "no mpstat samples parsed"]
  | Idles lo av hi k =>
      [FS "all-core %idle samples: min="; FF ".1f" lo; FS " avg="; FF ".1f" av; FS " max=";
       FF ".1f" hi; FS " n="; FZ k]
  end.

Definition summary_line (n : Z) (r : ext_result) : list frag :=
  [FZ n; FS " | "; FS (workers r); FS " | "; FF ".0f" (pub_rate r); FS " | ";
   FO (parse (sub_line r) "total"); FS "/"; FZ EXPECTED; FS " | ";
   FO (parse (sub_line r) "wrong"); FS " | "; FO (parse (sub_line r) "rate"); FS " | "]
    ++ summary_frags (idle_summary r).

Fixpoint each_n (ns : list Z) (results : list (list frag)) : Py (list (list frag)) :=
  match ns with
  | [] => ret results
  | n :: ns' =>
      print [FS "=== N="; FZ n; FS " (workers="; FS (workers_for n); FS ") ==="];;
      r <- run_n n;;
      match r with
      | None => print [FS "N="; FZ n; FS " FAILED"];; each_n ns' results
      | Some r =>
          print [FS "  publish: "; FF ".0f" (pub_rate r); FS " rows/s ("; FF ".2f" (pub_secs r);
                 FS "s)"];;
          print [FS "  "; FS (sub_line r)];;
          print ([FS "  mpstat: "] ++ summary_frags (idle_summary r));;
          sleep (of_int 2);;
          each_n ns' (results ++ [summary_line n r])
      end
  end.

Definition script_main : Py unit :=
  results <- each_n [16; 32] [];;
  print [FS newline; FS "=== SUMMARY (N=16/32 extension, real NYSE data, Exchange==N, 200000 rows, expected=21683) ==="];;
  print [FS "N | workers | publish_rate(rows/s) | total | wrong | filtered_rate(matches/s) | mpstat"];;
  for_ results print.

(** *** Checks *)

Lemma mp_start_tracked {R} : tracked (R := R) home sidecars mp_start.
Proof.
  apply tracked_get. intros path. apply tracked_let; [by split|]. intros fd.
  apply tracked_seq; [by apply tracked_assign|].
  apply tracked_let; [|intros p; by apply tracked_assign].
  split; [|done]. intros [pid|e]; simpl; [by rewrite path_tool_not_nats|done].
Qed.

Lemma mp_stop_idle m : idle home (mp_stop m).
Proof.
  unfold mp_stop. apply idle_bind.
  - destruct (mp_proc m) as [p|]; [|done]. apply idle_bind; [by split|]. intros _.
    unfold try_except. apply idle_bindp; [|by intros [[]|e]; [|split]].
    apply idle_bind; [by split|done].
  - intros _. destruct (mp_f m); [by split|done].
Qed.

Lemma summarize_idle path : idle home (summarize path).
Proof.
  unfold summarize, try_except. apply idle_bindp.
  - apply idle_bind; [by split|done].
  - intros [s|e]; [done|]. by destruct e.
Qed.

Lemma mp_stop_quietly_attends : attends home (fun _ => False) mp_stop_quietly.
Proof.
  intros f. unfold mp_stop_quietly, try_except. apply wp_bindp.
  eapply wp_mono; [|apply (idle_spawned home), mp_stop_idle].
  intros t [[[]|e]|] Ht; simpl; by rewrite ?app_nil_r.
Qed.

Lemma ext_run_n_cleans n : wp (run_n n) (fun t r => is_Some r → cleaned_up home t).
Proof.
  eapply wp_mono; [|apply (supervise_with_cleans home (fun _ => False))].
  - intros t r H Hr. destruct (H Hr) as [|Hf]; [done|].
    by destruct Hf as (? & ? & _ & []).
  - apply start_server_starts.
  - done.
  - apply mp_stop_quietly_attends.
  - intros _. unfold publish_timed, run_ctrl. pose proof mp_stop_idle. pose proof summarize_idle.
    track.
    + apply tracked_launch_with; [done|]. intros i.
      eapply start_logged_starts; [done|apply sidecar_is_nats].
    + apply mp_start_tracked.
Qed.
End script.
End Ext.

(** ** Properties *)

(** What mq_bench_driver prints for a broadcast. *)
Definition bcast_id_line (id : Z) : string := "CTRL_BCAST_ID " +:+ py_str id.

Definition bcast_acks_line (acks errors expected : Z) (latency : string) : string :=
  "CTRL_BCAST_ACKS " +:+ py_str acks +:+ " errors=" +:+ py_str errors +:+ " expected="
    +:+ py_str expected +:+ " latency_ms=" +:+ latency.

Definition bcast_output (id acks errors expected : Z) (latency : string) : string :=
  bcast_id_line id +:+ newline +:+ bcast_acks_line acks errors expected latency +:+ newline.

Lemma bcast_acks_tokens a e x l :
  0 ≤ a → 0 ≤ e → 0 ≤ x → blank_free l →
  split_ws (bcast_acks_line a e x l) =
    ["CTRL_BCAST_ACKS"; py_str a; "errors=" +:+ py_str e; "expected=" +:+ py_str x;
     "latency_ms=" +:+ l].
Proof.
  intros Ha He Hx Hl. unfold bcast_acks_line.
  change ("CTRL_BCAST_ACKS " +:+ ?s) with ("CTRL_BCAST_ACKS" +:+ String " " s).
  rewrite split_ws_word by done.
  change (" errors=" +:+ ?s) with (String " " ("errors=" +:+ s)).
  rewrite split_ws_word; [|by apply py_str_blank_free|by apply py_str_nonempty|done].
  change (" expected=" +:+ ?s) with (String " " ("expected=" +:+ s)).
  rewrite <-append_assoc, split_ws_word; [|apply blank_free_app; [done|by apply py_str_blank_free]|done|done].
  change (" latency_ms=" +:+ ?s) with (String " " ("latency_ms=" +:+ s)).
  rewrite <-append_assoc, split_ws_word; [|apply blank_free_app; [done|by apply py_str_blank_free]|done|done].
  by rewrite split_ws_last; [|apply blank_free_app|].
Qed.

Lemma blank_free_one_line s : blank_free s → none is_linebreak s = true.
Proof. by apply none_weaken, linebreak_space. Qed.

Lemma bcast_output_lines id a e x l :
  0 ≤ id → 0 ≤ a → 0 ≤ e → 0 ≤ x → blank_free l →
  splitlines (strip (bcast_output id a e x l)) = [bcast_id_line id; bcast_acks_line a e x l].
Proof.
  intros Hid Ha He Hx Hl.
  assert (none is_linebreak (bcast_id_line id) = true) as H1.
  { unfold bcast_id_line. rewrite none_app. by rewrite (blank_free_one_line (py_str id)) by by apply py_str_blank_free. }
  assert (none is_linebreak (bcast_acks_line a e x l) = true) as H2.
  { unfold bcast_acks_line. rewrite !none_app.
    rewrite (blank_free_one_line (py_str a)), (blank_free_one_line (py_str e)),
      (blank_free_one_line (py_str x)), (blank_free_one_line l)
      by (done || by apply py_str_blank_free). done. }
  assert (strip (bcast_output id a e x l) =
          bcast_id_line id +:+ newline +:+ bcast_acks_line a e x l) as ->.
  { unfold strip, bcast_output.
    transitivity (rstrip_if is_space
      ((bcast_id_line id +:+ newline +:+ bcast_acks_line a e x l) +:+ newline)).
    { rewrite !append_assoc. reflexivity. }
    change newline with (String (ascii_of_nat 10) EmptyString) at 2.
    rewrite rstrip_app_dropped by done. unfold bcast_acks_line.
    change (" latency_ms=" +:+ l) with (" " +:+ ("latency_ms=" +:+ l)).
    assert (blank_free ("latency_ms=" +:+ l)) as Hw by by apply blank_free_app.
    assert ("latency_ms=" +:+ l ≠ EmptyString) as Hne by done.
    generalize dependent ("latency_ms=" +:+ l). intros w Hw Hne.
    rewrite <-!append_assoc. by apply rstrip_app_kept. }
  unfold splitlines.
  change (newline +:+ ?s) with (String (ascii_of_nat 10) s).
  rewrite (lines_go_line _ _ (Some (bcast_acks_line a e x l)) []) by (done || by apply lines_go_single).
  done.
Qed.

(** What each field does to the answer so far. *)
Lemma ack_fields_errors z ps b :
  0 ≤ z →
  Bcast.ack_fields (("errors=" +:+ py_str z) :: ps) b =
    Bcast.ack_fields ps (Bcast.Bc (Bcast.sub_id b) (Bcast.acks b) (Some z) (Bcast.expected b)
                           (Bcast.latency_ms b)).
Proof.
  intros Hz. cbn [Bcast.ack_fields].
  rewrite (key_value_app "errors" (py_str z) eq_refl : key_value ("errors=" +:+ py_str z) = _).
  rewrite bool_decide_true by done. unfold Bcast.as_int. by rewrite py_int_str.
Qed.

Lemma ack_fields_expected z ps b :
  0 ≤ z →
  Bcast.ack_fields (("expected=" +:+ py_str z) :: ps) b =
    Bcast.ack_fields ps (Bcast.Bc (Bcast.sub_id b) (Bcast.acks b) (Bcast.errors b) (Some z)
                           (Bcast.latency_ms b)).
Proof.
  intros Hz. cbn [Bcast.ack_fields].
  rewrite (key_value_app "expected" (py_str z) eq_refl : key_value ("expected=" +:+ py_str z) = _).
  rewrite bool_decide_false, bool_decide_true by done. unfold Bcast.as_int. by rewrite py_int_str.
Qed.

Lemma ack_fields_latency l x ps b :
  py_float l = Some x →
  Bcast.ack_fields (("latency_ms=" +:+ l) :: ps) b =
    Bcast.ack_fields ps (Bcast.Bc (Bcast.sub_id b) (Bcast.acks b) (Bcast.errors b)
                           (Bcast.expected b) (Some x)).
Proof.
  intros Hx. cbn [Bcast.ack_fields].
  rewrite (key_value_app "latency_ms" l eq_refl : key_value ("latency_ms=" +:+ l) = _).
  rewrite !(bool_decide_false (_ = "errors")), (bool_decide_false (_ = "expected")),
    bool_decide_true by done.
  unfold Bcast.as_float. by rewrite Hx.
Qed.

Lemma bcast_lines_output id a e x l latency :
  0 ≤ id → 0 ≤ a → 0 ≤ e → 0 ≤ x → blank_free l → py_float l = Some latency →
  Bcast.bcast_lines (splitlines (strip (bcast_output id a e x l))) Bcast.bcast0 =
    Ok (Bcast.Bc (Some id) (Some a) (Some e) (Some x) (Some latency)).
Proof.
  intros Hid Ha He Hx Hl Hf. rewrite bcast_output_lines by done. cbn [Bcast.bcast_lines].
  assert (Bcast.bcast_line (bcast_id_line id) Bcast.bcast0 =
          Ok (Bcast.Bc (Some id) None None None None)) as ->.
  { unfold Bcast.bcast_line.
    assert (startswith "CTRL_BCAST_ID " (bcast_id_line id) = true) as -> by apply startswith_app.
    unfold bcast_id_line.
    change ("CTRL_BCAST_ID " +:+ ?s) with ("CTRL_BCAST_ID" +:+ String " " s).
    rewrite split_ws_word by done.
    rewrite split_ws_last; [|by apply py_str_blank_free|by apply py_str_nonempty].
    cbn. unfold Bcast.as_int. by rewrite py_int_str. }
  cbn [Bcast.and_then]. unfold Bcast.bcast_line.
  assert (startswith "CTRL_BCAST_ID " (bcast_acks_line a e x l) = false) as -> by done.
  assert (startswith "CTRL_BCAST_ACKS " (bcast_acks_line a e x l) = true) as ->
    by apply startswith_app.
  rewrite bcast_acks_tokens by done. cbn -[py_str py_int py_float Bcast.ack_fields].
  unfold Bcast.as_int. rewrite py_int_str by done. cbn -[py_str py_int py_float Bcast.ack_fields].
  rewrite ack_fields_errors by done. rewrite ack_fields_expected by done.
  by rewrite (ack_fields_latency _ latency).
Qed.

(** [run_ctrl_bcast] reads back what the driver printed about a broadcast,
    whatever its exit status: the subscription id (and the output topic made
    from it), the acks and the errors as integers and the latency as a float,
    with the elapsed time of the call. *)
Theorem bcast_round_trip home n id a e x l latency rc err t0 t1 :
  0 ≤ id → 0 ≤ a → 0 ≤ e → 0 ≤ x → blank_free l → py_float l = Some latency →
  exec (Bcast.run_ctrl_bcast home n)
    [Ev WallTime t0;
     Ev (RunProc (Bcast.broadcast_argv home n) 15) (Ok (Completed rc (bcast_output id a e x l) err));
     Ev WallTime t1]
    (Some (Ok (Some (Bcast.CtrlResult id (OUTPUT_PREFIX +:+ "." +:+ py_str id) (Some a) (Some e)
                       (Some latency) (fsub t1 t0))))).
Proof.
  intros Hid Ha He Hx Hl Hf. eexists t0, _. split; [done|]. eexists _, _. split; [done|].
  eexists t1, _. split; [done|]. cbn [proc_stdout]. by rewrite (bcast_lines_output _ _ _ _ _ latency).
Qed.

Lemma bcast_round_trip_witness :
  exec (Bcast.run_ctrl_bcast "/home/u" 8)
    [Ev WallTime (of_int 10);
     Ev (RunProc (Bcast.broadcast_argv "/home/u" 8) 15)
       (Ok (Completed 0 (bcast_output 42 8 0 8 "1.25") EmptyString));
     Ev WallTime (of_int 11)]
    (Some (Ok (Some (Bcast.CtrlResult 42 (OUTPUT_PREFIX +:+ "." +:+ py_str 42) (Some 8) (Some 0)
                       (Some (lit 5 4)) (fsub (of_int 11) (of_int 10)))))).
Proof.
  apply (bcast_round_trip "/home/u" 8 42 8 0 8 "1.25" (lit 5 4));
    [lia..|reflexivity|vm_compute; reflexivity].
Defined.
