(* ===== verification/Profile.v ===== *)
(** * Profiled runs and the control-plane measurement

    nats_sidecar_perf_profile.py, nats_sidecar_mutex_contention_profile.py and
    measure_ctrl_plane_only.py, on the supervision of [Harness]. *)
From S2P Require Import Prelude PyFloat PyStr PyM PyNum Pool Observe Report Harness Throughput Scaling.

(** ** nats_sidecar_perf_profile.py *)

Module PerfProfile.
Definition INPUT_STREAM : string := "SC_PERF_INPUT".
Definition DURABLE_NAME : string := "sc-perf-durable".
Definition DELIVER_SUBJECT : string := "sc.perf.deliver".
Definition DELIVER_GROUP : string := "sc-perf-group".
Definition N : Z := 16.

(** The locals the [finally] clause reads. *)
Record locals := Locals {
  sidecars : list handle;
  perf_proc : option Z;
}.

Definition add_sidecar (f : locals) (h : handle) : locals :=
  Locals (sidecars f ++ [h]) (perf_proc f).

Record profile := Profile {
  e2e_rate : float;
  total : option string;
  wrong : option string;
  ok : bool;
}.

Section script.
Context (home : string).

Definition start_server (tag : string) : Py (Z * Z) :=
  start_server_on home ("/tmp/nsc_perf_store_" +:+ tag)
    ("/tmp/nsc_perf_server_" +:+ tag +:+ ".log").

Definition start_sidecar_plain (i : Z) (tag : string) : Py (Z * Z) :=
  start_logged ("/tmp/nsc_perf_sidecar_" +:+ tag +:+ "_" +:+ py_str i +:+ ".log")
    [SIDECAR home; "-a"; "127.0.0.1"; "-p"; "4222"; "-i"; INPUT_SUBJECT;
     "--queue-group"; "qg-perf"; "--attr"; FILTER_FIELD +:+ ":string"; "--engine"; "atree";
     "--output-prefix"; OUTPUT_PREFIX;
     "--subscribe-subject"; "sc.perf.plain.ctrl." +:+ py_str i;
     "--workers"; "2"; "--lease-bucket"; "sc-perf-plain-leases-" +:+ tag].

Definition start_sidecar_js (i : Z) (tag storage : string) : Py (Z * Z) :=
  start_logged ("/tmp/nsc_perf_sidecar_" +:+ tag +:+ "_" +:+ py_str i +:+ ".log")
    [SIDECAR home; "-a"; "127.0.0.1"; "-p"; "4222"; "-i"; INPUT_SUBJECT;
     "--input-stream"; INPUT_STREAM; "--input-stream-storage"; storage;
     "--consumer-durable-name"; DURABLE_NAME;
     "--consumer-deliver-subject"; DELIVER_SUBJECT;
     "--consumer-deliver-group"; DELIVER_GROUP;
     "--consumer-max-ack-pending"; "2000"; "--consumer-ack-wait"; "30";
     "--attr"; FILTER_FIELD +:+ ":string"; "--engine"; "atree";
     "--output-prefix"; OUTPUT_PREFIX;
     "--subscribe-subject"; "sc.perf.js.ctrl." +:+ tag +:+ "." +:+ py_str i;
     "--workers"; "2"; "--lease-bucket"; "sc-perf-js-leases-" +:+ tag].

Definition run_ctrl (subscribe_subject : string) : Py string :=
  run_ctrl_on home subscribe_subject filter_expression.

Definition start_instance (mode tag : string) (i : Z) : Py (Z * Z) :=
  if bool_decide (mode = "plain") then start_sidecar_plain i tag
  else start_sidecar_js i tag (if bool_decide (mode = "js-file") then "file" else "memory").

Definition ctrl_subject (mode tag : string) (i : Z) : string :=
  if bool_decide (mode = "plain") then "sc.perf.plain.ctrl." +:+ py_str i
  else "sc.perf.js.ctrl." +:+ tag +:+ "." +:+ py_str i.

(** The first action of the [finally] clause. *)
Definition stop_perf (f : locals) : Py unit :=
  match perf_proc f with
  | None => ret ()
  | Some p =>
      code <- call (Poll p);;
      match code : option Z with None => Do (Terminate p) Ret | Some _ => ret () end
  end.

(** [perf_proc.send_signal(2)], then [wait], with [terminate] as the
    second try. *)
Definition flush_perf (p : Z) : Py unit :=
  Do (SendSignal p 2) Ret;;
  try_except (Do (Wait p 10) Ret;; ret ())
    (fun _ => Do (Terminate p) Ret;; Do (Wait p 5) Ret;; ret ()).

Definition perf_argv (server : Z) (perf_out : string) : list string :=
  ["perf"; "record"; "-p"; py_str server; "-g"; "--call-graph"; "fp"; "-o"; perf_out; "--"].

Definition start_perf (server : Z) (perf_out : string) (perf_log : Z) : Py Z :=
  Do (Popen (perf_argv server perf_out) (Some perf_log)) Ret.

Definition run_profiled (mode tag perf_out : string) : Py (option profile) :=
  supervise_with (start_server tag) (Locals [] None) sidecars stop_perf (fun server =>
    s_launch_with add_sidecar N (start_instance mode tag) (ctrl_subject mode tag) ;;;
    s_do (sleep (fadd (lit 15 10) (fmul (lit 2 10) (of_int N)))) ;;;
    s_get sidecars (fun hs => s_for hs (fun h =>
      code <-- call (Poll (h_pid h)) ;;;
      s_if (bool_decide (is_Some (code : option Z)))
        (s_do (eprint [FS "  ["; FS mode; FS "] instance exited early"]) ;;; s_return None))) ;;;
    s_get sidecars (fun hs =>
      s_control (h_info <$> hs) run_ctrl
        (fun _ reply => [FS "  ["; FS mode; FS "] ctrl FAILED: "; FS reply]) None) ;;;
    s_do (sleep (lit 3 10)) ;;;
    sub <-- start_subfield home (OUTPUT_PREFIX +:+ ".>") "90000" ;;;
    s_do (sleep (lit 3 10)) ;;;
    perf_log <-- Do (OpenFile ("/tmp/nsc_perf_" +:+ mode +:+ ".log") "w") Ret ;;;
    perf <-- start_perf server perf_out perf_log ;;;
    s_assign (fun f => Locals (sidecars f) (Some perf)) ;;;
    s_do (sleep (lit 3 10)) ;;;
    t_start <-- wall_time ;;;
    pub <-- run_psql (if bool_decide (mode = "plain") then publish_plain_sql
                      else publish_stream_sql) 120 ;;;
    s_if (negb (returncode pub =? 0))
      (s_do (eprint [FS "  ["; FS mode; FS "] publish FAILED: "; FS (proc_stderr pub)]) ;;;
       s_return None) ;;;
    sub_out <-- communicate sub 100 ;;;
    t_e2e_done <-- wall_time ;;;
    let rate := per_second_or_nan (fsub t_e2e_done t_start) in
    s_do (flush_perf perf) ;;;
    s_do (call (CloseFile perf_log)) ;;;
    let tw := tot_wrong (last_line sub_out) in
    let good := verdict tw.1 tw.2 in
    s_do (print [FS "  ["; FS mode; FS "] e2e_rate="; FF ".0f" rate; FS "/s total="; FO tw.1;
                 FS " wrong="; FO tw.2; FS " ok="; repr_bool good]) ;;;
    s_return (Some (Profile rate tw.1 tw.2 good))) None.

(** [str(res)]: the dict, or None. *)
Definition repr_profile (res : option profile) : list frag :=
  match res with
  | None => [FS "None"]
  | Some r =>
      [FS "{'e2e_rate': "; FF EmptyString (e2e_rate r); FS ", 'total': "; repr_opt (total r);
       FS ", 'wrong': "; repr_opt (wrong r); FS ", 'ok': ";
       repr_bool (ok r); FS "}"]
  end.

Definition modes : list (string * string) :=
  [("plain", "/tmp/perf_plain.data"); ("js-file", "/tmp/perf_jsfile.data");
   ("js-memory", "/tmp/perf_jsmemory.data")].

Definition main : Py unit :=
  for_ modes (fun '(mode, perf_out) =>
    print [FS "=== profiling mode="; FS mode; FS " N="; FZ N; FS " ==="];;
    res <- run_profiled mode mode perf_out;;
    if match res with Some r => ok r | None => false end then ret ()
    else eprint ([FS "  ["; FS mode; FS "] FAILED/incorrect: "] ++ repr_profile res)).

(** *** Checks *)

Lemma perf_start_instance_starts mode tag i : starts home (start_instance mode tag i).
Proof.
  unfold start_instance. case_bool_decide;
    (eapply start_logged_starts; [done|apply sidecar_is_nats]).
Qed.

Lemma start_perf_idle server perf_out log :
  idle home (start_perf server perf_out log).
Proof. split; [|done]. intros [pid|e]; simpl; [by rewrite path_tool_not_nats|done]. Qed.

Lemma flush_perf_idle p : idle home (flush_perf p).
Proof.
  unfold flush_perf, try_except. apply idle_bind; [by split|]. intros _.
  apply idle_bindp; [idle_now|]. intros [[]|e]; [done|idle_now].
Qed.

(** The call that makes the [finally] clause give up. *)
Definition perf_unkillable (e : event) : Prop :=
  ∃ p err, e = Ev (Terminate p) (Err err).

Lemma stop_perf_attends : attends home perf_unkillable stop_perf.
Proof.
  intros f. unfold stop_perf. destruct (perf_proc f) as [p|]; [|done].
  simpl. intros [z|]; simpl; [done|]. intros [[]|e]; simpl; [done|].
  split; [done|]. exists [Ev (Poll p) None], (Ev (Terminate p) (Err e)). split; [done|]. by exists p, e.
Qed.

Lemma run_profiled_cleans mode tag perf_out :
  wp (run_profiled mode tag perf_out)
    (fun t r => is_Some r → cleaned_up home t ∨ ends_badly perf_unkillable t).
Proof.
  apply supervise_with_cleans; [apply start_server_starts|done|apply stop_perf_attends|].
  intros server. pose proof start_perf_idle. pose proof flush_perf_idle. unfold run_ctrl. track.
  - apply tracked_launch_with; [done|]. intros i. apply perf_start_instance_starts.
  - by apply tracked_assign.
Qed.
End script.
End PerfProfile.

(** ** nats_sidecar_mutex_contention_profile.py *)

Module Mutex.
Definition INPUT_STREAM : string := "SC_MUTEXPROF_INPUT".
Definition DURABLE_NAME : string := "sc-mutexprof-durable".
Definition DELIVER_SUBJECT : string := "sc.mutexprof.deliver".
Definition DELIVER_GROUP : string := "sc-mutexprof-group".
Definition PROF_PORT : Z := 6061.
Definition N : Z := 16.

Definition conf_text (store : string) : string :=
  "port: 4222" +:+ newline +:+ "jetstream { store_dir: " +:+ quote_char +:+ store +:+ quote_char
    +:+ " }" +:+ newline +:+ "prof_port: " +:+ py_str PROF_PORT +:+ newline
    +:+ "prof_block_rate: 1" +:+ newline.

Section script.
Context (home : string).

Definition start_server : Py (Z * Z) :=
  let store := "/tmp/nsc_mutexprof_store" in
  let conf_path := "/tmp/nsc_mutexprof_server.conf" in
  there <- call (PathExists store);;
  (if there : bool then Do (Rmtree store) Ret else ret ());;
  Do (Makedirs store) Ret;;
  write_file conf_path "w" (conf_text store);;
  s <- start_logged "/tmp/nsc_mutexprof_server.log" [NATS_SERVER home; "-c"; conf_path];;
  sleep (lit 12 10);;
  ret s.

Definition start_sidecar (i : Z) : Py (Z * Z) :=
  start_logged ("/tmp/nsc_mutexprof_sidecar_" +:+ py_str i +:+ ".log")
    [SIDECAR home; "-a"; "127.0.0.1"; "-p"; "4222"; "-i"; INPUT_SUBJECT;
     "--input-stream"; INPUT_STREAM; "--input-stream-storage"; "file";
     "--consumer-durable-name"; DURABLE_NAME;
     "--consumer-deliver-subject"; DELIVER_SUBJECT;
     "--consumer-deliver-group"; DELIVER_GROUP;
     "--consumer-max-ack-pending"; "2000"; "--consumer-ack-wait"; "30";
     "--attr"; FILTER_FIELD +:+ ":string"; "--engine"; "atree";
     "--output-prefix"; OUTPUT_PREFIX;
     "--subscribe-subject"; "sc.mutexprof.ctrl." +:+ py_str i;
     "--workers"; "2"; "--lease-bucket"; "sc-mutexprof-leases-" +:+ py_str i].

Definition run_ctrl (subscribe_subject : string) : Py string :=
  run_ctrl_on home subscribe_subject filter_expression.

Definition profile_url : string :=
  "http://localhost:" +:+ py_str PROF_PORT +:+ "/debug/pprof/block?debug=1".

Definition fetch_block_profile (out_path : string) : Py string :=
  data <- Do (HttpGet profile_url 10) Ret;;
  write_file out_path "wb" data;;
  ret data.

(** The process's exit status; [None] if [main] ended without a
    [return]. *)
Definition main : Py (option Z) :=
  supervise start_server (fun _ =>
    s_let (fetch_block_profile "/tmp/nsc_mutexprof_baseline.txt") (fun _ => s_skip) ;;;
    s_launch N start_sidecar (fun _ => EmptyString) ;;;
    s_do (sleep (fadd (lit 15 10) (fmul (lit 2 10) (of_int N)))) ;;;
    s_all_alive (fun _ => [FS "N="; FZ N; FS " instance exited early"]) (Some 1) ;;;
    s_control (range 1 (N + 1)) (fun i => run_ctrl ("sc.mutexprof.ctrl." +:+ py_str i))
      (fun _ reply => [FS "N="; FZ N; FS " ctrl FAILED: "; FS reply]) (Some 1) ;;;
    s_do (sleep (lit 3 10)) ;;;
    sub <-- start_subfield home (OUTPUT_PREFIX +:+ ".>") "90000" ;;;
    s_do (sleep (lit 3 10)) ;;;
    t0 <-- wall_time ;;;
    pub <-- run_psql publish_stream_sql 120 ;;;
    t1 <-- wall_time ;;;
    s_if (negb (returncode pub =? 0))
      (s_do (eprint [FS "publish FAILED: "; FS (proc_stderr pub)]) ;;; s_return (Some 1)) ;;;
    sub_out <-- communicate sub 100 ;;;
    t2 <-- wall_time ;;;
    after <-- fetch_block_profile "/tmp/nsc_mutexprof_after_run.txt" ;;;
    let tw := tot_wrong (last_line sub_out) in
    let good := verdict tw.1 tw.2 in
    s_do (print [FS "pub_secs="; FF ".2f" (fsub t1 t0); FS " e2e_secs="; FF ".2f" (fsub t2 t0);
                 FS " total="; FO tw.1; FS " wrong="; FO tw.2; FS " ok=";
                 repr_bool good]) ;;;
    s_return (Some (if good then 0 else 1))) None.

(** *** Checks *)

Lemma fetch_block_profile_idle path : idle home (fetch_block_profile path).
Proof. pose proof (write_file_idle home). unfold fetch_block_profile. idle_now. Qed.

Lemma mutex_start_server_starts : starts home start_server.
Proof.
  unfold start_server. apply starts_after; [by split|]. intros there.
  apply starts_after; [by destruct there; split|]. intros _.
  apply starts_after; [by split|]. intros _.
  apply starts_after; [apply write_file_idle|]. intros _.
  apply wp_bind. eapply wp_mono; [|by eapply start_logged_starts; [done|apply server_is_nats]].
  intros t [[s|e]|] Ht; [|done..]. unfold sleep.
  assert (nonneg (lit 12 10) = true) as -> by (vm_compute; reflexivity).
  intros []. simpl. by rewrite spawned_app, Ht.
Qed.

Lemma main_cleans : wp main (fun t r => is_Some r → cleaned_up home t).
Proof.
  apply supervise_cleans; [apply mutex_start_server_starts|]. intros _.
  pose proof fetch_block_profile_idle. unfold run_ctrl. track.
  eapply start_logged_starts; [done|apply sidecar_is_nats].
Qed.
End script.
End Mutex.

(** ** measure_ctrl_plane_only.py *)

Module MeasureCtrl.
Definition STORE_BASE : string := "/tmp/nsc_ctrlonly_store".

Section script.
Context (home : string).

Definition start_server (tag : string) : Py (Z * Z) :=
  start_server_on home (STORE_BASE +:+ "_" +:+ tag)
    ("/tmp/nsc_ctrlonly_server_" +:+ tag +:+ ".log").

Definition start_sidecar_unique_subject (i n : Z) : Py (Z * Z) :=
  start_logged ("/tmp/nsc_ctrlonly_sidecar_" +:+ py_str n +:+ "_" +:+ py_str i +:+ ".log")
    [SIDECAR home; "-a"; "127.0.0.1"; "-p"; "4222"; "-i"; INPUT_SUBJECT;
     "--queue-group"; "qg-real"; "--attr"; FILTER_FIELD +:+ ":string"; "--engine"; "atree";
     "--output-prefix"; OUTPUT_PREFIX; "--subscribe-subject"; "sc.real.ctrl." +:+ py_str i;
     "--workers"; "2";
     "--lease-bucket"; "sc-ctrlonly-old-leases-" +:+ py_str n +:+ "-" +:+ py_str i].

Definition start_sidecar_shared_subject (i n : Z) : Py (Z * Z) :=
  start_logged ("/tmp/nsc_ctrlonly_sidecar_new_" +:+ py_str n +:+ "_" +:+ py_str i +:+ ".log")
    [SIDECAR home; "-a"; "127.0.0.1"; "-p"; "4222"; "-i"; INPUT_SUBJECT;
     "--queue-group"; "qg-real"; "--attr"; FILTER_FIELD +:+ ":string"; "--engine"; "atree";
     "--output-prefix"; OUTPUT_PREFIX; "--subscribe-subject"; "sc.real.ctrl.shared";
     "--workers"; "2";
     "--lease-bucket"; "sc-ctrlonly-new-leases-" +:+ py_str n +:+ "-" +:+ py_str i].

Definition run_ctrl_old (i : Z) : Py string :=
  run_ctrl_on home ("sc.real.ctrl." +:+ py_str i) filter_expression.

(** [time.sleep(2.0 + 0.1 * n)] *)
Definition settle (n : Z) : Py unit :=
  sleep (fadd (of_int 2) (fmul (lit 1 10) (of_int n))).

(** [(t1 - t0) * 1000.0] *)
Definition millis (t0 t1 : float) : float := fmul (fsub t1 t0) (of_int 1000).

Definition measure_old (n : Z) : Py (option float) :=
  supervise (start_server ("old" +:+ py_str n)) (fun _ =>
    s_launch n (fun i => start_sidecar_unique_subject i n) (fun _ => EmptyString) ;;;
    s_do (settle n) ;;;
    t0 <-- wall_time ;;;
    s_control (range 1 (n + 1)) run_ctrl_old
      (fun i reply => [FS "  OLD N="; FZ n; FS " instance "; FZ i; FS " ctrl FAILED: "; FS reply])
      None ;;;
    t1 <-- wall_time ;;;
    s_return (Some (millis t0 t1))) None.

(** [for line in r.stdout.splitlines(): ... acks = int(line.split()[1])] *)
Fixpoint acks_in (lines : list string) (acks : option Z) : result (option Z) :=
  match lines with
  | [] => Ok acks
  | line :: ls =>
      if startswith "CTRL_BCAST_ACKS " line then
        Bcast.and_then (Bcast.part (split_ws line) 1) (fun p =>
          Bcast.and_then (Bcast.as_int p) (fun z => acks_in ls (Some z)))
      else acks_in ls acks
  end.

Definition broadcast_argv (n : Z) : list string :=
  [DRIVER home; "ctrl_bcast"; "sc.real.ctrl.shared"; filter_expression; py_str n; "5000"].

Definition measure_new (n : Z) : Py (option float) :=
  supervise (start_server ("new" +:+ py_str n)) (fun _ =>
    s_launch n (fun i => start_sidecar_shared_subject i n) (fun _ => EmptyString) ;;;
    s_do (settle n) ;;;
    t0 <-- wall_time ;;;
    r <-- Do (RunProc (broadcast_argv n) 15) Ret ;;;
    t1 <-- wall_time ;;;
    s_if (negb (contains "CTRL_BCAST_ID" (proc_stdout r)))
      (s_do (eprint [FS "  NEW N="; FZ n; FS " ctrl_bcast FAILED: "; FR (proc_stdout r); FS " ";
                     FR (proc_stderr r)]) ;;;
       s_return None) ;;;
    acks <-- lift (acks_in (splitlines (proc_stdout r)) None) ;;;
    s_if (negb (bool_decide (acks = Some n)))
      (s_do (eprint [FS "  NEW N="; FZ n; FS " WARNING only "; Bcast.opt_frag acks; FS "/"; FZ n;
                     FS " acked"])) ;;;
    s_return (Some (millis t0 t1))) None.

(** [str(ms)] of a float or None. *)
Definition opt_ms (ms : option float) : frag :=
  match ms with Some x => FF EmptyString x | None => FS "None" end.

Definition script_main : Py unit :=
  print [FS "N | old_design_ms (N sequential ctrl round trips) | new_design_ms (1 ctrl_bcast call)"];;
  for_ [1; 2; 4; 8; 16; 32] (fun n =>
    old_ms <- measure_old n;;
    sleep (lit 5 10);;
    new_ms <- measure_new n;;
    sleep (lit 5 10);;
    print (match old_ms, new_ms with
           | Some o, Some w => [FZ n; FS " | "; FF ".1f" o; FS " | "; FF ".1f" w]
           | _, _ => [FZ n; FS " | FAILED old="; opt_ms old_ms; FS " new="; opt_ms new_ms]
           end)).

(** *** Checks *)

Lemma settle_idle n : idle home (settle n).
Proof. apply idle_sleep. Qed.

Lemma measure_old_cleans n : wp (measure_old n) (fun t r => is_Some r → cleaned_up home t).
Proof.
  apply supervise_cleans; [apply start_server_starts|]. intros _. pose proof settle_idle.
  unfold run_ctrl_old. track. eapply start_logged_starts; [done|apply sidecar_is_nats].
Qed.

Lemma measure_new_cleans n : wp (measure_new n) (fun t r => is_Some r → cleaned_up home t).
Proof.
  apply supervise_cleans; [apply start_server_starts|]. intros _. pose proof settle_idle.
  track. eapply start_logged_starts; [done|apply sidecar_is_nats].
Qed.
End script.
End MeasureCtrl.

(** ** Properties *)

(** The exit status of the mutex-contention run tells whether the run was
    verified: it is 0 or 1, and it is 0 only after a publish statement that
    succeeded and a subscriber that reported all 21683 expected matches and
    none wrong. *)
Theorem mutex_exit_status home t c :
  exec (Mutex.main home) t (Some (Ok c)) →
  (c = Some 0 ∨ c = Some 1) ∧
  (c = Some 0 → ∃ pub sub_pid out,
     Ev (RunProc (PSQL ++ [publish_stream_sql]) 120) (Ok pub) ∈ t ∧ returncode pub = 0 ∧
     Ev (Communicate sub_pid 100) (Ok out) ∈ t ∧
     tot_wrong (last_line out) = (Some (py_str EXPECTED), Some "0")).
Proof.
  unfold Mutex.main.
  intros (server & tt0 & tt1 & tt2 & -> & _ & [H|[_ [f H]]])%supervise_ends.
  2:{ exfalso. revert H. 
      repeat (apply always_returns_seq || (apply always_returns_let; intros ?)).
      apply always_returns_return. }
  destruct (decide (c = Some 1)) as [->|Hc]; [by split; [right|]|].
  do 6 (eapply (returns_past _ _ _ _ _ (Some 1)) in H as (? & ? & ? & -> & _ & H); [|only_fails|done]).
  apply returns_let in H as (sub & ? & ? & -> & _ & H).
  eapply (returns_past _ _ _ _ _ (Some 1)) in H as (? & ? & ? & -> & _ & H); [|only_fails|done].
  apply returns_let in H as (t0 & ? & ? & -> & _ & H).
  apply returns_let in H as (pub & ? & ? & -> & Hpub & H).
  apply returns_let in H as (t1 & ? & ? & -> & _ & H).
  eapply (guard_not_taken _ _ _ _ _ _ (Some 1)) in H as [Hrc H];
    [|only_fails|by intros; apply return_does_not_run|done].
  apply returns_let in H as (out & ? & ? & -> & Hout & H).
  apply returns_let in H as (t2 & ? & ? & -> & _ & H).
  apply returns_let in H as (data & ? & ? & -> & _ & H).
  eapply (returns_past _ _ _ _ _ (Some 1)) in H as (? & ? & ? & -> & _ & H); [|only_fails|done].
  apply returns_return in H as [-> ->]. destruct (verdict _ _) eqn:Hv; [|done].
  split; [by left|]. intros _. exists pub, sub, out.
  apply exec_run_proc in Hpub. apply exec_communicate in Hout. rewrite !elem_of_app.
  split; [tauto|]. split; [by apply negb_false_iff, Z.eqb_eq in Hrc|]. split; [tauto|].
  apply andb_prop in Hv as [H1 H2]. apply bool_decide_eq_true in H1, H2.
  by destruct (tot_wrong _); simplify_eq/=.
Qed.

(** The control calls of [measure_old], one per instance. *)
Definition old_calls (home : string) (n : Z) (calls : list (trace * string)) : Prop :=
  Forall2 (fun i c => exec (MeasureCtrl.run_ctrl_old home i) c.1 (Some (Ok c.2)) ∧
             reports_error c.2 = false) (range 1 (n + 1)) calls.

(** What [measure_old] reports is the time of the control phase alone, and
    of the whole of it: the milliseconds between two readings of the clock
    between which there are the [n] control calls, one per instance in order,
    all answered without an error, and nothing else. *)
Theorem measure_old_times_control home n t ms :
  exec (MeasureCtrl.measure_old home n) t (Some (Ok (Some ms))) →
  ∃ before t0 calls t1 after,
    t = before ++ [Ev WallTime t0] ++ concat calls.*1 ++ [Ev WallTime t1] ++ after ∧
    old_calls home n calls ∧ ms = MeasureCtrl.millis t0 t1.
Proof.
  unfold MeasureCtrl.measure_old.
  intros (server & tt0 & tt1 & tt2 & -> & _ & H)%supervise_returns; [|done].
  eapply (returns_past _ _ _ _ _ None) in H as (f1 & ta & ? & -> & _ & H); [|only_fails|done].
  eapply (returns_past _ _ _ _ _ None) in H as (f2 & tb & ? & -> & _ & H); [|only_fails|done].
  apply returns_let in H as (t0 & ? & ? & -> & ->%exec_wall_time & H).
  eapply (returns_past _ _ _ _ _ None) in H as (f & tc & ? & -> & Hc & H); [|only_fails|done].
  apply returns_let in H as (t1 & ? & ? & -> & ->%exec_wall_time & H).
  apply returns_return in H as [[= ->] ->].
  apply s_control_runs in Hc as (_ & calls & Hcalls & ->).
  exists (tt0 ++ ta ++ tb), t0, calls, t1, tt2. split; [|by split].
  by rewrite ?app_nil_r, <-!app_assoc.
Qed.

(** [measure_new] times the single broadcast: between its two readings of
    the clock there is exactly the driver's ctrl_bcast call for the [n]
    instances, and that call printed a subscription id. *)
Theorem measure_new_times_broadcast home n t ms :
  exec (MeasureCtrl.measure_new home n) t (Some (Ok (Some ms))) →
  ∃ before t0 r t1 after,
    t = before ++ [Ev WallTime t0; Ev (RunProc (MeasureCtrl.broadcast_argv home n) 15) (Ok r);
                   Ev WallTime t1] ++ after ∧
    contains "CTRL_BCAST_ID" (proc_stdout r) = true ∧ ms = MeasureCtrl.millis t0 t1.
Proof.
  unfold MeasureCtrl.measure_new.
  intros (server & tt0 & tt1 & tt2 & -> & _ & H)%supervise_returns; [|done].
  eapply (returns_past _ _ _ _ _ None) in H as (f1 & ta & ? & -> & _ & H); [|only_fails|done].
  eapply (returns_past _ _ _ _ _ None) in H as (f2 & tb & ? & -> & _ & H); [|only_fails|done].
  apply returns_let in H as (t0 & ? & ? & -> & ->%exec_wall_time & H).
  apply returns_let in H as (r & ? & ? & -> & ->%exec_run_proc_only & H).
  apply returns_let in H as (t1 & ? & ? & -> & ->%exec_wall_time & H).
  eapply (guard_not_taken _ _ _ _ _ _ None) in H as [Hid H];
    [|only_fails|by intros; apply return_does_not_run|done].
  apply returns_let in H as (acks & ? & ? & -> & [-> _] & H).
  eapply (returns_past _ _ _ _ _ None) in H as (f & tc & ? & -> & _ & H); [|only_fails|done].
  apply returns_return in H as [[= ->] ->].
  exists (tt0 ++ ta ++ tb), t0, r, t1, (tc ++ tt2).
  split; [|split; [by apply negb_false_iff in Hid|done]].
  by rewrite ?app_nil_r, <-!app_assoc.
Qed.

Module ProfileExample.
Definition rep (n : nat) (l : list answer) : list answer := concat (replicate n l).
Definition fine : answer := ARun (Completed 0 "ok" EmptyString).
Definition stopped : list answer := [AUnit; AInt 0; AUnit].

(** Sixteen instances, a verified run. *)
Definition fetch : list answer := [AStr "profile"; AInt 5; AUnit; AUnit].
Definition mutex : list answer :=
  [ABool false; AUnit; AInt 9; AUnit; AUnit; AInt 3; AInt 100; AUnit] ++ fetch ++
  rep 16 [AInt 4; AInt 101] ++ [AUnit] ++ rep 16 [AUnit] ++ rep 16 [fine] ++
  [AUnit; AInt 102; AUnit; AFloat (of_int 10); fine; AFloat (of_int 12);
   AStr ThroughputExample.verdict_line; AFloat (of_int 13)] ++ fetch ++ [AUnit] ++
  rep 16 stopped ++ stopped.

Definition server_up : list answer := [ABool true; AUnit; AUnit; AInt 3; AInt 100; AUnit].

Definition old : list answer :=
  server_up ++ rep 2 [AInt 4; AInt 101] ++ [AUnit; AFloat (of_int 10); fine; fine; AFloat (of_int 11)]
    ++ rep 3 stopped.

Definition new : list answer :=
  server_up ++ rep 2 [AInt 4; AInt 101] ++
  [AUnit; AFloat (of_int 10); ARun (Completed 0 (bcast_output 7 2 0 2 "1.5") EmptyString);
   AFloat (of_int 11)] ++ rep 3 stopped.
End ProfileExample.

Lemma mutex_exit_status_witness :
  (Some 0 = Some 0 ∨ Some 0 = Some 1) ∧
  (Some 0 = Some 0 → ∃ pub sub_pid out,
     Ev (RunProc (PSQL ++ [publish_stream_sql]) 120) (Ok pub)
       ∈ replayed (Mutex.main "/home/u") ProfileExample.mutex ∧ returncode pub = 0 ∧
     Ev (Communicate sub_pid 100) (Ok out)
       ∈ replayed (Mutex.main "/home/u") ProfileExample.mutex ∧
     tot_wrong (last_line out) = (Some (py_str EXPECTED), Some "0")).
Proof. apply (mutex_exit_status "/home/u"), replayed_exec. vm_compute. reflexivity. Defined.

Lemma measure_old_times_control_witness :
  ∃ before t0 calls t1 after,
    replayed (MeasureCtrl.measure_old "/home/u" 2) ProfileExample.old =
      before ++ [Ev WallTime t0] ++ concat calls.*1 ++ [Ev WallTime t1] ++ after ∧
    old_calls "/home/u" 2 calls ∧
    MeasureCtrl.millis (of_int 10) (of_int 11) = MeasureCtrl.millis t0 t1.
Proof.
  apply (measure_old_times_control "/home/u" 2), replayed_exec. vm_compute. reflexivity.
Defined.

Lemma measure_new_times_broadcast_witness :
  ∃ before t0 r t1 after,
    replayed (MeasureCtrl.measure_new "/home/u" 2) ProfileExample.new =
      before ++ [Ev WallTime t0; Ev (RunProc (MeasureCtrl.broadcast_argv "/home/u" 2) 15) (Ok r);
                 Ev WallTime t1] ++ after ∧
    contains "CTRL_BCAST_ID" (proc_stdout r) = true ∧
    MeasureCtrl.millis (of_int 10) (of_int 11) = MeasureCtrl.millis t0 t1.
Proof.
  apply (measure_new_times_broadcast "/home/u" 2), replayed_exec. vm_compute. reflexivity.
Defined.
