(* ===== verification/Runs.v ===== *)
(** * Every supervised run

    The runs of all the scripts that start NATS processes, and what holds of
    each of them. *)
From S2P Require Import Prelude PyFloat PyStr PyM Pool Observe Report Harness Throughput Jetstream Scaling Profile.

Section runs.
Context (home : string) (float_sum : list float → float).

(** The calls of one run, however it ended (its value, or an exception). *)
Definition calls_of {A} (p : Py A) (t : trace) : Prop := ∃ r, exec p t (Some r).

Inductive harness_run : trace → Prop :=
| run_clean n tag mode t : calls_of (Clean.run_one home n tag mode) t → harness_run t
| run_isolation n tag mode t : calls_of (Isolation.run_one home n tag mode) t → harness_run t
| run_jetstream n tag t : calls_of (Consumer.run_n_jetstream home n tag) t → harness_run t
| run_jetstream_warmup t : calls_of (Consumer.run_n32_load home) t → harness_run t
| run_n1 t : calls_of (N1.run_n1_jetstream home) t → harness_run t
| run_n1_warmup t : calls_of (N1.run_n32_load home) t → harness_run t
| run_real_data n t : calls_of (RealData.run_n home n) t → harness_run t
| run_bcast n t : calls_of (Bcast.run_n home n) t → harness_run t
| run_cpp n t : calls_of (Cpp.run_n home n) t → harness_run t
| run_ext n t : calls_of (Ext.run_n home float_sum n) t → harness_run t
| run_mutex t : calls_of (Mutex.main home) t → harness_run t
| run_old n t : calls_of (MeasureCtrl.measure_old home n) t → harness_run t
| run_new n t : calls_of (MeasureCtrl.measure_new home n) t → harness_run t.

(** The run of the profiler, which has a process of its own to stop first. *)
Definition profiled_run (t : trace) : Prop :=
  ∃ mode tag perf_out, calls_of (PerfProfile.run_profiled home mode tag perf_out) t.
End runs.

(** ** Lemmas *)

Lemma calls_cleaned {A} home (p : Py A) t :
  wp p (fun t r => is_Some r → cleaned_up home t) → calls_of p t → cleaned_up home t.
Proof. intros Hwp [r He]. eapply (exec_wp _ _ _ _ Hwp); eauto. Qed.

(** The profiler's run cleans up too, except that terminating perf comes
    first and unguarded: if that call raises, the NATS processes stay. *)
Lemma profiled_run_cleans_up home t :
  profiled_run home t →
  cleaned_up home t ∨ ∃ t' p err, t = t' ++ [Ev (Terminate p) (Err err)].
Proof.
  intros (mode & tag & out & r & He).
  pose proof (exec_wp _ _ _ _ (PerfProfile.run_profiled_cleans home mode tag out) He) as H.
  destruct H as [|(t' & e & -> & p & err & ->)]; eauto.
Qed.

(** ** Properties *)

(** C26. The runs clean up after themselves.  Whatever the outside world
    answers, and whether the run returns a result, gives up early or raises,
    every nats-server and every sidecar that a run of these scripts has started
    is stopped afterwards, and then its log file is closed: it is sent SIGTERM
    and has exited within five seconds, or else, when the signal or the wait
    failed, it is sent SIGKILL, and waited for again if that could be sent.
    The profiler's run (nats_sidecar_perf_profile.py) does so too, unless its
    finally clause gives up first: its last call is then the SIGTERM for perf,
    which raised (no other SIGTERM that raised is a last call). *)
Theorem runs_clean_up home float_sum t :
  (harness_run home float_sum t → cleaned_up home t) ∧
  (profiled_run home t →
     cleaned_up home t ∨ ∃ t' p err, t = t' ++ [Ev (Terminate p) (Err err)]).
Proof.
  split; [|apply profiled_run_cleans_up].
  destruct 1; (eapply calls_cleaned; [|eassumption]).
  - apply Clean.clean_run_one_cleans.
  - apply Isolation.isolation_run_one_cleans.
  - apply Consumer.run_n_jetstream_cleans.
  - apply Consumer.consumer_run_n32_load_cleans.
  - apply N1.run_n1_jetstream_cleans.
  - apply N1.n1_run_n32_load_cleans.
  - apply RealData.real_data_run_n_cleans.
  - apply Bcast.bcast_run_n_cleans.
  - apply Cpp.cpp_run_n_cleans.
  - apply Ext.ext_run_n_cleans.
  - apply Mutex.main_cleans.
  - apply MeasureCtrl.measure_old_cleans.
  - apply MeasureCtrl.measure_new_cleans.
Qed.

Module RunsExample.
Definition failed : trace :=
  replayed (Clean.run_one "/home/u" 1 "plain1_0" "plain") ThroughputExample.failure.

(** The profiler's run gives up: an instance has exited. *)
Definition exited : list answer :=
  ProfileExample.server_up ++ ProfileExample.rep 16 [AInt 4; AInt 101] ++ [AUnit; AInt 1; AUnit] ++
  ProfileExample.rep 17 ProfileExample.stopped.
End RunsExample.

Lemma runs_clean_up_witness :
  cleaned_up "/home/u" RunsExample.failed ∧
  let t := replayed (PerfProfile.run_profiled "/home/u" "plain" "plain" "out") RunsExample.exited in
  cleaned_up "/home/u" t ∨ ∃ t' p err, t = t' ++ [Ev (Terminate p) (Err err)].
Proof.
  split.
  - apply (proj1 (runs_clean_up "/home/u" (fun _ => fzero) _)), (run_clean _ _ 1 "plain1_0" "plain").
    eexists. apply replayed_exec. vm_compute. reflexivity.
  - apply (proj2 (runs_clean_up "/home/u" (fun _ => fzero) _)). exists "plain", "plain", "out".
    eexists. apply replayed_exec. vm_compute. reflexivity.
Defined.

(** The subscriber is no NATS process and no run stops it: here the publish
    statement fails, the run returns, and process 102, the subscriber, has been
    started and never terminated, killed or waited for. *)
Definition touches (p : Z) (e : event) : bool :=
  match ev_cmd e with
  | Terminate q | Kill q | Wait q _ | Communicate q _ => q =? p
  | _ => false
  end.

Lemma subscriber_left_running :
  existsb (fun e => match e with
                    | Ev c x => match c return reply c → bool with
                                | Popen argv None => fun r =>
                                    match r with Ok p => p =? 102 | Err _ => false end
                                | _ => fun _ => false
                                end x
                    end) RunsExample.failed = true ∧
  existsb (touches 102) RunsExample.failed = false ∧
  Observe.outcome (Clean.run_one "/home/u" 1 "plain1_0" "plain") ThroughputExample.failure =
    Some (Some (Ok None)).
Proof. vm_compute. by split. Qed.
