(* ===== verification/Asyncio.v ===== *)
(** * asyncio and nats-py

    An asyncio script gives control to the event loop at each [await]; the
    callbacks of the messages that arrived run then, one after the other and
    each to its end (none of them awaits).  A callback that raises is reported
    by nats-py and does not reach the script, so a callback is a program
    without a result.  Which messages arrive, and when, is the reply of the
    awaited command. *)
From Stdlib Require Import Ascii.
From S2P Require Import Prelude PyFloat PyStr PyM Observe.

(** [b"x" * n] *)
Definition xs (n : Z) : string := Nat.iter (Z.to_nat n) (String "x") EmptyString.

(** A string argument that is given and not empty. *)
Definition given (o : option string) : option string :=
  match o with Some EmptyString | None => None | Some s => Some s end.

Section callbacks.
Context {S : Type} (callback : delivery → S → prog S).

Fixpoint handle_all (ds : list delivery) (s : S) : prog S :=
  match ds with
  | [] => Ret s
  | d :: ds' => bindp (callback d s) (handle_all ds')
  end.

(** The state after the callbacks, and what the wait came to. *)
Definition awaited (a : awaitable) (s : S) : prog (S * result unit) :=
  Do (Await a) (fun x => bindp (handle_all x.1 s) (fun s' => Ret (s', x.2))).

(** [await a] *)
Definition await (a : awaitable) (s : S) : Py S :=
  bindp (awaited a s) (fun '(s', r) => match r with Ok _ => ret s' | Err e => raise e end).
End callbacks.

(** [await a] while the script has no subscription. *)
Definition await_ (a : awaitable) : Py unit := Do (Await a) (fun x => Ret x.2).

(** The messages handed to the script's callbacks. *)
Definition delivered_of (e : event) : list delivery :=
  match e with
  | Ev c x =>
      match c return reply c → list delivery with
      | Await _ => fun r => r.1
      | _ => fun _ => []
      end x
  end.

Definition messages (t : trace) : list delivery := t ≫= delivered_of.

(** What the script published. *)
Definition published_of (e : event) : list (string * string) :=
  match ev_cmd e with Await (NatsPublish subject data) => [(subject, data)] | _ => [] end.

Definition published (t : trace) : list (string * string) := t ≫= published_of.

Lemma messages_app t1 t2 : messages (t1 ++ t2) = messages t1 ++ messages t2.
Proof. apply bind_app. Qed.
Lemma published_app t1 t2 : published (t1 ++ t2) = published t1 ++ published t2.
Proof. apply bind_app. Qed.

#[export] Hint Rewrite messages_app published_app : obs.

Lemma exec_await_ a t : exec (await_ a) t (Some (Ok ())) → t = [Ev (Await a) ((t ≫= delivered_of), Ok ())].
Proof.
  intros ([ds r] & t' & -> & Ht & Hr). simpl in Hr. injection Hr as ->. rewrite Ht. simpl.
  by rewrite app_nil_r.
Qed.

Lemma exec_await_ok a t : exec (await_ a) t (Some (Ok ())) → ∃ ds, t = [Ev (Await a) (ds, Ok ())].
Proof. intros H%exec_await_. by eexists. Qed.

(** The calls that write a file. *)
Lemma write_file_calls path mode text t :
  exec (write_file path mode text) t (Some (Ok ())) →
  ∃ fd, t = [Ev (OpenFile path mode) (Ok fd); Ev (WriteFile fd text) (Ok ()); Ev (CloseFile fd) ()].
Proof.
  intros ([fd|e] & t' & -> & He); [|by destruct He]. exists fd.
  destruct He as (r & ? & -> & He). by destruct He as ([] & ? & -> & -> & [= ->]).
Qed.

(** Readings of the clock, one after the other. *)
Definition readings (xs : list float) : trace := (fun x : float => Ev Monotonic x) <$> xs.

Lemma messages_readings xs : messages (readings xs) = [].
Proof. by induction xs. Qed.

Lemma messages_await a ds r ys : messages (Ev (Await a) (ds, r) :: readings ys) = ds.
Proof. change (ds ++ messages (readings ys) = ds). by rewrite messages_readings, app_nil_r. Qed.

Lemma published_readings xs : published (readings xs) = [].
Proof. by induction xs. Qed.

Section arrivals.
(** The messages whose callback reads the clock (once). *)
Context (timed : delivery → bool).

Definition timed_count (ds : list delivery) : nat := length (filter (fun d => timed d = true) ds).

(** The times at which the callbacks of the timed messages ran, while
    [pending] of them are still to run: after an await, the first readings of
    the clock are those of the callbacks it ran. *)
Fixpoint arrival_times (pending : nat) (t : trace) : list float :=
  match t with
  | [] => []
  | Ev c x :: t' =>
      match c return reply c → list float with
      | Await _ => fun r => arrival_times (timed_count r.1) t'
      | Monotonic => fun now =>
          match pending with
          | O => arrival_times O t'
          | S pending' => now :: arrival_times pending' t'
          end
      | _ => fun _ => arrival_times pending t'
      end x
  end.

(** [t] has the arrival times [xs], and owes none. *)
Definition accounts_for (t : trace) (xs : list float) : Prop :=
  ∀ t', arrival_times 0 (t ++ t') = xs ++ arrival_times 0 t'.

Lemma accounts_arrivals t xs : accounts_for t xs → arrival_times 0 t = xs.
Proof. intros H. specialize (H []). by rewrite !app_nil_r in H. Qed.

(** The arrival times are readings of the clock. *)
Lemma arrival_times_readings_of (P : float → Prop) n t :
  Forall P (monotonics t) → Forall P (arrival_times n t).
Proof.
  revert n. induction t as [|[c x] t IH]; intros n; [done|]. intros [Hx Ht]%Forall_app.
  destruct c; try by apply IH. destruct n as [|n]; [by apply IH|].
  cbn [arrival_times]. inversion Hx; subst. constructor; [done|by apply IH].
Qed.

Lemma accounts_nil : accounts_for [] [].
Proof. done. Qed.

Lemma accounts_app t1 t2 xs ys :
  accounts_for t1 xs → accounts_for t2 ys → accounts_for (t1 ++ t2) (xs ++ ys).
Proof. intros H1 H2 t'. by rewrite <-!app_assoc, H1, H2. Qed.

Lemma accounts_silent t1 t2 xs : accounts_for t1 [] → accounts_for t2 xs → accounts_for (t1 ++ t2) xs.
Proof. apply (accounts_app _ _ []). Qed.

(** A reading of the script's own. *)
Lemma accounts_reading x : accounts_for [Ev Monotonic x] [].
Proof. done. Qed.

Lemma arrival_times_readings xs t : arrival_times (length xs) (readings xs ++ t) = xs ++ arrival_times 0 t.
Proof. induction xs as [|x xs IH]; [done|]. simpl. by f_equal. Qed.

Lemma accounts_await a ds r xs :
  length xs = timed_count ds → accounts_for (Ev (Await a) (ds, r) :: readings xs) xs.
Proof. intros H t'. simpl. rewrite <-H. apply arrival_times_readings. Qed.
End arrivals.

Section rules.
Context {S : Type} (callback : delivery → S → prog S) (timed : delivery → bool).

(** A callback that reads the clock on a timed message, makes no other call,
    and keeps [J], which says what the state is after the messages and the
    arrival times so far. *)
Context (J : list delivery → list float → S → Prop).

Definition callback_ok : Prop := ∀ ds xs d s,
  J ds xs s → wp (callback d s) (fun t r => ∃ ys s', t = readings ys ∧
    length ys = (if timed d then 1 else 0)%nat ∧ r = Some s' ∧ J (ds ++ [d]) (xs ++ ys) s').

Context (Hcb : callback_ok).

Lemma handle_all_ok ds0 xs ds s :
  J ds0 xs s →
  wp (handle_all callback ds s) (fun t r => ∃ ys s', t = readings ys ∧
    length ys = timed_count timed ds ∧ r = Some s' ∧ J (ds0 ++ ds) (xs ++ ys) s').
Proof using Hcb.
  revert ds0 xs s. induction ds as [|d ds IH]; intros ds0 xs s HJ.
  { exists [], s. by rewrite !app_nil_r. }
  cbn [handle_all]. apply wp_bindp. eapply wp_mono; [|by apply Hcb].
  intros t r (ys & s' & -> & Hys & -> & HJ'). eapply wp_mono; [|by apply IH].
  intros t' r (zs & s'' & -> & Hzs & -> & HJ''). exists (ys ++ zs), s''.
  split; [unfold readings; by rewrite fmap_app|]. split; [|by rewrite <-!app_assoc in HJ''].
  rewrite length_app, Hys, Hzs. unfold timed_count. rewrite filter_cons.
  destruct (timed d); by simpl.
Qed.

(** A wait ends, one way or the other, with the callbacks done. *)
Lemma awaited_ok a ds0 xs s :
  J ds0 xs s →
  wp (awaited callback a s) (fun t o => ∃ ds r ys s', t = Ev (Await a) (ds, r) :: readings ys ∧
    length ys = timed_count timed ds ∧ o = Some (s', r) ∧ J (ds0 ++ ds) (xs ++ ys) s').
Proof using Hcb.
  intros HJ. unfold awaited. intros [ds r].
  apply wp_bindp. eapply wp_mono; [|by apply (handle_all_ok ds0 xs ds)].
  intros t o (ys & s' & -> & Hys & -> & HJ'). cbn -[readings]. rewrite app_nil_r.
  by exists ds, r, ys, s'.
Qed.

Lemma exec_awaited a ds0 xs s t o :
  J ds0 xs s → exec (awaited callback a s) t o →
  ∃ ds r ys s', t = Ev (Await a) (ds, r) :: readings ys ∧
    length ys = timed_count timed ds ∧ o = Some (s', r) ∧ J (ds0 ++ ds) (xs ++ ys) s'.
Proof using Hcb. intros HJ He. apply (exec_wp _ _ _ _ (awaited_ok a ds0 xs s HJ) He). Qed.

(** An await that returns. *)
Lemma exec_await a ds0 xs s t s' :
  J ds0 xs s → exec (await callback a s) t (Some (Ok s')) →
  ∃ ds ys, t = Ev (Await a) (ds, Ok ()) :: readings ys ∧
    length ys = timed_count timed ds ∧ J (ds0 ++ ds) (xs ++ ys) s'.
Proof using Hcb.
  intros HJ He. unfold await in He.
  apply exec_bindp in He as [([s1 r] & t1 & t2 & -> & H1 & H2)|[_ ?]]; [|done].
  apply (exec_awaited _ _ _ _ _ _ HJ) in H1 as (ds & r' & ys & s2 & -> & Hys & [= -> ->] & HJ').
  destruct r' as [[]|e]; destruct H2 as [-> [= ->]]. exists ds, ys. by rewrite app_nil_r.
Qed.

(** An await always ends. *)
Lemma await_ends a ds0 xs s t : J ds0 xs s → ¬ exec (await callback a s) t None.
Proof using Hcb.
  intros HJ [([s1 r] & t1 & t2 & -> & H1 & H2)|[H1 _]]%exec_bindp.
  - destruct r; by destruct H2.
  - by apply (exec_awaited _ _ _ _ _ _ HJ) in H1 as (? & ? & ? & ? & _ & _ & [=] & _).
Qed.
End rules.
