(* ===== verification/Selectivity.v ===== *)
(** * bench/nats_selectivity.py

    A publisher over a fixed hierarchy of subjects, a subscriber with a wide
    or a narrow pattern, and the formula for the matches it should receive. *)
From Stdlib Require Import Ascii.
From S2P Require Import Prelude PyFloat PyStr PyM Pool Observe Asyncio.

Definition REGIONS : Z := 8.
Definition SYMBOLS : Z := 200.
Definition TOTAL_SUBJECTS : Z := REGIONS * SYMBOLS.

Definition subject_for (i : Z) : string :=
  let region := i `mod` REGIONS in
  let symbol := (i `div` REGIONS) `mod` SYMBOLS in
  "trades.r" +:+ py_str region +:+ ".s" +:+ py_str symbol.

(** [len(range(0, count, step))], for a positive step. *)
Definition range_len (count step : Z) : Z :=
  if count <=? 0 then 0 else (count - 1) `div` step + 1.

Definition expected_matches (count : Z) (pattern : string) : result Z :=
  if bool_decide (pattern = "trades.>") then Ok count
  else if bool_decide (pattern = "trades.r0.>") then Ok (range_len count REGIONS)
  else if bool_decide (pattern = "trades.r0.s0") then Ok (range_len count TOTAL_SUBJECTS)
  else Err ValueError.

Section script.
Context (server_url : string).

(** [for i in range(count): await nc.publish(subject_for(i), payload)] *)
Definition publish_all (count : Z) (payload : string) : Py unit :=
  for_ (range 0 count) (fun i => await_ (NatsPublish (subject_for i) payload)).

(** [count / secs if secs > 0 else float("inf")] *)
Definition publish_rate (count : Z) (secs : float) : float :=
  if fgt secs fzero then fquot (of_int count) secs else finf.

Definition publisher_record (count : Z) (t0 t1 : float) : list (string * jval) :=
  let publish_secs := fsub t1 t0 in
  [("role", JStr "publisher"); ("count", JInt count); ("publish_secs", JRound publish_secs 4);
   ("publish_rate", JRound (publish_rate count publish_secs) 1);
   ("publish_end_monotonic", JFloat t1)].

Definition run_publisher (count payload_size : Z) : Py unit :=
  await_ (NatsConnect server_url);;
  let payload := xs payload_size in
  t0 <- monotonic;;
  publish_all count payload;;
  await_ NatsFlush;;
  t1 <- monotonic;;
  await_ NatsClose;;
  print [FJson (publisher_record count t0 t1)].

(** What the callback counts. *)
Record counted := Counted {
  received : Z;
  last_recv_monotonic : option float;
}.

Definition handler (msg : delivery) (s : counted) : prog counted :=
  Do Monotonic (fun t => Ret (Counted (received s + 1) (Some t))).

Definition subscriber_record (pattern : string) (expected : Z) (s : counted)
  : list (string * jval) :=
  [("role", JStr "subscriber"); ("pattern", JStr pattern); ("expected_matches", JInt expected);
   ("received", JInt (received s)); ("match_ok", JBool (received s =? expected));
   ("last_recv_monotonic",
    match last_recv_monotonic s with Some t => JFloat t | None => JNull end)].

(** [while received < expected and time.monotonic() < deadline:
    await asyncio.sleep(0.01)] *)
Definition settle (fuel : nat) (expected : Z) (deadline : float) : counted → Py counted :=
  while_ fuel
    (fun s => if received s <? expected then t <- monotonic;; ret (flt t deadline) else ret false)
    (await handler (AsyncSleep (lit 1 100))).

Definition run_subscriber (fuel : nat) (count : Z) (pattern ready_file : string)
    (settle_timeout_s : float) : Py unit :=
  await_ (NatsConnect server_url);;
  s <- await handler (NatsSubscribe pattern None) (Counted 0 None);;
  s <- await handler NatsFlush s;;
  write_file ready_file "w" ("ready" +:+ newline);;
  expected <- lift (expected_matches count pattern);;
  now <- monotonic;;
  s <- settle fuel expected (fadd now settle_timeout_s) s;;
  s <- await handler NatsClose s;;
  print [FJson (subscriber_record pattern expected s)].
End script.

(** The parsed command line. *)
Record args := Args {
  server : string;
  a_count : Z;
  payload_size : Z;
  publisher_role : bool;   (* --role publisher, or subscriber *)
  a_pattern : option string;
  a_ready_file : option string;
  settle_timeout : float;
}.

Definition main (fuel : nat) (a : args) : Py unit :=
  if publisher_role a then run_publisher (server a) (a_count a) (payload_size a)
  else
    match given (a_pattern a), given (a_ready_file a) with
    | Some pattern, Some ready_file =>
        run_subscriber (server a) fuel (a_count a) pattern ready_file (settle_timeout a)
    | _, _ => raise AssertionError
    end.

(** ** NATS subjects

    The documented matching of subjects against subscription patterns: a
    subject is a sequence of tokens separated by dots; a pattern without
    wildcards matches the subject with the same tokens, and one that ends in
    the wildcard > matches the subjects with one or more tokens in its
    place. *)
Definition tokens (s : string) : list string := split_on "." s.

Definition literal (ts : list string) : Prop := Forall (fun t => t ≠ "*" ∧ t ≠ ">") ts.

Class NatsMatching (matches : string → string → bool) := {
  matches_literal p s : literal (tokens p) → matches p s = true ↔ tokens s = tokens p;
  matches_tail p ps s : tokens p = ps ++ [">"] → literal ps →
    matches p s = true ↔ ∃ rest, rest ≠ [] ∧ tokens s = ps ++ rest;
}.

(** ** Lemmas *)

Lemma subject_tokens i :
  tokens (subject_for i) =
    ["trades"; "r" +:+ py_str (i `mod` REGIONS);
     "s" +:+ py_str ((i `div` REGIONS) `mod` SYMBOLS)].
Proof.
  unfold subject_for, tokens. cbv zeta.
  assert (0 ≤ i `mod` REGIONS < REGIONS) by by apply Z.mod_pos_bound.
  assert (0 ≤ (i `div` REGIONS) `mod` SYMBOLS < SYMBOLS) by by apply Z.mod_pos_bound.
  generalize dependent (i `mod` REGIONS). generalize dependent ((i `div` REGIONS) `mod` SYMBOLS).
  intros s Hs r Hr.
  change ("trades.r" +:+ ?x) with ("trades" +:+ String "." ("r" +:+ x)).
  rewrite split_on_word by done.
  change (".s" +:+ ?x) with (String "." ("s" +:+ x)). rewrite <-append_assoc, split_on_word.
  - rewrite split_on_last; [done|]. rewrite none_app. by rewrite py_str_dot_free by lia.
  - rewrite none_app. by rewrite py_str_dot_free by lia.
Qed.

(** Counting a residue in [range(0, count)]. *)
Lemma count_multiples k count :
  0 < k → 0 ≤ count →
  Z.of_nat (length (filter (fun i => i `mod` k = 0) (range 0 count))) = range_len count k.
Proof.
  intros Hk. revert count. apply natlike_ind; [done|].
  intros count Hc IH. unfold Z.succ.
  assert (range 0 (count + 1) = range 0 count ++ [count]) as ->.
  { unfold range. replace (Z.to_nat (count + 1 - 0)) with (Z.to_nat (count - 0) + 1)%nat by lia.
    rewrite seq_app, fmap_app. simpl. do 2 f_equal. lia. }
  rewrite filter_app, length_app, Nat2Z.inj_add, IH. unfold range_len.
  rewrite (proj2 (Z.leb_gt (count + 1) 0)) by lia. replace (count + 1 - 1) with count by lia.
  pose proof (Z.div_mod count k ltac:(lia)) as Hdiv.
  pose proof (Z.mod_pos_bound count k Hk) as Hmod.
  destruct (Z.leb_spec count 0) as [H0|H0].
  { assert (count = 0) as -> by lia. by rewrite filter_cons_True. }
  destruct (decide (count `mod` k = 0)) as [Hz|Hz].
  - rewrite filter_cons_True by done. simpl.
    assert ((count - 1) `div` k = count `div` k - 1) as ->; [|lia].
    symmetry. apply (Z.div_unique _ _ _ (k - 1)); [lia|]. lia.
  - rewrite filter_cons_False by done. simpl.
    assert ((count - 1) `div` k = count `div` k) as ->; [|lia].
    symmetry. apply (Z.div_unique _ _ _ (count `mod` k - 1)); [lia|]. lia.
Qed.

Lemma filter_length_ext {A} (P Q : A → Prop) `{∀ x, Decision (P x), ∀ x, Decision (Q x)} (l : list A) :
  (∀ x, x ∈ l → P x ↔ Q x) → length (filter P l) = length (filter Q l).
Proof.
  induction l as [|x l IH]; [done|]. intros HPQ.
  pose proof (HPQ x ltac:(by left)) as Hx.
  assert (length (filter P l) = length (filter Q l)) as Hl by (apply IH; intros y Hy; apply HPQ; by right).
  rewrite !filter_cons. repeat case_decide; simpl; tauto || by rewrite Hl.
Qed.

Lemma filter_all {A} (P : A → Prop) `{∀ x, Decision (P x)} (l : list A) :
  Forall P l → filter P l = l.
Proof. induction 1 as [|x l Hx _ IH]; [done|]. by rewrite filter_cons_True, IH. Qed.

Lemma first_symbol_multiple i :
  0 ≤ i → i `mod` REGIONS = 0 ∧ (i `div` REGIONS) `mod` SYMBOLS = 0 ↔ i `mod` TOTAL_SUBJECTS = 0.
Proof.
  intros Hi. unfold TOTAL_SUBJECTS. rewrite Z.rem_mul_r by done.
  pose proof (Z.mod_pos_bound i REGIONS ltac:(done)).
  pose proof (Z.mod_pos_bound (i `div` REGIONS) SYMBOLS ltac:(done)).
  unfold REGIONS, SYMBOLS in *. lia.
Qed.

(** The server's algorithm, token by token. *)
Fixpoint match_tokens (ps ss : list string) : bool :=
  match ps, ss with
  | [], [] => true
  | p :: ps', s :: ss' =>
      if bool_decide (p = ">") && bool_decide (ps' = []) then true
      else (bool_decide (p = "*") || bool_decide (p = s)) && match_tokens ps' ss'
  | _, _ => false
  end.

Definition nats_matches (p s : string) : bool := match_tokens (tokens p) (tokens s).

Lemma match_literal ps ss : literal ps → match_tokens ps ss = true ↔ ss = ps.
Proof.
  intros H. revert ss. induction H as [|p ps [Hstar Hgt] _ IH]; intros [|s ss]; [done..|].
  cbn [match_tokens]. rewrite (bool_decide_false (p = ">")), (bool_decide_false (p = "*")) by done.
  simpl. rewrite andb_true_iff, bool_decide_eq_true, IH. naive_solver.
Qed.

Lemma match_tail ps ss :
  literal ps → match_tokens (ps ++ [">"]) ss = true ↔ ∃ rest, rest ≠ [] ∧ ss = ps ++ rest.
Proof.
  intros H. revert ss. induction H as [|p ps [Hstar Hgt] _ IH]; intros [|s ss]; cbn [match_tokens app].
  - naive_solver.
  - rewrite !bool_decide_true by done. split; [intros _; by exists (s :: ss)|done].
  - naive_solver.
  - rewrite (bool_decide_false (p = ">")), (bool_decide_false (p = "*")) by done.
    simpl. rewrite andb_true_iff, bool_decide_eq_true, IH. naive_solver.
Qed.

#[export] Instance nats_matches_ok : NatsMatching nats_matches.
Proof.
  split; unfold nats_matches; [intros p s; apply match_literal|].
  intros p ps s ->. apply match_tail.
Qed.

Lemma publish_all_subjects count payload t :
  exec (publish_all count payload) t (Some (Ok ())) →
  published t = (fun i => (subject_for i, payload)) <$> range 0 count.
Proof.
  unfold publish_all. generalize (range 0 count). intros l. revert t.
  induction l as [|i l IH]; intros t; [by intros [-> _]|].
  cbn [for_]. intros He. apply exec_bind_ok in He as ([] & t1 & t2 & -> & H1 & H2).
  apply exec_await_ in H1. rewrite H1, published_app, (IH t2) by done. done.
Qed.

(** Every message's callback reads the clock. *)
Definition every (d : delivery) : bool := true.

(** [handler] counts the messages and keeps the time of the last. *)
Definition counts (ds : list delivery) (xs : list float) (s : counted) : Prop :=
  received s = Z.of_nat (length ds) ∧ last_recv_monotonic s = last xs ∧ length xs = length ds.

Lemma counts_nothing : counts [] [] (Counted 0 None).
Proof. done. Qed.

Lemma counts_none ds xs s : counts ds xs s → last_recv_monotonic s = None ↔ ds = [].
Proof.
  intros (_ & -> & Hlen). rewrite last_None. split; intros ->; simpl in Hlen.
  - by apply symmetry, nil_length_inv in Hlen.
  - by apply nil_length_inv.
Qed.

Lemma handler_counts : callback_ok handler every counts.
Proof.
  intros ds xs d s (Hr & Hl & Hlen) x. simpl. eexists [x], _. split; [done|]. split; [done|].
  split; [done|]. split; simpl; [rewrite length_app; simpl; lia|].
  split; [by rewrite last_snoc|]. rewrite !length_app. simpl. lia.
Qed.

Lemma counts_await a ds xs s t s' :
  counts ds xs s → exec (await handler a s) t (Some (Ok s')) →
  ∃ ys, counts (ds ++ messages t) (xs ++ ys) s' ∧ accounts_for every t ys.
Proof.
  intros Hs He.
  destruct (exec_await handler every counts handler_counts a ds xs s t s' Hs He) as (ds' & ys & -> & Hys & HJ).
  exists ys. rewrite messages_await. split; [done|by apply accounts_await].
Qed.

Lemma settle_ends fuel expected deadline s ds xs t s' :
  counts ds xs s → exec (settle fuel expected deadline s) t (Some (Ok s')) →
  (∃ ys, counts (ds ++ messages t) (xs ++ ys) s' ∧ accounts_for every t ys) ∧
  (received s' < expected → ∃ late, Ev Monotonic late ∈ t ∧ flt late deadline = false).
Proof.
  unfold settle. revert s ds xs t. induction fuel as [|fuel IH]; intros s ds xs t Hs; cbn [while_].
  { by intros [_ ?]. }
  intros (b & t1 & t2 & -> & Hc & He)%exec_bind_ok.
  destruct (Z.ltb_spec (received s) expected) as [Hlt|Hge].
  - apply exec_bind_ok in Hc as (x & ta & tb & -> & (y & ? & -> & -> & [= ->]) & [-> [= ->]]).
    destruct (flt y deadline) eqn:E.
    + apply exec_bind_ok in He as (s1 & tc & td & -> & Ha & He).
      destruct (counts_await _ _ _ _ _ _ Hs Ha) as (ys & Hs1 & Hy).
      destruct (IH _ _ _ _ Hs1 He) as [(zs & Hs' & Hz) Hlate]. split.
      * exists (ys ++ zs). rewrite app_nil_r. split.
        -- change (messages ([Ev Monotonic y] ++ tc ++ td)) with (messages (tc ++ td)).
           by rewrite messages_app, !app_assoc.
        -- apply accounts_silent; [apply accounts_reading|]. by apply accounts_app.
      * intros (late & Hin & Hl)%Hlate. exists late. rewrite !elem_of_app. auto.
    + destruct He as [-> [= ->]]. split; [exists []; rewrite !app_nil_r; by split|]. intros _. exists y.
      by split; [left|].
  - destruct Hc as [-> [= ->]]. destruct He as [-> [= ->]].
    split; [exists []; rewrite !app_nil_r; by split|lia].
Qed.

(** How often the script has slept. *)
Definition is_sleep (e : event) : bool :=
  match ev_cmd e with Await (AsyncSleep _) => true | _ => false end.

Definition sleeps (t : trace) : nat := length (filter (fun e => is_sleep e = true) t).

Lemma sleeps_readings xs : sleeps (readings xs) = 0%nat.
Proof. by induction xs. Qed.

(** Still waiting at the last of the sleeps of [t], whose messages come after
    [ds]: too few have arrived. *)
Definition still_waiting (ds : list delivery) (expected : Z) (t : trace) : Prop :=
  ∃ t1 x t2, t = t1 ++ Ev (Await (AsyncSleep (lit 1 100))) x :: t2 ∧ sleeps t2 = 0%nat ∧
    Z.of_nat (length (ds ++ messages t1)) < expected.

Lemma still_waiting_app ds expected t1 t2 :
  still_waiting (ds ++ messages t1) expected t2 → still_waiting ds expected (t1 ++ t2).
Proof.
  intros (ta & x & tb & -> & Hs & Hlt). exists (t1 ++ ta), x, tb.
  rewrite <-app_assoc. split; [done|]. split; [done|]. by rewrite messages_app, app_assoc.
Qed.

(** Out of fuel: a reading of the clock before the deadline for each round. *)
Lemma settle_out fuel expected deadline s ds xs t :
  counts ds xs s → exec (settle fuel expected deadline s) t None →
  (fuel ≤ early deadline t)%nat ∧ (fuel ≠ O → still_waiting ds expected t).
Proof.
  unfold settle. revert s ds xs t. induction fuel as [|fuel IH]; intros s ds xs t Hs; cbn [while_].
  { intros _. split; [lia|done]. }
  intros [Hc|(b & t1 & t2 & -> & Hc & He)]%exec_bind_out.
  { destruct (received s <? expected); simpl in Hc; naive_solver. }
  destruct (Z.ltb_spec (received s) expected) as [Hlt|Hge]; [|by destruct Hc as [-> [= ->]], He].
  apply exec_bind_ok in Hc as (x & ta & tb & -> & (y & ? & -> & -> & [= ->]) & [-> [= ->]]).
  destruct (flt y deadline) eqn:E; [|by destruct He].
  assert (early deadline [Ev Monotonic y] = 1%nat) as Hone by (unfold early; simpl; by rewrite filter_cons_True).
  apply exec_bind_out in He as [He|(s1 & tc & td & -> & Ha & He)].
  { by apply (await_ends _ _ _ handler_counts _ _ _ _ _ Hs) in He. }
  destruct (counts_await _ _ _ _ _ _ Hs Ha) as (ys & Hs1 & _).
  destruct (IH _ _ _ _ Hs1 He) as [Hle Hwait]. rewrite app_nil_r, !early_app, Hone.
  split; [lia|]. intros _. destruct fuel as [|fuel].
  - destruct He as [-> _]. rewrite app_nil_r.
    destruct (exec_await handler every counts handler_counts _ _ _ _ _ _ Hs Ha) as (ds' & ys' & -> & _ & _).
    exists [Ev Monotonic y], (ds', Ok ()), (readings ys'). split; [done|].
    split; [apply sleeps_readings|]. destruct Hs as (Hr & _). rewrite app_nil_r. lia.
  - apply still_waiting_app. rewrite app_nil_r. apply still_waiting_app. auto.
Qed.

(** The calls that signal readiness. *)
Definition ready_calls (ready_file : string) (fd : Z) : trace :=
  [Ev (OpenFile ready_file "w") (Ok fd); Ev (WriteFile fd ("ready" +:+ newline)) (Ok ());
   Ev (CloseFile fd) ()].

Lemma accounts_ready ready_file fd : accounts_for every (ready_calls ready_file fd) [].
Proof. done. Qed.

(** A subscriber that is done: the awaits before it is ready, the one reading
    that sets the deadline, what comes after it, the record. *)
Lemma subscriber_run url fuel count pattern ready_file timeout t :
  exec (run_subscriber url fuel count pattern ready_file timeout) t (Some (Ok ())) →
  ∃ c t1 fd now t2 expected s xs ys,
    t = [Ev (Await (NatsConnect url)) c] ++ t1 ++ ready_calls ready_file fd ++ [Ev Monotonic now] ++
        t2 ++ [Ev (Print false [FJson (subscriber_record pattern expected s)]) ()] ∧
    expected_matches count pattern = Ok expected ∧
    accounts_for every t1 xs ∧ accounts_for every t2 ys ∧ counts (messages (t1 ++ t2)) (xs ++ ys) s ∧
    (received s < expected → ∃ late, Ev Monotonic late ∈ t2 ∧ flt late (fadd now timeout) = false).
Proof.
  unfold run_subscriber. intros He.
  first_call He t H1. destruct x. apply exec_await_ in H1 as ->.
  first_call He t Hb. destruct (counts_await _ _ _ _ _ _ counts_nothing Hb) as (ys1 & Hs1 & Ha1).
  first_call He t Hc. destruct (counts_await _ _ _ _ _ _ Hs1 Hc) as (ys2 & Hs2 & Ha2).
  first_call He t Hd. destruct x1. apply write_file_calls in Hd as (fd & ->).
  first_call He t Hexp. apply exec_lift_ok in Hexp as [-> Hexp].
  first_call He t Hn. apply exec_call_ok in Hn as ->.
  first_call He t Hg. destruct (settle_ends _ _ _ _ _ _ _ _ Hs2 Hg) as [(ys3 & Hs3 & Ha3) Hlate].
  first_call He t Hh. destruct (counts_await _ _ _ _ _ _ Hs3 Hh) as (ys4 & Hs4 & Ha4).
  apply exec_call_ok in He as ->.
  eexists _, (t ++ t1), fd, x2, (t2 ++ t4), x1, x4, (ys1 ++ ys2), (ys3 ++ ys4).
  split; [by list_simplifier|]. split; [done|]. split; [by apply accounts_app|].
  split; [by apply accounts_app|]. split; [by rewrite !messages_app; list_simplifier|]. intros Hlt. destruct Hlate as (late & Hin & Hl).
  { destruct Hs3 as [Hr3 _], Hs4 as [Hr4 _]. rewrite length_app in Hr4. lia. }
  exists late. rewrite elem_of_app. auto.
Qed.

(** The same, of all the calls after the connection. *)
Lemma subscriber_record_last url fuel count pattern ready_file timeout t :
  exec (run_subscriber url fuel count pattern ready_file timeout) t (Some (Ok ())) →
  ∃ c t' expected s,
    t = Ev (Await (NatsConnect url)) c :: t' ∧ expected_matches count pattern = Ok expected ∧
    counts (messages t') (arrival_times every 0 t') s ∧
    ∃ t1, Ev (Await (NatsConnect url)) c :: t' =
          t1 ++ [Ev (Print false [FJson (subscriber_record pattern expected s)]) ()].
Proof.
  intros (c & t1 & fd & now & t2 & expected & s & xs & ys & -> & Hexp & Hx & Hy & Hs & _)%subscriber_run.
  exists c, (t1 ++ ready_calls ready_file fd ++ [Ev Monotonic now] ++ t2 ++
    [Ev (Print false [FJson (subscriber_record pattern expected s)]) ()]), expected, s.
  split; [done|]. split; [done|]. split.
  - rewrite (accounts_arrivals every _ (xs ++ [] ++ [] ++ ys ++ []))
      by (repeat apply accounts_app; try done; apply accounts_reading).
    by rewrite !messages_app, !app_nil_r in *.
  - exists ([Ev (Await (NatsConnect url)) c] ++ t1 ++ ready_calls ready_file fd ++ [Ev Monotonic now] ++ t2).
    by list_simplifier.
Qed.

(** A subscriber out of fuel is in its last loop. *)
Lemma subscriber_out url fuel count pattern ready_file timeout t :
  exec (run_subscriber url fuel count pattern ready_file timeout) t None →
  ∃ c t1 fd now t2 expected,
    t = [Ev (Await (NatsConnect url)) c] ++ t1 ++ ready_calls ready_file fd ++ [Ev Monotonic now] ++ t2 ∧
    expected_matches count pattern = Ok expected ∧
    (fuel ≤ early (fadd now timeout) t2)%nat ∧
    (fuel ≠ O → still_waiting (messages t1) expected t2).
Proof.
  unfold run_subscriber. intros He.
  apply exec_bind_out in He as [He|([] & t0 & ? & -> & ->%exec_await_ & He)]; [by destruct He as (? & ? & _ & _ & ?)|].
  apply exec_bind_out in He as [He|(s1 & ta & ? & -> & Ha & He)].
  { by apply (await_ends _ _ _ handler_counts _ _ _ _ _ counts_nothing) in He. }
  destruct (counts_await _ _ _ _ _ _ counts_nothing Ha) as (ys1 & Hs1 & _).
  apply exec_bind_out in He as [He|(s2 & tb & ? & -> & Hb & He)].
  { by apply (await_ends _ _ _ handler_counts _ _ _ _ _ Hs1) in He. }
  destruct (counts_await _ _ _ _ _ _ Hs1 Hb) as (ys2 & Hs2 & _).
  apply exec_bind_out in He as [He|([] & tc & ? & -> & (fd & ->)%write_file_calls & He)].
  { by apply completes_exec in He; [|intros [fd|e]; [intros r []|]]. }
  apply exec_bind_out in He as [[_ ?]|(expected & td & ? & -> & [-> Hexp]%exec_lift_ok & He)]; [done|].
  apply exec_bind_out in He as [He|(now & te & ? & -> & ->%exec_call_ok & He)]; [by destruct He as (? & ? & _ & _ & ?)|].
  apply exec_bind_out in He as [He|(s3 & tf & ? & -> & Hf & He)].
  - destruct (settle_out _ _ _ _ _ _ _ Hs2 He) as [Hle Hwait].
    eexists _, (ta ++ tb), fd, now, _, expected. split; [by list_simplifier|]. split; [done|].
    split; [done|]. by rewrite messages_app.
  - destruct (settle_ends _ _ _ _ _ _ _ _ Hs2 Hf) as [(ys3 & Hs3 & _) _].
    apply exec_bind_out in He as [He|(s4 & tg & ? & -> & Hg & He)].
    + by apply (await_ends _ _ _ handler_counts _ _ _ _ _ Hs3) in He.
    + by destruct He as (? & ? & _ & _ & ?).
Qed.

(** ** Properties *)

(** The formula for the expected matches is the number of messages the
    server delivers: for each of the three patterns of the sweep, it is the
    number of the [count] published messages whose subject the pattern
    matches. *)
Theorem expected_matches_exact `{NatsMatching matches} count pattern n :
  0 ≤ count →
  expected_matches count pattern = Ok n →
  n = Z.of_nat (length (filter (fun i => matches pattern (subject_for i) = true) (range 0 count))).
Proof.
  intros Hc. unfold expected_matches.
  assert (∀ i, i ∈ range 0 count → 0 ≤ i) as Hpos.
  { intros i (j & -> & _)%list_elem_of_fmap. lia. }
  case_bool_decide as H1; [|case_bool_decide as H2; [|case_bool_decide as H3; [|done]]];
    intros [= <-]; subst pattern.
  - rewrite filter_all; [rewrite length_range; lia|]. apply Forall_forall. intros i _.
    apply (matches_tail _ ["trades"]); [done|by repeat constructor|].
    rewrite subject_tokens. by eexists (_ :: _).
  - rewrite <-(count_multiples REGIONS) by done. f_equal. apply filter_length_ext.
    intros i _. rewrite (matches_tail _ ["trades"; "r0"]) by (done || by repeat constructor).
    rewrite subject_tokens. split.
    + intros ->. by eexists [_].
    + intros (rest & _ & [= Hr _]). by apply (py_str_inj _ 0) in Hr.
  - rewrite <-(count_multiples TOTAL_SUBJECTS) by done. f_equal. apply filter_length_ext.
    intros i Hi%Hpos. rewrite matches_literal by (by repeat constructor).
    rewrite subject_tokens, <-first_symbol_multiple by done. split.
    + by intros [-> ->].
    + intros [= Hr Hs]. split; [by apply (py_str_inj _ 0)|by apply (py_str_inj _ 0)].
Qed.

(** The publisher publishes exactly [count] messages, the i-th on the
    subject of i and all with the same payload, in order. *)
Theorem publisher_publishes url count size t :
  exec (run_publisher url count size) t (Some (Ok ())) →
  published t = (fun i => (subject_for i, xs size)) <$> range 0 count.
Proof.
  unfold run_publisher. intros He.
  apply exec_bind_ok in He as ([] & ta & t' & -> & ->%exec_await_ & He).
  apply exec_bind_ok in He as (t0 & tb & t'' & -> & Hb & He).
  apply exec_bind_ok in He as ([] & tc & t3 & -> & Hc%publish_all_subjects & He).
  apply exec_bind_ok in He as ([] & td & t4 & -> & ->%exec_await_ & He).
  apply exec_bind_ok in He as (t1 & te & t5 & -> & Hd & He).
  apply exec_bind_ok in He as ([] & tf & t6 & -> & ->%exec_await_ & He).
  destruct Hb as (? & ? & -> & -> & _). destruct Hd as (? & ? & -> & -> & _).
  destruct He as (? & ? & -> & -> & _).
  rewrite !published_app, Hc. simpl. by rewrite !app_nil_r.
Qed.

(** C39. What the subscriber reports is what it received: once connected, its
    last act is to print the number of messages handed to its callback, the
    time at which the last of their callbacks ran, the expected number, and
    whether the numbers agree.  It signals readiness by the ready file, and the
    next reading of the clock sets the deadline; it falls short of the expected
    number only after a later reading that was past that deadline. *)
Theorem subscriber_reports url fuel count pattern ready_file timeout t :
  exec (run_subscriber url fuel count pattern ready_file timeout) t (Some (Ok ())) →
  ∃ c t1 fd now t2 expected s,
    t = [Ev (Await (NatsConnect url)) c] ++ t1 ++ ready_calls ready_file fd ++ [Ev Monotonic now] ++
        t2 ++ [Ev (Print false [FJson (subscriber_record pattern expected s)]) ()] ∧
    expected_matches count pattern = Ok expected ∧
    received s = Z.of_nat (length (messages (t1 ++ t2))) ∧
    last_recv_monotonic s = last (arrival_times every 0 (t1 ++ t2)) ∧
    (last_recv_monotonic s = None ↔ messages (t1 ++ t2) = []) ∧
    (received s < expected → ∃ late, Ev Monotonic late ∈ t2 ∧ flt late (fadd now timeout) = false).
Proof.
  intros (c & t1 & fd & now & t2 & expected & s & xs & ys & -> & Hexp & Hx & Hy & Hs & Hlate)%subscriber_run.
  rewrite <-(accounts_arrivals every _ _ (accounts_app _ _ _ _ _ Hx Hy)) in Hs.
  exists c, t1, fd, now, t2, expected, s. split; [done|]. split; [done|].
  split; [by destruct Hs|]. split; [by destruct Hs as (_ & ? & _)|]. split; [|done]. by eapply counts_none.
Qed.

(** C40. The subscriber ends by its deadline at the latest.  It can be still
    waiting after [fuel] rounds only in its last loop, having read the clock
    [fuel] times before the deadline that the first reading after the ready
    file sets, and having received, by its last sleep, fewer messages than it
    expects: a late clock or a complete delivery ends it. *)
Theorem subscriber_terminates url fuel count pattern ready_file timeout t :
  exec (run_subscriber url fuel count pattern ready_file timeout) t None →
  ∃ c t1 fd now t2 expected,
    t = [Ev (Await (NatsConnect url)) c] ++ t1 ++ ready_calls ready_file fd ++ [Ev Monotonic now] ++ t2 ∧
    expected_matches count pattern = Ok expected ∧
    (fuel ≤ early (fadd now timeout) t2)%nat ∧
    (fuel ≠ O → still_waiting (messages t1) expected t2).
Proof. apply subscriber_out. Qed.

Module SelectivityExample.
Definition msg (i : Z) : delivery := Delivery (subject_for i) (xs 4).

(** Two of the 16 messages match; the second arrives during the sleep. *)
Definition receive : list answer :=
  [AUnit; AUnit; AMsgs [msg 0]; AFloat (of_int 5); AInt 3; AUnit; AUnit; AFloat (of_int 6);
   AFloat (of_int 7); AMsgs [msg 8]; AFloat (of_int 8); AUnit; AUnit].

Definition subscriber : Py unit :=
  run_subscriber "nats://h" 5 16 "trades.r0.>" "ready" (of_int 15).

(** One message, then nothing: two rounds are not enough. *)
Definition starved : list answer :=
  [AUnit; AUnit; AMsgs [msg 0]; AFloat (of_int 5); AInt 3; AUnit; AUnit; AFloat (of_int 6);
   AFloat (of_int 7); AUnit; AFloat (of_int 8); AUnit].

Definition impatient : Py unit :=
  run_subscriber "nats://h" 2 16 "trades.r0.>" "ready" (of_int 15).

Definition publish : list answer :=
  [AUnit; AFloat (of_int 1)] ++ replicate 16 AUnit ++ [AUnit; AFloat (of_int 2); AUnit; AUnit].
End SelectivityExample.

Lemma expected_matches_exact_witness :
  13 = Z.of_nat (length (filter
    (fun i => nats_matches "trades.r0.>" (subject_for i) = true) (range 0 100))).
Proof. apply (expected_matches_exact (matches := nats_matches) 100 "trades.r0.>" 13); [lia|reflexivity]. Defined.

Lemma publisher_publishes_witness :
  published (replayed (run_publisher "nats://h" 16 4) SelectivityExample.publish) =
    (fun i => (subject_for i, xs 4)) <$> range 0 16.
Proof.
  apply (publisher_publishes "nats://h"). apply replayed_exec. vm_compute. reflexivity.
Defined.

Lemma subscriber_reports_witness :
  ∃ c t1 fd now t2 s,
    replayed SelectivityExample.subscriber SelectivityExample.receive =
      [Ev (Await (NatsConnect "nats://h")) c] ++ t1 ++ ready_calls "ready" fd ++ [Ev Monotonic now] ++
      t2 ++ [Ev (Print false [FJson (subscriber_record "trades.r0.>" 2 s)]) ()] ∧
    received s = Z.of_nat (length (messages (t1 ++ t2))) ∧
    last_recv_monotonic s = last (arrival_times every 0 (t1 ++ t2)) ∧
    (received s < 2 → ∃ late, Ev Monotonic late ∈ t2 ∧ flt late (fadd now (of_int 15)) = false).
Proof.
  destruct (subscriber_reports "nats://h" 5 16 "trades.r0.>" "ready" (of_int 15)
    (replayed SelectivityExample.subscriber SelectivityExample.receive))
    as (c & t1 & fd & now & t2 & expected & s & Ht & Hexp & Hr & Hl & _ & Hlate).
  - apply replayed_exec. vm_compute. reflexivity.
  - vm_compute in Hexp. injection Hexp as <-. exists c, t1, fd, now, t2, s. auto.
Defined.

Lemma subscriber_terminates_witness :
  ∃ t1 now t2 expected, expected_matches 16 "trades.r0.>" = Ok expected ∧
    (2 ≤ early (fadd now (of_int 15)) t2)%nat ∧ still_waiting (messages t1) expected t2.
Proof.
  destruct (subscriber_terminates "nats://h" 2 16 "trades.r0.>" "ready" (of_int 15)
    (replayed SelectivityExample.impatient SelectivityExample.starved))
    as (c & t1 & fd & now & t2 & expected & _ & Hexp & Hle & Hwait).
  - apply replayed_exec. vm_compute. reflexivity.
  - exists t1, now, t2, expected. split; [done|]. split; [done|]. by apply Hwait.
Defined.
