(* ===== verification/QueueGroup.v ===== *)
(** * bench/nats_queue_group.py

    A publisher that numbers its messages and the consumers of a queue group,
    which record the numbers they receive. *)
From Stdlib Require Import Ascii.
From S2P Require Import Prelude PyFloat PyStr PyM Pool Observe Asyncio.

Definition SUBJECT : string := "bench.qg.data".
Definition STOP_SUBJECT : string := "bench.qg.stop".
Definition GROUP : string := "bench-qg".

(** ** struct, format >Q *)

(** The [n] low bytes of [z], most significant first. *)
Fixpoint be_bytes (n : nat) (z : Z) : string :=
  match n with
  | O => EmptyString
  | S n' => String (ascii_of_N (Z.to_N ((z `div` 256 ^ Z.of_nat n') `mod` 256))) (be_bytes n' z)
  end.

Fixpoint of_be (s : string) (acc : Z) : Z :=
  match s with
  | EmptyString => acc
  | String c s' => of_be s' (acc * 256 + Z.of_N (N_of_ascii c))
  end.

(** [struct.pack(">Q", i)] and [struct.unpack(">Q", data)]. *)
Definition pack_q (i : Z) : result string :=
  if (0 <=? i) && (i <? 2 ^ 64) then Ok (be_bytes 8 i) else Err StructError.

Definition unpack_q (data : string) : result Z :=
  if (String.length data =? 8)%nat then Ok (of_be data 0) else Err StructError.

(** ** The publisher *)

Section script.
Context (server_url : string).

(** [for i in range(count):
    await nc.publish(SUBJECT, struct.pack(">Q", i) + pad)] *)
Definition publish_all (ids : list Z) (pad : string) : Py unit :=
  for_ ids (fun i =>
    head <- lift (pack_q i);;
    await_ (NatsPublish SUBJECT (head +:+ pad))).

Definition publisher_record (count n_consumers : Z) (t0 t1 : float) : list (string * jval) :=
  let publish_secs := fsub t1 t0 in
  let publish_rate :=
    if fgt publish_secs fzero then fquot (of_int count) publish_secs else finf in
  [("role", JStr "publisher"); ("count", JInt count); ("n_consumers", JInt n_consumers);
   ("publish_secs", JFloat publish_secs); ("publish_rate", JFloat publish_rate)].

Definition run_publisher (count payload_size n_consumers : Z) : Py unit :=
  await_ (NatsConnect server_url);;
  let pad := xs (0 `max` (payload_size - 8)) in
  t0 <- monotonic;;
  publish_all (range 0 count) pad;;
  await_ NatsFlush;;
  t1 <- monotonic;;
  await_ (NatsPublish STOP_SUBJECT EmptyString);;
  await_ NatsFlush;;
  await_ NatsClose;;
  print [FJson (publisher_record count n_consumers t0 t1)].

(** ** A consumer *)

(** What the callbacks keep. *)
Record recorded := Recorded {
  received_ids : list Z;
  first_recv : option float;
  last_recv : option float;
  stopped : bool;
}.

Definition nothing_yet : recorded := Recorded [] None None false.

(** An exception of [unpack] ends the callback before the append. *)
Definition on_msg (msg : delivery) (s : recorded) : prog recorded :=
  Do Monotonic (fun now =>
    let first := match first_recv s with None => Some now | Some t => Some t end in
    let ids := match unpack_q (str_take 8 (d_data msg)) with
               | Ok seq => received_ids s ++ [seq]
               | Err _ => received_ids s
               end in
    Ret (Recorded ids first (Some now) (stopped s))).

Definition on_stop (msg : delivery) (s : recorded) : prog recorded :=
  Ret (Recorded (received_ids s) (first_recv s) (last_recv s) true).

(** Each subscription has its callback. *)
Definition callback (msg : delivery) (s : recorded) : prog recorded :=
  if bool_decide (d_subject msg = SUBJECT) then on_msg msg s
  else if bool_decide (d_subject msg = STOP_SUBJECT) then on_stop msg s
  else Ret s.

Definition opt_json (o : option float) : jval :=
  match o with Some t => JFloat t | None => JNull end.

Definition consumer_record (s : recorded) : list (string * jval) :=
  [("count", JInt (Z.of_nat (length (received_ids s)))); ("ids", JInts (received_ids s));
   ("first_recv", opt_json (first_recv s)); ("last_recv", opt_json (last_recv s))].

(** [try: await asyncio.wait_for(stopped.wait(), timeout=120)
    except asyncio.TimeoutError: pass] *)
Definition wait_stopped (s : recorded) : Py recorded :=
  bindp (awaited callback (AsyncWaitEvent 120) s) (fun '(s', r) =>
    match r with
    | Ok _ | Err AsyncTimeout => ret s'
    | Err e => raise e
    end).

Definition run_consumer (result_path ready_path : string) (drain_grace_secs : float) : Py unit :=
  await_ (NatsConnect server_url);;
  s <- await callback (NatsSubscribe SUBJECT (Some GROUP)) nothing_yet;;
  s <- await callback (NatsSubscribe STOP_SUBJECT None) s;;
  s <- await callback NatsFlush s;;
  write_file ready_path "w" "ready";;
  s <- wait_stopped s;;
  s <- await callback (AsyncSleep drain_grace_secs) s;;
  s <- await callback (NatsUnsubscribe STOP_SUBJECT) s;;
  s <- await callback NatsClose s;;
  with_open result_path "w" (fun fd => Do (DumpJson fd (consumer_record s)) Ret).
End script.

(** The parsed command line. *)
Record args := Args {
  publisher_role : bool;   (* --role publisher, or consumer *)
  server : string;
  a_count : Z;
  payload_size : Z;
  n_consumers : Z;
  result_path : option string;
  ready_path : option string;
  drain_grace_secs : float;
}.

(** The exit status. *)
Definition main (a : args) : Py Z :=
  if publisher_role a then
    run_publisher (server a) (a_count a) (payload_size a) (n_consumers a);; ret 0
  else
    match given (result_path a), given (ready_path a) with
    | Some result, Some ready => run_consumer (server a) result ready (drain_grace_secs a);; ret 0
    | _, _ => eprint [FS "consumer requires --result-path and --ready-path"];; ret 1
    end.

(** ** What is recorded of what is delivered *)

Definition id_of (d : delivery) : option Z :=
  if bool_decide (d_subject d = SUBJECT) then
    match unpack_q (str_take 8 (d_data d)) with Ok seq => Some seq | Err _ => None end
  else None.

Definition ids_of (ds : list delivery) : list Z := omap id_of ds.

(** The message numbered [i]. *)
Definition message (pad : string) (i : Z) : string := be_bytes 8 i +:+ pad.

(** ** Lemmas *)

Lemma length_be_bytes n z : String.length (be_bytes n z) = n.
Proof. induction n as [|n IH]; [done|]. simpl. by rewrite IH. Qed.

Lemma of_be_bytes n z acc : 0 ≤ z → of_be (be_bytes n z) acc = acc * 256 ^ Z.of_nat n + z `mod` 256 ^ Z.of_nat n.
Proof.
  intros Hz. revert acc. induction n as [|n IH]; intros acc; cbn [be_bytes of_be].
  { change (256 ^ Z.of_nat 0) with 1. rewrite Z.mod_1_r. lia. }
  rewrite IH.
  assert (0 ≤ (z `div` 256 ^ Z.of_nat n) `mod` 256 < 256) as Hb by by apply Z.mod_pos_bound.
  rewrite N_ascii_embedding by lia. rewrite Z2N.id by lia.
  assert (0 < 256 ^ Z.of_nat n) by (apply Z.pow_pos_nonneg; lia).
  rewrite Nat2Z.inj_succ, Z.pow_succ_r by lia.
  rewrite (Z.mul_comm 256), Z.rem_mul_r by lia. lia.
Qed.

Lemma unpack_message pad i : 0 ≤ i < 2 ^ 64 → unpack_q (str_take 8 (message pad i)) = Ok i.
Proof.
  intros Hi. unfold message. pose proof (str_take_app (be_bytes 8 i) pad) as Ht.
  rewrite length_be_bytes in Ht. rewrite Ht. unfold unpack_q.
  rewrite length_be_bytes, of_be_bytes by lia. simpl Nat.eqb. cbv iota. f_equal.
  change (256 ^ Z.of_nat 8) with (2 ^ 64). rewrite Z.mod_small; lia.
Qed.

(** The data messages: their callback reads the clock. *)
Definition is_data (d : delivery) : bool := bool_decide (d_subject d = SUBJECT).

Definition records (ds : list delivery) (xs : list float) (s : recorded) : Prop :=
  received_ids s = ids_of ds ∧
  (stopped s = true ↔ ∃ d, d ∈ ds ∧ d_subject d = STOP_SUBJECT) ∧
  first_recv s = head xs ∧ last_recv s = last xs.

Lemma records_nothing : records [] [] nothing_yet.
Proof. split; [done|]. split; [split; [done|by intros (? & ?%elem_of_nil & _)]|done]. Qed.

Lemma ids_of_snoc ds d :
  ids_of (ds ++ [d]) = ids_of ds ++ match id_of d with Some i => [i] | None => [] end.
Proof. unfold ids_of. rewrite omap_app. simpl. by destruct (id_of d). Qed.

Lemma callback_records : callback_ok callback is_data records.
Proof.
  intros ds xs d s (Hids & Hstop & Hfirst & Hlast). unfold callback.
  assert (∀ b, (b = true ↔ (∃ d', d' ∈ ds ∧ d_subject d' = STOP_SUBJECT)) →
    d_subject d ≠ STOP_SUBJECT →
    b = true ↔ ∃ d', d' ∈ ds ++ [d] ∧ d_subject d' = STOP_SUBJECT) as Hother.
  { intros b Hb Hd. rewrite Hb. split; intros (d' & Hin & Hs); exists d'; split; try done.
    - rewrite elem_of_app. by left.
    - apply elem_of_app in Hin as [?|Hin]; [done|]. apply list_elem_of_singleton in Hin. by subst. }
  unfold is_data.
  case_bool_decide as H1; [|case_bool_decide as H2].
  - intros x. eexists [x], _. split; [done|]. split; [done|]. split; [done|]. split; [|split; [|split]].
    + simpl. rewrite ids_of_snoc, <-Hids. unfold id_of.
      rewrite bool_decide_true by done. destruct (unpack_q _); [done|]. by rewrite app_nil_r.
    + simpl. apply Hother; [done|]. by rewrite H1.
    + simpl. rewrite Hfirst. by destruct xs.
    + simpl. by rewrite last_snoc.
  - exists []. eexists. split; [done|]. split; [done|]. split; [done|]. rewrite app_nil_r.
    split; [|split; [|done]].
    + simpl. rewrite ids_of_snoc, <-Hids. unfold id_of.
      rewrite bool_decide_false by done. by rewrite app_nil_r.
    + simpl. split; [intros _|done]. exists d. rewrite elem_of_app. split; [right; by left|done].
  - exists []. eexists. split; [done|]. split; [done|]. split; [done|]. rewrite app_nil_r.
    split; [|split; [|done]].
    + rewrite ids_of_snoc, <-Hids. unfold id_of.
      rewrite bool_decide_false by done. by rewrite app_nil_r.
    + by apply Hother.
Qed.

Lemma records_await a ds xs s t s' :
  records ds xs s → exec (await callback a s) t (Some (Ok s')) →
  ∃ ys, records (ds ++ messages t) (xs ++ ys) s' ∧ accounts_for is_data t ys.
Proof.
  intros Hs He.
  destruct (exec_await callback is_data records callback_records a ds xs s t s' Hs He)
    as (ds' & ys & -> & Hys & HJ).
  exists ys. rewrite messages_await. split; [done|by apply accounts_await].
Qed.

Lemma records_wait ds xs s t s' :
  records ds xs s → exec (wait_stopped s) t (Some (Ok s')) →
  ∃ ys, records (ds ++ messages t) (xs ++ ys) s' ∧ accounts_for is_data t ys.
Proof.
  intros Hs He. unfold wait_stopped in He.
  apply exec_bindp in He as [([s1 r] & t1 & t2 & -> & H1 & H2)|[_ ?]]; [|done].
  apply (exec_awaited callback is_data records callback_records _ _ _ _ _ _ Hs) in H1
    as (ds' & r' & ys & s2 & -> & Hys & [= -> ->] & HJ).
  exists ys. assert (t2 = [] ∧ s2 = s') as [-> ->].
  { destruct r' as [u|[]]; by destruct H2 as [-> [= ->]]. }
  rewrite app_nil_r, messages_await. split; [done|by apply accounts_await].
Qed.

Lemma publish_all_numbered ids pad t :
  Forall (fun i => 0 ≤ i < 2 ^ 64) ids →
  exec (publish_all ids pad) t (Some (Ok ())) →
  published t = (fun i => (SUBJECT, message pad i)) <$> ids.
Proof.
  unfold publish_all. intros Hall. revert t.
  induction Hall as [|i ids Hi _ IH]; intros t He; [by destruct He as [-> _]|].
  cbn [for_] in He. apply exec_bind_ok in He as ([] & t1 & t2 & -> & H1 & H2).
  apply exec_bind_ok in H1 as (head & ta & tb & -> & [-> [= Hh]] & Hb).
  unfold pack_q in Hh. rewrite (proj2 (Z.leb_le 0 i)), (proj2 (Z.ltb_lt i _)) in Hh by lia.
  injection Hh as ->. apply exec_await_ in Hb. rewrite Hb, published_app, (IH t2) by done. done.
Qed.

Lemma range_bounds count : Forall (fun i => 0 ≤ i < count) (range 0 count).
Proof.
  apply Forall_forall. intros i (j & -> & Hj%elem_of_seq)%list_elem_of_fmap. lia.
Qed.

Lemma id_of_message pad i : 0 ≤ i < 2 ^ 64 → id_of (Delivery SUBJECT (message pad i)) = Some i.
Proof.
  intros Hi. unfold id_of. rewrite bool_decide_true by done. cbn [d_data].
  by rewrite unpack_message.
Qed.

Lemma ids_of_messages pad is_ :
  Forall (fun i => 0 ≤ i < 2 ^ 64) is_ →
  ids_of ((fun i => Delivery SUBJECT (message pad i)) <$> is_) = is_.
Proof.
  unfold ids_of. induction 1 as [|i l Hi _ IH]; [done|]. rewrite fmap_cons. cbn [omap list_omap].
  by rewrite id_of_message, IH.
Qed.

(** ** Properties *)

(** The publisher publishes exactly [count] messages on the data subject,
    the i-th carrying the number i in its first eight bytes, in order, and
    then the one message that stops the consumers. *)
Theorem publisher_numbers url count size n t :
  count ≤ 2 ^ 64 →
  exec (run_publisher url count size n) t (Some (Ok ())) →
  published t =
    ((fun i => (SUBJECT, message (xs (0 `max` (size - 8))) i)) <$> range 0 count) ++
    [(STOP_SUBJECT, EmptyString)] ∧
  ∀ i pad, 0 ≤ i < count → unpack_q (str_take 8 (message pad i)) = Ok i.
Proof.
  intros Hcount He.
  assert (Forall (fun i => 0 ≤ i < 2 ^ 64) (range 0 count)) as Hall.
  { eapply Forall_impl; [apply range_bounds|]. simpl. lia. }
  split; [|intros i pad Hi; apply unpack_message; lia].
  unfold run_publisher in He.
  apply exec_bind_ok in He as ([] & ta & t' & -> & ->%exec_await_ & He).
  apply exec_bind_ok in He as (t0 & tb & t'' & -> & Hb & He).
  apply exec_bind_ok in He as ([] & tc & t3 & -> & Hc%publish_all_numbered & He); [|done].
  apply exec_bind_ok in He as ([] & td & t4 & -> & ->%exec_await_ & He).
  apply exec_bind_ok in He as (t1 & te & t5 & -> & Hd & He).
  apply exec_bind_ok in He as ([] & tf & t6 & -> & ->%exec_await_ & He).
  apply exec_bind_ok in He as ([] & tg & t7 & -> & ->%exec_await_ & He).
  apply exec_bind_ok in He as ([] & th & t8 & -> & ->%exec_await_ & He).
  destruct Hb as (? & ? & -> & -> & _). destruct Hd as (? & ? & -> & -> & _).
  destruct He as (? & ? & -> & -> & _).
  rewrite !published_app, Hc. simpl. done.
Qed.

(** A consumer that is done: what it has recorded, in terms of its calls. *)
Lemma consumer_run url result ready grace t :
  exec (run_consumer url result ready grace) t (Some (Ok ())) →
  ∃ c t' fd s,
    t = [Ev (Await (NatsConnect url)) c] ++ t' ++
        [Ev (OpenFile result "w") (Ok fd); Ev (DumpJson fd (consumer_record s)) (Ok ());
         Ev (CloseFile fd) ()] ∧
    accounts_for is_data t' (arrival_times is_data 0 t') ∧
    records (messages t') (arrival_times is_data 0 t') s.
Proof.
  unfold run_consumer. intros He.
  first_call He t H1. destruct x. apply exec_await_ in H1 as ->.
  first_call He t Hb. destruct (records_await _ _ _ _ _ _ records_nothing Hb) as (y1 & Hs1 & A1).
  first_call He t Hc. destruct (records_await _ _ _ _ _ _ Hs1 Hc) as (y2 & Hs2 & A2).
  first_call He t Hd. destruct (records_await _ _ _ _ _ _ Hs2 Hd) as (y3 & Hs3 & A3).
  first_call He t Hw. destruct x2. apply write_file_calls in Hw as (fr & ->).
  first_call He t Hf. destruct (records_wait _ _ _ _ _ Hs3 Hf) as (y4 & Hs4 & A4).
  first_call He t Hg. destruct (records_await _ _ _ _ _ _ Hs4 Hg) as (y5 & Hs5 & A5).
  first_call He t Hh. destruct (records_await _ _ _ _ _ _ Hs5 Hh) as (y6 & Hs6 & A6).
  first_call He t Hi. destruct (records_await _ _ _ _ _ _ Hs6 Hi) as (y7 & Hs7 & A7).
  unfold with_open in He. first_call He t Hfd. apply exec_do_ret in Hfd as ->.
  apply exec_bindp in He as [(r & ta & tb & -> & Hr%exec_do_ret & He)|[_ ?]]; [|done].
  destruct He as ([] & tc & -> & -> & [= <-]). rewrite Hr.
  set (w := [Ev (OpenFile ready "w") (Ok fr); Ev (WriteFile fr "ready") (Ok ()); Ev (CloseFile fr) ()]).
  assert (accounts_for is_data w []) as Aw by done. assert (messages w = []) as Mw by done.
  exists (t0 ≫= delivered_of, Ok ()), (t ++ t1 ++ t2 ++ w ++ t3 ++ t5 ++ t4 ++ t6), x6, x5.
  split; [by list_simplifier|].
  assert (accounts_for is_data (t ++ t1 ++ t2 ++ w ++ t3 ++ t5 ++ t4 ++ t6)
    (y1 ++ y2 ++ y3 ++ [] ++ y4 ++ y5 ++ y6 ++ y7)) as Hacc by auto 10 using accounts_app.
  rewrite (accounts_arrivals _ _ _ Hacc). split; [done|].
  rewrite !messages_app, Mw. by list_simplifier.
Qed.

(** C38. A consumer's result file holds what was delivered to it: once
    connected, it ends by writing, in order, the numbers read from the first
    eight bytes of the data messages handed to its callback, how many they
    are, and the times at which the first and the last of these callbacks
    ran. *)
Theorem consumer_records_deliveries url result ready grace t :
  exec (run_consumer url result ready grace) t (Some (Ok ())) →
  ∃ c t' fd s,
    t = [Ev (Await (NatsConnect url)) c] ++ t' ++
        [Ev (OpenFile result "w") (Ok fd); Ev (DumpJson fd (consumer_record s)) (Ok ());
         Ev (CloseFile fd) ()] ∧
    received_ids s = ids_of (messages t') ∧
    first_recv s = head (arrival_times is_data 0 t') ∧ last_recv s = last (arrival_times is_data 0 t').
Proof.
  intros (c & t' & fd & s & -> & _ & Hids & _ & Hf & Hl)%consumer_run. by exists c, t', fd, s.
Qed.

(** C31. Exactly once, and no less, shows in the files.  Suppose that what the
    consumers of a group are handed ([ds], all of them together) are messages
    the publisher sent.  Then the recorded numbers are exactly 0, ..., count-1,
    each once, if and only if the messages handed over are exactly the
    published ones, each once: the check on the union of the files misses no
    loss and no duplicate, and raises no false alarm. *)
Theorem ids_tell_deliveries pad count ds :
  count ≤ 2 ^ 64 →
  Forall (fun d => ∃ i, 0 ≤ i < count ∧ d = Delivery SUBJECT (message pad i)) ds →
  ids_of ds ≡ₚ range 0 count ↔
  ds ≡ₚ ((fun i => Delivery SUBJECT (message pad i)) <$> range 0 count).
Proof.
  intros Hcount Hds.
  assert (∃ is_, Forall (fun i => 0 ≤ i < 2 ^ 64) is_ ∧
    ds = (fun i => Delivery SUBJECT (message pad i)) <$> is_) as (is_ & His & ->).
  { induction Hds as [|d ds (i & Hi & ->) _ (is_ & His & ->)]; [by exists []|].
    exists (i :: is_). split; [constructor; [lia|done]|done]. }
  rewrite ids_of_messages by done. split.
  - by intros ->.
  - intros Hp. rewrite <-(ids_of_messages pad is_) by done.
    rewrite <-(ids_of_messages pad (range 0 count)).
    + unfold ids_of. by rewrite Hp.
    + eapply Forall_impl; [apply range_bounds|]. simpl. lia.
Qed.

Module QueueGroupExample.
Definition data (i : Z) : delivery := Delivery SUBJECT (message (xs 2) i).
Definition stop : delivery := Delivery STOP_SUBJECT EmptyString.

Definition publish : list answer :=
  [AUnit; AFloat (of_int 1)] ++ replicate 3 AUnit ++
  [AUnit; AFloat (of_int 2); AUnit; AUnit; AUnit; AUnit].

(** Messages 0 and 2 go to this consumer, the stop message to all. *)
Definition consume : list answer :=
  [AUnit; AUnit; AUnit; AUnit; AInt 3; AUnit; AUnit;
   AMsgs [data 0; stop; data 2]; AFloat (of_int 5); AFloat (of_int 6);
   AUnit; AUnit; AUnit; AInt 3; AUnit; AUnit].
End QueueGroupExample.

Lemma publisher_numbers_witness :
  published (replayed (run_publisher "nats://h" 3 10 2) QueueGroupExample.publish) =
    ((fun i => (SUBJECT, message (xs (0 `max` (10 - 8))) i)) <$> range 0 3) ++
    [(STOP_SUBJECT, EmptyString)] ∧
  ∀ i pad, 0 ≤ i < 3 → unpack_q (str_take 8 (message pad i)) = Ok i.
Proof.
  apply (publisher_numbers "nats://h" 3 10 2); [lia|]. apply replayed_exec. vm_compute. reflexivity.
Defined.

Lemma consumer_records_deliveries_witness :
  ∃ c t' fd s,
    replayed (run_consumer "nats://h" "result" "ready" (of_int 1)) QueueGroupExample.consume =
      [Ev (Await (NatsConnect "nats://h")) c] ++ t' ++
      [Ev (OpenFile "result" "w") (Ok fd); Ev (DumpJson fd (consumer_record s)) (Ok ());
       Ev (CloseFile fd) ()] ∧
    received_ids s = ids_of (messages t') ∧
    first_recv s = head (arrival_times is_data 0 t') ∧ last_recv s = last (arrival_times is_data 0 t').
Proof.
  apply (consumer_records_deliveries "nats://h" "result" "ready" (of_int 1)).
  apply replayed_exec. vm_compute. reflexivity.
Defined.

Lemma ids_tell_deliveries_witness :
  ids_of [QueueGroupExample.data 1; QueueGroupExample.data 0] ≡ₚ range 0 2 ↔
  [QueueGroupExample.data 1; QueueGroupExample.data 0] ≡ₚ
    ((fun i => Delivery SUBJECT (message (xs 2) i)) <$> range 0 2).
Proof.
  apply (ids_tell_deliveries (xs 2) 2); [lia|].
  constructor; [exists 1; split; [lia|done]|constructor; [exists 0; split; [lia|done]|constructor]].
Defined.
