(* ===== verification/ClientRecords.v ===== *)
(** * The records of the NATS clients, as text

    nats_selectivity.py prints one JSON record per process and
    nats_queue_group.py prints the publisher's and writes each consumer's to
    its result file.  Whoever collects them with [json.loads] gets what the
    process has done: the numbers of its messages, the differences and rates of
    its clock readings. *)
From S2P Require Import Prelude PyFloat PyStr PyRepr FloatText PyFormat Json PyM Render Observe Asyncio.
From S2P Require Selectivity QueueGroup.

(** The last call of [t] prints a line from which [json.loads] gets [v]. *)
Definition prints_last (t : trace) (v : json) : Prop :=
  ∃ t' line text, t = t' ++ [Ev (Print false line) ()] ∧ render_line line = Some text ∧ loads text = Some v.

(** The last calls of [t] write the file [path], from which [json.load] gets
    [v]. *)
Definition writes_last (path : string) (t : trace) (v : json) : Prop :=
  ∃ t' fd fields, t = t' ++ [Ev (OpenFile path "w") (Ok fd); Ev (DumpJson fd fields) (Ok ());
                             Ev (CloseFile fd) ()] ∧
    loads (dumps (record_json fields)) = Some v.

(** The monotonic clock returns doubles. *)
Definition clock_valid (t : trace) : Prop := Forall (fun x => valid x = true) (monotonics t).

(** [count / secs if secs > 0 else float("inf")] *)
Definition rate (count : Z) (secs : float) : float :=
  if fgt secs fzero then fquot (of_int count) secs else finf.

(** A time, or [None]. *)
Definition time_json (o : option float) : json := match o with Some x => JsFloat x | None => JsNull end.

(** ** Lemmas *)

Lemma record_printed t fields :
  NoDup fields.*1 → Forall (fun kv => valid_field kv.2 = true) fields →
  prints_last (t ++ [Ev (Print false [FJson fields]) ()]) (record_json fields).
Proof.
  intros Hnd Hv. exists t, [FJson fields], (dumps (record_json fields)). split; [done|].
  split; [|by apply record_reads_back]. simpl. by rewrite append_nil_r.
Qed.

Lemma rate_valid count x : valid x = true → valid (rate count x) = true.
Proof. intros Hx. unfold rate. destruct (fgt _ _); [by apply fquot_valid|done]. Qed.

Lemma publish_all_reads count payload t :
  exec (Selectivity.publish_all count payload) t (Some (Ok ())) → monotonics t = [].
Proof.
  unfold Selectivity.publish_all. generalize (range 0 count). intros l. revert t.
  induction l as [|i l IH]; intros t; [by intros [-> _]|]. cbn [for_]. intros He.
  first_call He t H1. destruct x. apply exec_await_ok in H1 as [? ->]. by apply IH in He.
Qed.

Lemma numbered_all_reads ids pad t :
  exec (QueueGroup.publish_all ids pad) t (Some (Ok ())) → monotonics t = [].
Proof.
  unfold QueueGroup.publish_all. revert t.
  induction ids as [|i l IH]; intros t; [by intros [-> _]|]. cbn [for_]. intros He.
  first_call He t H1. destruct x. first_call H1 t H2. apply exec_lift_ok in H2 as [-> _].
  apply exec_await_ok in H1 as [? ->]. by apply IH in He.
Qed.

Lemma head_arrival timed t (x : float) :
  clock_valid t → head (arrival_times timed 0 t) = Some x → valid x = true.
Proof.
  intros Hv%(arrival_times_readings_of timed _ 0). destruct (arrival_times timed 0 t); [done|].
  intros [= ->]. by inversion Hv.
Qed.

Lemma last_arrival timed t (x : float) :
  clock_valid t → last (arrival_times timed 0 t) = Some x → valid x = true.
Proof.
  intros Hv%(arrival_times_readings_of timed _ 0) Hl. rewrite Forall_forall in Hv.
  apply Hv. rewrite last_lookup in Hl. by eapply list_elem_of_lookup_2.
Qed.

Lemma selective_publisher_record url count size t :
  exec (Selectivity.run_publisher url count size) t (Some (Ok ())) → clock_valid t →
  ∃ t0 t1, monotonics t = [t0; t1] ∧
    prints_last t (JsDict
      [("role", JsStr "publisher"); ("count", JsInt count);
       ("publish_secs", JsFloat (py_round (fsub t1 t0) 4));
       ("publish_rate", JsFloat (py_round (rate count (fsub t1 t0)) 1));
       ("publish_end_monotonic", JsFloat t1)]).
Proof.
  unfold Selectivity.run_publisher. intros He Hv.
  first_call He t H1. destruct x. apply exec_await_ok in H1 as [ds1 ->]. cbv zeta in He.
  first_call He t H1. apply exec_call_ok in H1 as ->. rename x into since.
  first_call He t H1. destruct x. apply publish_all_reads in H1.
  first_call He t H2. destruct x. apply exec_await_ok in H2 as [ds2 ->].
  first_call He t H2. apply exec_call_ok in H2 as ->. rename x into until.
  first_call He t H2. destruct x. apply exec_await_ok in H2 as [ds3 ->].
  apply exec_call_ok in He as ->. exists since, until.
  match type of Hv with clock_valid ?t => assert (monotonics t = [since; until]) as Hm end.
  { rewrite !monotonics_app, H1. done. }
  unfold clock_valid in Hv. rewrite Hm in Hv. split; [done|].
  apply Forall_cons in Hv as [V0 [V1 _]%Forall_cons].
  rewrite !app_assoc. apply (record_printed _ (Selectivity.publisher_record count since until));
    [by apply (bool_decide_unpack _)|].
  pose proof (fsub_valid until since V1 V0). pose proof (rate_valid count (fsub until since) ltac:(done)).
  by repeat constructor.
Qed.

Lemma subscriber_record_text url fuel count pattern ready timeout t :
  exec (Selectivity.run_subscriber url fuel count pattern ready timeout) t (Some (Ok ())) →
  clock_valid t →
  ∃ c t' expected, t = Ev (Await (NatsConnect url)) c :: t' ∧
    Selectivity.expected_matches count pattern = Ok expected ∧
    let received := Z.of_nat (length (messages t')) in
    prints_last t (JsDict
      [("role", JsStr "subscriber"); ("pattern", JsStr pattern); ("expected_matches", JsInt expected);
       ("received", JsInt received); ("match_ok", JsBool (received =? expected));
       ("last_recv_monotonic", time_json (last (arrival_times Selectivity.every 0 t')))]).
Proof.
  intros (c & t' & expected & [n o] & -> & Hexp & (Hr & Hl & _) & Hlast)%Selectivity.subscriber_record_last Hv.
  simpl in Hr, Hl. subst n o.
  exists c, t', expected. split; [done|]. split; [done|]. cbv zeta.
  destruct Hlast as [t1 E]. rewrite E in *.
  pose proof (record_printed t1 (Selectivity.subscriber_record pattern expected
    (Selectivity.Counted (Z.of_nat (length (messages t'))) (last (arrival_times Selectivity.every 0 t')))))
    as Hp.
  unfold record_json in Hp. simpl in Hp. rewrite <-E in Hv.
  assert (clock_valid t') as Hv' by (by apply Forall_app in Hv as [_ Hv]).
  destruct (last (arrival_times Selectivity.every 0 t')) as [x|] eqn:Hx;
    (apply Hp; [by apply (bool_decide_unpack _)|]); repeat constructor.
  by apply (last_arrival Selectivity.every t').
Qed.

Lemma numbering_publisher_record url count size n t :
  exec (QueueGroup.run_publisher url count size n) t (Some (Ok ())) → clock_valid t →
  ∃ t0 t1, monotonics t = [t0; t1] ∧
    prints_last t (JsDict
      [("role", JsStr "publisher"); ("count", JsInt count); ("n_consumers", JsInt n);
       ("publish_secs", JsFloat (fsub t1 t0)); ("publish_rate", JsFloat (rate count (fsub t1 t0)))]).
Proof.
  unfold QueueGroup.run_publisher. intros He Hv.
  first_call He t H1. destruct x. apply exec_await_ok in H1 as [ds1 ->]. cbv zeta in He.
  first_call He t H1. apply exec_call_ok in H1 as ->. rename x into since.
  first_call He t H1. destruct x. apply numbered_all_reads in H1.
  first_call He t H2. destruct x. apply exec_await_ok in H2 as [ds2 ->].
  first_call He t H2. apply exec_call_ok in H2 as ->. rename x into until.
  first_call He t H2. destruct x. apply exec_await_ok in H2 as [ds3 ->].
  first_call He t H2. destruct x. apply exec_await_ok in H2 as [ds4 ->].
  first_call He t H2. destruct x. apply exec_await_ok in H2 as [ds5 ->].
  apply exec_call_ok in He as ->. exists since, until.
  match type of Hv with clock_valid ?t => assert (monotonics t = [since; until]) as Hm end.
  { rewrite !monotonics_app, H1. done. }
  unfold clock_valid in Hv. rewrite Hm in Hv. split; [done|].
  apply Forall_cons in Hv as [V0 [V1 _]%Forall_cons].
  rewrite !app_assoc. apply (record_printed _ (QueueGroup.publisher_record count n since until));
    [by apply (bool_decide_unpack _)|].
  pose proof (fsub_valid until since V1 V0). pose proof (rate_valid count (fsub until since) ltac:(done)).
  by repeat constructor.
Qed.

Lemma consumer_record_text url result ready grace t :
  exec (QueueGroup.run_consumer url result ready grace) t (Some (Ok ())) → clock_valid t →
  ∃ c t', t = Ev (Await (NatsConnect url)) c :: t' ∧
    let ids := QueueGroup.ids_of (messages t') in
    let times := arrival_times QueueGroup.is_data 0 t' in
    writes_last result t (JsDict
      [("count", JsInt (Z.of_nat (length ids))); ("ids", JsList (map JsInt ids));
       ("first_recv", time_json (head times)); ("last_recv", time_json (last times))]).
Proof.
  intros (c & t' & fd & [ids f l st] & -> & Hacc & Hids & _ & Hf & Hl)%QueueGroup.consumer_run Hv.
  simpl in Hids, Hf, Hl. subst ids f l.
  set (w := [Ev (OpenFile result "w") (Ok fd); _; _]).
  assert (messages (t' ++ w) = messages t') as Hm by (rewrite messages_app; by rewrite app_nil_r).
  assert (arrival_times QueueGroup.is_data 0 (t' ++ w) = arrival_times QueueGroup.is_data 0 t') as Ha
    by (rewrite Hacc; by rewrite app_nil_r).
  exists c, (t' ++ w). split; [done|]. cbv zeta. rewrite Hm, Ha.
  assert (clock_valid t') as Hv' by (unfold clock_valid in Hv; rewrite !monotonics_app, !Forall_app in Hv; by destruct Hv as (_ & ? & _)).
  eexists ([Ev (Await (NatsConnect url)) c] ++ t'), fd, _. split; [by rewrite <-app_assoc|].
  rewrite record_reads_back.
  - unfold record_json. simpl. by destruct (head _), (last _).
  - by apply (bool_decide_unpack _).
  - pose proof (head_arrival QueueGroup.is_data t'). pose proof (last_arrival QueueGroup.is_data t').
    repeat constructor; simpl; [destruct (head _)|destruct (last _)]; simpl; auto.
Qed.

(** C35. The records of the NATS clients say what happened, also after the
    trip through text.  When one of the four processes completes, and its
    clock has returned doubles, [json.loads] of the last line it prints (or of
    the consumer's result file) gives exactly: for a publisher its count and
    the difference of its two clock readings with the rate it makes (rounded to
    4 and 1 places by nats_selectivity.py, the rate infinite when no time has
    passed); for a subscriber the expected number, the number of messages
    delivered to it, whether they agree, and the time of the last; for a
    consumer the numbers read off the data messages delivered to it, how many
    they are, and the times of the first and the last. *)
Theorem client_records_read_back :
  (∀ url count size t,
     exec (Selectivity.run_publisher url count size) t (Some (Ok ())) → clock_valid t →
     ∃ t0 t1, monotonics t = [t0; t1] ∧
       prints_last t (JsDict
         [("role", JsStr "publisher"); ("count", JsInt count);
          ("publish_secs", JsFloat (py_round (fsub t1 t0) 4));
          ("publish_rate", JsFloat (py_round (rate count (fsub t1 t0)) 1));
          ("publish_end_monotonic", JsFloat t1)])) ∧
  (∀ url fuel count pattern ready timeout t,
     exec (Selectivity.run_subscriber url fuel count pattern ready timeout) t (Some (Ok ())) →
     clock_valid t →
     ∃ c t' expected, t = Ev (Await (NatsConnect url)) c :: t' ∧
       Selectivity.expected_matches count pattern = Ok expected ∧
       let received := Z.of_nat (length (messages t')) in
       prints_last t (JsDict
         [("role", JsStr "subscriber"); ("pattern", JsStr pattern); ("expected_matches", JsInt expected);
          ("received", JsInt received); ("match_ok", JsBool (received =? expected));
          ("last_recv_monotonic", time_json (last (arrival_times Selectivity.every 0 t')))])) ∧
  (∀ url count size n t,
     exec (QueueGroup.run_publisher url count size n) t (Some (Ok ())) → clock_valid t →
     ∃ t0 t1, monotonics t = [t0; t1] ∧
       prints_last t (JsDict
         [("role", JsStr "publisher"); ("count", JsInt count); ("n_consumers", JsInt n);
          ("publish_secs", JsFloat (fsub t1 t0)); ("publish_rate", JsFloat (rate count (fsub t1 t0)))])) ∧
  (∀ url result ready grace t,
     exec (QueueGroup.run_consumer url result ready grace) t (Some (Ok ())) → clock_valid t →
     ∃ c t', t = Ev (Await (NatsConnect url)) c :: t' ∧
       let ids := QueueGroup.ids_of (messages t') in
       let times := arrival_times QueueGroup.is_data 0 t' in
       writes_last result t (JsDict
         [("count", JsInt (Z.of_nat (length ids))); ("ids", JsList (map JsInt ids));
          ("first_recv", time_json (head times)); ("last_recv", time_json (last times))])).
Proof.
  split; [|split; [|split]].
  - apply selective_publisher_record.
  - apply subscriber_record_text.
  - apply numbering_publisher_record.
  - apply consumer_record_text.
Qed.

(** ** The property at work *)

Module RecordsExample.
(** A consumer that is handed messages 0 and 2, at 5 and at 6. *)
Definition consumer : trace :=
  replayed (QueueGroup.run_consumer "nats://h" "result" "ready" (of_int 1))
    QueueGroup.QueueGroupExample.consume.
End RecordsExample.

Lemma client_records_read_back_witness :
  writes_last "result" RecordsExample.consumer (JsDict
    [("count", JsInt 2); ("ids", JsList [JsInt 0; JsInt 2]);
     ("first_recv", JsFloat (of_int 5)); ("last_recv", JsFloat (of_int 6))]).
Proof.
  destruct (proj2 (proj2 (proj2 client_records_read_back)) "nats://h" "result" "ready" (of_int 1)
    RecordsExample.consumer) as (c & t' & Ht & Hw).
  - apply replayed_exec. vm_compute. reflexivity.
  - vm_compute. repeat constructor.
  - assert (t' = tail RecordsExample.consumer) as E by (by rewrite Ht).
    cbv zeta in Hw. rewrite E in Hw. clear Ht E.
    match type of Hw with writes_last _ _ ?v =>
      replace v with (JsDict
        [("count", JsInt 2); ("ids", JsList [JsInt 0; JsInt 2]);
         ("first_recv", JsFloat (of_int 5)); ("last_recv", JsFloat (of_int 6))]) in Hw
        by (vm_compute; reflexivity)
    end.
    exact Hw.
Defined.

Example consumer_file :
  render_line [FJson (QueueGroup.consumer_record
    (QueueGroup.Recorded [0; 2; 1] (Some (of_int 3)) (Some (lit 35 10)) true))]
  = Some ("{" +:+ quoted "count" +:+ ": 3, " +:+ quoted "ids" +:+ ": [0, 2, 1], " +:+ quoted "first_recv"
          +:+ ": 3.0, " +:+ quoted "last_recv" +:+ ": 3.5}").
Proof. vm_compute. reflexivity. Qed.
