(* ===== verification/Cli.v ===== *)
(** * The scripts' command lines

    The argument tables of the nine scripts that call [parse_args], and the
    arguments record each [main] takes.  What is read is read back, every
    accepted command line gives a record, and a rejected one an exit status. *)
From S2P Require Import Prelude PyFloat Rounding PyStr PyM.
From S2P Require Import SustainedBench FilteredBench MultiQueueBench ParallelBench JsBench BmqBench.
From S2P Require Import Selectivity QueueGroup Argparse.

(** ** Reading the namespace *)

Definition as_text (v : pyval) : option string := match v with PText s => Some s | _ => None end.
Definition as_int (v : pyval) : option Z := match v with PInt z => Some z | _ => None end.
Definition as_real (v : pyval) : option float := match v with PReal x => Some x | _ => None end.
Definition as_bool (v : pyval) : option bool := match v with PBool b => Some b | _ => None end.

(** A string or None. *)
Definition as_text_or_none (v : pyval) : option (option string) :=
  match v with PText s => Some (Some s) | PNone => Some None | _ => None end.

(** [type=float] whose default is an int. *)
Definition as_number (v : pyval) : option number :=
  match v with PReal x => Some (NFloat x) | PInt z => Some (NInt z) | _ => None end.

Definition text (k : string) (ns : namespace) : option string := ns !! k ≫= as_text.
Definition opt_text (k : string) (ns : namespace) : option (option string) := ns !! k ≫= as_text_or_none.
Definition int (k : string) (ns : namespace) : option Z := ns !! k ≫= as_int.
Definition real (k : string) (ns : namespace) : option float := ns !! k ≫= as_real.
Definition real_or_int (k : string) (ns : namespace) : option number := ns !! k ≫= as_number.
Definition flagged (k : string) (ns : namespace) : option bool := ns !! k ≫= as_bool.

(** A rate that is only compared with 0 and divided when it is a float: the
    int default is 0. *)
Definition rate_limit (r : number) : float := match r with NInt z => of_int z | NFloat x => x end.

(** What starting a script comes to: [main]'s arguments, or argparse's exit
    status.  [NoAttribute] stands for an attribute that the namespace lacks or
    holds at another type. *)
Inductive start (A : Type) :=
| Runs (a : A)
| Exits (status : Z)
| NoAttribute.
Arguments Runs {A} _.
Arguments Exits {A} _.
Arguments NoAttribute {A}.

Definition command_line {A} (p : parser) (args_of : namespace → option A) (argv : list string)
  : start A :=
  match parse_args p argv with
  | Parsed ns => match args_of ns with Some a => Runs a | None => NoAttribute end
  | Exit status => Exits status
  end.

(** An argument that may be left out. *)
Definition optional (k : string) (o : option string) : list (string * pyval) :=
  match o with Some s => [(k, PText s)] | None => [] end.

#[local] Abbreviation needs k kd := (Opt k kd true PNone).
#[local] Abbreviation may k kd d := (Opt k kd false d).
#[local] Abbreviation switch k := (Opt k KFlag false (PBool false)).

(** ** sustained_bench.py *)

Module Sustained.
Definition cli : parser :=
  Parser
    [may "--dsn" KStr (PText "host=/var/run/postgresql dbname=postgres");
     needs "--sql" KStr;
     needs "--producers" KInt;
     needs "--consumers" KInt;
     may "--batch-rows" KInt (PInt 2000);
     may "--consume-batch" KInt (PInt 2000);
     may "--consume-timeout-ms" KInt (PInt 200);
     may "--duration-secs" KFloat (PReal (of_int 45));
     may "--ramp-up-secs" KFloat (PReal (of_int 10));
     may "--drain-tail-secs" KFloat (PReal (of_int 15));
     may "--sample-interval-secs" KFloat (PReal (of_int 2));
     may "--producer-rate-limit" KFloat (PInt 0);
     may "--queue-uri" KStr (PText "bmq://bmq.test.mem.priority/sustained_bench");
     may "--broker-uri" KStr (PText "tcp://localhost:30114")]
    None.

Definition args_of (ns : namespace) : option SustainedBench.args :=
  dsn ← text "--dsn" ns;
  sql ← text "--sql" ns;
  producers ← int "--producers" ns;
  consumers ← int "--consumers" ns;
  batch_rows ← int "--batch-rows" ns;
  consume_batch ← int "--consume-batch" ns;
  consume_timeout_ms ← int "--consume-timeout-ms" ns;
  duration_secs ← real "--duration-secs" ns;
  ramp_up_secs ← real "--ramp-up-secs" ns;
  drain_tail_secs ← real "--drain-tail-secs" ns;
  sample_interval_secs ← real "--sample-interval-secs" ns;
  producer_rate_limit ← real_or_int "--producer-rate-limit" ns;
  queue_uri ← text "--queue-uri" ns;
  broker_uri ← text "--broker-uri" ns;
  Some (SustainedBench.Args dsn sql producers consumers batch_rows consume_batch consume_timeout_ms
          duration_secs ramp_up_secs drain_tail_secs sample_interval_secs
          (rate_limit producer_rate_limit) queue_uri broker_uri).

(** The arguments [a], one word each. *)
Definition given_of (a : SustainedBench.args) : list (string * pyval) :=
  [("--dsn", PText (SustainedBench.dsn a));
   ("--sql", PText (SustainedBench.sql a));
   ("--producers", PInt (SustainedBench.producers a));
   ("--consumers", PInt (SustainedBench.consumers a));
   ("--batch-rows", PInt (SustainedBench.batch_rows a));
   ("--consume-batch", PInt (SustainedBench.consume_batch a));
   ("--consume-timeout-ms", PInt (SustainedBench.consume_timeout_ms a));
   ("--duration-secs", PReal (SustainedBench.duration_secs a));
   ("--ramp-up-secs", PReal (SustainedBench.ramp_up_secs a));
   ("--drain-tail-secs", PReal (SustainedBench.drain_tail_secs a));
   ("--sample-interval-secs", PReal (SustainedBench.sample_interval_secs a));
   ("--producer-rate-limit", PReal (SustainedBench.producer_rate_limit a));
   ("--queue-uri", PText (SustainedBench.queue_uri a));
   ("--broker-uri", PText (SustainedBench.broker_uri a))].
End Sustained.

(** ** filtered_bench.py *)

Module Filtered.
Definition cli : parser :=
  Parser
    [may "--dsn" KStr (PText "host=/var/run/postgresql dbname=postgres");
     needs "--sql" KStr;
     may "--filter-column" KStr (PText "texi");
     may "--filter-values" KStr PNone;
     needs "--producers" KInt;
     needs "--consumers" KInt;
     may "--batch-rows" KInt (PInt 2000);
     may "--consume-batch" KInt (PInt 2000);
     may "--consume-timeout-ms" KInt (PInt 200);
     may "--duration-secs" KFloat (PReal (of_int 30));
     may "--ramp-up-secs" KFloat (PReal (of_int 8));
     may "--drain-tail-secs" KFloat (PReal (of_int 10));
     may "--sample-interval-secs" KFloat (PReal (of_int 2));
     may "--producer-rate-limit" KFloat (PInt 0);
     may "--queue-uri" KStr (PText "bmq://bmq.test.mem.priority/filtered_bench");
     may "--broker-uri" KStr (PText "tcp://localhost:30114");
     switch "--verify-content"]
    None.

Definition args_of (ns : namespace) : option FilteredBench.args :=
  dsn ← text "--dsn" ns;
  sql ← text "--sql" ns;
  filter_column ← text "--filter-column" ns;
  filter_values ← opt_text "--filter-values" ns;
  producers ← int "--producers" ns;
  consumers ← int "--consumers" ns;
  batch_rows ← int "--batch-rows" ns;
  consume_batch ← int "--consume-batch" ns;
  consume_timeout_ms ← int "--consume-timeout-ms" ns;
  duration_secs ← real "--duration-secs" ns;
  ramp_up_secs ← real "--ramp-up-secs" ns;
  drain_tail_secs ← real "--drain-tail-secs" ns;
  sample_interval_secs ← real "--sample-interval-secs" ns;
  producer_rate_limit ← real_or_int "--producer-rate-limit" ns;
  queue_uri ← text "--queue-uri" ns;
  broker_uri ← text "--broker-uri" ns;
  verify_content ← flagged "--verify-content" ns;
  Some (FilteredBench.Args dsn sql filter_column filter_values producers consumers batch_rows
          consume_batch consume_timeout_ms duration_secs ramp_up_secs drain_tail_secs
          sample_interval_secs (rate_limit producer_rate_limit) queue_uri broker_uri verify_content).

Definition given_of (a : FilteredBench.args) : list (string * pyval) :=
  [("--dsn", PText (FilteredBench.dsn a));
   ("--sql", PText (FilteredBench.sql a));
   ("--filter-column", PText (FilteredBench.filter_column a));
   ("--producers", PInt (FilteredBench.producers a));
   ("--consumers", PInt (FilteredBench.consumers a));
   ("--batch-rows", PInt (FilteredBench.batch_rows a));
   ("--consume-batch", PInt (FilteredBench.consume_batch a));
   ("--consume-timeout-ms", PInt (FilteredBench.consume_timeout_ms a));
   ("--duration-secs", PReal (FilteredBench.duration_secs a));
   ("--ramp-up-secs", PReal (FilteredBench.ramp_up_secs a));
   ("--drain-tail-secs", PReal (FilteredBench.drain_tail_secs a));
   ("--sample-interval-secs", PReal (FilteredBench.sample_interval_secs a));
   ("--producer-rate-limit", PReal (FilteredBench.producer_rate_limit a));
   ("--queue-uri", PText (FilteredBench.queue_uri a));
   ("--broker-uri", PText (FilteredBench.broker_uri a))]
  ++ optional "--filter-values" (FilteredBench.filter_values a)
  ++ (if FilteredBench.verify_content a then [("--verify-content", PBool true)] else []).
End Filtered.

(** ** multi_queue_bench.py *)

Module MultiQueue.
Definition cli : parser :=
  Parser
    [may "--dsn" KStr (PText "host=/var/run/postgresql dbname=postgres");
     needs "--sql" KStr;
     needs "--k-queues" KInt;
     may "--per-queue-rate" KFloat (PInt 42000);
     may "--batch-rows" KInt (PInt 2000);
     may "--consume-batch" KInt (PInt 2000);
     may "--consume-timeout-ms" KInt (PInt 200);
     may "--duration-secs" KFloat (PReal (of_int 30));
     may "--ramp-up-secs" KFloat (PReal (of_int 8));
     may "--drain-tail-secs" KFloat (PReal (of_int 12));
     may "--sample-interval-secs" KFloat (PReal (of_int 2));
     may "--queue-uri-base" KStr (PText "bmq://bmq.test.mem.priority/mqbench");
     may "--broker-uri" KStr (PText "tcp://localhost:30114")]
    None.

Definition args_of (ns : namespace) : option MultiQueueBench.args :=
  dsn ← text "--dsn" ns;
  sql ← text "--sql" ns;
  k_queues ← int "--k-queues" ns;
  per_queue_rate ← real_or_int "--per-queue-rate" ns;
  batch_rows ← int "--batch-rows" ns;
  consume_batch ← int "--consume-batch" ns;
  consume_timeout_ms ← int "--consume-timeout-ms" ns;
  duration_secs ← real "--duration-secs" ns;
  ramp_up_secs ← real "--ramp-up-secs" ns;
  drain_tail_secs ← real "--drain-tail-secs" ns;
  sample_interval_secs ← real "--sample-interval-secs" ns;
  queue_uri_base ← text "--queue-uri-base" ns;
  broker_uri ← text "--broker-uri" ns;
  Some (MultiQueueBench.Args dsn sql k_queues per_queue_rate batch_rows consume_batch
          consume_timeout_ms duration_secs ramp_up_secs drain_tail_secs sample_interval_secs
          queue_uri_base broker_uri).

(** An int rate cannot be given: it is the default's. *)
Definition given_of (a : MultiQueueBench.args) : list (string * pyval) :=
  [("--dsn", PText (MultiQueueBench.dsn a));
   ("--sql", PText (MultiQueueBench.sql a));
   ("--k-queues", PInt (MultiQueueBench.k_queues a));
   ("--batch-rows", PInt (MultiQueueBench.batch_rows a));
   ("--consume-batch", PInt (MultiQueueBench.consume_batch a));
   ("--consume-timeout-ms", PInt (MultiQueueBench.consume_timeout_ms a));
   ("--duration-secs", PReal (MultiQueueBench.duration_secs a));
   ("--ramp-up-secs", PReal (MultiQueueBench.ramp_up_secs a));
   ("--drain-tail-secs", PReal (MultiQueueBench.drain_tail_secs a));
   ("--sample-interval-secs", PReal (MultiQueueBench.sample_interval_secs a));
   ("--queue-uri-base", PText (MultiQueueBench.queue_uri_base a));
   ("--broker-uri", PText (MultiQueueBench.broker_uri a))]
  ++ match MultiQueueBench.per_queue_rate a with
     | NFloat x => [("--per-queue-rate", PReal x)]
     | NInt _ => []
     end.
End MultiQueue.

(** ** parallel_bench.py *)

Module Parallel.
Definition cli : parser :=
  Parser
    [may "--dsn" KStr (PText "host=/var/run/postgresql dbname=postgres");
     needs "--sql" KStr;
     may "--total-rows" KInt (PInt 100000);
     needs "--connections" KInt;
     may "--queue-uri" KStr (PText "bmq://bmq.test.mem.broadcast/parallel_bench");
     may "--broker-uri" KStr (PText "tcp://localhost:30114")]
    None.

Definition args_of (ns : namespace) : option ParallelBench.args :=
  dsn ← text "--dsn" ns;
  sql ← text "--sql" ns;
  total_rows ← int "--total-rows" ns;
  connections ← int "--connections" ns;
  queue_uri ← text "--queue-uri" ns;
  broker_uri ← text "--broker-uri" ns;
  Some (ParallelBench.Args dsn sql total_rows connections queue_uri broker_uri).

Definition given_of (a : ParallelBench.args) : list (string * pyval) :=
  [("--dsn", PText (ParallelBench.dsn a));
   ("--sql", PText (ParallelBench.sql a));
   ("--total-rows", PInt (ParallelBench.total_rows a));
   ("--connections", PInt (ParallelBench.connections a));
   ("--queue-uri", PText (ParallelBench.queue_uri a));
   ("--broker-uri", PText (ParallelBench.broker_uri a))].
End Parallel.

(** ** js_bench.py *)

Module Js.
Definition cli : parser :=
  Parser
    [may "--dsn" KStr (PText "host=/var/run/postgresql dbname=postgres");
     needs "--sql" KStr;
     may "--limit" KInt (PInt 100000);
     may "--subject" KStr PNone;
     may "--stream" KStr PNone;
     may "--nats-tool" KStr (PText "/home/mrayva/nats_asio/build/bin/nats_tool");
     may "--drain-timeout-secs" KInt (PInt 60)]
    None.

Definition args_of (ns : namespace) : option JsBench.args :=
  dsn ← text "--dsn" ns;
  sql ← text "--sql" ns;
  limit ← int "--limit" ns;
  subject ← opt_text "--subject" ns;
  stream ← opt_text "--stream" ns;
  nats_tool ← text "--nats-tool" ns;
  drain_timeout_secs ← int "--drain-timeout-secs" ns;
  Some (JsBench.Args dsn sql limit subject stream nats_tool drain_timeout_secs).

Definition given_of (a : JsBench.args) : list (string * pyval) :=
  [("--dsn", PText (JsBench.dsn a));
   ("--sql", PText (JsBench.sql a));
   ("--limit", PInt (JsBench.limit a));
   ("--nats-tool", PText (JsBench.nats_tool a));
   ("--drain-timeout-secs", PInt (JsBench.drain_timeout_secs a))]
  ++ optional "--subject" (JsBench.subject_arg a) ++ optional "--stream" (JsBench.stream_arg a).
End Js.

(** ** bmq_bench.py *)

Module Bmq.
Definition cli : parser :=
  Parser
    [may "--dsn" KStr (PText "host=/var/run/postgresql dbname=postgres");
     needs "--sql" KStr;
     may "--limit" KInt (PInt 100000);
     may "--attr-columns" KStr (PText "Sequence Number,Trade Id");
     may "--queue-uri" KStr (PText "bmq://bmq.test.mem.priority/bmq_bench");
     may "--broker-uri" KStr (PText "tcp://localhost:30114");
     may "--consume-timeout-ms" KInt (PInt 60000);
     switch "--batch-confirm"]
    None.

Definition args_of (ns : namespace) : option BmqBench.args :=
  dsn ← text "--dsn" ns;
  sql ← text "--sql" ns;
  limit ← int "--limit" ns;
  attr_columns ← text "--attr-columns" ns;
  queue_uri ← text "--queue-uri" ns;
  broker_uri ← text "--broker-uri" ns;
  consume_timeout_ms ← int "--consume-timeout-ms" ns;
  batch_confirm ← flagged "--batch-confirm" ns;
  Some (BmqBench.Args dsn sql limit attr_columns queue_uri broker_uri consume_timeout_ms batch_confirm).

Definition given_of (a : BmqBench.args) : list (string * pyval) :=
  [("--dsn", PText (BmqBench.dsn a));
   ("--sql", PText (BmqBench.sql a));
   ("--limit", PInt (BmqBench.limit a));
   ("--attr-columns", PText (BmqBench.attr_columns a));
   ("--queue-uri", PText (BmqBench.queue_uri a));
   ("--broker-uri", PText (BmqBench.broker_uri a));
   ("--consume-timeout-ms", PInt (BmqBench.consume_timeout_ms a))]
  ++ (if BmqBench.batch_confirm a then [("--batch-confirm", PBool true)] else []).
End Bmq.

(** ** nats_selectivity.py *)

Module Selective.
Definition cli : parser :=
  Parser
    [may "--server" KStr (PText "nats://127.0.0.1:4222");
     may "--count" KInt (PInt 100000);
     may "--payload-size" KInt (PInt 128);
     needs "--role" (KChoice ["publisher"; "subscriber"]);
     may "--pattern" KStr PNone;
     may "--ready-file" KStr PNone;
     may "--settle-timeout" KFloat (PReal (of_int 15))]
    None.

Definition args_of (ns : namespace) : option Selectivity.args :=
  server ← text "--server" ns;
  count ← int "--count" ns;
  payload_size ← int "--payload-size" ns;
  role ← text "--role" ns;
  pattern ← opt_text "--pattern" ns;
  ready_file ← opt_text "--ready-file" ns;
  settle_timeout ← real "--settle-timeout" ns;
  Some (Selectivity.Args server count payload_size (String.eqb role "publisher") pattern ready_file
          settle_timeout).

Definition given_of (a : Selectivity.args) : list (string * pyval) :=
  [("--server", PText (Selectivity.server a));
   ("--count", PInt (Selectivity.a_count a));
   ("--payload-size", PInt (Selectivity.payload_size a));
   ("--role", PText (if Selectivity.publisher_role a then "publisher" else "subscriber"));
   ("--settle-timeout", PReal (Selectivity.settle_timeout a))]
  ++ optional "--pattern" (Selectivity.a_pattern a)
  ++ optional "--ready-file" (Selectivity.a_ready_file a).
End Selective.

(** ** nats_queue_group.py *)

Module Group.
Definition cli : parser :=
  Parser
    [needs "--role" (KChoice ["publisher"; "consumer"]);
     may "--server" KStr (PText "nats://127.0.0.1:4222");
     may "--count" KInt (PInt 100000);
     may "--payload-size" KInt (PInt 64);
     may "--n-consumers" KInt (PInt 1);
     may "--result-path" KStr PNone;
     may "--ready-path" KStr PNone;
     may "--drain-grace-secs" KFloat (PReal (of_int 1))]
    None.

Definition args_of (ns : namespace) : option QueueGroup.args :=
  role ← text "--role" ns;
  server ← text "--server" ns;
  count ← int "--count" ns;
  payload_size ← int "--payload-size" ns;
  n_consumers ← int "--n-consumers" ns;
  result_path ← opt_text "--result-path" ns;
  ready_path ← opt_text "--ready-path" ns;
  drain_grace_secs ← real "--drain-grace-secs" ns;
  Some (QueueGroup.Args (String.eqb role "publisher") server count payload_size n_consumers
          result_path ready_path drain_grace_secs).

Definition given_of (a : QueueGroup.args) : list (string * pyval) :=
  [("--role", PText (if QueueGroup.publisher_role a then "publisher" else "consumer"));
   ("--server", PText (QueueGroup.server a));
   ("--count", PInt (QueueGroup.a_count a));
   ("--payload-size", PInt (QueueGroup.payload_size a));
   ("--n-consumers", PInt (QueueGroup.n_consumers a));
   ("--drain-grace-secs", PReal (QueueGroup.drain_grace_secs a))]
  ++ optional "--result-path" (QueueGroup.result_path a)
  ++ optional "--ready-path" (QueueGroup.ready_path a).
End Group.

(** ** nats_sidecar_jetstream_consumer.py *)

Module JsConsumer.
Definition modes : list string := ["integration"; "stress"; "throughput"; "all"].

Definition cli : parser :=
  Parser [may "--trials" KInt (PInt 15)] (Some ("mode", modes)).

(** [args.mode] and [args.trials]. *)
Definition args_of (ns : namespace) : option (string * Z) :=
  mode ← text "mode" ns; trials ← int "--trials" ns; Some (mode, trials).
End JsConsumer.

(** ** The nine scripts *)

(** A script's table, what [main] reads of the namespace, and a way to write
    arguments down. *)
Record script := Script {
  arguments : Type;
  table : parser;
  main_args : namespace → option arguments;
  good : arguments → Prop;
  lead_of : arguments → list string;
  given_args : arguments → list (string * pyval);
}.

Definition good_rate (r : number) : Prop :=
  match r with NInt z => z = 42000 | NFloat x => valid x = true end.

Definition sustained : script :=
  Script _ Sustained.cli Sustained.args_of
    (fun a => valid (SustainedBench.duration_secs a) = true ∧
              valid (SustainedBench.ramp_up_secs a) = true ∧
              valid (SustainedBench.drain_tail_secs a) = true ∧
              valid (SustainedBench.sample_interval_secs a) = true ∧
              valid (SustainedBench.producer_rate_limit a) = true)
    (fun _ => []) Sustained.given_of.

Definition filtered : script :=
  Script _ Filtered.cli Filtered.args_of
    (fun a => valid (FilteredBench.duration_secs a) = true ∧
              valid (FilteredBench.ramp_up_secs a) = true ∧
              valid (FilteredBench.drain_tail_secs a) = true ∧
              valid (FilteredBench.sample_interval_secs a) = true ∧
              valid (FilteredBench.producer_rate_limit a) = true)
    (fun _ => []) Filtered.given_of.

Definition multi_queue : script :=
  Script _ MultiQueue.cli MultiQueue.args_of
    (fun a => good_rate (MultiQueueBench.per_queue_rate a) ∧
              valid (MultiQueueBench.duration_secs a) = true ∧
              valid (MultiQueueBench.ramp_up_secs a) = true ∧
              valid (MultiQueueBench.drain_tail_secs a) = true ∧
              valid (MultiQueueBench.sample_interval_secs a) = true)
    (fun _ => []) MultiQueue.given_of.

Definition parallel : script :=
  Script _ Parallel.cli Parallel.args_of (fun _ => True) (fun _ => []) Parallel.given_of.

Definition js : script := Script _ Js.cli Js.args_of (fun _ => True) (fun _ => []) Js.given_of.

Definition bmq : script := Script _ Bmq.cli Bmq.args_of (fun _ => True) (fun _ => []) Bmq.given_of.

Definition selective : script :=
  Script _ Selective.cli Selective.args_of (fun a => valid (Selectivity.settle_timeout a) = true)
    (fun _ => []) Selective.given_of.

Definition group : script :=
  Script _ Group.cli Group.args_of (fun a => valid (QueueGroup.drain_grace_secs a) = true)
    (fun _ => []) Group.given_of.

Definition js_consumer : script :=
  Script _ JsConsumer.cli JsConsumer.args_of (fun a => a.1 ∈ JsConsumer.modes)
    (fun a => [a.1]) (fun a => [("--trials", PInt a.2)]).

Definition scripts : list script :=
  [sustained; filtered; multi_queue; parallel; js; bmq; selective; group; js_consumer].

(** Starting script [s] with the words [argv]. *)
Definition launch (s : script) (argv : list string) : start (arguments s) :=
  command_line (table s) (main_args s) argv.

(** [a] as a command line. *)
Definition spelling (s : script) (a : arguments s) : list string :=
  lead_of s a ++ (word <$> given_args s a).

Lemma scripts_ok : Forall (fun s => parser_ok (table s) = true) scripts.
Proof. repeat constructor; by vm_compute. Qed.

(** ** Accepted command lines *)

Lemma read_as {A} (f : pyval → option A) (Q : A → Prop) p o k argv ns :
  parse_args p argv = Parsed ns → parser_ok p = true → find_flag (options p) k = Some o →
  (∀ v, fits (kind_of o) v → ∃ x, f v = Some x ∧ Q x) →
  (required o = true ∨ ∃ x, f (default_of o) = Some x ∧ Q x) →
  ∃ x, ns !! k ≫= f = Some x ∧ Q x.
Proof.
  intros Hns Hok Hk Hf Hd. apply find_flag_Some in Hk as [Ho <-].
  destruct (parse_args_typed p Hok argv ns Hns) as [H _].
  destruct (H o Ho) as (v & -> & [Hv|[Hr ->]]); [by apply Hf|].
  destruct Hd as [|Hd]; [congruence|done].
Qed.

(** What is known of a value read. *)
Class Good (A : Type) := is_good : A → Prop.

#[local] Instance good_text : Good string := fun _ => True.
#[local] Instance good_text_or_none : Good (option string) := fun _ => True.
#[local] Instance good_int : Good Z := fun _ => True.
#[local] Instance good_bool : Good bool := fun _ => True.
#[local] Instance good_real : Good float := fun x => valid x = true.
#[local] Instance good_number : Good number :=
  fun r => match r with NInt _ => True | NFloat x => valid x = true end.

(** [∃ x, text k ns = Some x ∧ ...], by the row of [k] in the table. *)
Ltac attribute Hns :=
  eapply read_as; [exact Hns|by vm_compute|reflexivity| |];
  [intros []; try done; intros ?; by eexists
  |first [by left|right; by eexists]].

(** Read the next attribute, which has [Q]; *)
Ltac read_with Hns Q :=
  lazymatch goal with
  | |- ∃ a, (?f ?ns ≫= _) = Some a ∧ _ =>
      let H := fresh in let x := fresh "x" in let Hx := fresh in let Hq := fresh "Hq" in
      assert (∃ y, f ns = Some y ∧ Q y) as H by attribute Hns;
      destruct H as (x & Hx & Hq); rewrite Hx; simpl; clear Hx
  end.

(** or what its type asks of it. *)
Ltac read_next Hns :=
  lazymatch goal with
  | |- ∃ a, (?f ?ns ≫= _) = Some a ∧ _ =>
      lazymatch type of (f ns) with option ?A => read_with Hns (is_good (A := A)) end
  end.

Ltac read_all Hns := repeat read_next Hns; by eexists.

Lemma rate_limit_valid r : is_good r → valid (rate_limit r) = true.
Proof. destruct r; [intros _; apply of_int_valid|done]. Qed.

Lemma accepted_gives : Forall (fun s => ∀ argv ns,
  parse_args (table s) argv = Parsed ns → ∃ a, main_args s ns = Some a ∧ good s a) scripts.
Proof.
  repeat constructor; intros argv ns Hns; simpl in *.
  - unfold Sustained.args_of. repeat read_next Hns. eexists. split; [done|].
    repeat split; try done. by apply rate_limit_valid.
  - unfold Filtered.args_of. repeat read_next Hns. eexists. split; [done|].
    repeat split; try done. by apply rate_limit_valid.
  - unfold MultiQueue.args_of. do 3 read_next Hns. read_with Hns good_rate.
    repeat read_next Hns. by eexists.
  - unfold Parallel.args_of. read_all Hns.
  - unfold Js.args_of. read_all Hns.
  - unfold Bmq.args_of. read_all Hns.
  - unfold Selective.args_of. read_all Hns.
  - unfold Group.args_of. read_all Hns.
  - destruct (parse_args_typed JsConsumer.cli ltac:(by vm_compute) argv ns Hns) as [_ Hp].
    destruct (Hp _ _ eq_refl) as (m & Hm & Hin). unfold JsConsumer.args_of, text. rewrite Hm. simpl.
    read_next Hns. by eexists.
Qed.

(** Starting any of the nine scripts, on any words: either argparse ends it
    with status 0 (help was asked for) or 2, or [main] has every one of its
    arguments, each of its own type and every float a double; no attribute is
    ever missing. *)
Theorem command_lines_accepted :
  Forall (fun s => ∀ argv,
    (∃ a, launch s argv = Runs a ∧ good s a) ∨ launch s argv = Exits 0 ∨ launch s argv = Exits 2) scripts.
Proof.
  apply (Forall_impl _ _ _ accepted_gives). intros s Hs argv. unfold launch, command_line.
  destruct (parse_args (table s) argv) as [ns|n] eqn:E.
  - left. destruct (Hs _ _ E) as (a & -> & Ha). by exists a.
  - right. apply parse_args_status in E as [-> | ->]; [by left|by right].
Qed.

(** ** Written command lines *)

Lemma words_launch s a ns0 :
  parser_ok (table s) = true → leads (table s) (lead_of s a) ns0 →
  Forall (known (table s)) (given_args s a) → enough (table s) (given_args s a).*1 = true →
  main_args s (foldl (fun ns kv => <[kv.1 := kv.2]> ns) ns0 (given_args s a)
             ∪ defaults (options (table s))) = Some a →
  launch s (spelling s a) = Runs a.
Proof.
  intros Hok Hl Hk He Ha. unfold launch, command_line, spelling.
  by rewrite (parse_args_words _ Hok _ ns0), Ha.
Qed.

(** Every word gives an option of the table a value of its kind. *)
Ltac known_words :=
  repeat (apply Forall_cons; split;
          [eexists; split; [reflexivity|simpl; first [done|by apply (bool_decide_unpack _); vm_compute]]|]);
  by constructor.

Ltac read_back s :=
  apply (words_launch s _ ∅); [by vm_compute|done|known_words|by vm_compute|by vm_compute].

(** C30. Arguments written down are read back: any record of a script's
    arguments (its floats doubles, its mode one of the choices), each given as
    [--flag=value] with [str] or [repr] of the value, starts [main] with that
    record. *)
Theorem command_lines_read_back :
  Forall (fun s => ∀ a, good s a → launch s (spelling s a) = Runs a) scripts.
Proof.
  repeat constructor; intros a Hg; simpl in a, Hg.
  - destruct a, Hg as (? & ? & ? & ? & ?). read_back sustained.
  - destruct a as [??? [] ???????????? []], Hg as (? & ? & ? & ? & ?); read_back filtered.
  - destruct a as [??? [] ?????????], Hg as (Hr & ? & ? & ? & ?); simpl in Hr; subst; read_back multi_queue.
  - destruct a. read_back parallel.
  - destruct a as [??? [] [] ??]; read_back js.
  - destruct a as [??????? []]; read_back bmq.
  - destruct a as [??? [] [] [] ?]; read_back selective.
  - destruct a as [[] ???? [] [] ?]; read_back group.
  - destruct a as [mode trials]. simpl in Hg.
    apply (words_launch js_consumer _ {[ "mode" := PText mode ]}).
    + by vm_compute.
    + exists mode. split; [done|]. split; [done|]. split; [|done].
      assert (Forall (fun w => startswith "-" w = false) JsConsumer.modes) as Hm by by repeat constructor.
      by apply (proj1 (Forall_forall _ _) Hm).
    + known_words.
    + by vm_compute.
    + by vm_compute.
Qed.

(** C24. Options given in any order, any number of times, each as a flag, after
    an equals sign or as the next word, after the positional argument where
    there is one: with every required one among them [main] runs with the
    value given last for each option and the default for the others; without
    one of them, or with a value that its conversion refuses whatever follows,
    the script exits with status 2. *)
Theorem command_lines_decided :
  Forall (fun s => ∀ lead ns0 gs wss,
    leads (table s) lead ns0 → Forall2 (spells (table s)) gs wss →
    ((∀ o, o ∈ options (table s) → required o = true → o ∈ gs.*1) →
       ∃ a, launch s (lead ++ concat wss) = Runs a ∧ good s a ∧
         main_args s (gives gs ns0 ∪ defaults (options (table s))) = Some a) ∧
    (∀ o, o ∈ options (table s) → required o = true → o ∉ gs.*1 →
       launch s (lead ++ concat wss) = Exits 2) ∧
    (∀ o t rest, o ∈ options (table s) → convert (kind_of o) t = None →
       launch s (lead ++ concat wss ++ (flag o +:+ "=" +:+ t) :: rest) = Exits 2)) scripts.
Proof.
  apply (Forall_impl _ _ _ (proj2 (Forall_and _ _) (conj scripts_ok accepted_gives))).
  intros s [Hok Hs] lead ns0 gs wss Hlead Hgs. unfold launch, command_line. split; [|split].
  - intros Hreq. pose proof (parse_args_reads _ Hok lead ns0 gs wss Hlead Hgs Hreq) as E.
    destruct (Hs _ _ E) as (a & Ha & Hg). exists a. by rewrite E, Ha.
  - intros o Ho Hr Hno. by rewrite (parse_args_missing _ Hok lead ns0 gs wss o).
  - intros o t rest Ho Ht. by rewrite (parse_args_unreadable _ Hok lead ns0 gs wss o t rest).
Qed.

(** ** The properties at work *)

Module CliExample.
Definition a : SustainedBench.args :=
  SustainedBench.Args "db" "SELECT 1" 1 2 2000 2000 200 (of_int 45) (of_int 10) (of_int 15)
    (lit 1 2) fzero "bmq://bmq.test.mem.priority/q" "tcp://localhost:30114".

Example spelled :
  spelling sustained a =
    ["--dsn=db"; "--sql=SELECT 1"; "--producers=1"; "--consumers=2"; "--batch-rows=2000";
     "--consume-batch=2000"; "--consume-timeout-ms=200"; "--duration-secs=45.0";
     "--ramp-up-secs=10.0"; "--drain-tail-secs=15.0"; "--sample-interval-secs=0.5";
     "--producer-rate-limit=0.0"; "--queue-uri=bmq://bmq.test.mem.priority/q";
     "--broker-uri=tcp://localhost:30114"].
Proof. by vm_compute. Qed.

(** The command line behind the run whose output is [Output.sustained_output],
    with two options abbreviated. *)
Example words_of_the_run :
  launch sustained
    ["--dsn"; "db"; "--sql"; "SELECT 1"; "--producers"; "1"; "--consumers"; "1"; "--duration"; "9";
     "--ramp=1"; "--drain-tail-secs"; "0"; "--queue-uri=bmq://bmq.test.mem.priority/q"]
  = Runs SustainedBench.Example.a.
Proof. by vm_compute. Qed.

(** [--sql "SELECT 1" --k-queues=3 --k-queues 4]: the last value counts, and
    the rate is the int default. *)
Definition sql_row : opt := Opt "--sql" KStr true PNone.
Definition queues_row : opt := Opt "--k-queues" KInt true PNone.

Definition given : list (opt * pyval) :=
  [(sql_row, PText "SELECT 1"); (queues_row, PInt 3); (queues_row, PInt 4)].

Definition words : list (list string) :=
  [["--sql"; "SELECT 1"]; ["--k-queues=3"]; ["--k-queues"; "4"]].

Definition four_queues : MultiQueueBench.args :=
  MultiQueueBench.Args "host=/var/run/postgresql dbname=postgres" "SELECT 1" 4 (NInt 42000) 2000
    2000 200 (of_int 30) (of_int 8) (of_int 12) (of_int 2) "bmq://bmq.test.mem.priority/mqbench"
    "tcp://localhost:30114".

Example abbreviated_words :
  launch multi_queue ["--sq"; "SELECT 1"; "--k=4"] = Runs four_queues ∧
  launch multi_queue ["--sql"; "SELECT 1"; "--k-queues"; "-4"; "--consume=1"] = Exits 2 ∧
  launch multi_queue ["-h"] = Exits 0.
Proof. repeat split; by vm_compute. Qed.
End CliExample.

Import CliExample.

Lemma command_lines_read_back_witness : launch sustained (spelling sustained a) = Runs a.
Proof.
  pose proof (proj1 (Forall_forall _ _) command_lines_read_back sustained) as H.
  apply H; [by left|]. repeat split; by vm_compute.
Defined.

Lemma command_lines_decided_witness :
  (∃ a, launch multi_queue (concat words) = Runs a ∧
     MultiQueueBench.k_queues a = 4 ∧ MultiQueueBench.per_queue_rate a = NInt 42000) ∧
  launch multi_queue (concat [["--sql"; "SELECT 1"]]) = Exits 2 ∧
  launch multi_queue (concat words ++ ["--batch-rows=many"; "--help"]) = Exits 2.
Proof.
  pose proof (proj1 (Forall_forall _ _) command_lines_decided multi_queue) as H.
  assert (multi_queue ∈ scripts) as Hin by (right; right; by left).
  assert (Forall2 (spells MultiQueue.cli) given words) as Hw.
  { repeat apply Forall2_cons_2; [..|constructor]; (split; [apply list_elem_of_In; simpl; tauto|split; [done|]]).
    - by apply WApart.
    - by apply (WEquals queues_row).
    - by apply (WApart queues_row). }
  assert (leads MultiQueue.cli [] ∅) as Hl by done.
  destruct (H Hin [] ∅ given words Hl Hw) as (Hruns & _ & Hbad).
  split; [|split].
  - destruct Hruns as (a & Ha & _ & E).
    { intros o Ho%list_elem_of_In Hr. apply list_elem_of_In. simpl in *.
      repeat (destruct Ho as [<-|Ho]; [by auto|]). done. }
    exists a. split; [exact Ha|]. vm_compute in E. injection E as <-. exact (conj eq_refl eq_refl).
  - destruct (H Hin [] ∅ [(sql_row, PText "SELECT 1")] [["--sql"; "SELECT 1"]] Hl) as (_ & Hno & _).
    { constructor; [|constructor]. by inversion Hw. }
    apply (Hno queues_row); [apply list_elem_of_In; simpl; tauto|done|].
    intros Hq%list_elem_of_In. by destruct Hq.
  - apply (Hbad (Opt "--batch-rows" KInt false (PInt 2000)) "many" ["--help"]); [|by vm_compute].
    apply list_elem_of_In. simpl. tauto.
Defined.
