(* ===== verification/Effects.v ===== *)
(** * Computations over a signature of calls

    The C++ programs (pg_blazingmq.cpp, bench/mq_bench_driver.cpp) make calls
    of their own into their libraries.  A [comp] is a tree of such calls whose
    answers are unconstrained; [takes] says which sequences of answered calls
    it can go through, and [ensures] is the weakest precondition of an
    assertion on the log of everything called so far. *)
From S2P Require Import Prelude.

(** What can be called, and the type of what it answers. *)
Record signature := Signature {
  call : Type;
  answer : call → Type;
}.

Section comp.
Context {S : signature}.

Inductive comp (A : Type) : Type :=
| Pure (a : A)
| NoFuel
| Call (c : call S) (k : answer S c → comp A).
#[global] Arguments Pure {A} a.
#[global] Arguments NoFuel {A}.
#[global] Arguments Call {A} c k.

Fixpoint cbind {A B} (m : comp A) (f : A → comp B) : comp B :=
  match m with
  | Pure a => f a
  | NoFuel => NoFuel
  | Call c k => Call c (fun x => cbind (k x) f)
  end.

(** One call. *)
Definition ask (c : call S) : comp (answer S c) := Call c Pure.

(** A call that has been answered, and a log of them. *)
Record answered := At { at_call : call S; at_answer : answer S at_call }.

Abbreviation log := (list answered).

(** The calls alone. *)
Definition made (t : log) : list (call S) := at_call <$> t.

Lemma made_app t1 t2 : made (t1 ++ t2) = made t1 ++ made t2.
Proof. apply fmap_app. Qed.

Definition never (c : call S) (t : log) : Prop := c ∉ made t.

Lemma never_app c t1 t2 : never c (t1 ++ t2) ↔ never c t1 ∧ never c t2.
Proof. unfold never. by rewrite made_app, not_elem_of_app. Qed.

Lemma never_one c e : never c [e] ↔ c ≠ at_call e.
Proof. unfold never, made. simpl. by rewrite list_elem_of_singleton. Qed.

Lemma never_forall c (P : call S → bool) t :
  P c = false → Forall (fun e => P (at_call e) = true) t → never c t.
Proof.
  intros Hc H ([c' x] & -> & Hin)%list_elem_of_fmap. rewrite Forall_forall in H.
  specialize (H _ Hin). simpl in *. congruence.
Qed.

(** [m] can make the calls of [t] and end with [r] ([None]: out of fuel). *)
Fixpoint takes {A} (m : comp A) (t : log) (r : option A) : Prop :=
  match m with
  | Pure a => t = [] ∧ r = Some a
  | NoFuel => t = [] ∧ r = None
  | Call c k => ∃ x t', t = At c x :: t' ∧ takes (k x) t' r
  end.

(** Started after [h], [m] ends with [Φ] of the whole log. *)
Fixpoint ensures {A} (m : comp A) (h : log) (Φ : log → option A → Prop) : Prop :=
  match m with
  | Pure a => Φ h (Some a)
  | NoFuel => Φ h None
  | Call c k => ∀ x, ensures (k x) (h ++ [At c x]) Φ
  end.

Lemma ensures_takes {A} (m : comp A) h (Φ : log → option A → Prop) :
  ensures m h Φ ↔ ∀ t r, takes m t r → Φ (h ++ t) r.
Proof.
  revert h. induction m as [a| |c k IH]; intros h; simpl.
  - split; [intros H t r [-> ->]; by rewrite app_nil_r|]. intros H. by rewrite <-(app_nil_r h); apply H.
  - split; [intros H t r [-> ->]; by rewrite app_nil_r|]. intros H. by rewrite <-(app_nil_r h); apply H.
  - setoid_rewrite IH. split.
    + intros H t r (x & t' & -> & Ht). replace (h ++ At c x :: t') with ((h ++ [At c x]) ++ t')
        by by rewrite <-app_assoc. by apply H.
    + intros H x t r Ht. rewrite <-app_assoc. apply H. by exists x, t.
Qed.

Lemma ensures_mono {A} (m : comp A) h (Φ Ψ : log → option A → Prop) :
  (∀ h' r, Φ h' r → Ψ h' r) → ensures m h Φ → ensures m h Ψ.
Proof. rewrite !ensures_takes. auto. Qed.

Lemma ensures_bind {A B} (m : comp A) (f : A → comp B) h (Φ : log → option B → Prop) :
  ensures (cbind m f) h Φ ↔
  ensures m h (fun h' r => match r with Some a => ensures (f a) h' Φ | None => Φ h' None end).
Proof. revert h. induction m as [a| |c k IH]; intros h; simpl; [done..|]. by setoid_rewrite IH. Qed.

Lemma takes_bind {A B} (m : comp A) (f : A → comp B) t r :
  takes (cbind m f) t r ↔
  (∃ a t1 t2, t = t1 ++ t2 ∧ takes m t1 (Some a) ∧ takes (f a) t2 r) ∨ (takes m t None ∧ r = None).
Proof.
  revert t. induction m as [a| |c k IH]; intros t; simpl.
  - split; [intros H; left; by exists a, [], t|naive_solver].
  - naive_solver.
  - setoid_rewrite IH. split.
    + intros (x & t' & -> & [(a & t1 & t2 & -> & H1 & H2)|[H ->]]).
      * left. exists a, (At c x :: t1), t2. naive_solver.
      * right. naive_solver.
    + intros [(a & t1 & t2 & -> & (x & t' & -> & H1) & H2)|[(x & t' & -> & H) ->]].
      * exists x, (t' ++ t2). split; [done|]. left. by exists a, t', t2.
      * exists x, t'. auto.
Qed.

(** Running against a world that answers from what has been called so far. *)
Fixpoint play {A} (w : log → ∀ c : call S, answer S c) (m : comp A) (h : log) : log * option A :=
  match m with
  | Pure a => ([], Some a)
  | NoFuel => ([], None)
  | Call c k =>
      let e := At c (w h c) in
      let '(t, r) := play w (k (w h c)) (h ++ [e]) in
      (e :: t, r)
  end.

Lemma play_takes {A} w (m : comp A) h : takes m (play w m h).1 (play w m h).2.
Proof.
  revert h. induction m as [a| |c k IH]; intros h; simpl; [done..|].
  specialize (IH (w h c) (h ++ [At c (w h c)])).
  destruct (play w (k (w h c)) (h ++ [At c (w h c)])) as [t r]. by exists (w h c), t.
Qed.

Lemma takes_play {A} w (m : comp A) t r : play w m [] = (t, r) → takes m t r.
Proof. intros H. pose proof (play_takes w m []) as Ht. by rewrite H in Ht. Qed.
End comp.

#[global] Arguments comp S A : clear implicits.
#[global] Arguments answered S : clear implicits.

Declare Scope comp_scope.
Delimit Scope comp_scope with comp.
Notation "x <- m ;; k" := (cbind m (fun x => k))
  (at level 100, m at next level, right associativity) : comp_scope.
Notation "m ;; k" := (cbind m (fun _ => k))
  (at level 100, right associativity) : comp_scope.
