(* ===== verification/Backend.v ===== *)
(** * pg_blazingmq.cpp: the backend's session and its queue handles

    The calls the extension makes into the BlazingMQ client library and into
    PostgreSQL, C++ exceptions and [ereport(ERROR)] as two different ways to
    fail, and the per-process state: one session, started on first use, and
    one handle per queue URI. *)
From Stdlib Require Import Ascii.
From S2P Require Import Prelude PyFloat PyStr Effects.

(** ** Calls *)

(** A received message, known to the broker by its GUID. *)
Record message := Message {
  guid : Z;
  data : string;
}.

#[export] Instance message_eq_decision : EqDecision message.
Proof. solve_decision. Defined.

Inductive property :=
| PropBool (b : bool)
| PropShort (z : Z)
| PropInt32 (z : Z)
| PropInt64 (z : Z)
| PropString (s : string).

(** A handle: a [bmqa::QueueId] knows the queue it was opened for. *)
Record queue_handle := QueueHandle {
  q_uri : string;
  q_num : Z;
}.

(** What [session.nextEvent] returns: a session event, a message event that
    is not of type PUSH, or pushed messages. *)
Inductive bmq_event :=
| EvOther
| EvNotPush
| EvPush (ms : list message).

(** [bsls::TimeInterval] of seconds, or of seconds and nanoseconds. *)
Inductive interval :=
| Seconds (x : float)
| Parts (secs nsecs : Z).

Inductive queue_flag := READ | WRITE.

Inductive level := WARNING | LOG | FATAL.

(** [WaitForBackgroundWorkerStartup] *)
Inductive startup :=
| Started (pid : Z)
| NotStarted (status : Z).

(** A subscriber's [SubscriberConfig], its text fields as the bytes of the
    arrays. *)
Record config := Config {
  cfg_dbid : Z;
  cfg_roleid : Z;
  cfg_callback : Z;
  cfg_queue_uri : string;
  cfg_subscription_expr : string;
}.

Inductive pg_call :=
(* bmqa::Session *)
| SessionStart (broker_uri : string) (timeout : interval)
| SessionStop
| AddSubscription (expr : string)
| OpenQueueSync (uri : string) (flags : list queue_flag) (expr : string)
| ConfigureQueueSync (queue : queue_handle) (expr : string)
| NextEvent (timeout : interval)
| ConfirmMessage (m : message)
| AddMessageConfirmation (m : message)
| ConfirmMessages (ms : list message)
| SetProperty (name : string) (v : property)
| PackMessage (queue : queue_handle) (payload : string) (props : gmap string property)
| Post (queue : queue_handle) (payload : string) (props : gmap string property)
(* std::chrono::steady_clock, in nanoseconds *)
| SteadyNow
(* PostgreSQL *)
| OnProcExit
| LookupTupdesc
| ReleaseTupdesc
| Ereport (l : level) (msg : string)
| LookupProc (oid : Z)
| DsmCreate (c : config)
| DsmPin
| DsmAttach
| DsmDetach
| ReadReady
| WriteReady
| RegisterWorker
| WaitStartup
| Usleep (us : Z)
| QueryActivity (pid : Z) (backend_type : string)
| KillTerm (pid : Z)
| InitConnection (dbid roleid : Z)
| ShutdownPending
| CheckForInterrupts
| StartTransaction
| SpiConnect
| PushSnapshot
| CallFunction (fn : Z) (payload : string)
| PopSnapshot
| SpiFinish
| CommitTransaction
| AbortTransaction
| ProcExit (code : Z).

(** Return codes are numbers; a status that is not success comes as the text
    it is printed as; an error raised inside PostgreSQL as its message. *)
Definition pg_answer (c : pg_call) : Type :=
  match c with
  | SessionStart _ _ | ConfirmMessage _ | AddMessageConfirmation _ | SetProperty _ _
  | PackMessage _ _ _ | Post _ _ _ | SteadyNow | ReadReady => Z
  (* the return code, and whether the builder was reset *)
  | ConfirmMessages _ => Z * bool
  | AddSubscription _ | ConfigureQueueSync _ _ => option string
  | OpenQueueSync _ _ _ => Z + string
  | NextEvent _ => bmq_event
  (* the argument types of the function, when it exists *)
  | LookupProc _ => option (list Z)
  | DsmAttach => option config
  | RegisterWorker | QueryActivity _ _ | ShutdownPending => bool
  | WaitStartup => startup
  | CallFunction _ _ | CommitTransaction | CheckForInterrupts | KillTerm _ => option string
  | _ => unit
  end.

Definition PG : signature := Signature pg_call pg_answer.

Abbreviation pglog := (list (answered PG)).

(** ** Failing *)

(** The SQLSTATEs the extension uses: [ERRCODE_CONNECTION_EXCEPTION] where it
    says so, and [ereport]'s default. *)
Inductive sqlstate := CONNECTION_EXCEPTION | INTERNAL_ERROR.

Record pg_error := PgError {
  errcode : sqlstate;
  errmsg : string;
  errdetail : option string;
}.

(** [throw std::runtime_error(what)] unwinds to the C++ handler;
    [ereport(ERROR)] jumps over it. *)
Inductive outcome (A : Type) :=
| Value (a : A)
| Throws (what : string)
| Errors (e : pg_error).
Arguments Value {A} a.
Arguments Throws {A} what.
Arguments Errors {A} e.

(** ** The process's state *)

Record queue_entry := QueueEntry {
  queue_id : queue_handle;
  subscription_expr : string;   (* empty if opened without one *)
}.

Record backend := Backend {
  broker_uri : string;                              (* g_broker_uri *)
  session : bool;                                   (* g_session *)
  queues : option (gmap string queue_entry);        (* g_queues *)
  exit_hook : bool;                                 (* g_exit_hook_registered *)
}.

(** A process that has just loaded the extension. *)
Definition fresh (uri : string) : backend := Backend uri false None false.

(** The GUC's boot value, from [_PG_init]. *)
Definition default_broker_uri : string := "tcp://localhost:30114".

Definition cxx (A : Type) : Type := backend → comp PG (backend * outcome A).

Definition returns {A} (a : A) : cxx A := fun st => Pure (st, Value a).
Definition throws {A} (what : string) : cxx A := fun st => Pure (st, Throws what).
Definition errors {A} (e : pg_error) : cxx A := fun st => Pure (st, Errors e).
Definition out_of_fuel {A} : cxx A := fun _ => NoFuel.

Definition andthen {A B} (m : cxx A) (f : A → cxx B) : cxx B := fun st =>
  cbind (m st) (fun r =>
    match r with
    | (st', Value a) => f a st'
    | (st', Throws w) => Pure (st', Throws w)
    | (st', Errors e) => Pure (st', Errors e)
    end).

Definition does (c : pg_call) : cxx (pg_answer c) := fun st => Call (S := PG) c (fun x => Pure (st, Value x)).

Definition gets {A} (g : backend → A) : cxx A := fun st => Pure (st, Value (g st)).
Definition modifies (g : backend → backend) : cxx unit := fun st => Pure (g st, Value ()).

(** [try { m } catch (const std::exception& ex) { h(ex.what()) }] *)
Definition catches {A} (m : cxx A) (h : string → cxx A) : cxx A := fun st =>
  cbind (m st) (fun r =>
    match r with
    | (st', Throws w) => h w st'
    | _ => Pure r
    end).

Declare Scope cxx_scope.
Delimit Scope cxx_scope with cxx.
Notation "x <- m ;; k" := (andthen m (fun x => k))
  (at level 100, m at next level, right associativity) : cxx_scope.
Notation "m ;; k" := (andthen m (fun _ => k))
  (at level 100, right associativity) : cxx_scope.
#[local] Open Scope cxx_scope.

(** [ereport(ERROR, (errmsg(msg)))] *)
Definition ereport_error {A} (msg : string) : cxx A := errors (PgError INTERNAL_ERROR msg None).

Definition warn (msg : string) : cxx unit := does (Ereport WARNING msg).

Definition dquote : string := String (ascii_of_nat 34) EmptyString.

(** [pg_blazingmq_link_check]: a session is built from the options, not
    started; their number of threads is the library's. *)
Definition pg_blazingmq_link_check (numProcessingThreads : Z) (broker_uri : string) : string :=
  "pg_blazingmq link OK: brokerUri=" +:+ broker_uri +:+ " numProcessingThreads=" +:+ py_str numProcessingThreads.

(** ** The session *)

(** [pg_blazingmq_exit_hook] *)
Definition pg_blazingmq_exit_hook : cxx unit :=
  modifies (fun st => Backend (broker_uri st) (session st) None (exit_hook st));;
  started <- gets session;;
  if started : bool then
    does SessionStop;;
    modifies (fun st => Backend (broker_uri st) false (queues st) (exit_hook st))
  else returns ().

Definition get_session : cxx unit :=
  started <- gets session;;
  if started : bool then returns () else
  uri <- gets broker_uri;;
  rc <- does (SessionStart uri (Parts 10 0));;
  if negb (rc =? 0) then
    throws ("failed to start BlazingMQ session against '" +:+ uri +:+ "' (rc=" +:+ py_str rc +:+ ")")
  else
    modifies (fun st => Backend (broker_uri st) true (queues st) (exit_hook st));;
    registered <- gets exit_hook;;
    if registered : bool then returns () else
      does OnProcExit;;
      modifies (fun st => Backend (broker_uri st) (session st) (queues st) true).

(** [build_queue_options]: the options carry the expression. *)
Definition build_queue_options (expr : string) : cxx string :=
  if bool_decide (expr = EmptyString) then returns expr else
  err <- does (AddSubscription expr);;
  match err with
  | Some e => throws ("invalid subscription_expr '" +:+ expr +:+ "': " +:+ e)
  | None => returns expr
  end.

(** ** The queue handles *)

Definition handles (st : backend) : gmap string queue_entry := default ∅ (queues st).

Definition cache_queue (uri : string) (e : queue_entry) : cxx unit :=
  modifies (fun st => Backend (broker_uri st) (session st) (Some (<[uri := e]> (handles st))) (exit_hook st)).

(** A cached handle, reconfigured when it has another expression. *)
Definition reuse_queue (uri expr : string) (e : queue_entry) : cxx queue_handle :=
  if negb (bool_decide (expr = EmptyString)) && negb (bool_decide (subscription_expr e = expr)) then
    options <- build_queue_options expr;;
    status <- does (ConfigureQueueSync (queue_id e) options);;
    match status with
    | Some text =>
        throws ("failed to reconfigure BlazingMQ queue '" +:+ uri +:+ "' with subscription_expr '"
                +:+ expr +:+ "': " +:+ text)
    | None => cache_queue uri (QueueEntry (queue_id e) expr);; returns (queue_id e)
    end
  else returns (queue_id e).

Definition open_queue (uri expr : string) : cxx queue_handle :=
  options <- build_queue_options expr;;
  status <- does (OpenQueueSync uri [READ; WRITE] options);;
  match status with
  | inr text => throws ("failed to open BlazingMQ queue '" +:+ uri +:+ "': " +:+ text)
  | inl n => let q := QueueHandle uri n in cache_queue uri (QueueEntry q expr);; returns q
  end.

Definition get_queue (uri expr : string) : cxx queue_handle :=
  modifies (fun st => Backend (broker_uri st) (session st) (Some (handles st)) (exit_hook st));;
  cached <- gets handles;;
  match cached !! uri with
  | Some e => reuse_queue uri expr e
  | None => open_queue uri expr
  end.

(** ** Proof rules *)

(** [m], from state [st] and after [h], ends (if it does not run out of fuel)
    with [Φ] of the new state, the outcome and the whole log. *)
Definition leads {A} (m : cxx A) (st : backend) (h : pglog)
    (Φ : backend → outcome A → pglog → Prop) : Prop :=
  ensures (m st) h (fun h' r => match r with Some (st', o) => Φ st' o h' | None => True end).

Lemma leads_takes {A} (m : cxx A) st h Φ t st' o :
  leads m st h Φ → takes (m st) t (Some (st', o)) → Φ st' o (h ++ t).
Proof. intros H Ht. exact (proj1 (ensures_takes _ _ _) H t _ Ht). Qed.

Lemma leads_mono {A} (m : cxx A) st h (Φ Ψ : backend → outcome A → pglog → Prop) :
  leads m st h Φ → (∀ st' o h', Φ st' o h' → Ψ st' o h') → leads m st h Ψ.
Proof. intros H Hi. revert H. apply ensures_mono. intros h' [[st' o]|]; auto. Qed.

Lemma leads_andthen {A B} (m : cxx A) (f : A → cxx B) st h (Φ : backend → outcome B → pglog → Prop) :
  leads m st h (fun st' o h' =>
    match o with
    | Value a => leads (f a) st' h' Φ
    | Throws w => Φ st' (Throws w) h'
    | Errors e => Φ st' (Errors e) h'
    end) →
  leads (andthen m f) st h Φ.
Proof.
  intros H. apply ensures_bind. revert H. apply ensures_mono. by intros h' [[st' []]|].
Qed.

Lemma leads_catches {A} (m : cxx A) f st h (Φ : backend → outcome A → pglog → Prop) :
  leads m st h (fun st' o h' => match o with Throws w => leads (f w) st' h' Φ | _ => Φ st' o h' end) →
  leads (catches m f) st h Φ.
Proof.
  intros H. apply ensures_bind. revert H. apply ensures_mono. by intros h' [[st' []]|].
Qed.

Lemma leads_does c st h (Φ : backend → outcome (pg_answer c) → pglog → Prop) :
  (∀ x, Φ st (Value x) (h ++ [At (S := PG) c x])) → leads (does c) st h Φ.
Proof. intros H. exact H. Qed.

Lemma leads_outcome {A} (o : outcome A) st h (Φ : backend → outcome A → pglog → Prop) :
  Φ st o h → leads (fun st => Pure (st, o)) st h Φ.
Proof. done. Qed.

Lemma leads_gets {A} (g : backend → A) st h (Φ : backend → outcome A → pglog → Prop) :
  Φ st (Value (g st)) h → leads (gets g) st h Φ.
Proof. done. Qed.

Lemma leads_modifies g st h (Φ : backend → outcome unit → pglog → Prop) :
  Φ (g st) (Value ()) h → leads (modifies g) st h Φ.
Proof. done. Qed.

Lemma takes_does {A} c (f : pg_answer c → cxx A) st t r :
  takes (andthen (does c) f st) t r → ∃ x t', t = At (S := PG) c x :: t' ∧ takes (f x st) t' r.
Proof. done. Qed.

(** Past a read or an update of the state, or the end; past a call. *)
Ltac lead :=
  lazymatch goal with
  | |- leads (andthen (gets _) _) _ _ _ => apply leads_andthen, leads_gets
  | |- leads (andthen (modifies _) _) _ _ _ => apply leads_andthen, leads_modifies
  | |- leads (andthen (returns _) _) _ _ _ => apply leads_andthen, leads_outcome
  | |- leads (gets _) _ _ _ => apply leads_gets
  | |- leads (modifies _) _ _ _ => apply leads_modifies
  | |- leads (returns _) _ _ _ => apply leads_outcome
  | |- leads (throws _) _ _ _ => apply leads_outcome
  | |- leads (errors _) _ _ _ => apply leads_outcome
  | |- leads (ereport_error _) _ _ _ => apply leads_outcome
  end; cbv beta iota.

Ltac lead_call x :=
  lazymatch goal with
  | |- leads (andthen _ _) _ _ _ => apply leads_andthen, leads_does
  | |- leads _ _ _ _ => apply leads_does
  end; intros x; cbv beta iota.

(** ** A process's life *)

(** A statement that fails is rolled back; the process goes on. *)
Definition settles {A} (m : cxx A) : cxx unit := fun st =>
  cbind (m st) (fun r => Pure (r.1, Value ())).

Fixpoint in_turn (ms : list (cxx unit)) : cxx unit :=
  match ms with
  | [] => returns ()
  | m :: ms' => settles m;; in_turn ms'
  end.

(** ** What a computation may do to the state and the log *)

(** However [m] ends, [R] relates the state and log before and after. *)
Definition within (R : backend * pglog → backend * pglog → Prop) {A} (m : cxx A) : Prop :=
  ∀ st h, leads m st h (fun st' _ h' => R (st, h) (st', h')).

Section within.
Context (R : backend * pglog → backend * pglog → Prop) `{HR : !PreOrder R}.

Lemma within_pure {A} (o : outcome A) : within R (fun st => Pure (st, o)).
Proof using HR. intros st h. by apply leads_outcome. Qed.

Lemma within_gets {A} (g : backend → A) : within R (gets g).
Proof using HR. intros st h. by apply leads_gets. Qed.

Lemma within_no_fuel {A} : within R (A := A) out_of_fuel.
Proof using. by intros st h. Qed.

Lemma within_andthen {A B} (m : cxx A) (f : A → cxx B) :
  within R m → (∀ a, within R (f a)) → within R (andthen m f).
Proof using HR.
  intros Hm Hf st h. apply leads_andthen. apply (leads_mono _ _ _ _ _ (Hm st h)).
  intros st' [a|w|e] h' H'; [|done..]. apply (leads_mono _ _ _ _ _ (Hf a st' h')).
  intros st2 o h2 H2. by transitivity (st', h').
Qed.

Lemma within_catches {A} (m : cxx A) f :
  within R m → (∀ w, within R (f w)) → within R (catches m f).
Proof using HR.
  intros Hm Hf st h. apply leads_catches. apply (leads_mono _ _ _ _ _ (Hm st h)).
  intros st' [a|w|e] h' H'; [done| |done]. apply (leads_mono _ _ _ _ _ (Hf w st' h')).
  intros st2 o h2 H2. by transitivity (st', h').
Qed.

Lemma within_settles {A} (m : cxx A) : within R m → within R (settles m).
Proof using.
  intros Hm st h. apply ensures_bind. pose proof (Hm st h) as Hk. revert Hk.
  apply ensures_mono. by intros h' [[st' o]|].
Qed.

Lemma within_in_turn ms : Forall (within R) ms → within R (in_turn ms).
Proof using HR.
  induction 1 as [|m ms Hm _ IH]; [apply within_pure|].
  apply within_andthen; [by apply within_settles|done].
Qed.
End within.

Ltac seq_in := apply within_andthen; [exact _| |].
Ltac catch_in := apply within_catches; [exact _| |].
Ltac pure_in := apply within_pure; exact _.

Create HintDb within discriminated.
#[export] Hint Resolve within_no_fuel : within.
#[export] Hint Extern 1 (within _ (gets _)) => apply within_gets; exact _ : within.
#[export] Hint Extern 2 (within _ (andthen _ _)) => seq_in : within.
#[export] Hint Extern 2 (within _ (catches _ _)) => catch_in : within.
#[export] Hint Extern 1 (within _ (returns _)) => apply within_pure; exact _ : within.
#[export] Hint Extern 1 (within _ (throws _)) => apply within_pure; exact _ : within.
#[export] Hint Extern 1 (within _ (errors _)) => apply within_pure; exact _ : within.
#[export] Hint Extern 1 (within _ (ereport_error _)) => apply within_pure; exact _ : within.

(** Both of two facts about the same computation. *)
Lemma leads_both {A} (m : cxx A) st h (Φ Ψ : backend → outcome A → pglog → Prop) :
  leads m st h Φ → leads m st h Ψ → leads m st h (fun st' o h' => Φ st' o h' ∧ Ψ st' o h').
Proof.
  unfold leads. rewrite !ensures_takes. intros H1 H2 t r Ht. specialize (H1 t r Ht).
  specialize (H2 t r Ht). by destruct r as [[]|].
Qed.

(** Only calls that satisfy [P] are made. *)
Definition calls_in (P : pg_call → bool) (a b : backend * pglog) : Prop :=
  ∃ t, b.2 = a.2 ++ t ∧ Forall (fun e : answered PG => P (at_call e) = true) t.

#[export] Instance calls_in_preorder P : PreOrder (calls_in P).
Proof.
  split.
  - intros a. exists []. by rewrite app_nil_r.
  - intros a b c (t1 & E1 & H1) (t2 & E2 & H2). exists (t1 ++ t2). rewrite E2, E1, app_assoc.
    split; [done|]. by apply Forall_app.
Qed.

Abbreviation only P m := (within (calls_in P) m).

Lemma only_does P c : P c = true → only P (does c).
Proof.
  intros Hc st h. apply leads_does. intros x. exists [At (S := PG) c x]. by repeat constructor.
Qed.

Lemma only_modifies P g : only P (modifies g).
Proof. intros st h. apply leads_modifies. exists []. by rewrite app_nil_r. Qed.

#[export] Hint Resolve only_modifies : within.
#[export] Hint Extern 1 (only _ (does _)) => apply only_does; reflexivity : within.
#[export] Hint Extern 1 (only _ (warn _)) => apply only_does; reflexivity : within.

(** ** What the broker's side knows

    The expression of every queue the session has open, from the calls that
    opened and configured it. *)
Definition filter_step (f : gmap string string) (e : answered PG) : gmap string string :=
  match e with
  | At (OpenQueueSync uri _ expr) (inl _) => <[uri := expr]> f
  | At (ConfigureQueueSync q expr) None => <[q_uri q := expr]> f
  | At SessionStop _ => ∅
  | _ => f
  end.

Definition filters (h : pglog) : gmap string string := foldl filter_step ∅ h.

Lemma filters_snoc h e : filters (h ++ [e]) = filter_step (filters h) e.
Proof. unfold filters. by rewrite foldl_app. Qed.

(** A queue is never opened while the session has it open already. *)
Definition never_reopened (h : pglog) : Prop :=
  ∀ h1 uri flags expr x h2,
    h = h1 ++ At (S := PG) (OpenQueueSync uri flags expr) x :: h2 → filters h1 !! uri = None.

Lemma never_reopened_snoc h c x :
  never_reopened h →
  (∀ uri flags expr, c = OpenQueueSync uri flags expr → filters h !! uri = None) →
  never_reopened (h ++ [At (S := PG) c x]).
Proof.
  intros H Hc h1 uri flags expr y h2 E.
  destruct h2 as [|e h2 _] using rev_ind.
  - apply app_inj_tail in E as [-> E]. eapply Hc. by injection E.
  - rewrite app_comm_cons, app_assoc in E. apply app_inj_tail in E as [-> _]. by eapply H.
Qed.

(** The process's cache agrees with what the calls have done. *)
Record tracked (st : backend) (h : pglog) : Prop := {
  tracked_filters : subscription_expr <$> handles st = filters h;
  tracked_uri : ∀ uri e, handles st !! uri = Some e → q_uri (queue_id e) = uri;
  tracked_once : never_reopened h;
  tracked_session : session st = false → handles st = ∅;
}.

Lemma tracked_fresh uri : tracked (fresh uri) [].
Proof. split; [done|done| |done]. by intros [] ?. Qed.

(** Calls that do not concern the queues. *)
Definition unrelated (c : pg_call) : bool :=
  match c with OpenQueueSync _ _ _ | ConfigureQueueSync _ _ | SessionStop => false | _ => true end.

Lemma tracked_unrelated st h c x :
  unrelated c = true → tracked st h → tracked st (h ++ [At (S := PG) c x]).
Proof.
  intros Hc [Hf Hu Ho Hs]. split; [|done| |done].
  - rewrite filters_snoc, Hf. by destruct c.
  - apply never_reopened_snoc; [done|]. intros uri flags expr ->. done.
Qed.

(** A computation that keeps them in agreement, however it ends. *)
Definition agreement (a b : backend * pglog) : Prop := tracked a.1 a.2 → tracked b.1 b.2.

#[export] Instance agreement_preorder : PreOrder agreement.
Proof. unfold agreement. split; [by intros a|]. intros a b c. auto. Qed.

Abbreviation keeps m := (within agreement m).

Lemma keeps_intro {A} (m : cxx A) :
  (∀ st h, tracked st h → leads m st h (fun st' _ h' => tracked st' h')) → keeps m.
Proof.
  intros H st h. apply ensures_takes. intros t [[st' o]|] Ht; [|done].
  intros Htr. by apply (leads_takes _ _ _ _ _ _ _ (H st h Htr) Ht).
Qed.

Lemma keeps_elim {A} (m : cxx A) st h :
  keeps m → tracked st h → leads m st h (fun st' _ h' => tracked st' h').
Proof. intros H Htr. apply (leads_mono _ _ _ _ _ (H st h)). auto. Qed.

Lemma keeps_does c : unrelated c = true → keeps (does c).
Proof. intros Hc. apply keeps_intro. intros st h H x. by apply tracked_unrelated. Qed.

#[export] Hint Extern 1 (keeps (does _)) => apply keeps_does; reflexivity : within.
#[export] Hint Extern 1 (keeps (warn _)) => apply keeps_does; reflexivity : within.

Lemma keeps_same_queues (g : backend → backend) :
  (∀ st, handles (g st) = handles st ∧ (session (g st) = false → session st = false)) → keeps (modifies g).
Proof.
  intros Hg. apply keeps_intro. intros st h [Hf Hu Ho Hs]. destruct (Hg st) as [Hh Hses]. simpl. split; rewrite ?Hh; auto.
Qed.

Lemma keeps_get_session : keeps get_session.
Proof.
  unfold get_session. seq_in; [auto with within|]. intros []; [auto with within|].
  seq_in; [auto with within|]. intros uri.
  seq_in; [auto with within|]. intros rc. destruct (negb _); [auto with within|].
  seq_in; [by apply keeps_same_queues|]. intros _.
  seq_in; [auto with within|]. intros []; [auto with within|].
  seq_in; [auto with within|]. intros _. by apply keeps_same_queues.
Qed.

Lemma keeps_build_queue_options expr : keeps (build_queue_options expr).
Proof.
  unfold build_queue_options. destruct (bool_decide _); [auto with within|].
  seq_in; [auto with within|]. intros []; auto with within.
Qed.

Lemma leads_get_session st h :
  tracked st h →
  leads get_session st h (fun st' o h' => tracked st' h' ∧ filters h' = filters h ∧ handles st' = handles st ∧
    match o with Value _ => session st' = true | Throws _ => session st' = session st | Errors _ => False end).
Proof.
  intros H. unfold get_session. lead. destruct (session st) eqn:Es; [by lead|].
  lead. lead_call x. pose proof (tracked_unrelated _ _ (SessionStart (broker_uri st) (Parts 10 0)) x eq_refl H) as H1.
  assert (filters (h ++ [At (S := PG) (SessionStart (broker_uri st) (Parts 10 0)) x]) = filters h) as Hf
    by apply filters_snoc.
  destruct (negb (x =? 0)); [by lead|]. lead.
  set (st1 := Backend _ _ _ _). assert (tracked st1 (h ++ [At (S := PG) (SessionStart (broker_uri st) (Parts 10 0)) x])) as H2.
  { destruct H1 as [Ha Hb Hc Hd]. by split. }
  lead. destruct (exit_hook st1); [by lead|]. lead_call x0. lead.
  pose proof (tracked_unrelated _ _ OnProcExit x0 eq_refl H2) as H3.
  split; [|split; [|done]].
  - by destruct H3.
  - rewrite filters_snoc. exact Hf.
Qed.

(** A queue's entry once it has been opened or configured with [expr]. *)
Lemma tracked_cached st h uri n expr c x :
  tracked st h → session st = true →
  (c = OpenQueueSync uri [READ; WRITE] expr ∧ handles st !! uri = None ∧
   filter_step (filters h) (At (S := PG) c x) = <[uri := expr]> (filters h) ∨
   c = ConfigureQueueSync (QueueHandle uri n) expr ∧
   filter_step (filters h) (At (S := PG) c x) = <[uri := expr]> (filters h)) →
  tracked (Backend (broker_uri st) (session st)
             (Some (<[uri := QueueEntry (QueueHandle uri n) expr]> (handles st))) (exit_hook st))
    (h ++ [At (S := PG) c x]).
Proof.
  intros [Hf Hu Ho Hs] Hses Hc. split.
  - change (handles (Backend _ _ (Some ?m) _)) with m. rewrite filters_snoc, fmap_insert, Hf. by destruct Hc as [(-> & _ & ->)|(-> & ->)].
  - change (handles (Backend _ _ (Some ?m) _)) with m. intros uri' e.
    destruct (decide (uri = uri')) as [<-|Hne].
    + rewrite lookup_insert_eq. by intros [= <-].
    + rewrite lookup_insert_ne by done. apply Hu.
  - apply never_reopened_snoc; [done|]. intros uri' flags expr' E. rewrite <-Hf, lookup_fmap.
    destruct Hc as [(-> & Hnone & _)|(-> & _)]; [|done]. injection E as <- _ _. by rewrite Hnone.
  - simpl. congruence.
Qed.

Lemma leads_build expr st h :
  tracked st h →
  leads (build_queue_options expr) st h (fun st' o h' =>
    st' = st ∧ tracked st h' ∧ filters h' = filters h ∧
    match o with Value x => x = expr | Throws _ => True | Errors _ => False end).
Proof.
  intros H. unfold build_queue_options. destruct (bool_decide _); [done|].
  apply leads_andthen, leads_does. intros x.
  pose proof (tracked_unrelated st h (AddSubscription expr) x eq_refl H).
  pose proof (filters_snoc h (At (S := PG) (AddSubscription expr) x)). by destruct x.
Qed.

(** What a handle is good for: it is the queue's own, and the filter that
    [expr] asks for is in force, or the one from before when none was asked
    for. *)
Definition serves (uri expr : string) (before after : gmap string string) (st : backend)
    (q : queue_handle) : Prop :=
  q_uri q = uri ∧ ∃ e, handles st !! uri = Some (QueueEntry q e) ∧ after !! uri = Some e ∧
    (e = expr ∨ expr = EmptyString ∧ before !! uri = Some e).

Lemma serves_cached uri expr n before f m b s x :
  serves uri expr before (<[uri := expr]> f)
    (Backend b s (Some (<[uri := QueueEntry (QueueHandle uri n) expr]> m)) x) (QueueHandle uri n).
Proof.
  split; [done|]. exists expr. change (handles (Backend _ _ (Some ?m) _)) with m.
  rewrite !lookup_insert_eq. auto.
Qed.

Lemma leads_reuse_queue uri expr e st h :
  tracked st h → session st = true → handles st !! uri = Some e →
  leads (reuse_queue uri expr e) st h (fun st' o h' => tracked st' h' ∧ session st' = true ∧
    match o with
    | Value q => serves uri expr (filters h) (filters h') st' q
    | Throws _ => handles st' = handles st
    | Errors _ => False
    end).
Proof.
  intros H Hses He. pose proof (tracked_uri _ _ H _ _ He) as Hq.
  assert (filters h !! uri = Some (subscription_expr e)) as Hfe
    by (rewrite <-(tracked_filters _ _ H), lookup_fmap, He; done).
  unfold reuse_queue. destruct (bool_decide_reflect (expr = EmptyString)) as [->|Hne]; simpl.
  { split; [done|]. split; [done|]. split; [done|]. exists (subscription_expr e).
    split; [rewrite He; by destruct e|]. auto. }
  destruct (bool_decide_reflect (subscription_expr e = expr)) as [<-|Hdiff]; simpl.
  { split; [done|]. split; [done|]. split; [done|]. exists (subscription_expr e).
    split; [rewrite He; by destruct e|]. auto. }
  apply leads_andthen. apply (leads_mono _ _ _ _ _ (leads_build expr st h H)).
  intros st' [x|w|er] h' (-> & Ht & Hf & Hx); [subst x|done..].
  apply leads_andthen, leads_does. intros [text|]; simpl.
  { split; [|done]. split; rewrite ?filters_snoc; try apply Ht. by apply never_reopened_snoc; [apply Ht|]. }
  destruct e as [[u n] e]. simpl in Hq. subst u. split; [|split; [done|]].
  - by apply (tracked_cached st h' uri n expr (ConfigureQueueSync (QueueHandle uri n) expr) None); [..|by right].
  - rewrite filters_snoc. apply serves_cached.
Qed.

Lemma leads_open_queue uri expr st h :
  tracked st h → session st = true → handles st !! uri = None →
  leads (open_queue uri expr) st h (fun st' o h' => tracked st' h' ∧ session st' = true ∧
    match o with
    | Value q => serves uri expr (filters h) (filters h') st' q
    | Throws _ => handles st' = handles st
    | Errors _ => False
    end).
Proof.
  intros H Hses Hn. unfold open_queue.
  apply leads_andthen. apply (leads_mono _ _ _ _ _ (leads_build expr st h H)).
  intros st' [x|w|er] h' (-> & Ht & Hf & Hx); [subst x|done..].
  apply leads_andthen, leads_does. intros [n|text]; simpl.
  - split; [|split; [done|]].
    + apply (tracked_cached st h' uri n expr (OpenQueueSync uri [READ; WRITE] expr) (inl n)); auto.
    + rewrite filters_snoc. apply serves_cached.
  - split; [|done]. split; rewrite ?filters_snoc; try apply Ht.
    apply never_reopened_snoc; [apply Ht|]. intros uri' flags expr' [= <- _ _].
    by rewrite <-(tracked_filters _ _ Ht), lookup_fmap, Hn.
Qed.

(** [get_queue] serves, or leaves the cache as it was. *)
Lemma leads_get_queue uri expr st h :
  tracked st h → session st = true →
  leads (get_queue uri expr) st h (fun st' o h' => tracked st' h' ∧ session st' = true ∧
    match o with
    | Value q => serves uri expr (filters h) (filters h') st' q
    | Throws _ => handles st' = handles st
    | Errors _ => False
    end).
Proof.
  intros H Hses. unfold get_queue. apply leads_andthen.
  set (st1 := Backend (broker_uri st) (session st) (Some (handles st)) (exit_hook st)).
  assert (tracked st1 h) as H1 by by destruct H.
  change (handles st) with (handles st1). change (session st) with (session st1) in Hses.
  change (leads (andthen (gets handles) (fun cached =>
    match cached !! uri with Some e => reuse_queue uri expr e | None => open_queue uri expr end)) st1 h
    (fun st' o h' => tracked st' h' ∧ session st' = true ∧
      match o with
      | Value q => serves uri expr (filters h) (filters h') st' q
      | Throws _ => handles st' = handles st1
      | Errors _ => False
      end)).
  clearbody st1. apply leads_andthen. unfold gets, leads at 1. simpl.
  destruct (handles st1 !! uri) as [e|] eqn:E; [by apply leads_reuse_queue|by apply leads_open_queue].
Qed.

(** At exit the cache is dropped and the session stopped: nothing is open. *)
Lemma keeps_exit_hook : keeps pg_blazingmq_exit_hook.
Proof.
  apply keeps_intro. intros st h [Hf Hu Ho Hs]. unfold pg_blazingmq_exit_hook. lead. lead. simpl.
  destruct (session st) eqn:Es.
  - lead_call x. lead. split; [by rewrite filters_snoc|done| |done]. by apply never_reopened_snoc.
  - lead. split; [|done|done|done]. by rewrite <-Hf, (Hs eq_refl).
Qed.

(** ** The exit hook

    A session that has been started is stopped when the process ends. *)
Definition hooked (st : backend) : Prop := session st = true → exit_hook st = true.

Lemma leads_get_session_hooked st h :
  leads get_session st h (fun st' _ _ => hooked st → hooked st').
Proof.
  unfold get_session. lead. destruct (session st) eqn:Es; [by lead|]. lead. lead_call rc.
  destruct (negb _); [by lead|]. lead. lead. simpl. destruct (exit_hook st) eqn:Ee; [by lead|].
  lead_call u. by lead.
Qed.

Definition same_session (a b : backend * pglog) : Prop :=
  session b.1 = session a.1 ∧ exit_hook b.1 = exit_hook a.1.

#[export] Instance same_session_preorder : PreOrder same_session.
Proof. unfold same_session. split; [done|]. intros a b c [-> ->]. done. Qed.

Lemma same_session_does c : within same_session (does c).
Proof. by intros st h x. Qed.

Lemma same_session_get_queue uri expr : within same_session (get_queue uri expr).
Proof.
  assert (within same_session (build_queue_options expr)) as Hb.
  { unfold build_queue_options. destruct (bool_decide _); [auto with within|].
    seq_in; [apply same_session_does|]. intros []; auto with within. }
  unfold get_queue. seq_in; [by intros st h|]. intros _. seq_in; [auto with within|]. intros cached.
  destruct (cached !! uri) as [e|].
  - unfold reuse_queue. destruct (_ && _); [|auto with within]. seq_in; [done|]. intros options.
    seq_in; [apply same_session_does|]. intros []; [auto with within|]. seq_in; [by intros st h|auto with within].
  - unfold open_queue. seq_in; [done|]. intros options. seq_in; [apply same_session_does|].
    intros []; [|auto with within]. seq_in; [by intros st h|auto with within].
Qed.

(** ** Finishing

    A computation that cannot run out of fuel. *)
Definition finishes {A} (m : cxx A) : Prop := ∀ st t, ¬ takes (m st) t None.

Lemma finishes_pure {A} (f : backend → backend * outcome A) : finishes (fun st => Pure (f st)).
Proof. by intros st t [_ ?]. Qed.

Lemma finishes_does c : finishes (does c).
Proof. by intros st t (x & t' & _ & _ & ?). Qed.

Lemma finishes_andthen {A B} (m : cxx A) (f : A → cxx B) :
  finishes m → (∀ a, finishes (f a)) → finishes (andthen m f).
Proof.
  intros Hm Hf st t [([st' [a|w|e]] & t1 & t2 & -> & _ & H)|[H _]]%takes_bind.
  - by apply (Hf a st' t2).
  - by destruct H.
  - by destruct H.
  - by apply (Hm st t).
Qed.

Lemma finishes_catches {A} (m : cxx A) f :
  finishes m → (∀ w, finishes (f w)) → finishes (catches m f).
Proof.
  intros Hm Hf st t [([st' [a|w|e]] & t1 & t2 & -> & _ & H)|[H _]]%takes_bind.
  - by destruct H.
  - by apply (Hf w st' t2).
  - by destruct H.
  - by apply (Hm st t).
Qed.

Create HintDb finishes discriminated.
#[export] Hint Resolve finishes_does : finishes.
#[export] Hint Extern 1 (finishes (warn _)) => apply finishes_does : finishes.
#[export] Hint Extern 1 (finishes (gets _)) => apply finishes_pure : finishes.
#[export] Hint Extern 1 (finishes (modifies _)) => apply finishes_pure : finishes.
#[export] Hint Extern 1 (finishes (returns _)) => apply finishes_pure : finishes.
#[export] Hint Extern 1 (finishes (throws _)) => apply finishes_pure : finishes.
#[export] Hint Extern 1 (finishes (errors _)) => apply finishes_pure : finishes.
#[export] Hint Extern 1 (finishes (ereport_error _)) => apply finishes_pure : finishes.
#[export] Hint Extern 2 (finishes (andthen _ _)) => apply finishes_andthen; [|intros ?] : finishes.
#[export] Hint Extern 2 (finishes (catches _ _)) => apply finishes_catches; [|intros ?] : finishes.
#[export] Hint Extern 3 (finishes (if ?b then _ else _)) => destruct b : finishes.
#[export] Hint Extern 3 (finishes (match ?x with _ => _ end)) => destruct x : finishes.

Lemma finishes_get_session : finishes get_session.
Proof. unfold get_session. auto 12 with finishes. Qed.

Lemma finishes_get_queue uri expr : finishes (get_queue uri expr).
Proof.
  unfold get_queue, reuse_queue, open_queue, build_queue_options, cache_queue. auto 12 with finishes.
Qed.

(** The calls that opening the session and a queue consist of. *)
Definition opening (c : pg_call) : bool :=
  match c with
  | SessionStart _ _ | OnProcExit | AddSubscription _ | OpenQueueSync _ _ _ | ConfigureQueueSync _ _ => true
  | _ => false
  end.

Lemma only_get_session : only opening get_session.
Proof.
  unfold get_session. seq_in; [auto with within|]. intros []; [auto with within|].
  seq_in; [auto with within|]. intros uri. seq_in; [auto with within|]. intros rc.
  destruct (negb _); [auto with within|]. seq_in; [auto with within|]. intros _.
  seq_in; [auto with within|]. intros []; auto with within.
Qed.

Lemma only_get_queue uri expr : only opening (get_queue uri expr).
Proof.
  assert (only opening (build_queue_options expr)) as Hb.
  { unfold build_queue_options. destruct (bool_decide _); [auto with within|].
    seq_in; [auto with within|]. intros []; auto with within. }
  unfold get_queue. seq_in; [auto with within|]. intros _. seq_in; [auto with within|]. intros cached.
  destruct (cached !! uri) as [e|].
  - unfold reuse_queue. destruct (_ && _); [|auto with within]. seq_in; [done|]. intros options.
    seq_in; [auto with within|]. intros []; [auto with within|]. unfold cache_queue. auto with within.
  - unfold open_queue. seq_in; [done|]. intros options. seq_in; [auto with within|].
    intros []; [|auto with within]. unfold cache_queue. auto with within.
Qed.

(** The two lines every entry point begins its work with. *)
Lemma leads_open {A} uri expr (f : queue_handle → cxx A) st h
    (Φ : backend → outcome A → pglog → Prop) :
  tracked st h →
  (∀ st' w t, Forall (fun e : answered PG => opening (at_call e) = true) t → (hooked st → hooked st') →
     tracked st' (h ++ t) → Φ st' (Throws w) (h ++ t)) →
  (∀ q st' t, Forall (fun e : answered PG => opening (at_call e) = true) t → (hooked st → hooked st') →
     tracked st' (h ++ t) → serves uri expr (filters h) (filters (h ++ t)) st' q →
     leads (f q) st' (h ++ t) Φ) →
  leads (get_session;; q <- get_queue uri expr;; f q) st h Φ.
Proof.
  intros H Hthrow Hf. apply leads_andthen.
  pose proof (leads_both _ _ _ _ _ (leads_get_session st h H)
    (leads_both _ _ _ _ _ (only_get_session st h) (leads_get_session_hooked st h))) as H1.
  apply (leads_mono _ _ _ _ _ H1). clear H1.
  intros st1 o h1 [(H1 & Hf1 & _ & Hs) [(t1 & E1 & Ht1) Hk1]]; simpl in E1; subst h1.
  destruct o as [[]|w|e]; [|by apply Hthrow|done]. apply leads_andthen.
  pose proof (leads_both _ _ _ _ _ (leads_get_queue uri expr st1 _ H1 Hs)
    (leads_both _ _ _ _ _ (only_get_queue uri expr st1 (h ++ t1)) (same_session_get_queue uri expr st1 (h ++ t1)))) as H2.
  apply (leads_mono _ _ _ _ _ H2). clear H2.
  intros st2 o h2 [(H2 & _ & Hq) [(t2 & E2 & Ht2) [Hs2 Hk2]]]; simpl in E2, Hs2, Hk2; subst h2.
  assert (hooked st → hooked st2) as Hk3 by (unfold hooked in *; by rewrite Hs2, Hk2).
  rewrite <-app_assoc in *. rewrite Hf1 in Hq.
  destruct o as [q|w|e]; [|apply Hthrow|done]; try done; [apply Hf|]; try done; by apply Forall_app.
Qed.

Lemma keeps_use_queue {A} uri expr (f : queue_handle → cxx A) :
  (∀ q, keeps (f q)) → keeps (get_session;; q <- get_queue uri expr;; f q).
Proof.
  intros Hf. apply keeps_intro. intros st h H. apply leads_open; [done|done|].
  intros q st' t _ _ H' _. by apply keeps_elim.
Qed.

(** ** A world for examples: everything succeeds, handles are numbered by the
    length of the log, [events] are what [nextEvent] returns in turn and the
    clock advances by [tick] nanoseconds with every call. *)
Definition polled (h : pglog) : nat :=
  length (filter (fun e : answered PG =>
    match at_call e with NextEvent _ => true | _ => false end = true) h).

Definition easy_world (events : list bmq_event) (tick : Z) (h : pglog) (c : pg_call) : pg_answer c :=
  match c as c return pg_answer c with
  | OpenQueueSync _ _ _ => inl (Z.of_nat (length h))
  | NextEvent _ => default EvOther (events !! polled h)
  | SteadyNow => tick * Z.of_nat (length h)
  | ConfirmMessages _ => (0, true)
  | SessionStart _ _ | ConfirmMessage _ | AddMessageConfirmation _ | SetProperty _ _
  | PackMessage _ _ _ | Post _ _ _ => 0
  | ReadReady => 1
  | AddSubscription _ | ConfigureQueueSync _ _ => None
  | LookupProc _ => None
  | DsmAttach => None
  | RegisterWorker | QueryActivity _ _ | ShutdownPending => true
  | WaitStartup => Started 1
  | CallFunction _ _ | CommitTransaction | CheckForInterrupts | KillTerm _ => None
  | _ => ()
  end.

(** What a computation does in a world, and how it ends. *)
Definition in_world {A} (w : pglog → ∀ c, pg_answer c) (m : cxx A) (st : backend)
  : pglog * option (backend * outcome A) := play (S := PG) w (m st) [].
