(* ===== verification/PublishRow.v ===== *)
(** * bmq_publish_row (pg_blazingmq.cpp)

    A row becomes one message: its payload is the msgpack map of all its
    columns, its properties are the eligible columns that were asked for. *)
From S2P Require Import Prelude PyFloat PyStr Effects Backend.
#[local] Open Scope cxx_scope.

(** ** Rows *)

Inductive typ :=
| BOOLOID
| INT2OID
| INT4OID
| INT8OID
| FLOAT4OID
| FLOAT8OID
| TEXTOID
| VARCHAROID
| BPCHAROID
| OtherOid (oid : Z).

(** The numbers of pg_type.h. *)
Definition oid_of (t : typ) : Z :=
  match t with
  | BOOLOID => 16 | INT2OID => 21 | INT4OID => 23 | INT8OID => 20
  | FLOAT4OID => 700 | FLOAT8OID => 701
  | TEXTOID => 25 | VARCHAROID => 1043 | BPCHAROID => 1042
  | OtherOid oid => oid
  end.

(** A value of the type; of a type the extension does not know, the text its
    output function gives. *)
Definition datum (t : typ) : Type :=
  match t with
  | BOOLOID => bool
  | INT2OID | INT4OID | INT8OID => Z
  | FLOAT4OID | FLOAT8OID => float
  | TEXTOID | VARCHAROID | BPCHAROID | OtherOid _ => string
  end.

Record column := Column {
  attname : string;
  attisdropped : bool;
  atttypid : typ;
  value : option (datum atttypid);    (* None: NULL *)
}.

(** [z::dyn::Value] *)
Inductive dyn :=
| DynNull
| DynBool (b : bool)
| DynInt (z : Z)
| DynDouble (x : float)
| DynString (s : string).

(** ** One column *)

(** The property a value of the type can be. *)
Definition as_property (t : typ) : datum t → option property :=
  match t with
  | BOOLOID => fun b => Some (PropBool b)
  | INT2OID => fun z => Some (PropShort z)
  | INT4OID => fun z => Some (PropInt32 z)
  | INT8OID => fun z => Some (PropInt64 z)
  | TEXTOID | VARCHAROID | BPCHAROID => fun s => Some (PropString s)
  | FLOAT4OID | FLOAT8OID | OtherOid _ => fun _ => None
  end.

(** The result of [setPropertyAs...] is not looked at; when it is not 0 the
    property is not set. *)
Definition set_message_property (props : gmap string property) (name : string) (t : typ)
    (v : option (datum t)) : cxx (gmap string property * bool) :=
  match v ≫= as_property t with
  | Some p =>
      rc <- does (SetProperty name p);;
      returns (if rc =? 0 then <[name := p]> props else props, true)
  | None => returns (props, false)
  end.

Definition dyn_of (t : typ) : datum t → dyn :=
  match t with
  | BOOLOID => DynBool
  | INT2OID | INT4OID | INT8OID => DynInt
  | FLOAT4OID | FLOAT8OID => DynDouble
  | TEXTOID | VARCHAROID | BPCHAROID | OtherOid _ => DynString
  end.

Definition datum_to_dyn_value (c : column) : dyn :=
  match value c with Some d => dyn_of (atttypid c) d | None => DynNull end.

(** ** The row *)

Definition refusal (c : column) : string :=
  "column " +:+ dquote +:+ attname c +:+ dquote +:+ " (type " +:+ py_str (oid_of (atttypid c))
    +:+ ") cannot be a BlazingMQ message attribute - only bool/int2/int4/int8/text-family columns are supported (see README's Expression Syntax notes)".

(** [attr_columns]: NULL, or the names that are not NULL. *)
Definition requested_attrs (attrs : option (list (option string))) : option (gset string) :=
  (fun l => list_to_set (omap id l)) <$> attrs.

Definition want_attr (requested : option (gset string)) (c : column) : bool :=
  match requested with Some names => bool_decide (attname c ∈ names) | None => true end.

(** The loop over the columns. *)
Fixpoint pack_columns (requested : option (gset string)) (cols : list column)
    (props : gmap string property) (row_map : list (string * dyn))
    : cxx (gmap string property * list (string * dyn)) :=
  match cols with
  | [] => returns (props, row_map)
  | c :: cols' =>
      if attisdropped c then pack_columns requested cols' props row_map else
      r <- (if want_attr requested c
            then set_message_property props (attname c) (atttypid c) (value c)
            else returns (props, true));;
      if negb r.2 && bool_decide (is_Some requested) then
        does ReleaseTupdesc;; ereport_error (refusal c)
      else
        pack_columns requested cols' r.1 (row_map ++ [(attname c, datum_to_dyn_value c)])
  end.

Section publish.
(** zerialize's MsgPack writer on a map. *)
Context (msgpack : list (string * dyn) → string).

(** The message is built, packed and posted. *)
Definition post_row (uri : string) (packed : gmap string property * list (string * dyn)) : cxx unit :=
  let payload := msgpack packed.2 in
  get_session;;
  queueId <- get_queue uri EmptyString;;
  pack_rc <- does (PackMessage queueId payload packed.1);;
  if negb (pack_rc =? 0) then
    does ReleaseTupdesc;;
    ereport_error ("failed to pack BlazingMQ message for queue '" +:+ uri +:+ "' (rc="
                   +:+ py_str pack_rc +:+ ")")
  else
    post_rc <- does (Post queueId payload packed.1);;
    if negb (post_rc =? 0) then
      does ReleaseTupdesc;;
      ereport_error ("failed to post BlazingMQ message to queue '" +:+ uri +:+ "' (rc="
                     +:+ py_str post_rc +:+ ")")
    else returns ().

Definition bmq_publish_row (queue_uri : option string) (row : option (list column))
    (attrs : option (list (option string))) : cxx unit :=
  match queue_uri, row with
  | None, _ => ereport_error "queue_uri must not be null"
  | _, None => ereport_error "row must not be null"
  | Some uri, Some cols =>
      does LookupTupdesc;;
      catches
        (packed <- pack_columns (requested_attrs attrs) cols ∅ [];; post_row uri packed)
        (fun what =>
           does ReleaseTupdesc;;
           errors (PgError CONNECTION_EXCEPTION "bmq_publish_row failed" (Some what)));;
      does ReleaseTupdesc;;
      returns ()
  end.

(** ** It keeps the session's queues in order *)

Lemma keeps_pack_columns requested cols props row_map :
  keeps (pack_columns requested cols props row_map).
Proof using.
  revert props row_map. induction cols as [|c cols IH]; intros props row_map; simpl; [pure_in|].
  destruct (attisdropped c); [done|]. seq_in.
  - destruct (want_attr _ _); [|pure_in]. unfold set_message_property.
    destruct (value c ≫= _); [|pure_in]. auto with within.
  - intros r. destruct (_ && _); [|done]. auto with within.
Qed.

Lemma keeps_publish_row queue_uri row attrs : keeps (bmq_publish_row queue_uri row attrs).
Proof using.
  unfold bmq_publish_row. destruct queue_uri as [uri|], row as [cols|]; try pure_in.
  seq_in; [auto with within|]. intros _. seq_in.
  - catch_in.
    + seq_in; [apply keeps_pack_columns|]. intros packed. apply keeps_use_queue. intros q.
      seq_in; [auto with within|]. intros rc.
      destruct (negb _); [auto with within|].
      seq_in; [auto with within|]. intros rc'.
      destruct (negb _); auto with within.
    + intros w. auto with within.
  - intros _. auto with within.
Qed.
End publish.

(** ** What a call did, from its log *)

(** The properties offered to the message, with the library's answers. *)
Definition property_of (e : answered PG) : option (string * property * Z) :=
  match e with At (SetProperty name v) rc => Some (name, v, rc) | _ => None end.

Definition properties_set (t : pglog) : list (string * property * Z) := omap property_of t.

(** The messages the broker's library took. *)
Definition post_of (e : answered PG) : option (queue_handle * string * gmap string property) :=
  match e with
  | At (Post q payload props) rc => if rc =? 0 then Some (q, payload, props) else None
  | _ => None
  end.

Definition posted (t : pglog) : list (queue_handle * string * gmap string property) := omap post_of t.

(** The row descriptor's pins and releases. *)
Definition pin_of (e : answered PG) : option Z :=
  match e with At LookupTupdesc _ => Some 1 | At ReleaseTupdesc _ => Some (-1) | _ => None end.

Definition pins (t : pglog) : list Z := omap pin_of t.

(** Calls that reach the client library's session. *)
Definition network (e : answered PG) : bool :=
  match e with
  | At (SessionStart _ _) _ | At (OpenQueueSync _ _ _) _ | At (ConfigureQueueSync _ _) _
  | At (PackMessage _ _ _) _ | At (Post _ _ _) _ => true
  | _ => false
  end.

(** ** What it should do *)

Definition live (cols : list column) : list column := filter (fun c => attisdropped c = false) cols.

(** Every column that is not dropped, in order. *)
Definition row_fields (cols : list column) : list (string * dyn) :=
  (fun c => (attname c, datum_to_dyn_value c)) <$> live cols.

(** The property that a column gives, when it is wanted. *)
Definition offered (requested : option (gset string)) (c : column) : option (string * property) :=
  if want_attr requested c then pair (attname c) <$> (value c ≫= as_property (atttypid c)) else None.

(** A column named in [attr_columns] that cannot be given: one of another
    type, or one that is NULL in this row. *)
Definition refused (requested : option (gset string)) (c : column) : bool :=
  bool_decide (is_Some requested) && want_attr requested c
  && match value c ≫= as_property (atttypid c) with Some _ => false | None => true end.

Definition accept (props : gmap string property) (x : string * property * Z) : gmap string property :=
  if x.2 =? 0 then <[x.1.1 := x.1.2]> props else props.

Definition first_refused (requested : option (gset string)) (cols : list column) : option column :=
  List.find (refused requested) (live cols).

Lemma live_cons c cols : live (c :: cols) = if attisdropped c then live cols else c :: live cols.
Proof. unfold live. rewrite filter_cons. by destruct (attisdropped c). Qed.

(** The columns, one after the other: the first refused one ends the call,
    otherwise the wanted ones are offered and all are in the map. *)
Lemma leads_pack_columns requested cols props row_map st h :
  leads (pack_columns requested cols props row_map) st h (fun st' o h' => st' = st ∧
    ∃ t, h' = h ++ t ∧ existsb network t = false ∧ posted t = [] ∧
    match first_refused requested cols with
    | Some c => o = Errors (PgError INTERNAL_ERROR (refusal c) None) ∧ pins t = [-1]
    | None =>
        pins t = [] ∧ (properties_set t).*1 = omap (offered requested) (live cols) ∧
        o = Value (foldl accept props (properties_set t), row_map ++ row_fields cols)
    end).
Proof.
  revert props row_map h. induction cols as [|c cols IH]; intros props row_map h; simpl.
  { split; [done|]. exists []. rewrite !app_nil_r. done. }
  unfold first_refused, row_fields. rewrite live_cons. destruct (attisdropped c) eqn:Ed; [apply IH|].
  apply leads_andthen. simpl find. unfold refused at 1.
  assert (∀ o st' h' props' row_map' t0 ps,
    (properties_set t0 = ps ∧ existsb network t0 = false ∧ posted t0 = [] ∧ pins t0 = []) →
    offered requested c = fst <$> head ps → props' = foldl accept props ps →
    (length ps ≤ 1)%nat → row_map' = row_map ++ [(attname c, datum_to_dyn_value c)] →
    st' = st ∧ (∃ t, h' = (h ++ t0) ++ t ∧ existsb network t = false ∧ posted t = [] ∧
      match first_refused requested cols with
      | Some c' => o = Errors (PgError INTERNAL_ERROR (refusal c') None) ∧ pins t = [-1]
      | None => pins t = [] ∧ (properties_set t).*1 = omap (offered requested) (live cols) ∧
          o = Value (foldl accept props' (properties_set t), row_map' ++ row_fields cols)
      end) →
    st' = st ∧ (∃ t, h' = h ++ t ∧ existsb network t = false ∧ posted t = [] ∧
      match List.find (refused requested) (live cols) with
      | Some c' => o = Errors (PgError INTERNAL_ERROR (refusal c') None) ∧ pins t = [-1]
      | None => pins t = [] ∧ (properties_set t).*1 = omap (offered requested) (c :: live cols) ∧
          o = Value (foldl accept props (properties_set t),
                     row_map ++ (attname c, datum_to_dyn_value c) :: row_fields cols)
      end)) as Hcons.
  { intros o st' h' props' row_map' t0 ps (Hps & Hn0 & Hp0 & Hi0) Ho -> Hl -> (-> & t & -> & Hn & Hp & Ht).
    split; [done|]. exists (t0 ++ t). split; [by rewrite app_assoc|]. rewrite existsb_app, Hn0.
    split; [done|]. unfold posted, pins, properties_set in *. rewrite !omap_app, Hp0, Hi0, Hps, Hp.
    split; [done|]. unfold first_refused in Ht. destruct (List.find _ _); [done|].
    destruct Ht as (Hi & Hs & ->). split; [done|]. rewrite foldl_app, fmap_app, Hs, <-app_assoc.
    split; [|done]. simpl. rewrite Ho. by destruct ps as [|x [|]]; [..|simpl in Hl; lia]. }
  destruct (want_attr requested c) eqn:Ew.
  - unfold set_message_property. destruct (value c ≫= as_property (atttypid c)) as [p|] eqn:Ep.
    + lead_call rc. lead. cbn [fst snd negb andb]. rewrite !andb_false_r.
      apply (leads_mono _ _ _ _ _ (IH _ _ _)). intros st' o h' H.
      eapply (Hcons _ _ _ _ _ [At (S := PG) (SetProperty (attname c) p) rc] [(attname c, p, rc)]); [done| |done|simpl; lia|done|exact H].
      unfold offered. by rewrite Ew, Ep.
    + lead. cbn [fst snd negb andb]. rewrite !andb_true_r.
      destruct (bool_decide (is_Some requested)); simpl.
      * lead_call u. split; [done|]. by exists [At (S := PG) ReleaseTupdesc u].
      * apply (leads_mono _ _ _ _ _ (IH _ _ _)). intros st' o h' H.
        eapply (Hcons _ _ _ _ _ [] []); [done| |done|simpl; lia|done|by rewrite app_nil_r].
        unfold offered. by rewrite Ew, Ep.
  - lead. cbn [fst snd negb andb]. rewrite !andb_false_r.
    apply (leads_mono _ _ _ _ _ (IH _ _ _)). intros st' o h' H.
    eapply (Hcons _ _ _ _ _ [] []); [done| |done|simpl; lia|done|by rewrite app_nil_r].
    unfold offered. by rewrite Ew.
Qed.

(** Opening the session and the queue does not post, set a property or touch
    the descriptor. *)
Lemma opening_silent t :
  Forall (fun e : answered PG => opening (at_call e) = true) t →
  posted t = [] ∧ properties_set t = [] ∧ pins t = [].
Proof.
  induction 1 as [|[c x] t Hc _ (IH1 & IH2 & IH3)]; [done|].
  unfold posted, properties_set, pins in *. simpl. by destruct c; try done; rewrite IH1, IH2, IH3.
Qed.

Section contract.
Context (msgpack : list (string * dyn) → string).

Lemma leads_post_row uri packed st h :
  tracked st h →
  leads (post_row msgpack uri packed) st h (fun _ o h' => ∃ t, h' = h ++ t ∧ properties_set t = [] ∧
    match o with
    | Value _ => pins t = [] ∧ ∃ q, q_uri q = uri ∧ posted t = [(q, msgpack packed.2, packed.1)]
    | Throws _ => pins t = [] ∧ posted t = []
    | Errors e => pins t = [-1] ∧ posted t = [] ∧ errcode e = INTERNAL_ERROR
    end).
Proof using.
  intros H. apply leads_open; [done|..].
  - intros st' w t Ht _ _. destruct (opening_silent t Ht) as (? & ? & ?). by exists t.
  - intros q st' t Ht _ _ [Hq _]. destruct (opening_silent t Ht) as (Hp & Hs & Hi).
    assert (∀ t', properties_set (t ++ t') = properties_set t' ∧ posted (t ++ t') = posted t' ∧ pins (t ++ t') = pins t')
      as Happ by (intros t'; unfold properties_set, posted, pins in *; by rewrite !omap_app, Hs, Hp, Hi).
    lead_call rc. destruct (negb (rc =? 0)) eqn:Erc.
    + lead_call u. lead. eexists. rewrite <-!app_assoc. split; [reflexivity|].
      match goal with |- properties_set (t ++ ?l) = _ ∧ _ => destruct (Happ l) as (-> & -> & ->) end. done.
    + lead_call prc. destruct (negb (prc =? 0)) eqn:Eprc; [lead_call u|]; lead;
        eexists; rewrite <-!app_assoc; (split; [reflexivity|]);
        match goal with |- properties_set (t ++ ?l) = _ ∧ _ => destruct (Happ l) as (-> & -> & ->) end;
        unfold posted; simpl; [apply negb_true_iff in Eprc|apply negb_false_iff in Eprc]; rewrite Eprc; [done|].
      split; [done|]. split; [done|]. by exists q.
Qed.

(** What a call on a row comes to, however it ends. *)
Lemma leads_publish_row uri cols attrs st h :
  tracked st h →
  leads (bmq_publish_row msgpack (Some uri) (Some cols) attrs) st h (fun _ o h' => ∃ t, h' = h ++ t ∧
    pins t = [1; -1] ∧
    match first_refused (requested_attrs attrs) cols with
    | Some c => o = Errors (PgError INTERNAL_ERROR (refusal c) None) ∧ existsb network t = false
    | None =>
        (properties_set t).*1 = omap (offered (requested_attrs attrs)) (live cols) ∧
        match o with
        | Value _ => ∃ q, q_uri q = uri ∧
            posted t = [(q, msgpack (row_fields cols), foldl accept ∅ (properties_set t))]
        | Errors e => posted t = [] ∧
            (errcode e = INTERNAL_ERROR ∨
             errcode e = CONNECTION_EXCEPTION ∧ errmsg e = "bmq_publish_row failed")
        | Throws _ => False
        end
    end).
Proof using.
  intros H. unfold bmq_publish_row. lead_call u0.
  set (e0 := At (S := PG) LookupTupdesc u0).
  assert (tracked st (h ++ [e0])) as H0 by by apply tracked_unrelated.
  apply leads_andthen, leads_catches, leads_andthen.
  pose proof (leads_both _ _ _ _ _
    (leads_pack_columns (requested_attrs attrs) cols ∅ [] st (h ++ [e0]))
    (keeps_elim _ _ _ (keeps_pack_columns (requested_attrs attrs) cols ∅ []) H0)) as Hpack.
  apply (leads_mono _ _ _ _ _ Hpack). clear Hpack.
  intros st1 o1 h1 [(-> & t1 & -> & Hn1 & Hp1 & Hc) Ht1].
  destruct (first_refused _ _) as [c|].
  { destruct Hc as [-> Hi]. exists ([e0] ++ t1). rewrite <-app_assoc. split; [done|].
    split; [|done]. unfold pins in *. by rewrite omap_app, Hi. }
  destruct Hc as (Hi & Hps & ->).
  set (packed := (foldl accept ∅ (properties_set t1), [] ++ row_fields cols)).
  apply (leads_mono _ _ _ _ _ (leads_post_row uri packed st _ Ht1)).
  intros st2 o2 h2 (t2 & -> & Hs2 & H2).
  assert (∀ t3, properties_set ([e0] ++ t1 ++ t2 ++ t3) = properties_set t1 ++ properties_set t3 ∧
                posted ([e0] ++ t1 ++ t2 ++ t3) = posted t2 ++ posted t3 ∧
                pins ([e0] ++ t1 ++ t2 ++ t3) = 1 :: pins t2 ++ pins t3) as Hsum.
  { intros t3. unfold properties_set, posted, pins in *. rewrite !omap_app, Hs2, Hp1, Hi. done. }
  destruct o2 as [u|w|e].
  - lead_call u1. lead. exists ([e0] ++ t1 ++ t2 ++ [At (S := PG) ReleaseTupdesc u1]).
    rewrite <-!app_assoc. split; [done|].
    destruct (Hsum [At (S := PG) ReleaseTupdesc u1]) as (-> & -> & ->).
    destruct H2 as (-> & q & Hq & ->). split; [done|]. rewrite fmap_app, Hps.
    split; [by rewrite app_nil_r|]. exists q. by rewrite !app_nil_r.
  - lead_call u1. lead. exists ([e0] ++ t1 ++ t2 ++ [At (S := PG) ReleaseTupdesc u1]).
    rewrite <-!app_assoc. split; [done|].
    destruct (Hsum [At (S := PG) ReleaseTupdesc u1]) as (-> & -> & ->).
    destruct H2 as (-> & ->). split; [done|]. rewrite fmap_app, Hps.
    split; [by rewrite app_nil_r|]. auto.
  - exists ([e0] ++ t1 ++ t2). rewrite <-!app_assoc. split; [done|].
    destruct (Hsum []) as (Ha & Hb & Hd). rewrite !app_nil_r in Ha, Hb, Hd. rewrite Ha, Hb, Hd.
    destruct H2 as (-> & -> & He). split; [done|]. rewrite Hps. auto.
Qed.
End contract.

(** ** Properties *)

(** C5. bmq_publish_row on a row, whatever the library answers. If a column
    named in attr_columns is of another type than bool, the integers and text,
    or is NULL in this row, the statement fails with that column's message
    before any call reaches the broker's library. Otherwise exactly the wanted
    columns with a value and an eligible type are offered as properties, in
    order, and then either one message is posted, to the queue of that URI,
    whose payload is the map of all columns that are not dropped and whose
    properties are those the library accepted, or nothing is posted and an
    error is reported. On every path the row descriptor is released exactly
    once. *)
Theorem publish_row_exact msgpack uri cols attrs st h t st' o :
  tracked st h →
  takes (bmq_publish_row msgpack (Some uri) (Some cols) attrs st) t (Some (st', o)) →
  pins t = [1; -1] ∧
  match first_refused (requested_attrs attrs) cols with
  | Some c => o = Errors (PgError INTERNAL_ERROR (refusal c) None) ∧ existsb network t = false
  | None =>
      (properties_set t).*1 = omap (offered (requested_attrs attrs)) (live cols) ∧
      match o with
      | Value _ => ∃ q, q_uri q = uri ∧
          posted t = [(q, msgpack (row_fields cols), foldl accept ∅ (properties_set t))]
      | Errors e => posted t = [] ∧
          (errcode e = INTERNAL_ERROR ∨
           errcode e = CONNECTION_EXCEPTION ∧ errmsg e = "bmq_publish_row failed")
      | Throws _ => False
      end
  end.
Proof.
  intros H Ht.
  destruct (leads_takes _ _ _ _ _ _ _ (leads_publish_row msgpack uri cols attrs st h H) Ht) as (t' & E & Hspec).
  by apply app_inv_head in E as <-.
Qed.

(** ** The properties at work *)

Module PublishExample.
Definition region (v : option Z) : column := Column "region" false INT4OID v.

Definition row (v : option Z) : list column :=
  [region v; Column "old" true TEXTOID None; Column "symbol" false TEXTOID (Some "AAPL");
   Column "price" false FLOAT8OID (Some (lit 301 2))].

(** A writer that shows the names. *)
Definition writer (fields : list (string * dyn)) : string := join "," fields.*1.

Definition run (attrs : option (list (option string))) (v : option Z) :=
  in_world (easy_world [] 1) (bmq_publish_row writer (Some "bmq://q") (Some (row v)) attrs)
    (fresh "tcp://localhost:30114").

Example named : posted (run (Some [Some "region"; None]) (Some 1)).1 =
  [(QueueHandle "bmq://q" 4, "region,symbol,price", {[ "region" := PropInt32 1 ]})].
Proof. vm_compute. reflexivity. Qed.

Example unnamed : posted (run None None).1 =
  [(QueueHandle "bmq://q" 4, "region,symbol,price", {[ "symbol" := PropString "AAPL" ]})].
Proof. vm_compute. reflexivity. Qed.

(** NULL in a named column of an eligible type is refused like a float. *)
Example null_refused :
  (snd <$> (run (Some [Some "region"]) None).2) =
    Some (Errors (PgError INTERNAL_ERROR (refusal (region None)) None)) ∧
  contains "(type 23) cannot be" (refusal (region None)) = true.
Proof. by vm_compute. Qed.
End PublishExample.

Lemma publish_row_exact_witness :
  pins (PublishExample.run (Some [Some "region"]) (Some 1)).1 = [1; -1].
Proof.
  refine (proj1 (publish_row_exact PublishExample.writer "bmq://q" (PublishExample.row (Some 1))
    (Some [Some "region"]) (fresh "tcp://localhost:30114") []
    (PublishExample.run (Some [Some "region"]) (Some 1)).1
    (Backend "tcp://localhost:30114" true (Some {[ "bmq://q" := QueueEntry (QueueHandle "bmq://q" 4) EmptyString ]}) true)
    (Value ()) (tracked_fresh _) _)).
  refine (eq_ind _ (fun r => takes _ _ r) (play_takes _ _ []) _ _). vm_compute. reflexivity.
Defined.
