(* ===== verification/Consume.v ===== *)
(** * bmq_consume (pg_blazingmq.cpp)

    Messages are pulled until there are enough of them or the time is up; each
    is a row of the result and is confirmed, one by one or in batches. *)
From S2P Require Import Prelude PyFloat PyStr Effects Backend.
#[local] Open Scope cxx_scope.

Definition kBatchConfirmFlushThreshold : Z := 500.

(** The loop's locals: the rows put into the tuplestore, their number, and
    the messages in the ConfirmEventBuilder. *)
Record receiving := Receiving {
  rows : list string;
  received : Z;
  batch : list message;
}.

Definition flush_warning (uri : string) (rc : Z) : string :=
  "failed to flush batched BlazingMQ confirms on queue '" +:+ uri +:+ "' (rc=" +:+ py_str rc +:+ ")".

(** [session.confirmMessages(&confirmBuilder)] and its warning; what is left
    in the builder. *)
Definition flush (uri : string) (ms : list message) : cxx (list message) :=
  flush_rc <- does (ConfirmMessages ms);;
  (if negb (flush_rc.1 =? 0) then warn (flush_warning uri flush_rc.1) else returns ());;
  returns (if flush_rc.2 then [] else ms).

(** The message joins the batch, which is flushed when the builder is full
    (and the message added again), or at the threshold. *)
Definition batch_message (uri : string) (ms : list message) (m : message) : cxx (list message) :=
  add_rc <- does (AddMessageConfirmation m);;
  if negb (add_rc =? 0) then
    ms' <- flush uri ms;;
    add_rc <- does (AddMessageConfirmation m);;
    if negb (add_rc =? 0) then
      warn ("failed to batch BlazingMQ confirm on queue '" +:+ uri +:+ "' (rc=" +:+ py_str add_rc +:+ ")");;
      returns ms'
    else returns (ms' ++ [m])
  else if kBatchConfirmFlushThreshold <=? Z.of_nat (length (ms ++ [m])) then flush uri (ms ++ [m])
  else returns (ms ++ [m]).

Definition confirm_message (uri : string) (m : message) : cxx unit :=
  confirm_rc <- does (ConfirmMessage m);;
  if negb (confirm_rc =? 0) then
    warn ("failed to confirm BlazingMQ message on queue '" +:+ uri +:+ "' (rc=" +:+ py_str confirm_rc +:+ ")")
  else returns ().

(** One message of the event. *)
Definition receive_message (uri : string) (batch_confirm : bool) (m : message) (r : receiving)
    : cxx receiving :=
  let rows' := rows r ++ [data m] in
  let received' := received r + 1 in
  if batch_confirm then
    ms <- batch_message uri (batch r) m;; returns (Receiving rows' received' ms)
  else confirm_message uri m;; returns (Receiving rows' received' (batch r)).

(** [while (msgIter.nextMessage() && received < max_messages)]: the messages
    that are left when the limit is reached are gone with the event. *)
Fixpoint receive_event (uri : string) (batch_confirm : bool) (max_messages : Z)
    (ms : list message) (r : receiving) : cxx receiving :=
  match ms with
  | [] => returns r
  | m :: ms' =>
      if received r <? max_messages then
        r' <- receive_message uri batch_confirm m r;;
        receive_event uri batch_confirm max_messages ms' r'
      else returns r
  end.

(** [duration_cast<milliseconds>(deadline - now)] *)
Definition remaining_ms (deadline now : Z) : Z := Z.quot (deadline - now) 1000000.

(** One unit of fuel per test of [received < max_messages]. *)
Fixpoint receive_loop (fuel : nat) (uri : string) (batch_confirm : bool) (max_messages deadline : Z)
    (r : receiving) : cxx receiving :=
  match fuel with
  | O => out_of_fuel
  | S fuel' =>
      if negb (received r <? max_messages) then returns r else
      now <- does SteadyNow;;
      let ms := remaining_ms deadline now in
      if ms <=? 0 then returns r else
      event <- does (NextEvent (Seconds (fquot (of_int ms) (of_int 1000))));;
      match event with
      | EvOther | EvNotPush => receive_loop fuel' uri batch_confirm max_messages deadline r
      | EvPush pushed =>
          r' <- receive_event uri batch_confirm max_messages pushed r;;
          receive_loop fuel' uri batch_confirm max_messages deadline r'
      end
  end.

(** What happens inside the [try]; the result set. *)
Definition consume_rows (fuel : nat) (uri expr : string) (max_messages timeout_ms : Z)
    (batch_confirm : bool) : cxx (list string) :=
  get_session;;
  queueId <- get_queue uri expr;;
  start <- does SteadyNow;;
  r <- receive_loop fuel uri batch_confirm max_messages (start + timeout_ms * 1000000)
         (Receiving [] 0 []);;
  (if batch_confirm && (0 <? Z.of_nat (length (batch r))) then
     flush uri (batch r);; returns ()
   else returns ());;
  returns (rows r).

(** [materialize]: the caller accepts a materialised set. *)
Definition bmq_consume (fuel : nat) (materialize : bool) (queue_uri subscription_expr : option string)
    (max_messages timeout_ms : option Z) (batch_confirm : option bool) : cxx (list string) :=
  match queue_uri with
  | None => ereport_error "queue_uri must not be null"
  | Some uri =>
      let expr := default EmptyString subscription_expr in
      let max_messages := default 1 max_messages in
      let timeout_ms := default 1000 timeout_ms in
      let batch_confirm := default false batch_confirm in
      if max_messages <? 1 then ereport_error "max_messages must be >= 1"
      else if timeout_ms <? 0 then ereport_error "timeout_ms must be >= 0"
      else if negb materialize then
        ereport_error "bmq_consume called in a context that cannot accept a set"
      else
        catches (consume_rows fuel uri expr max_messages timeout_ms batch_confirm)
          (fun what => errors (PgError CONNECTION_EXCEPTION "bmq_consume failed" (Some what)))
  end.

(** ** It keeps the session's queues in order *)

Lemma keeps_flush uri ms : keeps (flush uri ms).
Proof.
  unfold flush. seq_in; [auto with within|]. intros rc. seq_in; [|auto with within].
  destruct (negb _); auto with within.
Qed.

Lemma keeps_receive_message uri b m r : keeps (receive_message uri b m r).
Proof.
  unfold receive_message. destruct b.
  - seq_in; [|auto with within]. unfold batch_message. seq_in; [auto with within|]. intros rc.
    destruct (negb _).
    + seq_in; [apply keeps_flush|]. intros ms. seq_in; [auto with within|]. intros rc'.
      destruct (negb _); [seq_in|]; auto with within.
    + destruct (_ <=? _); [apply keeps_flush|auto with within].
  - seq_in; [|auto with within]. unfold confirm_message. seq_in; [auto with within|]. intros rc.
    destruct (negb _); auto with within.
Qed.

Lemma keeps_receive_event uri b n ms r : keeps (receive_event uri b n ms r).
Proof.
  revert r. induction ms as [|m ms IH]; intros r; simpl; [auto with within|].
  destruct (_ <? _); [|auto with within]. seq_in; [apply keeps_receive_message|done].
Qed.

Lemma keeps_receive_loop fuel uri b n d r : keeps (receive_loop fuel uri b n d r).
Proof.
  revert r. induction fuel as [|fuel IH]; intros r; simpl; [auto with within|].
  destruct (negb _); [auto with within|]. seq_in; [auto with within|]. intros now.
  destruct (_ <=? _); [auto with within|]. seq_in; [auto with within|]. intros [| |ms]; [done..|].
  seq_in; [apply keeps_receive_event|done].
Qed.

Lemma keeps_consume fuel mat uri expr n ms b : keeps (bmq_consume fuel mat uri expr n ms b).
Proof.
  unfold bmq_consume. destruct uri as [uri|]; [|auto with within].
  destruct (_ <? 1); [auto with within|]. destruct (_ <? 0); [auto with within|].
  destruct (negb mat); [auto with within|]. catch_in; [|auto with within].
  apply keeps_use_queue. intros q. seq_in; [auto with within|]. intros start.
  seq_in; [apply keeps_receive_loop|]. intros r. seq_in; [|auto with within].
  destruct (_ && _); [seq_in; [apply keeps_flush|]|]; auto with within.
Qed.

(** ** What a call did, from its log *)

(** The messages pushed to it, in order. *)
Definition pushed_of (e : answered PG) : option (list message) :=
  match e with At (NextEvent _) (EvPush ms) => Some ms | _ => None end.

Definition pushed (t : pglog) : list message := concat (omap pushed_of t).

(** The messages confirmed to the broker, one by one or by a flush. *)
Definition confirmed_of (e : answered PG) : option (list message) :=
  match e with
  | At (ConfirmMessage m) _ => Some [m]
  | At (ConfirmMessages ms) _ => Some ms
  | _ => None
  end.

Definition confirmed (t : pglog) : list message := concat (omap confirmed_of t).

(** What is in the ConfirmEventBuilder, which starts empty. *)
Definition builder_step (b : list message) (e : answered PG) : list message :=
  match e with
  | At (AddMessageConfirmation m) rc => if rc =? 0 then b ++ [m] else b
  | At (ConfirmMessages _) x => if x.2 then [] else b
  | _ => b
  end.

(** The library's promise: an empty builder takes a message, and a flush that
    succeeds resets the builder; and every flush does succeed. *)
Fixpoint builder_lawful (b : list message) (t : pglog) : bool :=
  match t with
  | [] => true
  | e :: t' =>
      match e with
      | At (AddMessageConfirmation _) rc => negb (bool_decide (b = [])) || (rc =? 0)
      | At (ConfirmMessages _) x => (x.1 =? 0) && x.2
      | _ => true
      end && builder_lawful (builder_step b e) t'
  end.

(** How many messages were received and not yet confirmed, every time the
    call asked for another event. *)
Fixpoint unconfirmed_at_polls (b : list message) (t : pglog) : list Z :=
  match t with
  | [] => []
  | e :: t' =>
      match e with At (NextEvent _) _ => [Z.of_nat (length b)] | _ => [] end
      ++ unconfirmed_at_polls (builder_step b e) t'
  end.

Lemma builder_lawful_app b t1 t2 :
  builder_lawful b (t1 ++ t2) = builder_lawful b t1 && builder_lawful (foldl builder_step b t1) t2.
Proof. revert b. induction t1 as [|e t1 IH]; intros b; simpl; [done|]. by rewrite IH, andb_assoc. Qed.

Lemma unconfirmed_app b t1 t2 :
  unconfirmed_at_polls b (t1 ++ t2) =
  unconfirmed_at_polls b t1 ++ unconfirmed_at_polls (foldl builder_step b t1) t2.
Proof. revert b. induction t1 as [|e t1 IH]; intros b; simpl; [done|]. by rewrite IH, app_assoc. Qed.

Lemma pushed_app t1 t2 : pushed (t1 ++ t2) = pushed t1 ++ pushed t2.
Proof. unfold pushed. by rewrite omap_app, concat_app. Qed.

Lemma confirmed_app t1 t2 : confirmed (t1 ++ t2) = confirmed t1 ++ confirmed t2.
Proof. unfold confirmed. by rewrite omap_app, concat_app. Qed.

Lemma pushed_cons e t : pushed (e :: t) = default [] (pushed_of e) ++ pushed t.
Proof. unfold pushed. simpl. by destruct (pushed_of e). Qed.

Lemma confirmed_cons e t : confirmed (e :: t) = default [] (confirmed_of e) ++ confirmed t.
Proof. unfold confirmed. simpl. by destruct (confirmed_of e). Qed.

(** [seen] has been received, [r] are the locals and [t] is the log. *)
Record handled (batch_confirm : bool) (seen : list message) (r : receiving) (t : pglog) : Prop := {
  handled_rows : rows r = data <$> seen;
  handled_received : received r = Z.of_nat (length seen);
  handled_builder : batch r = foldl builder_step [] t;
  handled_single : batch_confirm = false → confirmed t = seen ∧ foldl builder_step [] t = [];
  handled_batch : batch_confirm = true → builder_lawful [] t = true →
    confirmed t ++ batch r = seen ∧ (Z.of_nat (length (batch r)) < kBatchConfirmFlushThreshold)%Z;
  handled_window : builder_lawful [] t = true →
    Forall (fun n => n < kBatchConfirmFlushThreshold) (unconfirmed_at_polls [] t);
}.

(** The next calls, and what they mean for the message. *)
Lemma handled_next b seen r t m r' t' :
  handled b seen r t →
  rows r' = rows r ++ [data m] → received r' = received r + 1 →
  batch r' = foldl builder_step (batch r) t' →
  (b = false → confirmed t' = [m] ∧ foldl builder_step [] t' = []) →
  (b = true → builder_lawful (batch r) t' = true →
     (Z.of_nat (length (batch r)) < kBatchConfirmFlushThreshold)%Z →
     confirmed t' ++ batch r' = batch r ++ [m] ∧ (Z.of_nat (length (batch r')) < kBatchConfirmFlushThreshold)%Z) →
  unconfirmed_at_polls (batch r) t' = [] →
  handled b (seen ++ [m]) r' (t ++ t').
Proof.
  intros [Hr Hn Hb H1 H2 Hw] Hr' Hn' Hb' Hs Hm Hu. split.
  - by rewrite Hr', Hr, fmap_app.
  - rewrite Hn', Hn, length_app. simpl. lia.
  - by rewrite foldl_app, <-Hb.
  - intros E. destruct (H1 E) as [<- Ht], (Hs E) as [Hc Ht']. by rewrite confirmed_app, foldl_app, Hc, Ht.
  - intros E. rewrite builder_lawful_app, <-Hb, andb_true_iff. intros [L1 L2].
    destruct (H2 E L1) as [<- Hlt], (Hm E L2 Hlt) as [Hc Hlt']. split; [|done].
    by rewrite confirmed_app, <-app_assoc, Hc, app_assoc.
  - rewrite builder_lawful_app, unconfirmed_app, <-Hb, Hu, app_nil_r, andb_true_iff. intros [L1 _]. auto.
Qed.

(** Warnings change nothing. *)
Definition warnings (t : pglog) : Prop :=
  Forall (fun e : answered PG => match at_call e with Ereport _ _ => True | _ => False end) t.

Lemma warnings_silent t :
  warnings t → pushed t = [] ∧ confirmed t = [] ∧
  ∀ b, foldl builder_step b t = b ∧ builder_lawful b t = true ∧ unconfirmed_at_polls b t = [].
Proof.
  induction 1 as [|[c x] t Hc _ (IH1 & IH2 & IH3)]; [done|].
  unfold pushed, confirmed in *. destruct c; done.
Qed.

Lemma leads_flush uri ms st h :
  leads (flush uri ms) st h (fun st' o h' => ∃ x w,
    h' = h ++ [At (S := PG) (ConfirmMessages ms) x] ++ w ∧ warnings w ∧ o = Value (if x.2 then [] else ms)).
Proof.
  unfold flush. lead_call x. apply leads_andthen. destruct (negb _); simpl.
  - lead_call u. lead. exists x, [At (S := PG) (Ereport WARNING (flush_warning uri x.1)) u].
    rewrite <-app_assoc. split; [done|]. split; [by repeat constructor|done].
  - lead. exists x, []. split; [done|]. split; [constructor|done].
Qed.

(** A message joins the batch. *)
Lemma leads_batch_message uri ms m st h :
  leads (batch_message uri ms m) st h (fun st' o h' => ∃ t ms', h' = h ++ t ∧ o = Value ms' ∧
    pushed t = [] ∧ ms' = foldl builder_step ms t ∧ unconfirmed_at_polls ms t = [] ∧
    (builder_lawful ms t = true → (Z.of_nat (length ms) < kBatchConfirmFlushThreshold)%Z →
     confirmed t ++ ms' = ms ++ [m] ∧ (Z.of_nat (length ms') < kBatchConfirmFlushThreshold)%Z)).
Proof.
  unfold batch_message. lead_call rc. destruct (negb (rc =? 0)) eqn:Erc.
  - apply negb_true_iff in Erc. apply leads_andthen. apply (leads_mono _ _ _ _ _ (leads_flush uri ms st _)).
    intros st1 ? ? (x & w & -> & Hw & ->). destruct (warnings_silent w Hw) as (W1 & W2 & W3).
    lead_call rc'. set (e1 := At (S := PG) (AddMessageConfirmation m) rc).
    set (e2 := At (S := PG) (ConfirmMessages ms) x). set (e3 := At (S := PG) (AddMessageConfirmation m) rc').
    set (ms0 := if x.2 then [] else ms).
    assert (pushed (e1 :: e2 :: w ++ [e3]) = [] ∧ confirmed (e1 :: e2 :: w ++ [e3]) = ms ∧
      foldl builder_step ms (e1 :: e2 :: w ++ [e3]) = (if rc' =? 0 then ms0 ++ [m] else ms0) ∧
      unconfirmed_at_polls ms (e1 :: e2 :: w ++ [e3]) = [] ∧
      builder_lawful ms (e1 :: e2 :: w ++ [e3]) =
        negb (bool_decide (ms = [])) && (((x.1 =? 0) && x.2) && (negb (bool_decide (ms0 = [])) || (rc' =? 0))))
      as (A1 & A2 & A3 & A4 & A5).
    { rewrite !app_comm_cons, foldl_app, builder_lawful_app, unconfirmed_app, pushed_app, confirmed_app.
      rewrite !pushed_cons, !confirmed_cons, W1, W2. simpl. rewrite Erc. fold ms0. destruct (W3 ms0) as (-> & -> & ->).
      change (confirmed []) with (@nil message). rewrite !app_nil_r, orb_false_r, !andb_true_r, !andb_assoc. done. }
    destruct (negb (rc' =? 0)) eqn:Erc'; simpl.
    + apply negb_true_iff in Erc'. lead_call u. lead.
      exists ((e1 :: e2 :: w ++ [e3]) ++ [At (S := PG) (Ereport WARNING
        ("failed to batch BlazingMQ confirm on queue '" +:+ uri +:+ "' (rc=" +:+ py_str rc' +:+ ")")) u]), ms0.
      split; [by rewrite <-!app_assoc; simpl; rewrite <-!app_assoc|]. split; [done|].
      rewrite pushed_app, foldl_app, unconfirmed_app, builder_lawful_app, confirmed_app, A1, A2, A3, A4, A5, Erc'.
      split; [done|]. split; [done|]. split; [done|]. rewrite orb_false_r, !andb_true_iff.
      intros [(_ & [_ H2] & H3) _]. unfold ms0 in H3. by rewrite H2 in H3.
    + apply negb_false_iff in Erc'. lead. exists (e1 :: e2 :: w ++ [e3]), (ms0 ++ [m]).
      split; [by rewrite <-!app_assoc|]. split; [done|].
      rewrite A1, A2, A3, A4, A5, Erc'. split; [done|]. split; [done|]. split; [done|].
      rewrite !andb_true_iff. intros (_ & [_ H2] & _) _. unfold ms0. rewrite H2. split; [done|].
      unfold kBatchConfirmFlushThreshold. simpl. lia.
  - apply negb_false_iff in Erc. set (e1 := At (S := PG) (AddMessageConfirmation m) rc).
    destruct (kBatchConfirmFlushThreshold <=? _) eqn:Ek.
    + apply (leads_mono _ _ _ _ _ (leads_flush uri (ms ++ [m]) st _)).
      intros st1 ? ? (x & w & -> & Hw & ->). destruct (warnings_silent w Hw) as (W1 & W2 & W3).
      exists (e1 :: At (S := PG) (ConfirmMessages (ms ++ [m])) x :: w), (if x.2 then [] else ms ++ [m]).
      rewrite <-!app_assoc. split; [done|]. split; [done|].
      rewrite !pushed_cons, !confirmed_cons, W1, W2. simpl. rewrite Erc.
      destruct (W3 (if x.2 then [] else ms ++ [m])) as (-> & -> & ->).
      split; [done|]. split; [done|]. split; [done|].
      rewrite orb_true_r, andb_true_r. simpl. rewrite andb_true_iff. intros [_ ->] _.
      split; [by rewrite !app_nil_r|]. unfold kBatchConfirmFlushThreshold. simpl. lia.
    + lead. exists [e1], (ms ++ [m]). unfold pushed, confirmed. simpl. rewrite Erc. do 5 (split; [done|]).
      intros _ _. split; [done|]. by apply Z.leb_gt in Ek.
Qed.

Lemma leads_receive_message uri b m seen r st h t :
  handled b seen r t →
  leads (receive_message uri b m r) st (h ++ t) (fun st' o h' => ∃ t' r', h' = h ++ t ++ t' ∧ o = Value r' ∧
    pushed t' = [] ∧ handled b (seen ++ [m]) r' (t ++ t')).
Proof.
  intros H. unfold receive_message. destruct b.
  - apply leads_andthen, (leads_mono _ _ _ _ _ (leads_batch_message uri (batch r) m st _)).
    intros st1 ? ? (t' & ms' & -> & -> & Hp & -> & Hu & Hc). lead. eexists t', _.
    rewrite <-app_assoc. split; [done|]. split; [done|]. split; [done|].
    by apply (handled_next _ _ _ _ _ _ _ H).
  - unfold confirm_message. apply leads_andthen. lead_call rc.
    assert (∀ w, warnings w → ∃ t' r', ((h ++ t) ++ [At (S := PG) (ConfirmMessage m) rc]) ++ w = h ++ t ++ t' ∧
      Value (Receiving (rows r ++ [data m]) (received r + 1) (batch r)) = Value r' ∧ pushed t' = [] ∧
      handled false (seen ++ [m]) r' (t ++ t')) as Hw.
    { intros w Hw. destruct (warnings_silent w Hw) as (W1 & W2 & W3).
      eexists ([At (S := PG) (ConfirmMessage m) rc] ++ w), _. rewrite <-!app_assoc.
      split; [done|]. split; [done|]. split; [by rewrite pushed_app, W1|].
      apply (handled_next _ _ _ _ _ _ _ H); try done; simpl.
      - by destruct (W3 (batch r)) as (-> & _).
      - intros _. rewrite confirmed_cons, W2. simpl. by destruct (W3 []) as (-> & _).
      - by destruct (W3 (batch r)) as (_ & _ & ->). }
    destruct (negb _); simpl.
    + lead_call u. lead. apply (Hw [_]). by repeat constructor.
    + lead. rewrite <-(app_nil_r ((h ++ t) ++ _)). apply Hw. constructor.
Qed.

(** The messages of an event: as many as there is room for. *)
Lemma leads_receive_event uri b n ms seen r st h t :
  handled b seen r t → Z.of_nat (length seen) ≤ n →
  leads (receive_event uri b n ms r) st (h ++ t) (fun st' o h' => ∃ t' r', h' = h ++ t ++ t' ∧ o = Value r' ∧
    pushed t' = [] ∧ handled b (seen ++ take (Z.to_nat n - length seen) ms) r' (t ++ t')).
Proof.
  revert seen r st t. induction ms as [|m ms IH]; intros seen r st t H Hn; simpl.
  { lead. exists [], r. by rewrite take_nil, !app_nil_r. }
  pose proof (handled_received _ _ _ _ H) as Hr. destruct (received r <? n) eqn:E.
  - apply Z.ltb_lt in E. apply leads_andthen, (leads_mono _ _ _ _ _ (leads_receive_message uri b m seen r st h t H)).
    intros st1 ? ? (t1 & r1 & -> & -> & Hp & H1).
    assert (Z.of_nat (length (seen ++ [m])) ≤ n) as Hn1 by (rewrite length_app; simpl; lia).
    apply (leads_mono _ _ _ _ _ (IH _ r1 st1 (t ++ t1) H1 Hn1)).
    intros st2 ? ? (t2 & r2 & -> & -> & Hp2 & H2). exists (t1 ++ t2), r2.
    rewrite pushed_app, Hp, Hp2, app_assoc. rewrite <-app_assoc in H2. rewrite <-!app_assoc.
    do 3 (split; [done|]). rewrite <-app_assoc, length_app in H2. simpl in H2.
    by replace (Z.to_nat n - length seen)%nat with (S (Z.to_nat n - (length seen + 1)))%nat by lia.
  - apply Z.ltb_ge in E. lead. exists [], r. rewrite !app_nil_r.
    replace (Z.to_nat n - length seen)%nat with 0%nat by lia. by rewrite take_0, app_nil_r.
Qed.

(** The clock readings, the first of which sets the deadline. *)
Definition clock_of (e : answered PG) : option Z :=
  match e with At SteadyNow now => Some now | _ => None end.

Definition clock (t : pglog) : list Z := omap clock_of t.

Lemma clock_app t1 t2 : clock (t1 ++ t2) = clock t1 ++ clock t2.
Proof. apply omap_app. Qed.

(** A poll or a clock reading changes nothing else. *)
Lemma handled_poll b seen r t timeout ev :
  handled b seen r t → handled b seen r (t ++ [At (S := PG) (NextEvent timeout) ev]).
Proof.
  intros [Hr Hn Hb H1 H2 Hw]. split; try done.
  - by rewrite foldl_app.
  - intros E. rewrite confirmed_app, foldl_app, app_nil_r. auto.
  - intros E. rewrite builder_lawful_app, andb_true_iff, confirmed_app, app_nil_r. intros [L _]. auto.
  - rewrite builder_lawful_app, andb_true_iff, unconfirmed_app. intros [L _]. apply Forall_app.
    split; [auto|]. simpl. constructor; [|done]. rewrite <-Hb. destruct b.
    + by apply H2.
    + destruct (H1 eq_refl) as [_ E]. by rewrite Hb, E.
Qed.

Lemma handled_other b seen r t c x :
  match c with
  | NextEvent _ | ConfirmMessage _ | AddMessageConfirmation _ | ConfirmMessages _ => false
  | _ => true
  end = true →
  handled b seen r t → handled b seen r (t ++ [At (S := PG) c x]).
Proof.
  intros Hc [Hr Hn Hb H1 H2 Hw].
  assert (confirmed (t ++ [At (S := PG) c x]) = confirmed t ∧
    (∀ ms, foldl builder_step ms (t ++ [At (S := PG) c x]) = foldl builder_step ms t) ∧
    (∀ ms, builder_lawful ms (t ++ [At (S := PG) c x]) = builder_lawful ms t) ∧
    (∀ ms, unconfirmed_at_polls ms (t ++ [At (S := PG) c x]) = unconfirmed_at_polls ms t)) as (E1 & E2 & E3 & E4).
  { rewrite confirmed_app. setoid_rewrite foldl_app. setoid_rewrite builder_lawful_app.
    setoid_rewrite unconfirmed_app. unfold confirmed. simpl.
    by destruct c; rewrite ?app_nil_r; repeat split; intros; rewrite ?app_nil_r, ?andb_true_r. }
  split; rewrite ?E1, ?E2, ?E3, ?E4; auto.
Qed.

(** The calls that confirming consists of; none reads the clock. *)
Definition confirming (c : pg_call) : bool :=
  match c with
  | ConfirmMessage _ | AddMessageConfirmation _ | ConfirmMessages _ | Ereport _ _ => true
  | _ => false
  end.

Lemma only_flush uri ms : only confirming (flush uri ms).
Proof.
  unfold flush. seq_in; [auto with within|]. intros x. seq_in; [|auto with within].
  destruct (negb _); auto with within.
Qed.

Lemma only_receive_event uri b n ms r : only confirming (receive_event uri b n ms r).
Proof.
  revert r. induction ms as [|m ms IH]; intros r; simpl; [auto with within|].
  destruct (_ <? _); [|auto with within]. seq_in; [|done]. unfold receive_message. destruct b.
  - seq_in; [|auto with within]. unfold batch_message. seq_in; [auto with within|]. intros rc.
    destruct (negb _).
    + seq_in; [apply only_flush|]. intros ms'. seq_in; [auto with within|]. intros rc'.
      destruct (negb _); [seq_in|]; auto with within.
    + destruct (_ <=? _); [apply only_flush|auto with within].
  - seq_in; [|auto with within]. unfold confirm_message. seq_in; [auto with within|]. intros rc.
    destruct (negb _); auto with within.
Qed.

Lemma confirming_clock t :
  Forall (fun e : answered PG => confirming (at_call e) = true) t → clock t = [].
Proof.
  induction 1 as [|[c x] t Hc _ IH]; [done|]. unfold clock in *. by destruct c.
Qed.

(** The loop: what has been pushed is received, up to [n]; it ends before
    [n] only when less than a millisecond is left. *)
Lemma leads_receive_loop fuel uri b n deadline r st h t :
  handled b (take (Z.to_nat n) (pushed t)) r t →
  leads (receive_loop fuel uri b n deadline r) st (h ++ t) (fun st' o h' => ∃ t' r',
    h' = h ++ t ++ t' ∧ o = Value r' ∧ handled b (take (Z.to_nat n) (pushed (t ++ t'))) r' (t ++ t') ∧
    (received r' < n → ∃ now, last (clock t') = Some now ∧ deadline - now < 1000000)).
Proof.
  revert r st t. induction fuel as [|fuel IH]; intros r st t H; simpl; [done|].
  pose proof (handled_received _ _ _ _ H) as Hr.
  destruct (received r <? n) eqn:E; simpl.
  2: { apply Z.ltb_ge in E. lead. exists [], r. rewrite !app_nil_r.
    do 3 (split; [done|]). lia. }
  apply Z.ltb_lt in E. lead_call now.
  pose proof (handled_other _ _ _ _ SteadyNow now eq_refl H) as H1. set (e1 := At (S := PG) SteadyNow now) in *.
  destruct (remaining_ms deadline now <=? 0) eqn:Ed.
  { apply Z.leb_le in Ed. lead. exists [e1], r. rewrite pushed_app, app_nil_r, app_assoc.
    do 3 (split; [done|]). intros _. exists now. split; [done|]. unfold remaining_ms in Ed.
    destruct (Z.le_gt_cases (deadline - now) 0) as [|Hpos]; [lia|].
    rewrite Z.quot_div_nonneg in Ed by lia. pose proof (Z.div_mod (deadline - now) 1000000).
    pose proof (Z.mod_pos_bound (deadline - now) 1000000). lia. }
  lead_call ev. set (e2 := At (S := PG) (NextEvent _) ev).
  assert (handled b (take (Z.to_nat n) (pushed t)) r (t ++ [e1; e2])) as H2.
  { change [e1; e2] with ([e1] ++ [e2]). rewrite app_assoc. by apply handled_poll. }
  assert (∀ t1 r1 st1, handled b (take (Z.to_nat n) (pushed (t ++ t1))) r1 (t ++ t1) → 
    leads (receive_loop fuel uri b n deadline r1) st1 (h ++ t ++ t1) (fun st' o h' => ∃ t' r',
      h' = h ++ t ++ t' ∧ o = Value r' ∧ handled b (take (Z.to_nat n) (pushed (t ++ t'))) r' (t ++ t') ∧
      (received r' < n → ∃ now, last (clock t') = Some now ∧ deadline - now < 1000000))) as Hgo.
  { intros t1 r1 st1 Hh. apply (leads_mono _ _ _ _ _ (IH r1 st1 (t ++ t1) Hh)).
    intros st2 ? ? (t2 & r2 & -> & -> & Hh2 & Hc). exists (t1 ++ t2), r2. rewrite <-!app_assoc in *.
    do 3 (split; [done|]). intros Hlt. destruct (Hc Hlt) as (now' & Hl & Hd). exists now'. split; [|done].
    by rewrite clock_app, last_app, Hl. }
  rewrite <-!app_assoc. destruct ev as [| |ms].
  - apply Hgo. rewrite pushed_app. change (pushed [e1; e2]) with (@nil message). by rewrite app_nil_r.
  - apply Hgo. rewrite pushed_app. change (pushed [e1; e2]) with (@nil message). by rewrite app_nil_r.
  - set (seen := take (Z.to_nat n) (pushed t)) in *.
    assert (Z.of_nat (length seen) ≤ n) as Hlen by lia.
    apply leads_andthen.
    apply (leads_mono _ _ _ _ _ (leads_receive_event uri b n ms seen r st h (t ++ [e1; e2]) H2 Hlen)).
    intros st1 ? ? (t1 & r1 & -> & -> & Hp & H3).
    assert (take (Z.to_nat n) (pushed (t ++ [e1; e2] ++ t1)) = seen ++ take (Z.to_nat n - length seen) ms) as Ep.
    { rewrite !pushed_app, Hp. change (pushed [e1; e2]) with (ms ++ []). rewrite !app_nil_r, take_app.
      subst seen. f_equal. rewrite length_take. rewrite length_take in Hr. f_equal. lia. }
    rewrite <-app_assoc. apply (Hgo ([e1; e2] ++ t1)). by rewrite Ep, app_assoc.
Qed.

(** Opening the session and the queue leaves nothing received. *)
Lemma handled_opening b t :
  Forall (fun e : answered PG => opening (at_call e) = true) t →
  handled b [] (Receiving [] 0 []) t ∧ pushed t = [] ∧ clock t = [].
Proof.
  induction t as [|[c x] t IH] using rev_ind; intros H; [done|].
  apply Forall_app in H as [H Hc]. inversion_clear Hc as [|?? Hc' _]. simpl in Hc'.
  destruct (IH H) as (H1 & H2 & H3). split; [|split].
  - apply handled_other; [by destruct c|done].
  - rewrite pushed_app, H2. by destruct c.
  - rewrite clock_app, H3. by destruct c.
Qed.

(** What is still in the builder at the end is flushed. *)
Lemma leads_last_flush uri b seen r st h t :
  handled b seen r t →
  leads (if b && (0 <? Z.of_nat (length (batch r))) then flush uri (batch r);; returns () else returns ()) st
    (h ++ t) (fun st' o h' => ∃ t', h' = h ++ t ++ t' ∧ o = Value () ∧ pushed t' = [] ∧ clock t' = [] ∧
      (b = false → confirmed (t ++ t') = seen) ∧
      (b = true → builder_lawful [] (t ++ t') = true → confirmed (t ++ t') = seen ∧
        Forall (fun k => k < kBatchConfirmFlushThreshold) (unconfirmed_at_polls [] (t ++ t')))).
Proof.
  intros H. destruct b; simpl.
  2: { lead. exists []. rewrite !app_nil_r. do 4 (split; [done|]). split; [|done].
    intros _. by apply (handled_single _ _ _ _ H). }
  destruct (0 <? Z.of_nat (length (batch r))) eqn:E.
  - apply leads_andthen, (leads_mono _ _ _ _ _ (leads_flush uri (batch r) st _)).
    intros st1 ? ? (x & w & -> & Hw & ->). lead. destruct (warnings_silent w Hw) as (W1 & W2 & W3).
    exists ([At (S := PG) (ConfirmMessages (batch r)) x] ++ w). rewrite <-!app_assoc.
    do 2 (split; [done|]). split; [by rewrite pushed_app, W1|].
    split. { rewrite clock_app. simpl. apply confirming_clock. eapply Forall_impl; [exact Hw|].
      by intros [[] ?]. }
    split; [done|]. intros _. rewrite !builder_lawful_app, !confirmed_app, !unconfirmed_app, W2, app_nil_r.
    rewrite andb_true_iff. intros [L _]. destruct (handled_batch _ _ _ _ H eq_refl L) as [<- _].
    split; [by rewrite confirmed_cons, app_nil_r|].
    destruct (W3 (foldl builder_step (foldl builder_step [] t) [At (S := PG) (ConfirmMessages (batch r)) x]))
      as (_ & _ & ->). rewrite !app_nil_r. by apply (handled_window _ _ _ _ H).
  - lead. exists []. rewrite !app_nil_r. do 4 (split; [done|]). split; [done|]. intros _ L.
    destruct (handled_batch _ _ _ _ H eq_refl L) as [<- _]. destruct (batch r); [|done].
    split; [by rewrite app_nil_r|]. by apply (handled_window _ _ _ _ H).
Qed.

(** What the call owes its caller and the broker. *)
Definition received_exactly (n timeout_ms : Z) (batch_confirm : bool) (t : pglog) (rows : list string) : Prop :=
  let received := take (Z.to_nat n) (pushed t) in
  rows = data <$> received ∧
  (Z.of_nat (length rows) < n → ∃ start now, head (clock t) = Some start ∧ last (clock t) = Some now ∧
     start + timeout_ms * 1000000 - now < 1000000) ∧
  (batch_confirm = false → confirmed t = received) ∧
  (batch_confirm = true → builder_lawful [] t = true → confirmed t = received ∧
     Forall (fun k => k < kBatchConfirmFlushThreshold) (unconfirmed_at_polls [] t)).

Lemma leads_consume_rows fuel uri expr n ms b st h :
  tracked st h → 1 ≤ n →
  leads (consume_rows fuel uri expr n ms b) st h (fun _ o h' => ∃ t, h' = h ++ t ∧
    match o with
    | Value rows => received_exactly n ms b t rows
    | Throws _ => pushed t = [] ∧ confirmed t = []
    | Errors _ => False
    end).
Proof.
  intros H Hn. unfold consume_rows. apply leads_open; [done|..].
  - intros st' w t Ht _ _. exists t. split; [done|]. destruct (handled_opening false t Ht) as (Ho & Hp & _).
    split; [done|]. by apply (handled_single _ _ _ _ Ho).
  - intros q st' t Ht _ _ _. destruct (handled_opening b t Ht) as (Ho & Hp & Hck).
    lead_call start. set (e := At (S := PG) SteadyNow start).
    assert (handled b (take (Z.to_nat n) (pushed (t ++ [e]))) (Receiving [] 0 []) (t ++ [e])) as H1.
    { rewrite pushed_app, Hp. change (pushed [e]) with (@nil message). cbn [app]. rewrite take_nil.
      by apply handled_other. }
    rewrite <-app_assoc. apply leads_andthen.
    apply (leads_mono _ _ _ _ _ (leads_receive_loop fuel uri b n (start + ms * 1000000) _ st' h (t ++ [e]) H1)).
    intros st1 ? ? (t1 & r & -> & -> & Hh & Hend). apply leads_andthen.
    apply (leads_mono _ _ _ _ _ (leads_last_flush uri b _ r st1 h _ Hh)).
    intros st2 ? ? (t2 & -> & -> & Hp2 & Hc2 & Hs & Hb). lead.
    exists ((t ++ [e]) ++ t1 ++ t2). rewrite <-!app_assoc. split; [done|].
    rewrite !app_assoc in *. unfold received_exactly. rewrite pushed_app, Hp2, app_nil_r.
    split; [apply (handled_rows _ _ _ _ Hh)|]. split; [|done].
    rewrite (handled_rows _ _ _ _ Hh), length_fmap, <-(handled_received _ _ _ _ Hh).
    intros Hlt. destruct (Hend Hlt) as (now & Hl & Hd). exists start, now.
    rewrite !clock_app, Hck, Hc2, app_nil_r. split; [done|]. split; [|done]. by rewrite last_app, Hl.
Qed.

Lemma leads_consume fuel uri expr max_messages timeout_ms batch_confirm st h :
  tracked st h → 1 ≤ default 1 max_messages → 0 ≤ default 1000 timeout_ms →
  leads (bmq_consume fuel true (Some uri) expr max_messages timeout_ms batch_confirm) st h (fun _ o h' =>
    ∃ t, h' = h ++ t ∧
    match o with
    | Value rows =>
        received_exactly (default 1 max_messages) (default 1000 timeout_ms) (default false batch_confirm) t rows
    | Errors e =>
        errcode e = CONNECTION_EXCEPTION ∧ errmsg e = "bmq_consume failed" ∧ pushed t = [] ∧ confirmed t = []
    | Throws _ => False
    end).
Proof.
  intros H Hn Hms. unfold bmq_consume.
  destruct (Z.ltb_spec (default 1 max_messages) 1) as [|_]; [lia|].
  destruct (Z.ltb_spec (default 1000 timeout_ms) 0) as [|_]; [lia|]. simpl negb. cbv iota.
  apply leads_catches, (leads_mono _ _ _ _ _ (leads_consume_rows fuel uri (default EmptyString expr) _ _ _ st h H Hn)).
  intros st1 [rows|w|e] h1 (t1 & -> & Hc); [|lead|done]; by exists t1.
Qed.

(** ** Termination *)

Lemma finishes_flush uri ms : finishes (flush uri ms).
Proof. unfold flush. auto 8 with finishes. Qed.

#[local] Hint Resolve finishes_flush : finishes.

Lemma finishes_receive_event uri b n ms r : finishes (receive_event uri b n ms r).
Proof.
  revert r. induction ms as [|m ms IH]; intros r; simpl; [auto with finishes|].
  unfold receive_message, batch_message, confirm_message. auto 12 with finishes.
Qed.

(** Every iteration that did not end the loop found time left. *)
Lemma receive_loop_out_of_fuel fuel uri b n deadline r st t :
  takes (receive_loop fuel uri b n deadline r st) t None →
  length (clock t) = fuel ∧ Forall (fun now => now < deadline) (clock t).
Proof.
  revert r st t. induction fuel as [|fuel IH]; intros r st t; cbn [receive_loop].
  { by intros [-> _]. }
  destruct (negb _); [by intros [_ ?]|]. intros (now & t1 & -> & H)%takes_does.
  change (clock (At (S := PG) SteadyNow now :: t1)) with (now :: clock t1).
  destruct (remaining_ms deadline now <=? 0) eqn:E; [by destruct H|]. apply Z.leb_gt in E.
  assert (now < deadline) as Hnow.
  { unfold remaining_ms in E. destruct (Z.le_gt_cases (deadline - now) 0) as [Hle|]; [|lia].
    pose proof (Z.quot_le_mono (deadline - now) 0 1000000). rewrite Z.quot_0_l in * by done. lia. }
  apply takes_does in H as (ev & t2 & -> & H).
  assert (∀ t1 t2, Forall (fun e : answered PG => confirming (at_call e) = true) t1 →
    (∃ r st, takes (receive_loop fuel uri b n deadline r st) t2 None) →
    length (now :: clock (t1 ++ t2)) = S fuel ∧ Forall (fun x => x < deadline) (now :: clock (t1 ++ t2))) as Hgo.
  { intros u1 u2 Hu (r2 & st2 & H2). destruct (IH _ _ _ H2) as [Hl Hf].
    rewrite clock_app, confirming_clock by done. simpl. split; [congruence|by constructor]. }
  destruct ev as [| |ms]; [by apply (Hgo [] t2); eauto..|].
  apply takes_bind in H as [([st' o] & u1 & u2 & -> & H1 & H2)|[H _]];
    [|by apply finishes_receive_event in H].
  pose proof (leads_takes _ _ [] _ _ _ _ (only_receive_event uri b n ms r st []) H1) as (u & E1 & Hu).
  simpl in E1. subst u. destruct o as [r'|w|e]; [|by destruct H2..]. apply (Hgo u1 u2); eauto.
Qed.

Lemma consume_rows_out_of_fuel fuel uri expr n ms b st t :
  takes (consume_rows fuel uri expr n ms b st) t None →
  ∃ start l, clock t = start :: l ∧ length l = fuel ∧ Forall (fun now => now < start + ms * 1000000) l.
Proof.
  intros [([st1 [[]|w|e]] & t1 & t2 & -> & H1 & H)|[H _]]%takes_bind;
    [|by destruct H..|by apply finishes_get_session in H].
  apply takes_bind in H as [([st2 [q|w|e]] & t3 & t4 & -> & H2 & H)|[H _]];
    [|by destruct H..|by apply finishes_get_queue in H].
  apply takes_does in H as (start & t5 & -> & H).
  apply takes_bind in H as [([st3 [r|w|e]] & t6 & t7 & -> & H3 & H)|[H _]]; [|by destruct H..|].
  { exfalso. revert H. apply finishes_andthen; [|intros ?; auto with finishes].
    destruct (_ && _); auto with finishes. }
  apply receive_loop_out_of_fuel in H as [Hl Hf]. exists start, (clock t5).
  pose proof (leads_takes _ _ [] _ _ _ _ (only_get_session st []) H1) as (u1 & E1 & Hu1).
  pose proof (leads_takes _ _ [] _ _ _ _ (only_get_queue uri expr st1 []) H2) as (u2 & E2 & Hu2).
  simpl in E1, E2. subst u1 u2. destruct (handled_opening b _ Hu1) as (_ & _ & C1).
  destruct (handled_opening b _ Hu2) as (_ & _ & C2). by rewrite !clock_app, C1, C2.
Qed.

Lemma steps_apart δ start l i x :
  (∀ i x y, (start :: l) !! i = Some x → (start :: l) !! S i = Some y → x + δ ≤ y) →
  (start :: l) !! i = Some x → start + Z.of_nat i * δ ≤ x.
Proof.
  intros H. revert x. induction i as [|i IH]; intros x Hx; [injection Hx as ->; lia|].
  destruct (lookup_lt_is_Some_2 (start :: l) i) as [y Hy].
  { apply lookup_lt_Some in Hx. lia. }
  specialize (IH y Hy). specialize (H i y x Hy Hx). lia.
Qed.

(** ** Properties *)

(** C4. bmq_consume, whatever the library answers. The rows it returns are
    exactly the first max_messages of the messages pushed to it, in order; it
    returns fewer only when less than a millisecond of the timeout is left.
    Without batch_confirm each of those messages is confirmed once, in order,
    and no other message is. With it the same holds when the confirm builder
    behaves as documented and the flushes succeed, and then fewer than 500
    messages are unconfirmed whenever another event is asked for: the code
    flushes as soon as 500 confirmations have accumulated, where the README
    and the SQL file say that they are sent as one batch after the receive
    loop, and that a backend which dies before that redelivers every message
    of the call. What the last event held beyond max_messages is neither
    returned nor confirmed. If the session or the queue cannot be opened, no
    message is received. *)
Theorem consume_exact fuel uri expr max_messages timeout_ms batch_confirm st h t st' o :
  tracked st h → 1 ≤ default 1 max_messages → 0 ≤ default 1000 timeout_ms →
  takes (bmq_consume fuel true (Some uri) expr max_messages timeout_ms batch_confirm st) t (Some (st', o)) →
  match o with
  | Value rows =>
      received_exactly (default 1 max_messages) (default 1000 timeout_ms) (default false batch_confirm) t rows
  | Errors e =>
      errcode e = CONNECTION_EXCEPTION ∧ errmsg e = "bmq_consume failed" ∧ pushed t = [] ∧ confirmed t = []
  | Throws _ => False
  end.
Proof.
  intros H Hn Hms Ht.
  destruct (leads_takes _ _ _ _ _ _ _ (leads_consume fuel uri expr max_messages timeout_ms batch_confirm st h H Hn Hms) Ht)
    as (t' & E & Hspec). by apply app_inv_head in E as <-.
Qed.

(** C21. bmq_consume terminates: when two clock readings are at least [δ]
    nanoseconds apart, an iteration for every [δ] of the timeout and one more
    is enough, whatever events arrive. *)
Theorem consume_terminates fuel materialize uri expr max_messages timeout_ms batch_confirm st t r δ :
  takes (bmq_consume fuel materialize uri expr max_messages timeout_ms batch_confirm st) t r →
  0 < δ → (∀ i x y, clock t !! i = Some x → clock t !! S i = Some y → x + δ ≤ y) →
  default 1000 timeout_ms * 1000000 < Z.of_nat fuel * δ → is_Some r.
Proof.
  intros H Hδ Hstep Hfuel. destruct r as [r|]; [done|exfalso]. revert H. unfold bmq_consume.
  destruct uri as [uri|]; [|by intros [_ ?]]. destruct (_ <? 1); [by intros [_ ?]|].
  destruct (Z.ltb_spec (default 1000 timeout_ms) 0) as [|Hms]; [by intros [_ ?]|].
  destruct (negb _); [by intros [_ ?]|].
  intros [([st1 []] & t1 & t2 & _ & _ & [_ ?])|[H _]]%takes_bind; [done..|].
  apply consume_rows_out_of_fuel in H as (start & l & Ec & <- & Hl). rewrite Ec in Hstep.
  destruct (last l) as [x|] eqn:El.
  - rewrite last_lookup in El. destruct l as [|y l]; [done|].
    pose proof (steps_apart _ _ _ (length (y :: l)) x Hstep El).
    apply list_elem_of_lookup_2 in El. rewrite Forall_forall in Hl. specialize (Hl _ El). lia.
  - apply last_None in El as ->. simpl in Hfuel. lia.
Qed.

(** ** The properties at work *)

Module ConsumeExample.
Definition msg (i : Z) : message := Message i (py_str i).

(** The queue holds five messages, pushed as one event and a second. *)
Definition world := easy_world [EvOther; EvPush [msg 1; msg 2; msg 3]; EvPush [msg 4; msg 5]] 1.

Definition run (n : Z) (batch_confirm : bool) :=
  in_world world (bmq_consume 5 true (Some "bmq://q") None (Some n) (Some 1000) (Some batch_confirm))
    (fresh default_broker_uri).

Definition ended : backend :=
  Backend default_broker_uri true
    (Some {[ "bmq://q" := QueueEntry (QueueHandle "bmq://q" 2) EmptyString ]}) true.

(** The fifth message came with the fourth and is lost to this consumer. *)
Example four : (run 4 false).2 = Some (ended, Value ["1"; "2"; "3"; "4"]) ∧
  confirmed (run 4 false).1 = [msg 1; msg 2; msg 3; msg 4] ∧
  pushed (run 4 false).1 = [msg 1; msg 2; msg 3; msg 4; msg 5].
Proof. by vm_compute. Qed.

Example batched : confirmed (run 4 true).1 = [msg 1; msg 2; msg 3; msg 4] ∧ builder_lawful [] (run 4 true).1 = true.
Proof. by vm_compute. Qed.

(** With no time to wait the session is not asked at all. *)
Example no_time : (snd <$> (in_world world
    (bmq_consume 1 true (Some "bmq://q") None None (Some 0) None) (fresh default_broker_uri)).2)
  = Some (Value []).
Proof. by vm_compute. Qed.

(** Every call takes half a second; one message in two arrives. *)
Definition slow := in_world (easy_world [EvPush [msg 1]] 500000000)
  (bmq_consume 3 true (Some "bmq://q") None (Some 2) (Some 1200) None) (fresh default_broker_uri).

Example slow_clock : clock slow.1 = [1500000000; 2000000000; 3500000000].
Proof. by vm_compute. Qed.
End ConsumeExample.

Lemma consume_exact_witness :
  received_exactly 4 1000 true (ConsumeExample.run 4 true).1 ["1"; "2"; "3"; "4"].
Proof.
  refine (consume_exact 5 "bmq://q" None (Some 4) (Some 1000) (Some true) (fresh default_broker_uri) []
    (ConsumeExample.run 4 true).1 ConsumeExample.ended (Value ["1"; "2"; "3"; "4"]) (tracked_fresh _)
    ltac:(simpl; lia) ltac:(simpl; lia) _).
  refine (eq_ind _ (fun r => takes _ _ r) (play_takes _ _ []) _ _). vm_compute. reflexivity.
Defined.

Lemma consume_terminates_witness : is_Some ConsumeExample.slow.2.
Proof.
  refine (consume_terminates 3 true (Some "bmq://q") None (Some 2) (Some 1200) None
    (fresh default_broker_uri) ConsumeExample.slow.1 ConsumeExample.slow.2 500000000
    (play_takes _ _ []) ltac:(lia) _ ltac:(simpl; lia)).
  rewrite ConsumeExample.slow_clock. intros [|[|[|i]]] x y; simpl; intros [= <-] [= <-]; lia.
Defined.
