(* ===== verification/Subscriber.v ===== *)
(** * Subscriptions (pg_blazingmq.cpp)

    [bmq_subscribe] hands a queue and a callback to a background worker
    through a shared segment; the worker runs the callback on every message,
    each in a transaction of its own, and confirms those it committed. *)
From S2P Require Import Prelude PyFloat PyStr Effects Backend Consume.
#[local] Open Scope cxx_scope.

Definition kSubscriberBgwType : string := "pg_blazingmq subscriber".

Definition BYTEAOID : Z := 17.

(** The size of the text fields of [SubscriberConfig]. *)
Definition config_field_size : Z := 512.

Definition validate_callback_fn (callback_fn : Z) : cxx unit :=
  proc <- does (LookupProc callback_fn);;
  match proc with
  | None => ereport_error ("callback function with OID " +:+ py_str callback_fn +:+ " does not exist")
  | Some argtypes =>
      if bool_decide (argtypes = [BYTEAOID]) then returns ()
      else ereport_error ("callback function must take exactly one " +:+ dquote +:+ "bytea" +:+ dquote +:+ " argument")
  end.

Definition ready_timeout_ms : Z := 5000.
Definition poll_interval_us : Z := 20000.

(** [while (ready == 0 && waited_us < ready_timeout_ms * 1000)] *)
Fixpoint poll_ready (fuel : nat) (waited_us : Z) : cxx unit :=
  match fuel with
  | O => out_of_fuel
  | S fuel' =>
      ready <- does ReadReady;;
      if (ready =? 0) && (waited_us <? ready_timeout_ms * 1000) then
        does (Usleep poll_interval_us);;
        poll_ready fuel' (waited_us + poll_interval_us)
      else returns ()
  end.

Definition too_long (what : string) : string :=
  what +:+ " is too long (max " +:+ py_str (config_field_size - 1) +:+ " bytes)".

Definition not_ready_warning (pid : Z) : string :=
  "pg_blazingmq subscriber worker (pid " +:+ py_str pid +:+ ") has not finished opening its queue after "
    +:+ py_str ready_timeout_ms +:+ "ms - messages published immediately may not be delivered; it is still running and will keep trying".

(** The worker is registered with the segment and given time to be ready. *)
Definition start_worker (cfg : config) : cxx Z :=
  does (DsmCreate cfg);;
  does DsmPin;;
  registered <- does RegisterWorker;;
  if negb registered then
    does DsmDetach;;
    ereport_error "failed to register BlazingMQ subscriber background worker (max_worker_processes may be exhausted)"
  else
    status <- does WaitStartup;;
    match status with
    | NotStarted status =>
        does DsmDetach;;
        ereport_error ("BlazingMQ subscriber background worker failed to start (status=" +:+ py_str status
                       +:+ ") - check the server log")
    | Started pid =>
        poll_ready 251 0;;
        ready <- does ReadReady;;
        (if ready =? 0 then warn (not_ready_warning pid) else returns ());;
        does DsmDetach;;
        returns pid
    end.

Section backend.
(** [MyDatabaseId] and [GetUserId()]. *)
Context (MyDatabaseId GetUserId : Z).

Definition bmq_subscribe (queue_uri : option string) (callback_fn : option Z)
    (subscription_expr : option string) : cxx Z :=
  match queue_uri, callback_fn with
  | None, _ => ereport_error "queue_uri must not be null"
  | _, None => ereport_error "callback_fn must not be null"
  | Some uri, Some fn =>
      let expr := default EmptyString subscription_expr in
      validate_callback_fn fn;;
      if config_field_size <=? Z.of_nat (String.length uri) then ereport_error (too_long "queue_uri")
      else if config_field_size <=? Z.of_nat (String.length expr) then
        ereport_error (too_long "subscription_expr")
      else start_worker (Config MyDatabaseId GetUserId fn uri expr)
  end.
End backend.

Definition bmq_unsubscribe (worker_pid : option Z) : cxx bool :=
  match worker_pid with
  | None => ereport_error "worker_pid must not be null"
  | Some pid =>
      does SpiConnect;;
      is_ours <- does (QueryActivity pid kSubscriberBgwType);;
      does SpiFinish;;
      if negb is_ours then
        ereport_error ("pid " +:+ py_str pid +:+ " is not an active pg_blazingmq subscriber worker")
      else
        failed <- does (KillTerm pid);;
        match failed with
        | Some text => warn ("failed to signal worker pid " +:+ py_str pid +:+ ": " +:+ text);; returns false
        | None => returns true
        end
  end.

(** ** The worker *)

(** One message: its transaction, and whether the callback returned. *)
Definition run_callback (uri : string) (fn : Z) (m : message) : cxx bool :=
  does StartTransaction;;
  does SpiConnect;;
  does PushSnapshot;;
  raised <- does (CallFunction fn (data m));;
  match raised with
  | Some text =>
      does PopSnapshot;;
      does SpiFinish;;
      does AbortTransaction;;
      warn ("pg_blazingmq subscriber: callback failed for queue '" +:+ uri
            +:+ "', message left unconfirmed: " +:+ text);;
      returns false
  | None => returns true
  end.

(** An error raised by the commit itself leaves the function. *)
Definition commit_and_confirm (m : message) : cxx unit :=
  does PopSnapshot;;
  does SpiFinish;;
  raised <- does CommitTransaction;;
  match raised with
  | Some text => ereport_error text
  | None => does (ConfirmMessage m);; returns ()
  end.

Definition deliver (uri : string) (fn : Z) (m : message) : cxx unit :=
  callback_ok <- run_callback uri fn m;;
  if callback_ok : bool then commit_and_confirm m else returns ().

(** [while (msgIter.nextMessage())], left when a shutdown was requested. *)
Fixpoint deliver_event (uri : string) (fn : Z) (ms : list message) : cxx unit :=
  match ms with
  | [] => returns ()
  | m :: ms' =>
      deliver uri fn m;;
      stop <- does ShutdownPending;;
      if stop : bool then returns () else deliver_event uri fn ms'
  end.

(** One unit of fuel per test of [ShutdownRequestPending]. *)
Fixpoint serve (fuel : nat) (uri : string) (fn : Z) : cxx unit :=
  match fuel with
  | O => out_of_fuel
  | S fuel' =>
      stop <- does ShutdownPending;;
      if stop : bool then returns () else
      interrupted <- does CheckForInterrupts;;
      match interrupted with
      | Some text => ereport_error text
      | None =>
          event <- does (NextEvent (Parts 1 0));;
          match event with
          | EvOther | EvNotPush => serve fuel' uri fn
          | EvPush ms => deliver_event uri fn ms;; serve fuel' uri fn
          end
      end
  end.

(** The C++ handler; the segment is detached unless it has been already. *)
Definition exit_on_error (uri : string) (seg_detached : bool) (what : string) : cxx unit :=
  (if seg_detached then returns () else does DsmDetach);;
  does (Ereport LOG ("pg_blazingmq subscriber for queue '" +:+ uri +:+ "' exiting on error: " +:+ what)).

(** The process ends, through the hook when one is registered. *)
Definition proc_exit (code : Z) : cxx unit :=
  registered <- gets exit_hook;;
  (if registered : bool then pg_blazingmq_exit_hook else returns ());;
  does (ProcExit code).

(** Once the segment is attached. *)
Definition run_worker (fuel : nat) (cfg : config) : cxx unit :=
  let uri := cfg_queue_uri cfg in
  does (InitConnection (cfg_dbid cfg) (cfg_roleid cfg));;
  does (Ereport LOG ("pg_blazingmq subscriber started for queue '" +:+ uri +:+ "'"));;
  catches
    (get_session;;
     queueId <- get_queue uri (cfg_subscription_expr cfg);;
     does WriteReady;;
     does DsmDetach;;
     catches (serve fuel uri (cfg_callback cfg)) (exit_on_error uri true))
    (exit_on_error uri false);;
  does (Ereport LOG ("pg_blazingmq subscriber stopping for queue '" +:+ uri +:+ "'"));;
  proc_exit 0.

Definition bmq_subscriber_main (fuel : nat) : cxx unit :=
  seg <- does DsmAttach;;
  match seg with
  | None =>
      does (Ereport FATAL "pg_blazingmq subscriber: failed to attach DSM segment");;
      proc_exit 1
  | Some cfg => run_worker fuel cfg
  end.

(** ** It keeps the session's queues in order *)

Lemma keeps_poll_ready fuel waited : keeps (poll_ready fuel waited).
Proof.
  revert waited. induction fuel as [|fuel IH]; intros waited; cbn [poll_ready]; [auto with within|].
  seq_in; [auto with within|]. intros ready. destruct (_ && _); [|auto with within].
  seq_in; [auto with within|done].
Qed.

Lemma keeps_subscribe db role uri fn expr : keeps (bmq_subscribe db role uri fn expr).
Proof.
  unfold bmq_subscribe. destruct uri as [uri|], fn as [fn|]; try pure_in.
  seq_in.
  - unfold validate_callback_fn. seq_in; [auto with within|]. intros [argtypes|]; [|auto with within].
    destruct (bool_decide _); auto with within.
  - intros _. destruct (_ <=? _); [auto with within|]. destruct (_ <=? _); [auto with within|].
    unfold start_worker. seq_in; [auto with within|]. intros _. seq_in; [auto with within|]. intros _.
    seq_in; [auto with within|]. intros registered. destruct (negb _); [auto with within|].
    seq_in; [auto with within|]. intros [pid|status]; [|auto with within].
    seq_in; [apply keeps_poll_ready|]. intros _. seq_in; [auto with within|]. intros ready.
    seq_in; [destruct (_ =? _)|]; auto with within.
Qed.

Lemma keeps_unsubscribe pid : keeps (bmq_unsubscribe pid).
Proof.
  unfold bmq_unsubscribe. destruct pid as [pid|]; [|auto with within].
  seq_in; [auto with within|]. intros _. seq_in; [auto with within|]. intros ours.
  seq_in; [auto with within|]. intros _. destruct (negb _); [auto with within|].
  seq_in; [auto with within|]. intros [text|]; auto with within.
Qed.

(** ** What the worker may do

    Where a message's transaction has got to.  [Broken]: the commit failed. *)
Inductive stage :=
| Idle
| Begun
| Connected
| Running
| Returned (payload : string)
| Popped (payload : string)
| Finished (payload : string)
| Committed (payload : string)
| Raised
| RaisedPopped
| RaisedFinished
| Broken.

Definition between_messages (c : pg_call) : bool :=
  match c with
  | StartTransaction | SpiConnect | PushSnapshot | CallFunction _ _ | PopSnapshot | SpiFinish
  | CommitTransaction | AbortTransaction | ConfirmMessage _ | ConfirmMessages _ => false
  | _ => true
  end.

(** A message is confirmed only straight after the commit of the transaction
    in which the callback returned; a transaction is ended before anything
    else is asked for. *)
Definition stage_step (s : stage) (e : answered PG) : option stage :=
  match s, e with
  | Idle, At StartTransaction _ => Some Begun
  | Idle, At c _ => if between_messages c then Some Idle else None
  | Begun, At SpiConnect _ => Some Connected
  | Connected, At PushSnapshot _ => Some Running
  | Running, At (CallFunction _ p) r => Some (match r with None => Returned p | Some _ => Raised end)
  | Returned p, At PopSnapshot _ => Some (Popped p)
  | Popped p, At SpiFinish _ => Some (Finished p)
  | Finished p, At CommitTransaction r => Some (match r with None => Committed p | Some _ => Broken end)
  | Committed p, At (ConfirmMessage m) _ => if bool_decide (data m = p) then Some Idle else None
  | Raised, At PopSnapshot _ => Some RaisedPopped
  | RaisedPopped, At SpiFinish _ => Some RaisedFinished
  | RaisedFinished, At AbortTransaction _ => Some Idle
  | _, _ => None
  end.

Definition stage_of (t : pglog) : option stage :=
  foldl (fun s e => s ≫= fun s => stage_step s e) (Some Idle) t.

(** The calls of the callback, with what it raised. *)
Definition called_of (e : answered PG) : option (Z * string * option string) :=
  match e with At (CallFunction fn p) r => Some (fn, p, r) | _ => None end.

Definition calls (t : pglog) : list (Z * string * option string) := omap called_of t.

(** The messages whose callback returned. *)
Definition succeeded (ms : list message) (raised : list (option string)) : list message :=
  omap (fun x : message * option string => match x.2 with None => Some x.1 | Some _ => None end) (zip ms raised).

Lemma stage_of_app t1 t2 s :
  stage_of t1 = Some s →
  stage_of (t1 ++ t2) = foldl (fun s e => s ≫= fun s => stage_step s e) (Some s) t2.
Proof. unfold stage_of. by rewrite foldl_app; intros ->. Qed.

Lemma succeeded_pairs_app ms1 ms2 rs1 rs2 :
  length ms1 = length rs1 → succeeded (ms1 ++ ms2) (rs1 ++ rs2) = succeeded ms1 rs1 ++ succeeded ms2 rs2.
Proof. intros H. unfold succeeded. by rewrite zip_with_app, omap_app. Qed.

(** The messages [seen] have gone through the callback, and the worker stands
    at [s]. *)
Record served (fn : Z) (s : stage) (seen : list message) (t : pglog) : Prop := {
  served_stage : stage_of t = Some s;
  served_calls : (calls t).*1 = (fun m => (fn, data m)) <$> seen;
  served_confirmed : ∃ rest, succeeded seen (calls t).*2 = confirmed t ++ rest ∧ (s = Idle → rest = []);
}.

Lemma served_length fn s seen t : served fn s seen t → length seen = length (calls t).
Proof. intros [_ H _]. apply (f_equal length) in H. by rewrite !length_fmap in H. Qed.

(** One more message. *)
Lemma served_next fn seen t m t' s r :
  served fn Idle seen t →
  foldl (fun s e => s ≫= fun s => stage_step s e) (Some Idle) t' = Some s →
  calls t' = [(fn, data m, r)] →
  confirmed t' = match r, s with None, Idle => [m] | _, _ => [] end →
  served fn s (seen ++ [m]) (t ++ t').
Proof.
  intros H Hs Hc Hf. pose proof (served_length _ _ _ _ H) as Hl.
  destruct H as [H1 H2 (rest & H3 & H4)]. rewrite H4, app_nil_r in H3 by done. split.
  - by rewrite (stage_of_app _ _ _ H1).
  - unfold calls in *. by rewrite omap_app, Hc, !fmap_app, H2.
  - assert (calls (t ++ t') = calls t ++ [(fn, data m, r)]) as ->
      by (unfold calls in *; by rewrite omap_app, Hc).
    rewrite fmap_app, succeeded_pairs_app by (by rewrite length_fmap). rewrite H3, confirmed_app, Hf.
    destruct r as [text|].
    + exists []. by rewrite !app_nil_r.
    + destruct s; try (exists [m]; by rewrite app_nil_r). exists []. by rewrite app_nil_r.
Qed.

(** Calls between messages. *)
Lemma served_between fn seen t c x :
  between_messages c = true → served fn Idle seen t → served fn Idle seen (t ++ [At (S := PG) c x]).
Proof.
  intros Hc [H1 H2 H3].
  assert (calls (t ++ [At (S := PG) c x]) = calls t ∧ confirmed (t ++ [At (S := PG) c x]) = confirmed t) as (E1 & E2).
  { rewrite confirmed_app. unfold calls. rewrite omap_app. unfold confirmed at 2. by destruct c; simpl; rewrite ?app_nil_r. }
  split; rewrite ?E1, ?E2; [|done..]. rewrite (stage_of_app _ _ _ H1). simpl. by destruct c.
Qed.

Lemma leads_deliver uri fn m seen st h t :
  served fn Idle seen t →
  leads (deliver uri fn m) st (h ++ t) (fun st' o h' => ∃ t', h' = h ++ t ++ t' ∧ pushed t' = [] ∧ st' = st ∧
    match o with
    | Value _ => served fn Idle (seen ++ [m]) (t ++ t')
    | Errors _ => served fn Broken (seen ++ [m]) (t ++ t')
    | Throws _ => False
    end).
Proof.
  intros H. unfold deliver, run_callback. apply leads_andthen.
  lead_call x1. lead_call x2. lead_call x3. lead_call raised. destruct raised as [text|].
  - lead_call x4. lead_call x5. lead_call x6. lead_call x7. lead. lead. rewrite <-!app_assoc.
    eexists. split; [reflexivity|]. do 2 (split; [done|]). by eapply served_next.
  - lead. unfold commit_and_confirm. lead_call x4. lead_call x5. lead_call raised. destruct raised as [text|].
    + lead. rewrite <-!app_assoc. eexists. split; [reflexivity|]. do 2 (split; [done|]). by eapply served_next.
    + lead_call rc. lead. rewrite <-!app_assoc. eexists. split; [reflexivity|]. do 2 (split; [done|]).
      eapply served_next; [done| |done|done]. simpl. by rewrite bool_decide_true.
Qed.

(** ** Shutdown *)

Definition shutdown_of (e : answered PG) : bool :=
  match e with At ShutdownPending stop => stop | _ => false end.

Definition shutdown_seen (t : pglog) : bool := existsb shutdown_of t.

(** The handler sets [ShutdownRequestPending]; nothing clears it. *)
Fixpoint latched (set_before : bool) (t : pglog) : bool :=
  match t with
  | [] => true
  | e :: t' =>
      match e with At ShutdownPending stop => implb set_before stop | _ => true end
      && latched (set_before || shutdown_of e) t'
  end.

Lemma latched_app b t1 t2 : latched b (t1 ++ t2) = latched b t1 && latched (b || shutdown_seen t1) t2.
Proof.
  revert b. induction t1 as [|e t1 IH]; intros b; simpl; [by rewrite orb_false_r|].
  by rewrite IH, andb_assoc, orb_assoc.
Qed.

Lemma shutdown_seen_app t1 t2 : shutdown_seen (t1 ++ t2) = shutdown_seen t1 || shutdown_seen t2.
Proof. apply existsb_app. Qed.

(** The messages are taken in the order in which they are pushed, and all of
    them unless a shutdown has been requested. *)
Definition in_order (seen : list message) (t : pglog) : Prop :=
  latched false t = true → seen `prefix_of` pushed t ∧ (seen ≠ pushed t → shutdown_seen t = true).

Lemma in_order_before seen t c x :
  pushed [At (S := PG) c x] = [] → in_order seen t → in_order seen (t ++ [At (S := PG) c x]).
Proof.
  intros Hp H. unfold in_order. rewrite latched_app, andb_true_iff, pushed_app, Hp, app_nil_r, shutdown_seen_app.
  intros [L _]. destruct (H L) as [H1 H2]. split; [done|]. intros Hne. by rewrite H2.
Qed.

Lemma leads_deliver_event uri fn ms seen st h t :
  served fn Idle seen t →
  leads (deliver_event uri fn ms) st (h ++ t) (fun st' o h' => ∃ t' k, h' = h ++ t ++ t' ∧ pushed t' = [] ∧
    st' = st ∧
    match o with
    | Value _ => served fn Idle (seen ++ take k ms) (t ++ t') ∧ (take k ms ≠ ms → shutdown_seen t' = true)
    | Errors _ => served fn Broken (seen ++ take k ms) (t ++ t')
    | Throws _ => False
    end).
Proof.
  revert seen st t. induction ms as [|m ms IH]; intros seen st t H; cbn [deliver_event].
  { lead. exists [], 0%nat. by rewrite !app_nil_r. }
  apply leads_andthen, (leads_mono _ _ _ _ _ (leads_deliver uri fn m seen st h t H)).
  intros st1 o1 h1 (t1 & -> & Hp1 & -> & H1). destruct o1 as [[]|w|e]; [|done|].
  2: { by exists t1, 1%nat. }
  lead_call stop. assert (pushed (t1 ++ [At (S := PG) ShutdownPending stop]) = []) as Hp2 by by rewrite pushed_app, Hp1.
  apply (served_between _ _ _ ShutdownPending stop eq_refl) in H1. rewrite <-app_assoc in H1.
  destruct stop.
  - lead. exists (t1 ++ [At (S := PG) ShutdownPending true]), 1%nat. rewrite <-!app_assoc. do 3 (split; [done|]).
    split; [done|]. by rewrite shutdown_seen_app, orb_true_r.
  - rewrite <-!app_assoc.
    apply (leads_mono _ _ _ _ _ (IH _ st (t ++ t1 ++ [At (S := PG) ShutdownPending false]) H1)).
    intros st2 o h2 (t2 & k & -> & Hp3 & -> & H2).
    exists ((t1 ++ [At (S := PG) ShutdownPending false]) ++ t2), (S k). rewrite pushed_app, Hp2, Hp3.
    rewrite <-!app_assoc in *. do 3 (split; [done|]). rewrite firstn_cons.
    change (m :: take k ms) with ([m] ++ take k ms). destruct o as [[]|w|e]; [|done..].
    destruct H2 as [H2 Hs]. split; [done|]. rewrite shutdown_seen_app. intros Hne.
    rewrite shutdown_seen_app, Hs, !orb_true_r; [done|]. intros E. apply Hne. simpl. by rewrite E.
Qed.

(** The loop ends only when a shutdown was requested, or with an error. *)
Lemma leads_serve fuel uri fn seen st h t :
  served fn Idle seen t → in_order seen t →
  leads (serve fuel uri fn) st (h ++ t) (fun st' o h' => ∃ t' s seen', h' = h ++ t ++ t' ∧ st' = st ∧
    served fn s seen' (t ++ t') ∧
    (latched false (t ++ t') = true → seen' `prefix_of` pushed (t ++ t')) ∧
    match o with
    | Value _ => s = Idle ∧ shutdown_seen t' = true
    | Errors _ => s = Idle ∨ s = Broken
    | Throws _ => False
    end).
Proof.
  revert seen st t. induction fuel as [|fuel IH]; intros seen st t H Ho; cbn [serve]; [done|].
  lead_call stop. set (e1 := At (S := PG) ShutdownPending stop).
  pose proof (served_between _ _ _ ShutdownPending stop eq_refl H) as H1.
  pose proof (in_order_before _ _ ShutdownPending stop eq_refl Ho) as Ho1.
  destruct stop.
  { lead. exists [e1], Idle, seen. rewrite <-app_assoc. do 3 (split; [done|]). split; [|done]. apply Ho1. }
  lead_call raised. set (e2 := At (S := PG) CheckForInterrupts raised).
  apply (served_between _ _ _ CheckForInterrupts raised eq_refl) in H1.
  apply (in_order_before _ _ CheckForInterrupts raised eq_refl) in Ho1. rewrite <-!app_assoc in *.
  destruct raised as [text|].
  { lead. exists ([e1] ++ [e2]), Idle, seen. do 3 (split; [done|]). split; [apply Ho1|auto]. }
  lead_call ev. set (e3 := At (S := PG) (NextEvent (Parts 1 0)) ev).
  apply (served_between _ _ _ (NextEvent (Parts 1 0)) ev eq_refl) in H1.
  assert (∀ t1 seen1 st1, served fn Idle seen1 (t ++ t1) → in_order seen1 (t ++ t1) →
    leads (serve fuel uri fn) st1 (h ++ t ++ t1) (fun st' o h' => ∃ t' s seen', h' = h ++ t ++ t' ∧ st' = st1 ∧
      served fn s seen' (t ++ t') ∧
      (latched false (t ++ t') = true → seen' `prefix_of` pushed (t ++ t')) ∧
      match o with
      | Value _ => s = Idle ∧ shutdown_seen t' = true
      | Errors _ => s = Idle ∨ s = Broken
      | Throws _ => False
      end)) as Hgo.
  { intros t1 seen1 st1 Hh Hho. apply (leads_mono _ _ _ _ _ (IH seen1 st1 (t ++ t1) Hh Hho)).
    intros st2 o h2 (t2 & s & seen2 & -> & -> & Hs & Hos & Hc). exists (t1 ++ t2), s, seen2.
    rewrite <-!app_assoc in *. do 4 (split; [done|]). destruct o as [[]|w|e]; [|done..].
    by rewrite shutdown_seen_app, orb_comm; destruct Hc as [-> ->]. }
  rewrite <-!app_assoc in *.
  assert (∀ x, pushed [At (S := PG) (NextEvent (Parts 1 0)) x] = [] →
    in_order seen (t ++ [e1] ++ [e2] ++ [At (S := PG) (NextEvent (Parts 1 0)) x])) as Hquiet.
  { intros x Hx. apply (in_order_before _ _ _ x Hx) in Ho1. by rewrite <-!app_assoc in Ho1. }
  destruct ev as [| |ms]; [by apply (Hgo _ seen); [|apply Hquiet]..|].
  clear Hquiet. set (es := [e1] ++ [e2] ++ [e3]) in *. apply leads_andthen.
  apply (leads_mono _ _ _ _ _ (leads_deliver_event uri fn ms seen st h (t ++ es) H1)).
  intros st1 o1 h1 (t1 & k & -> & Hp1 & -> & Hc).
  assert (latched false (t ++ es ++ t1) = true →
    pushed (t ++ es ++ t1) = seen ++ ms ∧ shutdown_seen (t ++ es ++ t1) = shutdown_seen t1) as Hl.
  { rewrite latched_app, andb_true_iff. intros [L1 L2]. rewrite !pushed_app, Hp1, !shutdown_seen_app, app_nil_r.
    destruct (Ho L1) as [_ Hne]. simpl in L2.
    assert (shutdown_seen t = false) as Hf by (destruct (shutdown_seen t); done). rewrite Hf in *.
    assert (seen = pushed t) as -> by (destruct (decide (seen = pushed t)) as [|n]; [done|by specialize (Hne n)]).
    split; [|done]. f_equal. change (pushed es) with (ms ++ []). apply app_nil_r. }
  assert (latched false (t ++ es ++ t1) = true → seen ++ take k ms `prefix_of` pushed (t ++ es ++ t1)) as Hpre.
  { intros L. destruct (Hl L) as [-> _]. apply prefix_app, prefix_take. }
  rewrite <-app_assoc in *. destruct o1 as [[]|w|e]; [|done|].
  - destruct Hc as [Hc Hs]. apply (Hgo (es ++ t1) (seen ++ take k ms)); [done|].
    intros L. split; [by apply Hpre|]. destruct (Hl L) as [-> ->]. intros Hne. apply Hs.
    intros E. by rewrite E in Hne.
  - exists (es ++ t1), Broken, (seen ++ take k ms). auto 10.
Qed.

(** ** The worker's life *)

(** Calls that neither receive nor handle a message. *)
Definition quiet (c : pg_call) : bool :=
  between_messages c && match c with NextEvent _ | DsmDetach | WriteReady => false | _ => true end.

Lemma quiet_served t2 :
  Forall (fun e : answered PG => quiet (at_call e) = true) t2 →
  pushed t2 = [] ∧ ∀ fn seen t, served fn Idle seen t → served fn Idle seen (t ++ t2).
Proof.
  induction t2 as [|[c x] t2 IH] using rev_ind; intros H.
  { split; [done|]. intros fn seen t. by rewrite app_nil_r. }
  apply Forall_app in H as [H Hc]. inversion_clear Hc as [|?? Hq _]. simpl in Hq.
  destruct (IH H) as (H1 & H4). rewrite pushed_app, H1.
  apply andb_true_iff in Hq as [Hb Hq]. split; [by destruct c|].
  intros fn seen t Hs. rewrite app_assoc. apply served_between; auto.
Qed.

Lemma opening_quiet t :
  Forall (fun e : answered PG => opening (at_call e) = true) t →
  Forall (fun e : answered PG => quiet (at_call e) = true) t.
Proof. intros H. eapply Forall_impl; [exact H|]. by intros [[] x]. Qed.

(** The end of the process. *)
Lemma leads_stopping uri st h :
  hooked st →
  leads (does (Ereport LOG ("pg_blazingmq subscriber stopping for queue '" +:+ uri +:+ "'"));; proc_exit 0) st h
    (fun st' o h' => ∃ t, h' = h ++ t ++ [At (S := PG) (ProcExit 0) ()] ∧ o = Value () ∧ session st' = false ∧
      Forall (fun e : answered PG => quiet (at_call e) = true) t).
Proof.
  intros H. lead_call u. unfold proc_exit. lead. apply leads_andthen. destruct (exit_hook st) eqn:Ee.
  - unfold pg_blazingmq_exit_hook. lead. lead. simpl. destruct (session st) eqn:Es.
    + lead_call u2. lead. lead_call u3. destruct u3.
      exists ([At (S := PG) (Ereport LOG _) u] ++ [At (S := PG) SessionStop u2]). rewrite <-!app_assoc.
      do 3 (split; [done|]). by repeat constructor.
    + lead. lead_call u3. destruct u3. exists [At (S := PG) (Ereport LOG _) u]. rewrite <-!app_assoc.
      do 2 (split; [done|]). split; [done|]. by repeat constructor.
  - lead. lead_call u3. destruct u3. exists [At (S := PG) (Ereport LOG _) u]. rewrite <-!app_assoc.
    do 2 (split; [done|]). split; [|by repeat constructor].
    destruct (session st) eqn:Es; [|done]. specialize (H Es). congruence.
Qed.

(** The calls of the serving loop. *)
Definition serving (c : pg_call) : bool :=
  match c with
  | ShutdownPending | CheckForInterrupts | NextEvent _ | ConfirmMessage _ | StartTransaction | SpiConnect
  | PushSnapshot | CallFunction _ _ | PopSnapshot | SpiFinish | CommitTransaction | AbortTransaction
  | Ereport _ _ => true
  | _ => false
  end.

Lemma only_deliver uri fn m : only serving (deliver uri fn m).
Proof.
  unfold deliver, run_callback. seq_in.
  - do 3 (seq_in; [auto with within|intros _]). seq_in; [auto with within|]. intros [text|]; [|auto with within].
    do 4 (seq_in; [auto with within|intros _]). auto with within.
  - intros []; [|auto with within]. unfold commit_and_confirm. do 2 (seq_in; [auto with within|intros _]).
    seq_in; [auto with within|]. intros []; auto with within.
Qed.

Lemma only_serve fuel uri fn : only serving (serve fuel uri fn).
Proof.
  induction fuel as [|fuel IH]; cbn [serve]; [auto with within|]. seq_in; [auto with within|].
  intros []; [auto with within|]. seq_in; [auto with within|]. intros [text|]; [auto with within|].
  seq_in; [auto with within|]. intros [| |ms]; [done..|]. seq_in; [|done].
  induction ms as [|m ms IHm]; cbn [deliver_event]; [auto with within|]. seq_in; [apply only_deliver|]. intros _.
  seq_in; [auto with within|]. intros []; [auto with within|done].
Qed.

(** How a worker's life goes: the queue is opened and the segment given up,
    then messages are served; or the segment is given up at once. *)
Definition lived (cfg : config) (t : pglog) (s : stage) (seen : list message) (ended : bool) : Prop :=
  served (cfg_callback cfg) s seen t ∧ (latched false t = true → seen `prefix_of` pushed t) ∧
  ∃ t1 t2, never (S := PG) DsmDetach t1 ∧ never (S := PG) WriteReady t1 ∧ pushed t1 = [] ∧
    never (S := PG) DsmDetach t2 ∧ never (S := PG) WriteReady t2 ∧
    (t = t1 ++ [At (S := PG) WriteReady ()] ++ [At (S := PG) DsmDetach ()] ++ t2 ∧
       filters t1 !! cfg_queue_uri cfg = Some (cfg_subscription_expr cfg) ∧
       (ended = true → s = Idle ∧ shutdown_seen t = true) ∨
     t = t1 ++ [At (S := PG) DsmDetach ()] ++ t2 ∧ pushed t2 = [] ∧ seen = [] ∧ s = Idle ∧ ended = true).

Lemma lived_ends cfg t seen t3 :
  lived cfg t Idle seen true → Forall (fun e : answered PG => quiet (at_call e) = true) t3 →
  lived cfg (t ++ t3) Idle seen true.
Proof.
  intros (H1 & H2 & t1 & t2 & Ha & Hb & Hc & Hd & He & Hcase) Hq.
  destruct (quiet_served t3 Hq) as (Hp & Hs). split; [by apply Hs|]. split.
  { rewrite latched_app, andb_true_iff, pushed_app, Hp, app_nil_r. intros [L _]. auto. }
  exists t1, (t2 ++ t3). rewrite !never_app. split; [done|]. split; [done|]. split; [done|].
  split; [split; [done|]; by apply (never_forall (S := PG) _ quiet)|].
  split; [split; [done|]; by apply (never_forall (S := PG) _ quiet)|].
  destruct Hcase as [(-> & Hf & Hr)|(-> & Hp2 & Hr)]; [left|right].
  - rewrite <-!app_assoc. split; [done|]. split; [done|]. intros E. destruct (Hr E) as [_ Hsh].
    split; [done|]. rewrite !app_assoc, shutdown_seen_app. rewrite <-!app_assoc. by rewrite Hsh.
  - rewrite <-!app_assoc. rewrite pushed_app, Hp2, Hp. done.
Qed.

Definition ends (cfg : config) (st' : backend) (o : outcome unit) (t : pglog) : Prop :=
  ∃ s seen,
    match o with
    | Value _ => session st' = false ∧ last (made t) = Some (ProcExit 0) ∧ lived cfg t s seen true
    | Errors _ => (s = Idle ∨ s = Broken) ∧ lived cfg t s seen false
    | Throws _ => False
    end.

Lemma leads_ending cfg st seen t :
  hooked st → lived cfg t Idle seen true →
  leads (does (Ereport LOG ("pg_blazingmq subscriber stopping for queue '" +:+ cfg_queue_uri cfg +:+ "'"));;
         proc_exit 0) st t (ends cfg).
Proof.
  intros Hk Hl. apply (leads_mono _ _ _ _ _ (leads_stopping (cfg_queue_uri cfg) st t Hk)).
  intros st' o t' (t2 & -> & -> & Hses & Hq). exists Idle, seen. split; [done|].
  split; [rewrite app_assoc, made_app; apply last_snoc|]. apply lived_ends; [done|].
  apply Forall_app. split; [done|]. by repeat constructor.
Qed.

(** Nothing has been received or given up while the queue is being opened. *)
Lemma quiet_start fn t :
  Forall (fun e : answered PG => quiet (at_call e) = true) t →
  never (S := PG) DsmDetach t ∧ never (S := PG) WriteReady t ∧ pushed t = [] ∧ served fn Idle [] t.
Proof.
  intros Ht. destruct (quiet_served t Ht) as (Hp & Hs).
  split; [by apply (never_forall (S := PG) _ quiet)|]. split; [by apply (never_forall (S := PG) _ quiet)|].
  split; [done|]. apply (Hs _ _ []). split; [done..|by exists []].
Qed.

(** From the moment the queue is open. *)
Lemma leads_serving fuel cfg st h :
  hooked st → never (S := PG) DsmDetach h → never (S := PG) WriteReady h → pushed h = [] →
  served (cfg_callback cfg) Idle [] h → filters h !! cfg_queue_uri cfg = Some (cfg_subscription_expr cfg) →
  leads (does WriteReady;; does DsmDetach;;
         catches (serve fuel (cfg_queue_uri cfg) (cfg_callback cfg)) (exit_on_error (cfg_queue_uri cfg) true)) st h
    (fun st' o t => st' = st ∧ ∃ s seen,
      match o with
      | Value _ => s = Idle ∧ lived cfg t s seen true
      | Errors _ => (s = Idle ∨ s = Broken) ∧ lived cfg t s seen false
      | Throws _ => False
      end).
Proof.
  intros Hk H1 H2 H3 H4 Hf. lead_call u3. lead_call u4. destruct u3, u4.
  set (er := At (S := PG) WriteReady ()). set (ed := At (S := PG) DsmDetach ()). set (t0 := (h ++ [er]) ++ [ed]).
  assert (served (cfg_callback cfg) Idle [] t0) as H5 by by do 2 (apply served_between; [done|]).
  assert (in_order [] t0) as H6.
  { intros _. split; [apply prefix_nil|]. unfold t0. by rewrite (pushed_app (_ ++ [er])), (pushed_app h), H3. }
  apply leads_catches.
  pose proof (leads_both _ _ _ _ _ (leads_serve fuel (cfg_queue_uri cfg) (cfg_callback cfg) [] st [] t0 H5 H6)
    (only_serve fuel (cfg_queue_uri cfg) (cfg_callback cfg) st t0)) as Hserve.
  apply (leads_mono _ _ _ _ _ Hserve). clear Hserve.
  intros st2 o h2 [(t2 & s & seen & -> & -> & Hs & Hp & Ho) (t2' & E & Ht2)].
  change (t0 ++ t2 = t0 ++ t2') in E. apply app_inv_head in E as <-.
  assert (∀ b, (b = true → s = Idle ∧ shutdown_seen (t0 ++ t2) = true) → lived cfg (t0 ++ t2) s seen b) as Hl.
  { intros b Hb. split; [done|]. split; [done|]. exists h, t2. do 3 (split; [done|]).
    split; [by apply (never_forall (S := PG) _ serving)|]. split; [by apply (never_forall (S := PG) _ serving)|].
    left. split; [|done]. unfold t0. by rewrite <-!app_assoc. }
  destruct o as [[]|w|e]; [|done|]; (split; [done|]); exists s, seen.
  - destruct Ho as [-> Hsh]. split; [done|]. apply Hl. intros _. by rewrite shutdown_seen_app, Hsh, orb_true_r.
  - split; [done|]. by apply Hl.
Qed.

(** The worker from its start to its end. *)
Lemma leads_run_worker fuel cfg broker x :
  leads (run_worker fuel cfg) (fresh broker) [At (S := PG) DsmAttach x] (ends cfg).
Proof.
  set (e0 := At (S := PG) DsmAttach x). unfold run_worker. lead_call u1. lead_call u2.
  set (e1 := At (S := PG) (InitConnection _ _) u1). set (e2 := At (S := PG) (Ereport _ _) u2).
  rewrite <-!app_assoc. set (h0 := [e0] ++ [e1] ++ [e2]).
  assert (tracked (fresh broker) h0) as Htr.
  { unfold h0. rewrite app_assoc. do 2 (apply tracked_unrelated; [done|]).
    apply (tracked_unrelated _ []); [done|]. apply tracked_fresh. }
  assert (∀ t, Forall (fun e : answered PG => opening (at_call e) = true) t →
    Forall (fun e : answered PG => quiet (at_call e) = true) (h0 ++ t)) as Hq0.
  { intros t Ht. apply Forall_app. split; [by repeat constructor|by apply opening_quiet]. }
  apply leads_andthen, leads_catches, leads_open; [done|..].
  - intros st' w t Ht Hk _. destruct (quiet_start (cfg_callback cfg) _ (Hq0 t Ht)) as (H1 & H2 & H3 & H4).
    unfold exit_on_error. lead_call u3. lead_call u4. destruct u3.
    apply (leads_ending _ _ []); [by apply Hk|].
    set (e3 := At (S := PG) (Ereport _ _) u4). rewrite <-!app_assoc.
    split; [|split].
    + rewrite !app_assoc. by do 2 (apply served_between; [done|]).
    + intros _. apply prefix_nil.
    + exists (h0 ++ t), [e3]. rewrite <-!app_assoc. do 3 (split; [done|]).
      split; [by apply never_one|]. split; [by apply never_one|]. right. done.
  - intros q st' t Ht Hk _ (_ & expr & _ & Hf & Hexpr).
    destruct (quiet_start (cfg_callback cfg) _ (Hq0 t Ht)) as (H1 & H2 & H3 & H4).
    assert (filters (h0 ++ t) !! cfg_queue_uri cfg = Some (cfg_subscription_expr cfg)) as Hfilter.
    { destruct Hexpr as [<-|[_ Hn]]; [done|]. by rewrite <-(tracked_filters _ _ Htr) in Hn. }
    apply (leads_mono _ _ _ _ _ (leads_serving fuel cfg st' (h0 ++ t) (Hk ltac:(done)) H1 H2 H3 H4 Hfilter)).
    intros st2 [u|w|e] t2 (-> & s & seen & Hc); [|done|by exists s, seen].
    destruct Hc as [-> Hl]. apply (leads_ending _ _ seen); [by apply Hk|done].
Qed.

Lemma leads_main fuel cfg broker t st' o :
  takes (bmq_subscriber_main fuel (fresh broker)) (At (S := PG) DsmAttach (Some cfg) :: t) (Some (st', o)) →
  ends cfg st' o (At (S := PG) DsmAttach (Some cfg) :: t).
Proof.
  intros (x & t' & E' & H)%takes_does. pose proof (f_equal tail E') as Et.
  pose proof (f_equal (fun l : pglog => match l with At DsmAttach y :: _ => y | _ => None end) E') as E.
  simpl in Et, E. subst t' x.
  exact (leads_takes _ _ _ _ _ _ _ (leads_run_worker fuel cfg broker (Some cfg)) H).
Qed.

(** ** Handing over *)

(** [k] times not ready, then [ready]. *)
Definition polling (k : nat) (ready : Z) : pglog :=
  concat (replicate k [At (S := PG) ReadReady 0; At (S := PG) (Usleep poll_interval_us) ()])
  ++ [At (S := PG) ReadReady ready].

(** The wait ends with the flag set, or after 250 pauses; 251 readings are
    enough. *)
Lemma poll_ready_spec fuel waited st t r :
  waited + Z.of_nat fuel * poll_interval_us = ready_timeout_ms * 1000 + poll_interval_us → (0 < fuel)%nat →
  takes (poll_ready fuel waited st) t r →
  r = Some (st, Value ()) ∧ ∃ k ready, (k < fuel)%nat ∧ t = polling k ready ∧
    (ready ≠ 0 ∨ S k = fuel).
Proof.
  revert waited t. induction fuel as [|fuel IH]; intros waited t H Hf; [lia|]. cbn [poll_ready].
  intros (ready & t1 & -> & Ht)%takes_does.
  destruct (Z.eqb_spec ready 0) as [->|Hr]; simpl in Ht.
  2: { destruct Ht as [-> ->]. split; [done|]. exists 0%nat, ready. split; [lia|]. auto. }
  unfold poll_interval_us, ready_timeout_ms in *.
  destruct (Z.ltb_spec waited (5000 * 1000)) as [Hlt|Hge]; simpl in Ht.
  - destruct Ht as ([] & t2 & -> & Ht). assert (0 < fuel)%nat as Hf1 by lia.
    destruct (IH (waited + 20000) t2) as (-> & k & ready & Hk & -> & Hc); [lia|done..|].
    split; [done|]. exists (S k), ready. split; [lia|]. split; [done|]. destruct Hc; [auto|right; lia].
  - destruct Ht as [-> ->]. split; [done|]. exists 0%nat, 0. split; [lia|]. split; [done|]. right. lia.
Qed.

(** The log of a call that hands [cfg] to the worker [pid]. *)
Definition handed_over (cfg : config) (pid : Z) (k : nat) (ready ready' : Z) : pglog :=
  [At (S := PG) (LookupProc (cfg_callback cfg)) (Some [BYTEAOID]); At (S := PG) (DsmCreate cfg) ();
   At (S := PG) DsmPin (); At (S := PG) RegisterWorker true; At (S := PG) WaitStartup (Started pid)]
  ++ polling k ready ++ [At (S := PG) ReadReady ready']
  ++ (if ready' =? 0 then [At (S := PG) (Ereport WARNING (not_ready_warning pid)) ()] else [])
  ++ [At (S := PG) DsmDetach ()].

Lemma leads_poll_ready st h :
  leads (poll_ready 251 0) st h (fun st' o h' => st' = st ∧ o = Value () ∧ ∃ k ready,
    h' = h ++ polling k ready ∧ (k ≤ 250)%nat ∧ (ready ≠ 0 ∨ k = 250%nat)).
Proof.
  apply ensures_takes. intros t [[st' o]|] H; [|done].
  destruct (poll_ready_spec 251 0 st t _ ltac:(done) ltac:(lia) H) as ([= -> ->] & k & ready & Hk & -> & Hc).
  do 2 (split; [done|]). exists k, ready. split; [done|]. split; [lia|]. destruct Hc; [auto|right; lia].
Qed.

Lemma finishes_subscribe db role uri fn expr : finishes (bmq_subscribe db role uri fn expr).
Proof.
  assert (finishes (poll_ready 251 0)) as Hp.
  { intros st t H. by destruct (poll_ready_spec 251 0 st t _ ltac:(done) ltac:(lia) H) as [? _]. }
  unfold bmq_subscribe, validate_callback_fn, start_worker. auto 20 with finishes.
Qed.

(** No segment yet. *)
Lemma leads_validate fn st h :
  leads (validate_callback_fn fn) st h (fun st' o h' => st' = st ∧ ∃ x, h' = h ++ [At (S := PG) (LookupProc fn) x] ∧
    match o with
    | Value _ => x = Some [BYTEAOID]
    | Errors e => errcode e = INTERNAL_ERROR
    | Throws _ => False
    end).
Proof.
  unfold validate_callback_fn. lead_call x. destruct x as [args|]; [|lead; eauto].
  destruct (bool_decide_reflect (args = [BYTEAOID])) as [->|]; lead; eauto.
Qed.

Lemma leads_start_worker cfg st h :
  leads (start_worker cfg) st (h ++ [At (S := PG) (LookupProc (cfg_callback cfg)) (Some [BYTEAOID])])
    (fun st' o h' => st' = st ∧ ∃ t, h' = h ++ t ∧
      match o with
      | Value pid => ∃ k ready ready', t = handed_over cfg pid k ready ready' ∧
          (k ≤ 250)%nat ∧ (ready ≠ 0 ∨ k = 250%nat)
      | Errors e => errcode e = INTERNAL_ERROR ∧ last (made t) = Some DsmDetach
      | Throws _ => False
      end).
Proof.
  unfold start_worker. lead_call u1. lead_call u2. lead_call registered. destruct u1, u2, registered; simpl.
  2: { lead_call u3. lead. split; [done|]. rewrite <-!app_assoc. by eexists. }
  lead_call status. destruct status as [pid|status].
  2: { lead_call u3. lead. split; [done|]. rewrite <-!app_assoc. by eexists. }
  apply leads_andthen, (leads_mono _ _ _ _ _ (leads_poll_ready st _)).
  intros st1 ? ? (-> & -> & k & ready & -> & Hk & Hc). lead_call ready'. apply leads_andthen.
  assert (∀ w, (w = if ready' =? 0 then [At (S := PG) (Ereport WARNING (not_ready_warning pid)) ()] else []) →
    ∀ h', h' = h ++ [At (S := PG) (LookupProc (cfg_callback cfg)) (Some [BYTEAOID])]
      ++ [At (S := PG) (DsmCreate cfg) ()] ++ [At (S := PG) DsmPin ()] ++ [At (S := PG) RegisterWorker true]
      ++ [At (S := PG) WaitStartup (Started pid)] ++ polling k ready ++ [At (S := PG) ReadReady ready'] ++ w →
    leads (does DsmDetach;; returns pid) st h' (fun st' o h' => st' = st ∧ ∃ t, h' = h ++ t ∧
      match o with
      | Value pid => ∃ k ready ready', t = handed_over cfg pid k ready ready' ∧
          (k ≤ 250)%nat ∧ (ready ≠ 0 ∨ k = 250%nat)
      | Errors e => errcode e = INTERNAL_ERROR ∧ last (made t) = Some DsmDetach
      | Throws _ => False
      end)) as Hlast.
  { intros w -> h' ->. lead_call u3. destruct u3. lead. split; [done|]. eexists. rewrite <-!app_assoc.
    split; [reflexivity|]. by exists k, ready, ready'. }
  destruct (ready' =? 0).
  - lead_call u3. destruct u3. eapply Hlast; [done|]. by rewrite <-!app_assoc.
  - lead. eapply Hlast; [done|]. by rewrite app_nil_r, <-!app_assoc.
Qed.

Lemma leads_subscribe db role uri fn expr st h :
  leads (bmq_subscribe db role uri fn expr) st h (fun st' o h' => st' = st ∧ ∃ t, h' = h ++ t ∧
    match o with
    | Value pid => ∃ u f k ready ready',
        uri = Some u ∧ fn = Some f ∧
        Z.of_nat (String.length u) < 512 ∧ Z.of_nat (String.length (default EmptyString expr)) < 512 ∧
        t = handed_over (Config db role f u (default EmptyString expr)) pid k ready ready' ∧
        (k ≤ 250)%nat ∧ (ready ≠ 0 ∨ k = 250%nat)
    | Errors e => errcode e = INTERNAL_ERROR ∧
        ((∀ cfg, never (S := PG) (DsmCreate cfg) t) ∨ last (made t) = Some DsmDetach)
    | Throws _ => False
    end).
Proof.
  assert (∀ t, length t = 0%nat ∨ (∃ f x, t = [At (S := PG) (LookupProc f) x]) →
    ∀ cfg, never (S := PG) (DsmCreate cfg) t) as Hnever.
  { intros t [->%nil_length_inv|(f & x & ->)] cfg; [apply not_elem_of_nil|by apply never_one]. }
  unfold bmq_subscribe. destruct uri as [u|], fn as [f|];
    try (lead; split; [done|]; exists []; rewrite app_nil_r; auto 10).
  apply leads_andthen, (leads_mono _ _ _ _ _ (leads_validate f st h)).
  intros st' o h' (-> & x & -> & Ho). destruct o as [[]|w|e]; [subst x|done|].
  2: { split; [done|]. eexists. split; [done|]. eauto 10. }
  unfold config_field_size.
  destruct (Z.leb_spec 512 (Z.of_nat (String.length u))); [lead; split; [done|]; eexists; split; [done|]; eauto 10|].
  destruct (Z.leb_spec 512 (Z.of_nat (String.length (default EmptyString expr))));
    [lead; split; [done|]; eexists; split; [done|]; eauto 10|].
  apply (leads_mono _ _ _ _ _ (leads_start_worker (Config db role f u (default EmptyString expr)) st h)).
  intros st' [pid|w|e] h' (-> & t & -> & Hc); (split; [done|]); exists t; (split; [done|]); [|done|].
  - destruct Hc as (k & ready & ready' & Hc). by exists u, f, k, ready, ready'.
  - destruct Hc. auto.
Qed.

(** ** Properties *)

(** C20. bmq_subscribe always returns, and in one of two ways. A pid comes only
    when the callback takes exactly one bytea, and the queue URI and the
    expression fit their 512-byte fields; the segment then holds exactly the
    database, the role, the callback, the URI and the expression of the call,
    it is pinned, the worker has been registered and has started, the flag was
    polled until it was set or 250 pauses of 20 ms had passed, a warning was
    given if it was not set after that, and the segment is detached last.
    Otherwise the statement fails, and either no segment was created, or it
    was the last thing the call detached. *)
Theorem subscribe_outcomes db role uri fn expr st t r :
  takes (bmq_subscribe db role uri fn expr st) t r →
  ∃ o, r = Some (st, o) ∧
    match o with
    | Value pid => ∃ u f k ready ready',
        uri = Some u ∧ fn = Some f ∧
        Z.of_nat (String.length u) < 512 ∧ Z.of_nat (String.length (default EmptyString expr)) < 512 ∧
        t = handed_over (Config db role f u (default EmptyString expr)) pid k ready ready' ∧
        (k ≤ 250)%nat ∧ (ready ≠ 0 ∨ k = 250%nat)
    | Errors e => errcode e = INTERNAL_ERROR ∧
        ((∀ cfg, never (S := PG) (DsmCreate cfg) t) ∨ last (made t) = Some DsmDetach)
    | Throws _ => False
    end.
Proof.
  intros H. destruct r as [[st' o]|]; [|by apply finishes_subscribe in H].
  destruct (leads_takes _ _ _ _ _ _ _ (leads_subscribe db role uri fn expr st []) H) as (-> & t' & E & Hs).
  simpl in E. subst t'. by exists o.
Qed.

(** The worker's log around the moment it says it is ready. *)
Lemma lived_ready cfg t s seen b :
  lived cfg t s seen b → WriteReady ∈ made t →
  ∃ u1 u2, t = u1 ++ [At (S := PG) WriteReady ()] ++ [At (S := PG) DsmDetach ()] ++ u2 ∧
    never (S := PG) WriteReady u1 ∧ never (S := PG) WriteReady u2 ∧ pushed u1 = [] ∧
    filters u1 !! cfg_queue_uri cfg = Some (cfg_subscription_expr cfg) ∧
    (b = true → shutdown_seen t = true).
Proof.
  intros (_ & _ & u1 & u2 & _ & Hr1 & Hp1 & _ & Hr2 & [(E & Hf & Hsh)|(E & _)]) Hin.
  - exists u1, u2. do 5 (split; [done|]). intros Hb. by apply Hsh.
  - exfalso. revert Hin. rewrite E. change (never (S := PG) WriteReady (u1 ++ [At (S := PG) DsmDetach ()] ++ u2)).
    rewrite !never_app. split; [done|]. split; [by apply never_one|done].
Qed.

Lemma handed_over_config cfg cfg' pid k ready ready' :
  DsmCreate cfg ∈ made (handed_over cfg' pid k ready ready') → cfg = cfg'.
Proof.
  unfold handed_over, polling. rewrite !made_app, !elem_of_app. intros [H|[[H|H]|[H|[H|H]]]].
  - unfold made in H. simpl in H. set_solver.
  - exfalso. induction k as [|k IH]; unfold made in *; simpl in *; set_solver.
  - unfold made in H. simpl in H. set_solver.
  - unfold made in H. simpl in H. set_solver.
  - destruct (_ =? _); unfold made in H; simpl in H; set_solver.
  - unfold made in H. simpl in H. set_solver.
Qed.

(** C3. What a subscriber's worker does with the messages, from its start,
    whatever the library, the callback and the server answer. Its calls follow
    the transaction's protocol: a message is confirmed only straight after the
    commit of the transaction in which its callback returned, a callback that
    raised is followed by an abort and no confirmation, and no transaction is
    open when another event is asked for; only an error of the commit itself
    leaves the protocol, and that ends the worker. The callback is called with
    the payloads of a prefix of what is pushed, in order, once each. The
    messages confirmed are those whose callback returned, in order; if the
    worker ends on an error, the last of them may not be. *)
Theorem worker_delivers fuel cfg broker t1 st' o :
  let t := At (S := PG) DsmAttach (Some cfg) :: t1 in
  takes (bmq_subscriber_main fuel (fresh broker)) t (Some (st', o)) →
  latched false t = true →
  let seen := take (length (calls t)) (pushed t) in
  (calls t).*1 = (fun m => (cfg_callback cfg, data m)) <$> seen ∧
  match o with
  | Value _ => stage_of t = Some Idle ∧ confirmed t = succeeded seen (calls t).*2
  | Errors _ => (stage_of t = Some Idle ∨ stage_of t = Some Broken) ∧
      confirmed t `prefix_of` succeeded seen (calls t).*2
  | Throws _ => False
  end.
Proof.
  intros t H L. apply leads_main in H as (s & seen' & H). fold t in H.
  assert (∀ b, lived cfg t s seen' b →
    seen' = take (length (calls t)) (pushed t) ∧ served (cfg_callback cfg) s seen' t) as Hl.
  { intros b (H1 & H2 & _). split; [|done]. rewrite <-(served_length _ _ _ _ H1).
    destruct (H2 L) as [k ->]. by rewrite take_app_length. }
  destruct o as [[]|w|e]; [|done|].
  - destruct H as (_ & _ & H). destruct (Hl _ H) as [E [H1 H2 (rest & H3 & H4)]]. subst seen'.
    split; [done|]. destruct H as (_ & _ & u1 & u2 & _ & _ & _ & _ & _ & [(_ & _ & Hs)|(_ & _ & _ & -> & _)]).
    + destruct (Hs eq_refl) as [-> _]. split; [done|]. by rewrite H3, H4, app_nil_r.
    + split; [done|]. by rewrite H3, H4, app_nil_r.
  - destruct H as (Hs & H). destruct (Hl _ H) as [E [H1 H2 (rest & H3 & H4)]]. subst seen'.
    split; [done|]. split; [by destruct Hs as [-> | ->]; auto|]. rewrite H3. by exists rest.
Qed.

(** C11. A worker's life, whatever is answered. It gives its attachment to the
    segment up exactly once. It says it is ready at most once: then the queue
    of its configuration is open with its expression as the filter, nothing
    has been received yet, and the segment is given up next. A worker that
    never says so has called no callback and received nothing: it does not try
    again. Unless an error left its main function, the process ends with exit
    code 0 and its session stopped, and a worker that was ready ends so only
    after a shutdown was requested. *)
Theorem worker_lifecycle fuel cfg broker t1 st' o :
  let t := At (S := PG) DsmAttach (Some cfg) :: t1 in
  takes (bmq_subscriber_main fuel (fresh broker)) t (Some (st', o)) →
  (∃ u1 u2, t = u1 ++ [At (S := PG) DsmDetach ()] ++ u2 ∧
     never (S := PG) DsmDetach u1 ∧ never (S := PG) DsmDetach u2) ∧
  (WriteReady ∈ made t → ∃ u1 u2,
     t = u1 ++ [At (S := PG) WriteReady ()] ++ [At (S := PG) DsmDetach ()] ++ u2 ∧
     never (S := PG) WriteReady u1 ∧ never (S := PG) WriteReady u2 ∧ pushed u1 = [] ∧
     filters u1 !! cfg_queue_uri cfg = Some (cfg_subscription_expr cfg)) ∧
  (never (S := PG) WriteReady t → pushed t = [] ∧ calls t = []) ∧
  match o with
  | Value _ => session st' = false ∧ last (made t) = Some (ProcExit 0) ∧
      (WriteReady ∈ made t → shutdown_seen t = true)
  | Errors _ => WriteReady ∈ made t
  | Throws _ => False
  end.
Proof.
  intros t H. apply leads_main in H as (s & seen & H). fold t in H.
  assert (∃ b, lived cfg t s seen b) as [b Hl] by (destruct o; naive_solver).
  split; [|split; [|split]].
  - destruct Hl as (_ & _ & u1 & u2 & Hd1 & _ & _ & Hd2 & _ & [(E & _)|(E & _)]); [|by exists u1, u2].
    exists (u1 ++ [At (S := PG) WriteReady ()]), u2. rewrite <-!app_assoc. split; [done|]. split; [|done].
    apply never_app. split; [done|]. by apply never_one.
  - intros Hin. destruct (lived_ready _ _ _ _ _ Hl Hin) as (u1 & u2 & ? & ? & ? & ? & ? & _). by exists u1, u2.
  - intros Hn. destruct Hl as (Hs & _ & u1 & u2 & _ & _ & Hp1 & _ & _ & [(E & _)|(E & Hp2 & Hseen & _)]).
    + exfalso. revert Hn. rewrite E, !never_app. intros (_ & H1 & _). by apply never_one in H1.
    + split; [by rewrite E, !pushed_app, Hp1, Hp2|]. apply (fmap_nil_inv fst).
      by rewrite (served_calls _ _ _ _ Hs), Hseen.
  - destruct o as [[]|w|e]; [|done|].
    + destruct H as (H1 & H2 & H3). split; [done|]. split; [done|]. intros Hin.
      by destruct (lived_ready _ _ _ _ _ H3 Hin) as (? & ? & _ & _ & _ & _ & _ & ->).
    + destruct H as (_ & _ & _ & v1 & v2 & _ & _ & _ & _ & _ & [(Ev & _)|(_ & _ & _ & _ & ?)]); [|done].
      rewrite Ev, !made_app. set_solver.
Qed.

(** C10. The handshake of bmq_subscribe and the worker it started. When the
    call returned without its warning, and the flag it read is one that only
    the worker sets, the worker has opened exactly the queue that was asked
    for, with the expression that was asked for as its filter, before anything
    was pushed to it; its callback is the one that was given. *)
Theorem ready_means_open db role u f expr st ts pid st1 fuel broker cfg tw stw o :
  takes (bmq_subscribe db role (Some u) (Some f) expr st) ts (Some (st1, Value pid)) →
  (∀ msg, never (S := PG) (Ereport WARNING msg) ts) →
  takes (bmq_subscriber_main fuel (fresh broker)) (At (S := PG) DsmAttach (Some cfg) :: tw) (Some (stw, o)) →
  DsmCreate cfg ∈ made ts →
  (∀ ready, At (S := PG) ReadReady ready ∈ ts → ready ≠ 0 → WriteReady ∈ made tw) →
  cfg_callback cfg = f ∧
  ∃ u1 u2, At (S := PG) DsmAttach (Some cfg) :: tw = u1 ++ [At (S := PG) WriteReady ()] ++ u2 ∧
    pushed u1 = [] ∧ filters u1 !! u = Some (default EmptyString expr).
Proof.
  intros Hts Hwarn Hw Hcfg Hflag.
  destruct (leads_takes _ _ _ _ _ _ _ (leads_subscribe db role (Some u) (Some f) expr st []) Hts)
    as (_ & t' & E & u' & f' & k & ready & ready' & [= <-] & [= <-] & _ & _ & -> & _). simpl in E. subst ts.
  apply handed_over_config in Hcfg as ->. split; [done|].
  assert (ready' ≠ 0) as Hr.
  { intros ->. apply (Hwarn (not_ready_warning pid)). unfold handed_over. simpl. rewrite !made_app. set_solver. }
  assert (WriteReady ∈ made (At (S := PG) DsmAttach (Some (Config db role f u (default EmptyString expr))) :: tw)) as Hin.
  { right. apply (Hflag ready'); [|done]. unfold handed_over. set_solver. }
  apply leads_main in Hw as (s & seen & Hw).
  assert (∃ b, lived (Config db role f u (default EmptyString expr))
    (At (S := PG) DsmAttach (Some (Config db role f u (default EmptyString expr))) :: tw) s seen b) as [b Hl]
    by (destruct o; naive_solver).
  destruct (lived_ready _ _ _ _ _ Hl Hin) as (u1 & u2 & E & _ & _ & Hp & Hf & _).
  exists u1, ([At (S := PG) DsmDetach ()] ++ u2). by rewrite E.
Qed.

(** ** The properties at work *)

Module SubscriberExample.
Definition cfg : config := Config 5 10 77 "bmq://q" "region == 1".

Definition msg (i : Z) : message := Message i (py_str i).

(** The callback raises on the second message; a shutdown is requested while
    the fourth is handled, with a fifth in the same event. *)
Definition world (h : pglog) (c : pg_call) : pg_answer c :=
  match c as c return pg_answer c with
  | DsmAttach => Some cfg
  | ShutdownPending => 4 <=? Z.of_nat (length (calls h))
  | CallFunction _ p => if bool_decide (p = "2") then Some "division by zero" else None
  | LookupProc _ => Some [17]
  | c => easy_world [EvPush [msg 1; msg 2]; EvOther; EvPush [msg 3; msg 4; msg 5]] 1 h c
  end.

Definition stopped : backend := Backend default_broker_uri false None true.

Definition run := in_world world (bmq_subscriber_main 9) (fresh default_broker_uri).

Definition later : pglog := tail run.1.
Definition log : pglog := At (S := PG) DsmAttach (Some cfg) :: later.

Example subscription_ends : (snd <$> run.2) = Some (Value ()) ∧
  (calls run.1).*1 = (fun m => (77, data m)) <$> [msg 1; msg 2; msg 3; msg 4] ∧
  confirmed run.1 = [msg 1; msg 3; msg 4] ∧ pushed run.1 = [msg 1; msg 2; msg 3; msg 4; msg 5].
Proof. by vm_compute. Qed.

(** With the session's start refused the worker gives up. *)
Definition refusing (h : pglog) (c : pg_call) : pg_answer c :=
  match c as c return pg_answer c with SessionStart _ _ => -1 | c => world h c end.

Example gives_up :
  made (in_world refusing (bmq_subscriber_main 9) (fresh default_broker_uri)).1 =
    [DsmAttach; InitConnection 5 10;
     Ereport LOG "pg_blazingmq subscriber started for queue 'bmq://q'";
     SessionStart default_broker_uri (Parts 10 0); DsmDetach;
     Ereport LOG ("pg_blazingmq subscriber for queue 'bmq://q' exiting on error: " +:+
       "failed to start BlazingMQ session against 'tcp://localhost:30114' (rc=-1)");
     Ereport LOG "pg_blazingmq subscriber stopping for queue 'bmq://q'"; ProcExit 0].
Proof. by vm_compute. Qed.

Definition subscribe := in_world world (bmq_subscribe 5 10 (Some "bmq://q") (Some 77) (Some "region == 1"))
  (fresh default_broker_uri).

Definition asked : pglog := subscribe.1.

Example subscribe_ends : (snd <$> subscribe.2) = Some (Value 1).
Proof. by vm_compute. Qed.

(** The flag is never set: 250 pauses, a warning, and the pid all the same. *)
Definition deaf (h : pglog) (c : pg_call) : pg_answer c :=
  match c as c return pg_answer c with ReadReady => 0 | c => world h c end.

Definition late := in_world deaf (bmq_subscribe 5 10 (Some "bmq://q") (Some 77) None) (fresh default_broker_uri).

Example late_warns : (snd <$> late.2) = Some (Value 1) ∧
  made late.1 = made (handed_over (Config 5 10 77 "bmq://q" EmptyString) 1 250 0 0).
Proof. by vm_compute. Qed.
End SubscriberExample.

Lemma subscribe_outcomes_witness : ∃ o, SubscriberExample.late.2 = Some (fresh default_broker_uri, o).
Proof.
  destruct (subscribe_outcomes 5 10 (Some "bmq://q") (Some 77) None (fresh default_broker_uri) _ _
    (play_takes SubscriberExample.deaf _ [])) as (o & H & _).
  exists o. exact H.
Defined.

Lemma worker_delivers_witness :
  confirmed SubscriberExample.log =
    succeeded (take (length (calls SubscriberExample.log)) (pushed SubscriberExample.log))
      (calls SubscriberExample.log).*2.
Proof.
  refine (proj2 (proj2 (worker_delivers 9 SubscriberExample.cfg default_broker_uri SubscriberExample.later
    SubscriberExample.stopped (Value ()) _ _))).
  - apply (takes_play SubscriberExample.world). vm_compute. reflexivity.
  - vm_compute. reflexivity.
Defined.

Lemma worker_lifecycle_witness : shutdown_seen SubscriberExample.log = true.
Proof.
  refine (proj2 (proj2 (proj2 (proj2 (proj2 (worker_lifecycle 9 SubscriberExample.cfg default_broker_uri
    SubscriberExample.later SubscriberExample.stopped (Value ()) _))))) _).
  - apply (takes_play SubscriberExample.world). vm_compute. reflexivity.
  - apply list_elem_of_In. vm_compute. auto 20.
Defined.

Lemma ready_means_open_witness :
  ∃ u1 u2, SubscriberExample.log = u1 ++ [At (S := PG) WriteReady ()] ++ u2 ∧
    pushed u1 = [] ∧ filters u1 !! "bmq://q" = Some "region == 1".
Proof.
  refine (proj2 (ready_means_open 5 10 "bmq://q" 77 (Some "region == 1") (fresh default_broker_uri)
    SubscriberExample.asked 1 (fresh default_broker_uri) 9 default_broker_uri SubscriberExample.cfg
    SubscriberExample.later SubscriberExample.stopped (Value ()) _ _ _ _ _)).
  - apply (takes_play SubscriberExample.world). vm_compute. reflexivity.
  - intros msg. unfold never. intros H. apply list_elem_of_In in H. vm_compute in H.
    repeat destruct H as [H|H]; done.
  - apply (takes_play SubscriberExample.world). vm_compute. reflexivity.
  - apply list_elem_of_In. vm_compute. auto.
  - intros _ _ _. apply list_elem_of_In. vm_compute. auto 20.
Defined.
