(* ===== verification/Statements.v ===== *)
(** * The statements of a backend

    One process executes the extension's functions one after the other, on one
    session and one cache of queue handles. *)
From S2P Require Import Prelude PyFloat PyStr Effects Backend PublishRow Consume Subscriber.
#[local] Open Scope cxx_scope.

Inductive statement :=
| Publish (queue_uri : option string) (row : option (list column)) (attr_columns : option (list (option string)))
| Consume (fuel : nat) (materialize : bool) (queue_uri subscription_expr : option string)
    (max_messages timeout_ms : option Z) (batch_confirm : option bool)
| Subscribe (queue_uri : option string) (callback_fn : option Z) (subscription_expr : option string)
| Unsubscribe (worker_pid : option Z).

Section statements.
Context (msgpack : list (string * dyn) → string) (MyDatabaseId GetUserId : Z).

(** A statement that fails is rolled back; the process goes on with its
    session and its cache as they are. *)
Definition execute (s : statement) : cxx unit :=
  match s with
  | Publish uri row attrs => settles (bmq_publish_row msgpack uri row attrs)
  | Consume fuel mat uri expr n ms b => settles (bmq_consume fuel mat uri expr n ms b)
  | Subscribe uri fn expr => settles (bmq_subscribe MyDatabaseId GetUserId uri fn expr)
  | Unsubscribe pid => settles (bmq_unsubscribe pid)
  end.

Definition executes (ss : list statement) : cxx unit := in_turn (execute <$> ss).

Lemma keeps_executes ss : keeps (executes ss).
Proof.
  apply within_in_turn; [exact _|]. apply Forall_fmap, Forall_true.
  intros []; simpl; apply within_settles.
  - apply keeps_publish_row.
  - apply keeps_consume.
  - apply keeps_subscribe.
  - apply keeps_unsubscribe.
Qed.

(** ** Properties *)

(** C2. The cache of queue handles, after any statements in any order, each
    of them failing or not, whatever the library and the server answer: no
    queue was opened while the session had it open already; every handle is
    the handle of the queue it is cached for; and the cached expression of
    every queue is the filter that the broker was last given for it, so that a
    queue is in the cache exactly when the session has it open. *)
Theorem queue_handles_invariant ss broker t st o :
  takes (executes ss (fresh broker)) t (Some (st, o)) →
  never_reopened t ∧
  (∀ uri e, handles st !! uri = Some e → q_uri (queue_id e) = uri) ∧
  ∀ uri expr, filters t !! uri = Some expr ↔ ∃ q, handles st !! uri = Some (QueueEntry q expr).
Proof using.
  intros H.
  pose proof (leads_takes _ _ _ _ _ _ _ (keeps_elim _ _ [] (keeps_executes ss) (tracked_fresh broker)) H) as Ht.
  destruct Ht as [Hf Hu Ho _]. split; [done|]. split; [done|].
  intros uri expr. change ([] ++ t) with t in Hf. rewrite <-Hf, lookup_fmap. split.
  - intros ([q e] & Hq & ->)%fmap_Some. by exists q.
  - by intros (q & ->).
Qed.
End statements.

(** ** The property at work *)

Module StatementsExample.
Definition writer (fields : list (string * dyn)) : string := join "," fields.*1.

(** A publish opens the queue, a consume configures it with its filter, a
    second consume without one leaves it as it is, a third with another
    configures it again. *)
Definition session : list statement :=
  [Publish (Some "bmq://q") (Some [Column "region" false INT4OID (Some 1)]) None;
   Consume 9 true (Some "bmq://q") (Some "region == 1") None (Some 1) None;
   Consume 9 true (Some "bmq://q") None None (Some 1) None;
   Consume 9 true (Some "bmq://q") (Some "region == 2") None (Some 1) None].

Definition run := in_world (easy_world [] 1000000) (executes writer 5 10 session) (fresh default_broker_uri).

Definition ended : backend :=
  Backend default_broker_uri true
    (Some {[ "bmq://q" := QueueEntry (QueueHandle "bmq://q" 4) "region == 2" ]}) true.

Definition log : pglog := run.1.

Example statements_end : run.2 = Some (ended, Value ()).
Proof. by vm_compute. Qed.

Definition about_queues (c : pg_call) : bool :=
  match c with OpenQueueSync _ _ _ | ConfigureQueueSync _ _ => true | _ => false end.

Example queue_calls : filter (fun c => about_queues c = true) (made log) =
  [OpenQueueSync "bmq://q" [READ; WRITE] EmptyString; ConfigureQueueSync (QueueHandle "bmq://q" 4) "region == 1";
   ConfigureQueueSync (QueueHandle "bmq://q" 4) "region == 2"].
Proof. by vm_compute. Qed.
End StatementsExample.

Lemma queue_handles_invariant_witness : never_reopened StatementsExample.log.
Proof.
  refine (proj1 (queue_handles_invariant StatementsExample.writer 5 10 StatementsExample.session default_broker_uri
    StatementsExample.log StatementsExample.ended (Value ()) _)).
  apply (takes_play (easy_world [] 1000000)). vm_compute. reflexivity.
Defined.
