(* ===== verification/Ostream.v ===== *)
(** * Numbers on a C++ stream, and atol

    [operator<<] on a double without manipulators is [%g]: six significant
    digits, the trailing zeros dropped.  [atol] reads as many digits as there
    are. *)
From Stdlib Require Import Ascii.
From S2P Require Import Prelude PyFloat PyStr PyNum PyRepr FloatText PyFormat Report.

(** ** Six digits *)

(** [num / den / 10^k] to the nearest integer. *)
Definition nearest_scaled (num den k : Z) : Z :=
  to_nearest (num * 10 ^ Z.max (- k) 0) (den * 10 ^ Z.max k 0).

(** The six leading digits of the positive [m * 2^e] and the place of the
    last of them. *)
Definition six_digits (m : positive) (e : Z) : Z * Z :=
  let num := Z.pos m * 2 ^ Z.max e 0 in
  let den := 2 ^ Z.max (- e) 0 in
  let p := n_digits num - n_digits den in
  (* the exponent is [p], or one less *)
  let x := if den * 10 ^ Z.max p 0 <=? num * 10 ^ Z.max (- p) 0 then p else p - 1 in
  (nearest_scaled num den (x - 5), x - 5).

(** The text of [d * 10^k]. *)
Definition g_text (d k : Z) : string :=
  let ds := py_str d in
  let nd := n_digits d in
  let decpt := nd + k in
  if (decpt <=? -4) || (6 <? decpt) then
    str_take 1 ds +:+ (if nd =? 1 then EmptyString else "." +:+ str_drop 1 ds)
      +:+ exponent_text (decpt - 1)
  else if decpt <=? 0 then "0." +:+ zeros (Z.to_nat (- decpt)) +:+ ds
  else if nd <=? decpt then ds +:+ zeros (Z.to_nat (decpt - nd))
  else str_take (Z.to_nat decpt) ds +:+ "." +:+ str_drop (Z.to_nat decpt) ds.

(** [os << x]; the sign of a NaN is not modelled. *)
Definition g_float (x : float) : string :=
  match x with
  | S754_zero s => minus s +:+ "0"
  | S754_infinity s => minus s +:+ "inf"
  | S754_nan => "nan"
  | S754_finite s m e =>
      let '(d, k) := six_digits m e in
      let '(d', k') := strip_zeros 7 d k in
      minus s +:+ g_text d' k'
  end.

Example g_rate : g_float (fquot (of_int 21683) (lit 91 100)) = "23827.5".
Proof. vm_compute. reflexivity. Qed.

Example g_whole : g_float (of_int 100000) = "100000".
Proof. vm_compute. reflexivity. Qed.

Example g_large : g_float (of_int 1234567) = "1.23457e+06".
Proof. vm_compute. reflexivity. Qed.

Example g_carry : g_float (lit 99999951 100) = "1e+06".
Proof. vm_compute. reflexivity. Qed.

Example g_small : g_float (lit 12 1000000) = "1.2e-05".
Proof. vm_compute. reflexivity. Qed.

Example g_tenth : g_float (lit 1 10) = "0.1".
Proof. vm_compute. reflexivity. Qed.

(** ** What Python reads back *)

(** A decimal number's text, denoting [d * 10^k]. *)
Definition reads_as (d k : Z) (t : string) : Prop :=
  ∃ ip f x, t = number_text ip f x ∧ digit_string ip = true ∧ ip ≠ EmptyString ∧
    digit_string (frac_digits f) = true ∧
    ∀ s, decimal s (numeral (ip +:+ frac_digits f) 0)
           (default 0 x - Z.of_nat (String.length (frac_digits f))) = decimal s d k.

Lemma denotes_reads_as d k t : denotes d k t → reads_as d k t.
Proof.
  intros (ip & f & x & -> & [Hd Hl Hf _ _] & Hdec). exists ip, f, x. do 2 (split; [done|]).
  split; [|done]. by destruct Hl as [->|(c & s & -> & _)].
Qed.

Lemma reads_as_whole d k : 0 < d → 0 ≤ k → reads_as d k (py_str d +:+ zeros (Z.to_nat k)).
Proof.
  intros Hd Hk. exists (py_str d +:+ zeros (Z.to_nat k)), None, None.
  pose proof (digit_string_py_str d ltac:(lia)) as Hds.
  split; [by unfold number_text; simpl; rewrite append_nil_r|].
  split; [by rewrite digit_string_app, digit_string_zeros, Hds|].
  split; [|split; [done|]].
  - destruct (py_str_leading d Hd) as (c & s & -> & _). done.
  - intros s. simpl frac_digits. rewrite append_nil_r, numeral_app, numeral_zeros, numeral_py_str by lia.
    transitivity (decimal s d (0 + k)); [|f_equal; lia].
    rewrite <-decimal_shift by lia. by rewrite Z2Nat.id.
Qed.

Lemma g_text_reads d k : 0 < d → reads_as d k (g_text d k).
Proof.
  intros Hd. unfold g_text, n_digits. cbv zeta.
  destruct (_ || _); [by apply denotes_reads_as, denotes_scientific|].
  destruct (Z.leb_spec (Z.of_nat (String.length (py_str d)) + k) 0); [by apply denotes_reads_as, denotes_small|].
  destruct (Z.leb_spec (Z.of_nat (String.length (py_str d))) (Z.of_nat (String.length (py_str d)) + k)).
  - replace (Z.of_nat (String.length (py_str d)) + k - Z.of_nat (String.length (py_str d))) with k by lia.
    apply reads_as_whole; lia.
  - apply denotes_reads_as, denotes_mixed; lia.
Qed.

(** ** The digits are the nearest *)

Lemma numeral_bound s : numeral s 0 < 10 ^ Z.of_nat (String.length s).
Proof.
  induction s as [|c s IH]; [done|]. cbn [numeral String.length].
  rewrite numeral_acc, Nat2Z.inj_succ, Z.pow_succ_r by lia.
  assert (default 0 (digit c) ≤ 9).
  { unfold digit. destruct (_ && _)%N eqn:E; [|done]. apply andb_prop in E as [_ H%N.leb_le]. simpl. lia. }
  pose proof (Z.pow_pos_nonneg 10 (Z.of_nat (String.length s))). nia.
Qed.

Lemma n_digits_bounds z : 0 < z → 10 ^ (n_digits z - 1) ≤ z < 10 ^ n_digits z.
Proof.
  intros Hz. unfold n_digits. split.
  - destruct (Z.le_gt_cases (10 ^ (Z.of_nat (String.length (py_str z)) - 1)) z) as [|Hlt]; [done|exfalso].
    destruct (String.length (py_str z)) as [|[|n]] eqn:E; [simpl in Hlt; lia..|].
    pose proof (py_str_short z (S n)). replace (Z.of_nat (S (S n)) - 1) with (Z.of_nat (S n)) in Hlt by lia. lia.
  - pose proof (numeral_bound (py_str z)) as H. by rewrite numeral_py_str in H by lia.
Qed.

(** Comparing with a power of ten, whatever its sign. *)
Lemma scale_le a b x M :
  Z.max (- x) 0 ≤ M → a * 10 ^ Z.max x 0 ≤ b * 10 ^ Z.max (- x) 0 ↔ a * 10 ^ (x + M) ≤ b * 10 ^ M.
Proof.
  intros HM. replace (x + M) with (Z.max x 0 + (M - Z.max (- x) 0)) by lia.
  replace (10 ^ M) with (10 ^ (Z.max (- x) 0 + (M - Z.max (- x) 0))) by (f_equal; lia).
  rewrite !Z.pow_add_r, !Z.mul_assoc by lia. apply Z.mul_le_mono_pos_r, Z.pow_pos_nonneg; lia.
Qed.

(** The decimal exponent. *)
Lemma exponent_spec num den M :
  0 < num → 0 < den → Z.abs (n_digits num - n_digits den) + 1 ≤ M →
  let p := n_digits num - n_digits den in
  let x := if den * 10 ^ Z.max p 0 <=? num * 10 ^ Z.max (- p) 0 then p else p - 1 in
  den * 10 ^ (x + M) ≤ num * 10 ^ M < den * 10 ^ (x + 1 + M).
Proof.
  intros Hn Hd HM p x. pose proof (n_digits_bounds num Hn) as Hbn. pose proof (n_digits_bounds den Hd) as Hbd.
  fold p in HM. set (a := n_digits num) in *. set (b := n_digits den) in *.
  assert (1 ≤ a ∧ 1 ≤ b) as [Ha Hb].
  { split; [destruct (Z.le_gt_cases 1 a) as [|E]|destruct (Z.le_gt_cases 1 b) as [|E]]; try done; exfalso.
    - assert (a = 0) as E0 by (unfold a, n_digits in *; lia). rewrite E0 in Hbn. simpl in Hbn. lia.
    - assert (b = 0) as E0 by (unfold b, n_digits in *; lia). rewrite E0 in Hbd. simpl in Hbd. lia. }
  pose proof (Z.pow_pos_nonneg 10 M ltac:(lia) ltac:(lia)) as HM0.
  pose proof (Z.pow_pos_nonneg 10 (p + M) ltac:(lia) ltac:(lia)) as Hpm.
  pose proof (Z.pow_pos_nonneg 10 (p + 1 + M) ltac:(lia) ltac:(lia)) as Hpm1.
  pose proof (Z.pow_pos_nonneg 10 (p - 1 + M) ltac:(lia) ltac:(lia)) as Hpm2.
  unfold x. destruct (Z.leb_spec (den * 10 ^ Z.max p 0) (num * 10 ^ Z.max (- p) 0)) as [H|H].
  - apply (scale_le _ _ _ M) in H; [|lia]. split; [done|].
    apply Z.lt_le_trans with (10 ^ a * 10 ^ M); [nia|].
    apply Z.le_trans with (10 ^ (b - 1) * 10 ^ (p + 1 + M)); [|nia].
    rewrite <-!Z.pow_add_r by lia. apply Z.eq_le_incl. f_equal. lia.
  - assert (¬ den * 10 ^ (p + M) ≤ num * 10 ^ M) as Hlt by (rewrite <-(scale_le _ _ p) by lia; lia).
    replace (p - 1 + 1 + M) with (p + M) by lia. split; [|lia].
    apply Z.le_trans with (10 ^ b * 10 ^ (p - 1 + M)); [nia|].
    apply Z.le_trans with (10 ^ (a - 1) * 10 ^ M); [|nia].
    rewrite <-!Z.pow_add_r by lia. apply Z.eq_le_incl. f_equal. lia.
Qed.

Lemma nearest_between lo hi n u d :
  0 < u → lo * u ≤ n ≤ hi * u → 2 * Z.abs (n - d * u) ≤ u → lo ≤ d ≤ hi.
Proof.
  intros Hu [Hlo Hhi] Hd. split; apply Z.le_ngt; intros H.
  - assert (d * u ≤ (lo - 1) * u) by (apply Z.mul_le_mono_nonneg_r; lia). lia.
  - assert ((hi + 1) * u ≤ d * u) by (apply Z.mul_le_mono_nonneg_r; lia). lia.
Qed.

(** Six digits (or 10^6, when they round up), at most half a unit of the last
    place away. *)
Lemma six_digits_spec m e d k :
  six_digits m e = (d, k) →
  let n := Z.pos m * 2 ^ Z.max e 0 * 10 ^ Z.max (- k) 0 in
  let u := 2 ^ Z.max (- e) 0 * 10 ^ Z.max k 0 in
  10 ^ 5 ≤ d ≤ 10 ^ 6 ∧ 2 * Z.abs (n - d * u) ≤ u.
Proof.
  unfold six_digits. set (num := Z.pos m * 2 ^ Z.max e 0). set (den := 2 ^ Z.max (- e) 0).
  assert (0 < num) as Hn by (subst num; pose proof (Z.pow_pos_nonneg 2 (Z.max e 0)); lia).
  assert (0 < den) as Hd by (apply Z.pow_pos_nonneg; lia).
  pose proof (exponent_spec num den (Z.abs (n_digits num - n_digits den) + 10) Hn Hd ltac:(lia)) as Hx.
  cbv zeta in Hx |- *. set (M := Z.abs _ + 10) in Hx.
  set (x := if _ <=? _ then _ else _) in Hx |- *. intros [= <- <-].
  assert (Z.abs x ≤ M - 9) as HxM by (subst x M; destruct (_ <=? _); lia).
  set (k := x - 5). set (n := num * 10 ^ Z.max (- k) 0). set (u := den * 10 ^ Z.max k 0).
  assert (0 < u) as Hu by (apply Z.mul_pos_pos; [done|apply Z.pow_pos_nonneg; lia]).
  assert (10 ^ 5 * u ≤ n < 10 ^ 6 * u) as Hr.
  { replace (x + M) with (5 + (k + M)) in Hx by lia. replace (x + 1 + M) with (6 + (k + M)) in Hx by lia.
    rewrite (Z.pow_add_r 10 5), (Z.pow_add_r 10 6), !(Z.mul_comm den), <-!Z.mul_assoc, !(Z.mul_comm _ den),
      !Z.mul_assoc in Hx by lia. subst n u. split.
    - rewrite Z.mul_assoc. apply (scale_le _ _ k M); [lia|]. apply Hx.
    - apply Z.lt_nge. rewrite Z.mul_assoc. intros H.
      assert (10 ^ 6 * den * 10 ^ Z.max k 0 ≤ num * 10 ^ Z.max (- k) 0) as H' by done.
      apply (scale_le _ _ k M) in H'; [|lia].
      apply (Z.lt_irrefl (num * 10 ^ M)), (Z.lt_le_trans _ _ _ (proj2 Hx) H'). }
  pose proof (to_nearest_close n u Hu) as [Hc _]. fold (nearest_scaled num den k) in Hc |- *.
  unfold nearest_scaled in *. fold n u in Hc |- *. split; [|done]. by apply (nearest_between _ _ n u); [done|lia|].
Qed.

(** ** Property *)

(** A double that is not zero, printed and read back by Python's [float]: the
    text has no blanks, and denotes the double nearest to a decimal of six
    significant digits that is at most half a unit of its last place away. *)
Lemma g_float_reads s m e :
  ∃ d k, 10 ^ 5 ≤ d ≤ 10 ^ 6 ∧
    2 * Z.abs (Z.pos m * 2 ^ Z.max e 0 * 10 ^ Z.max (- k) 0 - d * (2 ^ Z.max (- e) 0 * 10 ^ Z.max k 0))
      ≤ 2 ^ Z.max (- e) 0 * 10 ^ Z.max k 0 ∧
    blank_free (g_float (S754_finite s m e)) ∧
    py_float (g_float (S754_finite s m e)) = Some (decimal s d k).
Proof.
  cbn [g_float]. destruct (six_digits m e) as [d k] eqn:E. pose proof (six_digits_spec m e d k E) as [Hd Hc].
  exists d, k. split; [done|]. split; [done|].
  destruct (strip_zeros_reads 7 d k ltac:(lia)) as [Hd' Hs]. destruct (strip_zeros 7 d k) as [d' k'].
  simpl in Hd', Hs. destruct (g_text_reads d' k' Hd') as (ip & f & x & -> & H1 & H2 & H3 & H4). split.
  - apply blank_free_app; [by destruct s|]. unfold blank_free.
    pose proof (plain_number_text ip f x H1 H3) as Hp. revert Hp. unfold plain_text.
    generalize (number_text ip f x). intros t. induction t as [|c t IH]; [done|]. simpl.
    intros [Hp1 Hp2]%andb_prop. rewrite IH by done. rewrite andb_true_r.
    apply negb_true_iff, negb_false_iff in Hp1. by rewrite (proj1 (plain_char c Hp1)).
  - rewrite py_float_number_text, H4 by done. by rewrite decimal_signed, Hs, <-decimal_signed.
Qed.

(** Whatever the double, Python's [float] reads a number. *)
Lemma g_float_blank_free x : blank_free (g_float x) ∧ ∃ y, py_float (g_float x) = Some y.
Proof.
  destruct x as [[]|[]| |s m e]; try (split; [done|by eexists]).
  destruct (g_float_reads s m e) as (d & k & _ & _ & H1 & H2). eauto.
Qed.

(** ** atol *)

(** [isspace] in the C locale. *)
Definition c_space (c : ascii) : bool :=
  let n := code c in ((n =? 32) || (9 <=? n) && (n <=? 13))%N.

Fixpoint skip_space (s : string) : string :=
  match s with
  | String c s' => if c_space c then skip_space s' else s
  | EmptyString => s
  end.

(** The value of the leading digits. *)
Fixpoint leading_digits (s : string) (acc : Z) : Z :=
  match s with
  | String c s' => match digit c with Some d => leading_digits s' (10 * acc + d) | None => acc end
  | EmptyString => acc
  end.

(** [std::atol] and [std::atoi] of a text in range: 0 when there is no
    number. *)
Definition c_atol (s : string) : Z :=
  match skip_space s with
  | String "-"%char s' => - leading_digits s' 0
  | String "+"%char s' => leading_digits s' 0
  | s' => leading_digits s' 0
  end.

Example c_atol_trailing : c_atol " -12abc" = -12.
Proof. done. Qed.

Example c_atol_none : c_atol "abc" = 0.
Proof. done. Qed.

Lemma leading_digits_numeral s acc : digit_string s = true → leading_digits s acc = numeral s acc.
Proof.
  revert acc. induction s as [|c s IH]; intros acc; [done|].
  intros [[z Hz] Hs]%digit_string_cons. simpl. rewrite Hz. by apply IH.
Qed.

Lemma c_atol_py_str z : 0 ≤ z → c_atol (py_str z) = z.
Proof.
  intros Hz. pose proof (digit_string_py_str z Hz) as Hd. pose proof (numeral_py_str z Hz) as Hn.
  unfold c_atol. destruct (py_str z) as [|c s] eqn:E; [done|].
  destruct (digit_string_cons _ _ Hd) as [[d Hc] _].
  assert (c_space c = false) as Hsp.
  { unfold c_space, digit in *. destruct (_ && _)%N eqn:E1 in Hc; [|done].
    apply andb_prop in E1 as [H1%N.leb_le H2%N.leb_le].
    apply orb_false_iff. split; [apply N.eqb_neq; lia|]. apply andb_false_iff. right. apply N.leb_gt. lia. }
  cbn [skip_space]. rewrite Hsp. rewrite <-Hn, <-leading_digits_numeral by done.
  destruct c as [[] [] [] [] [] [] [] []]; done.
Qed.
