(* ===== verification/Driver.v ===== *)
(** * bench/mq_bench_driver.cpp

    The command-line publisher, subscriber and control client that the scripts
    run: one coroutine on one io_context, suspended at every [co_await], where
    the messages that have arrived go through the subscription's callback. *)
From S2P Require Import Prelude PyFloat PyStr Effects Report PublishRow Ostream.
#[local] Open Scope comp_scope.

(** ** Calls *)

(** A message of a subscription, and the clock when its callback ran. *)
Record delivery := Delivery {
  payload : string;
  arrived : Z;
}.

(** A value in the request of [nlohmann::json]. *)
Inductive request_value :=
| ReqString (s : string)
| ReqInt (z : Z).

Inductive driver_call :=
(* nats_asio::create_connection and start *)
| StartConnection (address : string) (port : Z)
| Connected
| SleepMs (ms : Z)
| SubscribeTo (subject : string)
| PublishTo (subject payload : string) (reply_to : option string)
| RequestReply (subject payload : string) (timeout_ms : Z)
| GenerateInbox
| RandomU64
(* steady_clock, in nanoseconds *)
| ClockNow
| Stdout (s : string)
| Stderr (s : string)
| StopIoc.

(** While it is suspended, messages of the subscriptions arrive; a status that
    failed comes with its text. *)
Definition driver_answer (c : driver_call) : Type :=
  match c with
  | Connected => bool
  | SleepMs _ => list delivery
  | SubscribeTo _ | PublishTo _ _ _ => list delivery * option string
  | RequestReply _ _ _ => string + string
  | GenerateInbox => string
  | RandomU64 | ClockNow => Z
  | _ => unit
  end.

Definition NATS : signature := Signature driver_call driver_answer.

Abbreviation dlog := (list (answered NATS)).
Abbreviation driver A := (comp NATS A).

Definition do (c : driver_call) : driver (driver_answer c) := ask (S := NATS) c.

(** [std::endl] is not used: a newline. *)
Definition say (s : string) : driver unit := do (Stdout (s +:+ newline)).

(** ** The connection *)

(** [while (!connected)], every 5 ms. *)
Fixpoint wait_connected (fuel : nat) : driver unit :=
  match fuel with
  | O => NoFuel
  | S fuel' =>
      connected <- do Connected;;
      if connected : bool then Pure () else do (SleepMs 5);; wait_connected fuel'
  end.

(** [make_conn], [start] and [wait_connected]. *)
Definition connect (fuel : nat) : driver unit :=
  do (StartConnection "127.0.0.1" 4222);; wait_connected fuel.

(** [duration<double>(t1 - t0).count()] *)
Definition seconds (t0 t1 : Z) : float := fquot (of_int (t1 - t0)) (of_int 1000000000).

Section programs.
(** zerialize's MsgPack writer on a map and its reader of one field ([None]:
    it throws), and nlohmann's writer and reader: whether the text is JSON,
    and then an object with the key "error". *)
Context (msgpack : list (string * dyn) → string).
Context (as_int64 : string → string → option Z) (as_string : string → string → option string).
Context (dump : list (string * request_value) → string) (has_error : string → option bool).

(** ** pub *)

Definition region_payload (i : Z) : string := msgpack [("region", DynInt (Z.rem i 8 + 1))].

Definition pub_done_line (count : Z) (secs : float) : string :=
  "PUB_DONE count=" +:+ py_str count +:+ " secs=" +:+ g_float secs
    +:+ " rate=" +:+ g_float (fquot (of_int count) secs).

(** [for (long i = 0; i < count; ++i)], [left] iterations before the end. *)
Fixpoint publish_all (left : nat) (i : Z) (subject : string) : driver unit :=
  match left with
  | O => Pure ()
  | S left' => do (PublishTo subject (region_payload i) None);; publish_all left' (i + 1) subject
  end.

Definition do_pub (fuel : nat) (subject : string) (count : Z) : driver unit :=
  connect fuel;;
  t0 <- do ClockNow;;
  publish_all (Z.to_nat count) 0 subject;;
  t1 <- do ClockNow;;
  say (pub_done_line count (seconds t0 t1));;
  do StopIoc.

(** ** sub and subfield *)

(** The callback's counters. *)
Record counting := Counting {
  total : Z;
  wrong : Z;
  since : Z;           (* t0 *)
  first_msg : bool;
}.

(** One message; [good]: the field is as expected. *)
Definition on_message (good : string → bool) (c : counting) (d : delivery) : counting :=
  let since' := if first_msg c then arrived d else since c in
  Counting (total c + 1) (if good (payload d) then wrong c else wrong c + 1) since' false.

Definition on_messages (good : string → bool) (c : counting) (ds : list delivery) : counting :=
  foldl (on_message good) c ds.

(** [while (total < expected && now() < deadline)], every 10 ms. *)
Fixpoint wait_matches (fuel : nat) (good : string → bool) (expected deadline : Z) (c : counting)
    : driver counting :=
  match fuel with
  | O => NoFuel
  | S fuel' =>
      if negb (total c <? expected) then Pure c else
      now <- do ClockNow;;
      if negb (now <? deadline) then Pure c else
      ds <- do (SleepMs 10);;
      wait_matches fuel' good expected deadline (on_messages good c ds)
  end.

Definition count_matches (fuel : nat) (good : string → bool) (pattern : string) (expected timeout_ms : Z)
    : driver unit :=
  connect fuel;;
  t0 <- do ClockNow;;
  subscribed <- do (SubscribeTo pattern);;
  match subscribed.2 with
  | Some error => do (Stderr ("subscribe failed: " +:+ error +:+ newline))
  | None =>
      now <- do ClockNow;;
      c <- wait_matches fuel good expected (now + timeout_ms * 1000000)
             (on_messages good (Counting 0 0 t0 true) subscribed.1);;
      (* the settle window *)
      ds <- do (SleepMs 300);;
      let c := on_messages good c ds in
      t1 <- do ClockNow;;
      let secs := seconds (since c) t1 in
      say (sub_done_line (total c) (wrong c) (g_float secs)
             (g_float (if fgt secs fzero then fquot (of_int (total c)) secs else fzero)));;
      do StopIoc
  end.

Definition do_sub (fuel : nat) (pattern : string) (expected timeout_ms : Z) : driver unit :=
  count_matches fuel (fun p => bool_decide (as_int64 p "region" = Some 1)) pattern expected timeout_ms.

Definition do_subfield (fuel : nat) (pattern : string) (expected timeout_ms : Z)
    (field expected_value : string) : driver unit :=
  count_matches fuel (fun p => bool_decide (as_string p field = Some expected_value)) pattern expected timeout_ms.

(** ** ctrl and ctrl_bcast *)

Definition do_ctrl (fuel : nat) (subject expr : string) : driver unit :=
  connect fuel;;
  reply <- do (RequestReply subject (dump [("expression", ReqString expr); ("client_id", ReqString "bench")]) 5000);;
  match reply with
  | inr error => do (Stderr ("CTRL_FAIL " +:+ error +:+ newline))
  | inl payload => say ("CTRL_REPLY " +:+ payload);; do StopIoc
  end.

(** The acks and the errors; a reply that is not JSON is an error. *)
Definition on_ack (c : Z * Z) (d : delivery) : Z * Z :=
  match has_error (payload d) with Some false => (c.1 + 1, c.2) | _ => (c.1, c.2 + 1) end.

Definition on_acks (c : Z * Z) (ds : list delivery) : Z * Z := foldl on_ack c ds.

Fixpoint wait_acks (fuel : nat) (expected deadline : Z) (c : Z * Z) : driver (Z * Z) :=
  match fuel with
  | O => NoFuel
  | S fuel' =>
      if negb (c.1 + c.2 <? expected) then Pure c else
      now <- do ClockNow;;
      if negb (now <? deadline) then Pure c else
      ds <- do (SleepMs 5);;
      wait_acks fuel' expected deadline (on_acks c ds)
  end.

(** The two lines, printed one after the other. *)
Definition say_bcast (sub_id : Z) (c : Z * Z) (expected_acks : Z) (ms : float) : driver unit :=
  say ("CTRL_BCAST_ID " +:+ py_str sub_id);;
  say ("CTRL_BCAST_ACKS " +:+ py_str c.1 +:+ " errors=" +:+ py_str c.2 +:+ " expected="
       +:+ py_str expected_acks +:+ " latency_ms=" +:+ g_float ms).

Definition do_ctrl_bcast (fuel : nat) (subject expr : string) (expected_acks timeout_ms : Z) : driver unit :=
  connect fuel;;
  sub_id <- do RandomU64;;
  inbox <- do GenerateInbox;;
  subscribed <- do (SubscribeTo inbox);;
  match subscribed.2 with
  | Some error =>
      do (Stderr ("CTRL_BCAST_FAIL inbox subscribe: " +:+ error +:+ newline));; do StopIoc
  | None =>
      t0 <- do ClockNow;;
      published <- do (PublishTo subject (dump [("expression", ReqString expr); ("client_id", ReqString "bench");
                                               ("id", ReqInt sub_id)]) (Some inbox));;
      match published.2 with
      | Some error =>
          do (Stderr ("CTRL_BCAST_FAIL publish: " +:+ error +:+ newline));; do StopIoc
      | None =>
          c <- wait_acks fuel expected_acks (t0 + timeout_ms * 1000000)
                 (on_acks (on_acks (0, 0) subscribed.1) published.1);;
          t1 <- do ClockNow;;
          say_bcast sub_id c expected_acks (fquot (of_int (t1 - t0)) (of_int 1000000));;
          do StopIoc
      end
  end.

(** ** main *)

Definition refuse (message : string) : driver Z := do (Stderr (message +:+ newline));; Pure 1.

(** The arguments after the program's name; the exit code once the context has
    run. *)
Definition main (fuel : nat) (args : list string) : driver Z :=
  match args with
  | [] => refuse "usage: mq_bench_driver <pub|sub|ctrl> ..."
  | ["pub"; subject; count] => do_pub fuel subject (c_atol count);; Pure 0
  | ["sub"; pattern; expected; timeout_ms] =>
      do_sub fuel pattern (c_atol expected) (c_atol timeout_ms);; Pure 0
  | ["subfield"; pattern; expected; timeout_ms; field; value] =>
      do_subfield fuel pattern (c_atol expected) (c_atol timeout_ms) field value;; Pure 0
  | ["ctrl"; subject; expr] => do_ctrl fuel subject expr;; Pure 0
  | ["ctrl_bcast"; subject; expr; expected_acks; timeout_ms] =>
      do_ctrl_bcast fuel subject expr (c_atol expected_acks) (c_atol timeout_ms);; Pure 0
  | _ => refuse "bad args"
  end.
End programs.

(** ** What a run did, from its log *)

(** Standard output. *)
Fixpoint printed (t : dlog) : string :=
  match t with
  | [] => EmptyString
  | At (Stdout s) _ :: t' => s +:+ printed t'
  | _ :: t' => printed t'
  end.

Definition delivered_of (e : answered NATS) : list delivery :=
  match e with
  | At (SleepMs _) ds => ds
  | At (SubscribeTo _) x => x.1
  | At (PublishTo _ _ _) x => x.1
  | _ => []
  end.

Definition delivered (t : dlog) : list delivery := concat (delivered_of <$> t).

(** The messages that have arrived since it subscribed. *)
Fixpoint arrivals (t : dlog) : list delivery :=
  match t with
  | [] => []
  | At (SubscribeTo s) x :: t' => delivered (At (S := NATS) (SubscribeTo s) x :: t')
  | _ :: t' => arrivals t'
  end.

Definition published_of (e : answered NATS) : option (string * string) :=
  match e with At (PublishTo subject payload _) _ => Some (subject, payload) | _ => None end.

Definition published (t : dlog) : list (string * string) := omap published_of t.

Lemma printed_app t1 t2 : printed (t1 ++ t2) = printed t1 +:+ printed t2.
Proof. induction t1 as [|[[] x] t1 IH]; simpl; rewrite ?IH, ?append_assoc; done. Qed.

Lemma driver_delivered_app t1 t2 : delivered (t1 ++ t2) = delivered t1 ++ delivered t2.
Proof. unfold delivered. by rewrite fmap_app, concat_app. Qed.

Lemma driver_published_app t1 t2 : published (t1 ++ t2) = published t1 ++ published t2.
Proof. apply omap_app. Qed.

(** Waiting: it reads the clock and sleeps. *)
Definition waiting (c : driver_call) : bool :=
  match c with StartConnection _ _ | Connected | SleepMs _ | ClockNow => true | _ => false end.

Abbreviation waits t := (Forall (fun e : answered NATS => waiting (at_call e) = true) t).

Lemma waits_silent t :
  waits t → printed t = EmptyString ∧ published t = [] ∧ ∀ t', arrivals (t ++ t') = arrivals t'.
Proof.
  induction 1 as [|[c x] t Hc _ (IH1 & IH2 & IH3)]; [done|]. unfold published in *.
  by destruct c.
Qed.

(** [m] after the calls of [t]. *)
Ltac into H a t1 t2 H1 :=
  apply takes_bind in H as [(a & t1 & t2 & -> & H1 & H)|[H1 H]].

Lemma takes_do c t r : takes (do c) t r → ∃ x, t = [At (S := NATS) c x] ∧ r = Some x.
Proof. intros (x & t' & -> & -> & ->). by exists x. Qed.

Lemma takes_call {A} c (k : driver_answer c → driver A) t r :
  takes (x <- do c;; k x) t r → ∃ x t', t = At (S := NATS) c x :: t' ∧ takes (k x) t' r.
Proof. done. Qed.

Lemma connect_waits fuel t r : takes (connect fuel) t r → waits t.
Proof.
  intros (u & t1 & -> & H)%takes_call. constructor; [done|]. revert t1 H.
  induction fuel as [|fuel IH]; intros t1 H; [by destruct H as [-> _]|].
  apply takes_call in H as (c & t2 & -> & H). constructor; [done|].
  destruct c; [by destruct H as [-> _]|].
  apply takes_call in H as (ds & t3 & -> & H). constructor; [done|]. by apply IH.
Qed.

(** The messages of a wait have gone through the callback. *)
Lemma wait_matches_spec fuel good expected deadline c t r :
  takes (wait_matches fuel good expected deadline c) t r →
  waits t ∧ match r with Some c' => c' = on_messages good c (delivered t) | None => True end.
Proof.
  revert c t. induction fuel as [|fuel IH]; intros c t H; [by destruct H as [-> ->]|].
  cbn [wait_matches] in H. destruct (negb _); [by destruct H as [-> ->]|].
  apply takes_call in H as (now & t1 & -> & H). destruct (negb _).
  { destruct H as [-> ->]. split; [by constructor|done]. }
  apply takes_call in H as (ds & t2 & -> & H). apply IH in H as [Hw Hc].
  split; [by repeat constructor|]. destruct r as [c'|]; [|done]. subst c'.
  unfold on_messages. unfold delivered. simpl. by rewrite foldl_app.
Qed.

Lemma on_messages_counts good c ds :
  total (on_messages good c ds) = total c + Z.of_nat (length ds) ∧
  wrong (on_messages good c ds) =
    wrong c + Z.of_nat (length (filter (fun d => good (payload d) = false) ds)).
Proof.
  revert c. induction ds as [|d ds IH]; intros c; [simpl; lia|].
  unfold on_messages in *. cbn [foldl]. destruct (IH (on_message good c d)) as [-> ->]. simpl length.
  rewrite filter_cons. unfold on_message. cbn [total wrong].
  destruct (good (payload d)); [rewrite decide_False by done|rewrite decide_True by done; simpl length]; lia.
Qed.

(** What the subscriber prints: how many messages have arrived and how many of
    them are wrong; or nothing, when it could not subscribe. *)
Lemma count_matches_spec fuel good pattern expected timeout_ms t :
  takes (count_matches fuel good pattern expected timeout_ms) t (Some ()) →
  (printed t = EmptyString ∧ ∃ s error, SubscribeTo s ∈ made t ∧ last (made t) = Some (Stderr error)) ∨
  (∃ secs rate, last (made t) = Some StopIoc ∧
     printed t = sub_done_line (Z.of_nat (length (arrivals t)))
                   (Z.of_nat (length (filter (fun d => good (payload d) = false) (arrivals t))))
                   (g_float secs) (g_float rate) +:+ newline).
Proof.
  unfold count_matches. intros H. into H u t1 t2 H1; [|done].
  apply connect_waits in H1 as Hw1. destruct (waits_silent _ Hw1) as (P1 & _ & A1).
  apply takes_call in H as (t0 & t3 & -> & H). apply takes_call in H as ([ds0 status] & t4 & -> & H).
  cbn [snd fst] in H. destruct status as [error|].
  { apply takes_do in H as (x & -> & _). left. split; [by rewrite printed_app, P1|].
    exists pattern, ("subscribe failed: " +:+ error +:+ newline). rewrite made_app. split.
    - apply elem_of_app. right. right. left.
    - by rewrite last_app. }
  apply takes_call in H as (now & t5 & -> & H). into H c t6 t7 H2; [|done].
  apply wait_matches_spec in H2 as [Hw6 ->]. destruct (waits_silent _ Hw6) as (P6 & _ & _).
  apply takes_call in H as (ds & t8 & -> & H). apply takes_call in H as (t9 & t10 & -> & H).
  apply takes_call in H as (u1 & t11 & -> & H). apply takes_do in H as (u2 & -> & _).
  right. eexists _, _. split.
  { rewrite made_app, last_app. unfold made at 1. rewrite !fmap_cons, !last_cons, fmap_app, last_app. done. }
  set (tail := At (S := NATS) (SleepMs 300) ds :: _).
  match goal with |- printed ?t = _ => assert (arrivals t = ds0 ++ delivered t6 ++ ds) as -> end.
  { rewrite A1. simpl. unfold delivered. simpl. rewrite fmap_app, concat_app. simpl. by rewrite app_nil_r. }
  destruct (on_messages_counts good (Counting 0 0 t0 true) (ds0 ++ delivered t6 ++ ds)) as [E1 E2].
  rewrite printed_app, P1. simpl. rewrite printed_app, P6. simpl. rewrite append_nil_r.
  unfold on_messages in *. rewrite !foldl_app in E1, E2. cbn [total wrong] in E1, E2.
  rewrite Z.add_0_l in E1, E2. by rewrite E1, E2.
Qed.

(** ** The publisher *)

Lemma publish_all_spec msgpack n i subject t r :
  takes (publish_all msgpack n i subject) t r →
  r = Some () ∧ printed t = EmptyString ∧
  published t = (fun j => (subject, region_payload msgpack j)) <$> seqZ i (Z.of_nat n).
Proof.
  revert i t. induction n as [|n IH]; intros i t H; [by destruct H as [-> ->]|].
  apply takes_call in H as (x & t1 & -> & H). apply IH in H as (-> & Hp & Hs). do 2 (split; [done|]).
  rewrite seqZ_cons by lia. replace (Z.pred (Z.of_nat (S n))) with (Z.of_nat n) by lia.
  rewrite fmap_cons.
  change (published (At (S := NATS) (PublishTo ?s ?p ?q) ?y :: ?l)) with ((s, p) :: published l). by rewrite Hs.
Qed.

Lemma do_pub_spec msgpack fuel subject count t :
  takes (do_pub msgpack fuel subject count) t (Some ()) →
  published t = (fun j => (subject, region_payload msgpack j)) <$> seqZ 0 count ∧
  ∃ secs, printed t = pub_done_line count secs +:+ newline.
Proof.
  unfold do_pub. intros H. into H u t1 t2 H1; [|done].
  apply connect_waits, waits_silent in H1 as (P1 & S1 & _).
  apply takes_call in H as (t0 & t3 & -> & H). into H u1 t4 t5 H4; [|done].
  apply publish_all_spec in H4 as (_ & P4 & S4).
  apply takes_call in H as (t6 & t7 & -> & H). apply takes_call in H as (u2 & t8 & -> & H).
  apply takes_do in H as (u3 & -> & _). split.
  - rewrite driver_published_app, S1. change (published (At (S := NATS) ClockNow t0 :: ?l)) with (published l).
    rewrite driver_published_app, S4. simpl. rewrite app_nil_r. f_equal.
    destruct (Z.le_gt_cases 0 count); [by rewrite Z2Nat.id|].
    by rewrite !seqZ_nil by lia.
  - exists (seconds t0 t6). rewrite printed_app, P1. simpl. rewrite printed_app, P4. simpl.
    by rewrite append_nil_r.
Qed.

(** ** The broadcast *)

Lemma on_acks_app has_error c ds1 ds2 : on_acks has_error c (ds1 ++ ds2) = on_acks has_error (on_acks has_error c ds1) ds2.
Proof. apply foldl_app. Qed.

Lemma wait_acks_spec has_error fuel expected deadline c t r :
  takes (wait_acks has_error fuel expected deadline c) t r →
  waits t ∧ match r with Some c' => c' = on_acks has_error c (delivered t) | None => True end.
Proof.
  revert c t. induction fuel as [|fuel IH]; intros c t H; [by destruct H as [-> ->]|].
  cbn [wait_acks] in H. destruct (negb _); [by destruct H as [-> ->]|].
  apply takes_call in H as (now & t1 & -> & H). destruct (negb _).
  { destruct H as [-> ->]. split; [by constructor|done]. }
  apply takes_call in H as (ds & t2 & -> & H). apply IH in H as [Hw Hc].
  split; [by repeat constructor|]. destruct r as [c'|]; [|done]. subst c'.
  rewrite <-on_acks_app. done.
Qed.

(** A reply that reports no error. *)
Definition positive (has_error : string → option bool) (d : delivery) : bool :=
  match has_error (payload d) with Some false => true | _ => false end.

Lemma on_acks_counts has_error c ds :
  on_acks has_error c ds =
    (c.1 + Z.of_nat (length (filter (fun d => positive has_error d = true) ds)),
     c.2 + Z.of_nat (length (filter (fun d => positive has_error d = false) ds))).
Proof.
  revert c. induction ds as [|d ds IH]; intros c; [simpl; rewrite !Z.add_0_r; by destruct c|].
  unfold on_acks in *. cbn [foldl]. rewrite IH, !filter_cons. unfold on_ack, positive.
  destruct (has_error (payload d)) as [[]|]; simpl; f_equal; lia.
Qed.

Definition bcast_texts (id acks errors expected : Z) (ms : float) : string :=
  ("CTRL_BCAST_ID " +:+ py_str id) +:+ newline +:+
  ("CTRL_BCAST_ACKS " +:+ py_str acks +:+ " errors=" +:+ py_str errors +:+ " expected="
   +:+ py_str expected +:+ " latency_ms=" +:+ g_float ms) +:+ newline.

Lemma do_ctrl_bcast_spec dump has_error fuel subject expr expected timeout_ms t :
  takes (do_ctrl_bcast dump has_error fuel subject expr expected timeout_ms) t (Some ()) →
  last (made t) = Some StopIoc ∧
  (printed t = EmptyString ∨
   ∃ id ms, At (S := NATS) RandomU64 id ∈ t ∧
     printed t = bcast_texts id (Z.of_nat (length (filter (fun d => positive has_error d = true) (arrivals t))))
                   (Z.of_nat (length (filter (fun d => positive has_error d = false) (arrivals t)))) expected ms ∧
     ∃ t0 t1, ms = fquot (of_int (t1 - t0)) (of_int 1000000)).
Proof.
  unfold do_ctrl_bcast. intros H. into H u t1 t2 H1; [|done].
  apply connect_waits in H1 as Hw1. destruct (waits_silent _ Hw1) as (P1 & _ & A1).
  apply takes_call in H as (id & t3 & -> & H). apply takes_call in H as (inbox & t4 & -> & H).
  apply takes_call in H as ([ds0 status] & t5 & -> & H). cbn [snd fst] in H.
  rewrite made_app, last_app, printed_app, P1, A1. unfold made. rewrite !fmap_cons, !last_cons.
  destruct status as [error|].
  { apply takes_call in H as (u1 & t6 & -> & H). apply takes_do in H as (u2 & -> & _). auto. }
  apply takes_call in H as (t0 & t6 & -> & H). apply takes_call in H as ([ds1 status] & t7 & -> & H).
  cbn [snd fst] in H. destruct status as [error|].
  { apply takes_call in H as (u1 & t8 & -> & H). apply takes_do in H as (u2 & -> & _). auto. }
  into H c t8 t9 H2; [|done]. apply wait_acks_spec in H2 as [Hw8 ->].
  destruct (waits_silent _ Hw8) as (P8 & _ & _).
  apply takes_call in H as (t10 & t11 & -> & H). into H u1 t12 t13 H3; [|done].
  apply takes_call in H3 as (u2 & t14 & -> & H3). apply takes_do in H3 as (u3 & -> & _).
  apply takes_do in H as (u4 & -> & _). split.
  { rewrite !fmap_cons, !last_cons, !fmap_app, last_app. done. }
  right. exists id, (fquot (of_int (t10 - t0)) (of_int 1000000)). split; [set_solver|]. split; [|by eexists _, _].
  simpl. rewrite printed_app, P8. simpl. rewrite append_nil_r.
  match goal with |- context [filter _ (delivered ?l)] => assert (delivered l = ds0 ++ ds1 ++ delivered t8) as -> end.
  { unfold delivered. simpl. rewrite fmap_app, concat_app. simpl. by rewrite app_nil_r. }
  pose proof (on_acks_counts has_error (0, 0) (ds0 ++ ds1 ++ delivered t8)) as E.
  rewrite !on_acks_app, !Z.add_0_l in E. rewrite E. cbn [fst snd]. unfold bcast_texts.
  by rewrite (append_assoc _ newline).
Qed.
