(* ===== verification/Pipeline.v ===== *)
(** * From the scripts to the C++ programs and back

    The scripts start mq_bench_driver with an argument list and read its
    standard output; they reach the extension through SQL statements and see
    its errors as psycopg exceptions.  Here the two ends meet. *)
From S2P Require Import Prelude PyFloat PyStr PyM Effects Report Harness Scaling OpenRetry.
From S2P Require Import Backend PublishRow Consume Subscriber Statements Ostream Driver.

(** ** The driver's output, read by the scripts *)

Section driver.
Context (msgpack : list (string * dyn) → string).
Context (as_int64 : string → string → option Z) (as_string : string → string → option string).
Context (dump : list (string * request_value) → string) (has_error : string → option bool).

Abbreviation run := (Driver.main msgpack as_int64 as_string dump has_error).

Lemma verdict_counts good t secs rate :
  (let '(tot, wr) := tot_wrong (last_line (sub_done_line (Z.of_nat (length (arrivals t)))
     (Z.of_nat (length (filter (fun d => good (payload d) = false) (arrivals t)))) (g_float secs) (g_float rate)
     +:+ newline)) in verdict tot wr = true) ↔
  Z.of_nat (length (arrivals t)) = EXPECTED ∧ Forall (fun d => good (payload d) = true) (arrivals t).
Proof using.
  destruct (g_float_blank_free secs) as [Hs _], (g_float_blank_free rate) as [Hr _].
  pose proof (last_line_sub_done EmptyString (Z.of_nat (length (arrivals t)))
    (Z.of_nat (length (filter (fun d => good (payload d) = false) (arrivals t)))) (g_float secs) (g_float rate)
    ltac:(lia) ltac:(lia) Hs Hr (or_introl eq_refl)) as H. rewrite append_nil_l in H. rewrite H. clear H.
  rewrite tot_wrong_sub_done by (done || lia). unfold verdict. rewrite andb_true_iff, !bool_decide_eq_true. split.
  - intros [H1 H2]. change "0" with (py_str 0) in H2. apply (inj Some), py_str_inj in H1, H2. split; [done|].
    apply Forall_forall. intros d Hd. destruct (good (payload d)) eqn:E; [done|exfalso].
    assert (d ∈ filter (fun d => good (payload d) = false) (arrivals t)) as Hin by by apply list_elem_of_filter.
    destruct (filter _ _); [by apply not_elem_of_nil in Hin|]. simpl in H2. lia.
  - intros [-> Hall]. split; [done|]. change "0" with (py_str 0). do 2 f_equal.
    destruct (filter _ _) as [|d l] eqn:E; [done|exfalso].
    assert (d ∈ filter (fun d => good (payload d) = false) (arrivals t)) as Hin by (rewrite E; left).
    apply list_elem_of_filter in Hin as [Hd Hin]. rewrite Forall_forall in Hall. specialize (Hall d Hin). congruence.
Qed.

(** [main] past the command line. *)
Lemma takes_then {m : driver unit} {t rc} : takes (cbind m (fun _ => Pure 0)) t (Some rc) → rc = 0 ∧ takes m t (Some ()).
Proof using.
  intros [([] & t1 & t2 & -> & H & [-> [= ->]])|[_ H]]%takes_bind; [|done]. by rewrite app_nil_r.
Qed.

(** Of [n] consecutive numbers from 0, every eighth leaves no remainder. *)
Lemma every_eighth n :
  0 ≤ n → Z.of_nat (length (filter (fun j => j `mod` 8 + 1 = 1) (seqZ 0 n))) = (n + 7) / 8.
Proof using.
  intros Hn. revert n Hn. apply natlike_ind; [by vm_compute|]. intros n Hn IH.
  unfold Z.succ. rewrite seqZ_app, filter_app, length_app, Nat2Z.inj_add, IH by lia. 
  replace (seqZ (0 + n) 1) with [n] by (by rewrite Z.add_0_l, seqZ_cons, seqZ_nil). rewrite filter_cons. cbn [filter].
  pose proof (Z.div_mod n 8 ltac:(lia)) as E. pose proof (Z.mod_pos_bound n 8 ltac:(lia)) as Hb.
  destruct (decide (n `mod` 8 + 1 = 1)) as [E1|E1]; simpl length.
  - replace (n + 1 + 7) with (n / 8 * 8 + 8) by lia. replace (n + 7) with (n / 8 * 8 + 7) by lia.
    rewrite !Z.div_add_l by lia. change (7 / 8) with 0. change (8 / 8) with 1. lia.
  - rewrite <-(Z.div_unique (n + 7) 8 (n / 8 + 1) (n `mod` 8 - 1)) by lia.
    rewrite <-(Z.div_unique (n + 1 + 7) 8 (n / 8 + 1) (n `mod` 8)) by lia. simpl. lia.
Qed.

(** ** Properties *)

(** C12. The verdict of a script on the subscriber it started. Whatever argument
    list the script's call gives to mq_bench_driver, if the driver ran on it
    and printed anything, it exited with 0, and the script's check of the last
    line it printed succeeds exactly when the number of messages that had
    arrived by then was the expected one and every one of them held the
    expected value in the field of the filter. *)
Theorem driver_verdict_exact home topic ms argv reply o fuel t rc :
  exec (start_subfield home topic ms) [Ev (Popen argv None) reply] o →
  takes (run fuel (tail argv)) t (Some rc) →
  printed t ≠ EmptyString →
  rc = 0 ∧
  ((let '(tot, wr) := tot_wrong (last_line (printed t)) in verdict tot wr = true) ↔
   Z.of_nat (length (arrivals t)) = EXPECTED ∧
   Forall (fun d => as_string (payload d) FILTER_FIELD = Some FILTER_VALUE) (arrivals t)).
Proof using.
  intros (reply' & t' & E & _) H Hp. 
  pose proof (f_equal (fun l : trace => match l with Ev (Popen a _) _ :: _ => a | _ => [] end) E) as Ea.
  simpl in Ea. subst argv. clear E. cbn [tail] in H.
  apply takes_then in H as [-> H]. split; [done|].
  destruct (count_matches_spec _ _ _ _ _ _ H) as [[Hn _]|(secs & rate & _ & E)]; [done|].
  pose proof (verdict_counts (fun p => bool_decide (as_string p FILTER_FIELD = Some FILTER_VALUE)) t secs rate) as V.
  cbv beta in V. rewrite <-E in V. etransitivity; [exact V|]. apply and_iff_compat_l, Forall_proper; [|done].
  intros d. by rewrite bool_decide_eq_true.
Qed.

(** C23. The publisher that a scaling script runs. It publishes as many
    messages as it is told to, on the subject it is told, the [j]th of them with
    the region [j mod 8 + 1]. One in eight, rounded up, has the region that the
    subscriptions ask for: of the script's MSG_COUNT messages that is exactly
    the number the subscriber is told to expect. *)
Theorem publisher_meets_expectation home subject count fuel t :
  0 ≤ count →
  takes (run fuel (tail [DRIVER home; "pub"; subject; py_str count])) t (Some 0) →
  published t = (fun j => (subject, msgpack [("region", DynInt (j `mod` 8 + 1))])) <$> seqZ 0 count ∧
  Z.of_nat (length (filter (fun j => j `mod` 8 + 1 = 1) (seqZ 0 count))) = (count + 7) / 8 ∧
  (Cpp.MSG_COUNT + 7) / 8 = Cpp.EXPECTED.
Proof using.
  intros Hc H. cbn [tail] in H. apply takes_then in H as [_ H].
  apply do_pub_spec in H as [-> _]. rewrite c_atol_py_str by done. split; [|split; [by apply every_eighth|done]].
  apply list_fmap_ext. intros i j Hj. apply lookup_seqZ in Hj as [-> Hj]. unfold region_payload.
  rewrite Z.rem_mod_nonneg by lia. done.
Qed.

(** C22. A broadcast, from the script's call to the result it works with. If
    mq_bench_driver ran on the script's argument list and printed its report,
    run_ctrl_bcast returns the subscription id that the driver drew, the output
    topic made from it, as acks the number of replies that arrived and were
    JSON without an error, as errors the number of all other replies, and a
    latency. *)
Theorem bcast_end_to_end home n fuel t err tr0 tr1 :
  0 ≤ n →
  takes (run fuel (tail (Bcast.broadcast_argv home n))) t (Some 0) →
  printed t ≠ EmptyString →
  (∀ id, At (S := NATS) RandomU64 id ∈ t → 0 ≤ id) →
  ∃ id latency,
    At (S := NATS) RandomU64 id ∈ t ∧
    exec (Bcast.run_ctrl_bcast home n)
      [Ev WallTime tr0;
       Ev (RunProc (Bcast.broadcast_argv home n) 15) (Ok (Completed 0 (printed t) err));
       Ev WallTime tr1]
      (Some (Ok (Some (Bcast.CtrlResult id (OUTPUT_PREFIX +:+ "." +:+ py_str id)
         (Some (Z.of_nat (length (filter (fun d => positive has_error d = true) (arrivals t)))))
         (Some (Z.of_nat (length (filter (fun d => positive has_error d = false) (arrivals t)))))
         (Some latency) (fsub tr1 tr0))))).
Proof using.
  intros Hn H Hp Hid. cbn [tail] in H. apply takes_then in H as [_ H].
  apply do_ctrl_bcast_spec in H as [_ [E|(id & ms & Hin & E & _)]]; [done|].
  destruct (g_float_blank_free ms) as [Hb [y Hy]]. exists id, y. split; [done|]. rewrite c_atol_py_str in E by done.
  eexists tr0, _. split; [done|]. eexists _, _. split; [done|]. eexists tr1, _. split; [done|].
  cbn [proc_stdout]. rewrite E. unfold bcast_texts.
  change (("CTRL_BCAST_ID " +:+ py_str id) +:+ newline +:+ ?s +:+ newline) with
    (bcast_id_line id +:+ newline +:+ s +:+ newline).
  change ("CTRL_BCAST_ACKS " +:+ py_str ?a +:+ " errors=" +:+ py_str ?e +:+ " expected=" +:+ py_str ?x
    +:+ " latency_ms=" +:+ g_float ?l) with (bcast_acks_line a e x (g_float l)).
  change (bcast_id_line id +:+ newline +:+ bcast_acks_line ?a ?e ?x ?l +:+ newline) with (bcast_output id a e x l).
  rewrite (bcast_lines_output _ _ _ _ _ y); [done|by apply Hid|lia|lia|done|done|done].
Qed.
End driver.

(** ** The extension's errors, seen by the scripts *)

(** psycopg's exception: the class goes by the SQLSTATE, XX000 is
    [InternalError_] and 08000 another one; the text is the primary message
    with the detail after it. *)
Definition raised (e : pg_error) : exn :=
  let text := errmsg e +:+ match errdetail e with Some d => newline +:+ "DETAIL:  " +:+ d | None => EmptyString end in
  match errcode e with
  | INTERNAL_ERROR => InternalError text
  | CONNECTION_EXCEPTION => DbError text
  end.

(** A queue that could not be opened. *)
Definition refused_open (e : answered PG) : bool :=
  match e with At (OpenQueueSync _ _ _) (inr _) => true | _ => false end.

(** When a queue could not be opened, an exception is thrown and nothing else
    follows. *)
Definition throws_refusal {A} (m : cxx A) : Prop :=
  ∀ st h, leads m st h (fun _ o h' => ∃ t, h' = h ++ t ∧ (existsb refused_open t = true → ∃ w, o = Throws w)).

Lemma throws_refusal_pure {A} (f : backend → backend * outcome A) : throws_refusal (fun st => Pure (f st)).
Proof.
  intros st h. unfold leads. simpl. destruct (f st) as [st' o]. exists []. by rewrite app_nil_r.
Qed.

Lemma throws_refusal_no_fuel {A} : throws_refusal (A := A) out_of_fuel.
Proof. by intros st h. Qed.

Lemma throws_refusal_does c : opening c = false → throws_refusal (does c).
Proof. intros Hc st h. apply leads_does. intros x. exists [At (S := PG) c x]. split; [done|]. by destruct c. Qed.

Lemma throws_refusal_andthen {A B} (m : cxx A) (f : A → cxx B) :
  throws_refusal m → (∀ a, throws_refusal (f a)) → throws_refusal (andthen m f).
Proof.
  intros Hm Hf st h. apply leads_andthen, (leads_mono _ _ _ _ _ (Hm st h)).
  intros st1 [a|w|e] h1 (t1 & -> & H1).
  - apply (leads_mono _ _ _ _ _ (Hf a st1 _)). intros st2 o h2 (t2 & -> & H2). exists (t1 ++ t2).
    rewrite app_assoc, existsb_app. split; [done|]. intros [H|H]%orb_true_iff; [|auto].
    by destruct (H1 H) as [w ?].
  - exists t1. split; [done|]. intros _. by exists w.
  - exists t1. split; [done|]. intros H. by destruct (H1 H) as [w ?].
Qed.

Create HintDb refusal discriminated.
#[export] Hint Resolve throws_refusal_no_fuel : refusal.
#[export] Hint Extern 1 (throws_refusal (does _)) => apply throws_refusal_does; reflexivity : refusal.
#[export] Hint Extern 1 (throws_refusal (warn _)) => apply throws_refusal_does; reflexivity : refusal.
#[export] Hint Extern 1 (throws_refusal (gets _)) => apply throws_refusal_pure : refusal.
#[export] Hint Extern 1 (throws_refusal (modifies _)) => apply throws_refusal_pure : refusal.
#[export] Hint Extern 1 (throws_refusal (returns _)) => apply throws_refusal_pure : refusal.
#[export] Hint Extern 1 (throws_refusal (throws _)) => apply throws_refusal_pure : refusal.
#[export] Hint Extern 1 (throws_refusal (errors _)) => apply throws_refusal_pure : refusal.
#[export] Hint Extern 1 (throws_refusal (ereport_error _)) => apply throws_refusal_pure : refusal.
#[export] Hint Extern 2 (throws_refusal (andthen _ _)) => apply throws_refusal_andthen; [|intros ?] : refusal.
#[export] Hint Extern 3 (throws_refusal (if ?b then _ else _)) => destruct b : refusal.
#[export] Hint Extern 3 (throws_refusal (match ?x with _ => _ end)) => destruct x : refusal.

(** Calls of which the opening of a queue is not one. *)
Lemma throws_refusal_does_opening c :
  match c with OpenQueueSync _ _ _ => False | _ => True end → throws_refusal (does c).
Proof. intros Hc st h. apply leads_does. intros x. exists [At (S := PG) c x]. split; [done|]. by destruct c. Qed.

#[export] Hint Extern 2 (throws_refusal (does _)) => apply throws_refusal_does_opening; exact I : refusal.

Lemma throws_refusal_get_session : throws_refusal get_session.
Proof. unfold get_session. auto 20 with refusal. Qed.

Lemma throws_refusal_get_queue uri expr : throws_refusal (get_queue uri expr).
Proof.
  assert (throws_refusal (build_queue_options expr)) as Hb by (unfold build_queue_options; auto 10 with refusal).
  unfold get_queue. do 2 (apply throws_refusal_andthen; [apply throws_refusal_pure|intros ?]).
  destruct (_ !! uri) as [e|]; [unfold reuse_queue, cache_queue; auto 20 with refusal|].
  unfold open_queue. apply throws_refusal_andthen; [done|]. intros options st h.
  lead_call x. destruct x as [num|text].
  - unfold cache_queue. lead. lead. eexists. split; [reflexivity|]. done.
  - lead. eexists. split; [reflexivity|]. intros _. by eexists.
Qed.

#[export] Hint Resolve throws_refusal_get_session throws_refusal_get_queue : refusal.

Lemma throws_refusal_pack_columns requested cols props fields :
  throws_refusal (pack_columns requested cols props fields).
Proof.
  revert props fields. induction cols as [|c cols IH]; intros props fields; cbn [pack_columns];
    unfold set_message_property; auto 20 with refusal.
Qed.

Lemma throws_refusal_consume_rows fuel uri expr n ms b : throws_refusal (consume_rows fuel uri expr n ms b).
Proof.
  assert (∀ uri ms, throws_refusal (flush uri ms)) as Hflush by (intros; unfold flush; auto 20 with refusal).
  assert (∀ l r, throws_refusal (receive_event uri b n l r)) as Hev.
  { induction l as [|m l IH]; intros r; cbn [receive_event]; [auto with refusal|].
    unfold receive_message, batch_message, confirm_message. auto 20 with refusal. }
  assert (∀ k d r, throws_refusal (receive_loop k uri b n d r)) as Hloop.
  { induction k as [|k IH]; intros d r; cbn [receive_loop]; [auto with refusal|]. auto 20 with refusal. }
  unfold consume_rows. auto 20 with refusal.
Qed.

(** What the scripts execute under the wrapper. *)
Definition attempt (msgpack : list (string * dyn) → string) (s : statement) : option (cxx unit) :=
  match s with
  | Publish uri row attrs => Some (bmq_publish_row msgpack uri row attrs)
  | Consume fuel mat uri expr n ms b => Some (andthen (bmq_consume fuel mat uri expr n ms b) (fun _ => returns ()))
  | _ => None
  end.

(** The function-try-block around both. *)
Lemma leads_refused {A} (m : cxx A) handler st h :
  throws_refusal m →
  (∀ w st h, leads (handler w) st h (fun _ o h' => ∃ t, h' = h ++ t ∧ ∃ e, o = Errors e ∧ errcode e = CONNECTION_EXCEPTION)) →
  leads (catches m handler) st h (fun _ o h' => ∃ t, h' = h ++ t ∧
    (existsb refused_open t = true → ∃ e, o = Errors e ∧ errcode e = CONNECTION_EXCEPTION)).
Proof.
  intros Hm Hh. apply leads_catches, (leads_mono _ _ _ _ _ (Hm st h)).
  intros st1 [a|w|e] h1 (t1 & -> & H1).
  - exists t1. split; [done|]. intros H. by destruct (H1 H).
  - apply (leads_mono _ _ _ _ _ (Hh w st1 _)). intros st2 o h2 (t2 & -> & Ho). exists (t1 ++ t2).
    by rewrite app_assoc.
  - exists t1. split; [done|]. intros H. by destruct (H1 H).
Qed.

Lemma leads_attempt msgpack s m st h :
  attempt msgpack s = Some m →
  leads m st h (fun _ o h' => ∃ t, h' = h ++ t ∧
    (existsb refused_open t = true → ∃ e, o = Errors e ∧ errcode e = CONNECTION_EXCEPTION)).
Proof.
  destruct s as [uri row attrs|fuel mat uri expr n ms b| |]; intros [= <-].
  - unfold bmq_publish_row. destruct uri as [u|], row as [cols|];
      try (lead; exists []; by rewrite app_nil_r).
    lead_call u0. apply leads_andthen.
    match goal with |- leads (catches ?m ?f) _ _ _ => pose proof (leads_refused m f st (h ++ [At (S := PG) LookupTupdesc u0])) as Hr end.
    apply (leads_mono _ _ _ _ _ (Hr ltac:(apply throws_refusal_andthen; [apply throws_refusal_pack_columns|intros ?; unfold post_row; auto 20 with refusal])
      ltac:(intros w st1 h1; cbv beta; lead_call u1; lead; eexists; split; [reflexivity|by eexists]))).
    intros st1 [a|w|e] h1 (t1 & -> & H1).
    + lead_call u1. lead. eexists. rewrite <-!app_assoc. split; [reflexivity|]. simpl.
      rewrite existsb_app. simpl. rewrite orb_false_r. intros H. by destruct (H1 H) as (e & ? & _).
    + eexists. rewrite <-app_assoc. split; [reflexivity|]. simpl. intros H. by destruct (H1 H) as (e & ? & _).
    + eexists. rewrite <-app_assoc. split; [reflexivity|]. exact H1.
  - apply leads_andthen. unfold bmq_consume.
    destruct uri as [u|]; [|lead; exists []; by rewrite app_nil_r].
    destruct (_ <? 1); [lead; exists []; by rewrite app_nil_r|].
    destruct (_ <? 0); [lead; exists []; by rewrite app_nil_r|].
    destruct (negb mat); [lead; exists []; by rewrite app_nil_r|].
    match goal with |- leads (catches ?m ?f) _ _ _ => pose proof (leads_refused m f st h) as Hr end.
    apply (leads_mono _ _ _ _ _ (Hr (throws_refusal_consume_rows _ _ _ _ _ _)
      ltac:(intros w st1 h1; cbv beta; lead; exists []; rewrite app_nil_r; eauto))).
    intros st1 [a|w|e] h1 (t1 & -> & H1); [lead|..]; exists t1; (split; [done|]);
      intros H; destruct (H1 H) as (e' & ? & ?); simplify_eq. eauto.
Qed.

(** C13. A queue that cannot be opened is not retried. If the broker's library
    refuses to open the queue of a bmq_publish_row or bmq_consume statement,
    with whatever status (ALREADY_OPENED, whose number is 100, included), the
    statement fails with SQLSTATE 08000; and execute_with_open_retry, when that
    is what its first attempt meets, raises the error at once, without a pause
    and without a second attempt. *)
Theorem open_failure_raised_at_once msgpack s m st t st' o :
  attempt msgpack s = Some m →
  takes (m st) t (Some (st', o)) →
  existsb refused_open t = true →
  ∃ e, o = Errors e ∧ errcode e = CONNECTION_EXCEPTION ∧
    ∀ sql params n t' r, 0 < n →
      exec (execute_with_open_retry sql params n) (Ev (Execute sql params) (Err (raised e)) :: t') r →
      t' = [] ∧ r = Some (Err (raised e)).
Proof.
  intros Hs H Ho.
  assert (∃ e, o = Errors e ∧ errcode e = CONNECTION_EXCEPTION) as (e & -> & He).
  { destruct (leads_takes _ _ _ _ _ _ _ (leads_attempt msgpack s m st [] Hs) H) as (t' & E & Hr).
    simpl in E. subst t'. by apply Hr. }
  exists e. do 2 (split; [done|]). intros sql params n t' r Hn Hx. unfold execute_with_open_retry in Hx.
  destruct (Z.to_nat n) as [|todo] eqn:En; [lia|]. cbn [open_retry_loop] in Hx.
  destruct Hx as (x & t2 & E & Hx).
  pose proof (f_equal tail E) as Et.
  pose proof (f_equal (fun l : trace => match l with Ev (Execute _ _) y :: _ => y | _ => Ok () end) E) as Ex.
  simpl in Et, Ex. subst t2 x. simpl in Hx.
  assert (is_rc100 (raised e) = false) as Hrc by (unfold raised; by rewrite He).
  rewrite Hrc in Hx. by destruct Hx.
Qed.

(** ** The properties at work *)

Module PipelineExample.
Definition writer (fields : list (string * dyn)) : string := join "," fields.*1.
Definition no_int (p field : string) : option Z := None.
Definition whole (p field : string) : option string := Some p.
Definition request (fields : list (string * request_value)) : string := join "," fields.*1.
Definition error_of (reply : string) : option bool := Some (bool_decide (reply = "error")).

Abbreviation run := (Driver.main writer no_int whole request error_of).

Definition slept (h : dlog) : nat :=
  length (filter (fun e : answered NATS => match at_call e with SleepMs _ => true | _ => false end = true) h).

(** Everything succeeds, the clock advances by a millisecond with every call
    and [ds] is what arrives during the sleeps. *)
Definition world (ds : list (list delivery)) (h : dlog) (c : driver_call) : driver_answer c :=
  match c as c return driver_answer c with
  | Connected => true
  | SleepMs _ => default [] (ds !! slept h)
  | SubscribeTo _ | PublishTo _ _ _ => ([], None)
  | RequestReply _ _ _ => inl "ok"
  | GenerateInbox => "_INBOX.1"
  | RandomU64 => 42
  | ClockNow => 1000000 * Z.of_nat (length h)
  | _ => ()
  end.

Definition trades : list (list delivery) := [[Delivery "N" 7000000]; []; [Delivery "P" 9000000]].

Definition watched := play (S := NATS) (world trades)
  (run 30 ["subfield"; "out.>"; py_str EXPECTED; "20"; FILTER_FIELD; FILTER_VALUE]) [].

Example watched_prints : printed watched.1 =
  "SUB_DONE total=2 wrong=1 secs=0.02 rate=100" +:+ newline ∧ watched.2 = Some 0.
Proof. by vm_compute. Qed.

Definition log : dlog := Eval vm_compute in watched.1.

Definition acked := play (S := NATS) (world [[Delivery "ack" 0; Delivery "error" 0]; [Delivery "ack" 0]])
  (run 30 (tail (Bcast.broadcast_argv "/home/u" 3))) [].

Definition acked_log : dlog := Eval vm_compute in acked.1.

Example acked_prints : printed acked.1 =
  "CTRL_BCAST_ID 42" +:+ newline +:+ "CTRL_BCAST_ACKS 2 errors=1 expected=3 latency_ms=6" +:+ newline.
Proof. by vm_compute. Qed.

Definition published_some := play (S := NATS) (world []) (run 30 ["pub"; "in"; "9"]) [].

Definition published_log : dlog := Eval vm_compute in published_some.1.

Example published_prints : snd <$> published published_some.1 = replicate 9 "region" ∧
  printed published_some.1 = "PUB_DONE count=9 secs=0.01 rate=900" +:+ newline.
Proof. by vm_compute. Qed.

(** The broker's library refuses the queue. *)
Definition refusing (h : pglog) (c : pg_call) : pg_answer c :=
  match c as c return pg_answer c with
  | OpenQueueSync _ _ _ => inr "ALREADY_OPENED (rc=100)"
  | c => easy_world [] 1 h c
  end.

Definition refused := in_world refusing
  (bmq_publish_row writer (Some "bmq://q") (Some [Column "region" false INT4OID (Some 1)]) None)
  (fresh default_broker_uri).

Definition refused_log : pglog := refused.1.

Definition refused_error : pg_error := PgError CONNECTION_EXCEPTION "bmq_publish_row failed"
  (Some "failed to open BlazingMQ queue 'bmq://q': ALREADY_OPENED (rc=100)").

Definition after_refusal : backend := Backend default_broker_uri true (Some ∅) true.
End PipelineExample.

Lemma driver_verdict_exact_witness : printed PipelineExample.log ≠ EmptyString.
Proof.
  assert (printed PipelineExample.log ≠ EmptyString) as Hp by (vm_compute; done).
  destruct (driver_verdict_exact PipelineExample.writer PipelineExample.no_int PipelineExample.whole
    PipelineExample.request PipelineExample.error_of "/home/u" "out.>" "20"
    [DRIVER "/home/u"; "subfield"; "out.>"; py_str EXPECTED; "20"; FILTER_FIELD; FILTER_VALUE]
    (Ok 7) (Some (Ok 7)) 30 PipelineExample.log 0) as [_ _].
  - by eexists (Ok 7), [].
  - apply (takes_play (PipelineExample.world PipelineExample.trades)). vm_compute. reflexivity.
  - exact Hp.
  - exact Hp.
Defined.

Lemma publisher_meets_expectation_witness :
  published PipelineExample.published_log =
    (fun j => ("in", PipelineExample.writer [("region", DynInt (j `mod` 8 + 1))])) <$> seqZ 0 9.
Proof.
  refine (proj1 (publisher_meets_expectation PipelineExample.writer PipelineExample.no_int PipelineExample.whole
    PipelineExample.request PipelineExample.error_of "/home/u" "in" 9 30 PipelineExample.published_log ltac:(lia) _)).
  apply (takes_play (PipelineExample.world [])). vm_compute. reflexivity.
Defined.

Lemma bcast_end_to_end_witness : ∃ id latency,
  At (S := NATS) RandomU64 id ∈ PipelineExample.acked_log ∧
  exec (Bcast.run_ctrl_bcast "/home/u" 3)
    [Ev WallTime (of_int 10);
     Ev (RunProc (Bcast.broadcast_argv "/home/u" 3) 15) (Ok (Completed 0 (printed PipelineExample.acked_log) EmptyString));
     Ev WallTime (of_int 11)]
    (Some (Ok (Some (Bcast.CtrlResult id (OUTPUT_PREFIX +:+ "." +:+ py_str id) (Some 2) (Some 1)
       (Some latency) (fsub (of_int 11) (of_int 10)))))).
Proof.
  refine (bcast_end_to_end PipelineExample.writer PipelineExample.no_int PipelineExample.whole
    PipelineExample.request PipelineExample.error_of "/home/u" 3 30 PipelineExample.acked_log EmptyString
    (of_int 10) (of_int 11) ltac:(lia) _ _ _).
  - apply (takes_play (PipelineExample.world [[Delivery "ack" 0; Delivery "error" 0]; [Delivery "ack" 0]])).
    vm_compute. reflexivity.
  - vm_compute. done.
  - intros id Hid. apply list_elem_of_In in Hid. vm_compute in Hid.
    repeat destruct Hid as [Hid|Hid]; try done.
    apply (f_equal (fun e : answered NATS => match e with At RandomU64 z => z | _ => 0 end)) in Hid. by subst id.
Defined.

Lemma open_failure_raised_at_once_witness :
  ∃ e, Errors (A := unit) PipelineExample.refused_error = Errors e ∧ errcode e = CONNECTION_EXCEPTION.
Proof.
  destruct (open_failure_raised_at_once PipelineExample.writer
    (Publish (Some "bmq://q") (Some [Column "region" false INT4OID (Some 1)]) None) _ (fresh default_broker_uri)
    PipelineExample.refused_log PipelineExample.after_refusal (Errors PipelineExample.refused_error) eq_refl)
    as (e & H1 & H2 & _).
  - apply (takes_play PipelineExample.refusing). vm_compute. reflexivity.
  - vm_compute. reflexivity.
  - by exists e.
Defined.
